(* ===== verification/_CoqProject ===== *)
-Q . S2P
Prelude.v
RtList.v
RtSlist.v
Queue.v
ListRefine.v
Ring.v
RingBuffer.v
RingBlk.v
RingBlkProps.v
Ffs.v
Object.v
SmallMem.v
SmallMemProps.v
KString.v
KStdio.v
KStdioProps.v
KStdioFmt.v
DfsPath.v
DfsPathProps.v
Dfs.v
DfsFs.v
DfsFile.v
DfsPosix.v
DfsRom.v
DfsInv.v
DfsLaws.v
DfsFdProps.v
DfsFsProps.v
DfsFileProps.v
DfsCalls.v
DfsProps.v
DfsRomProps.v
DfsDemo.v
UsbCore.v
UsbFrame.v
UsbCtl.v
UsbProps.v
UsbConfig.v
UsbMsc.v
UsbMscProps.v
UsbMscHost.v
Sched.v
SchedFacts.v
SchedProps.v
TimerCore.v
TimerFacts.v
Kernel.v
KernelFacts.v
Sem.v
Timer.v
TimerProps.v
KInv.v
IpcInv.v
WaitFacts.v
SemTake.v
MutexOps.v
MutexInv.v
MutexInherit.v
EventOps.v
MailboxOps.v
MbFacts.v
MqOps.v
MqFacts.v
ThreadOps.v
ThreadInv.v
CallInv.v
BoxFrame.v
BoxInv.v
Demo.v
SemProps.v
EventProps.v
MutexProps.v
MbProps.v
MqProps.v
System.v
BoxSystem.v
