(* ===== verification/Prelude.v ===== *)
(** * The kernel of an RT-Thread board

    This library models and verifies the core of the firmware under [src/]: the
    RT-Thread 5.1 kernel of an STM32F407 board ([src/rt-thread/src]) in the
    configuration of [src/rtconfig.h] - one processor, 32 priorities, 1000 ticks a
    second, soft timers, the small memory allocator as the heap - together with
    the data structures the drivers share ([ringbuffer.c], [ringblk_buf.c]), the
    string and format routines ([kstring.c], [kstdio.c]), the virtual file system
    ([src/rt-thread/components/dfs/dfs_v1]) with the file system in memory, and the
    USB device stack of the board ([src/packages/CherryUSB-v1.4.0]: the device
    core and the mass storage class).

    ** Parts and files

    Foundations
    - this file: machine integers, error codes, list lemmas, tactics;
    - [RtList]: the pointer lists [rt_list_t] over a memory of nodes
      ([include/rtservice.h]), [RtSlist]: the singly linked ones; [Queue]: families of node sequences, in which the
      kernel is stated; [ListRefine]: the pointer lists implement the sequences;
    - [Ring]: the contents of an array used as a circular buffer;
    - [Ffs]: [__rt_ffs] of [kservice.c], in its table version (the board uses a
      processor instruction with the same contract);
    - [Object]: containers and names of [object.c].

    Memory
    - [SmallMem], [SmallMemProps]: [mem.c]; [KString]: [klibc/kstring.c];
      [RingBuffer]: [components/drivers/ipc/ringbuffer.c]; [RingBlk],
      [RingBlkProps]: the ring of blocks of [components/drivers/ipc/ringblk_buf.c];
    - [KStdio]: [klibc/kstdio.c]; [KStdioProps]: it stays in its buffer;
      [KStdioFmt]: what a format means.

    Virtual file system, under [components/dfs/dfs_v1]
    - [DfsPath], [DfsPathProps]: the path names of [src/dfs.c];
    - [Dfs]: the state, its monad and the descriptor table ([include/dfs_file.h],
      [include/dfs_fs.h], [src/dfs.c]); [DfsFs]: [src/dfs_fs.c]; [DfsFile]:
      [src/dfs_file.c]; [DfsPosix]: [dfs_mount] and [src/dfs_posix.c];
    - [DfsRom]: the file system in memory, [filesystems/romfs/dfs_romfs.c];
    - [DfsInv]: the invariant of descriptors, files, vnodes and hash; [DfsLaws]:
      rules for the monad and the interface to file systems; [DfsFdProps],
      [DfsFsProps], [DfsFileProps], [DfsCalls]: the layers; [DfsProps]: the calls of
      applications; [DfsRomProps]: the file system in memory keeps the interface,
      and what is read from it; [DfsDemo]: a mounted image for the witnesses, and
      runs that break the promises.

    Scheduler and timers
    - [Sched]: [scheduler_up.c] and the scheduler half of [scheduler_comm.c],
      [SchedFacts] its representation invariant [swf], [SchedProps] its
      properties;
    - [TimerCore], [Timer]: [timer.c] and [clock.c]; [TimerFacts], [TimerProps];
    - [Kernel]: the kernel state [kstate], thread suspension and wake-up
      ([ipc.c], [thread.c], [scheduler_comm.c]); [KernelFacts], [KInv]: the kernel
      invariant [kinv].

    Inter-thread communication, all of [ipc.c]
    - [Sem], [SemTake], [SemProps]; [MutexOps], [MutexInv], [MutexInherit],
      [MutexProps]; [EventOps], [EventProps]; [MailboxOps], [MbFacts], [MbProps];
      [MqOps], [MqFacts], [MqProps]; shared: [IpcInv], [WaitFacts];
    - [ThreadOps], [ThreadInv]: [thread.c] and the defunct list of [idle.c].

    The whole kernel
    - [System]: the kernel as a transition system; [CallInv]: every call keeps
      [kinv]; [BoxFrame], [BoxInv], [BoxSystem]: mailboxes and message queues in
      it; [Demo]: a booted system for the witnesses.

    USB
    - [UsbCore]: [core/usbd_core.c] in the configuration of
      [src/board/ports/CherryUSB/usb_config.h]; [UsbFrame]: what a request may
      change; [UsbCtl]: endpoint 0 as a transition system of setup packets and
      completed transactions; [UsbProps], [UsbConfig]: its properties;
    - [UsbMsc]: [class/msc/usbd_msc.c]; [UsbMscProps]: one command step by step;
      [UsbMscHost]: the conversation with a host, and the storage of
      [src/board/ports/CherryUSB/demo/msc_ram_template.c].

    ** How the model corresponds to the code

    Every function of the C sources is a Rocq function of the same name on the
    state it reads and writes.  A C object is a record with the fields of the
    structure; its address is a number or an element of a type of identifiers
    with a finite map as the memory.  An [rt_list_t] is a node of a queue: lists
    embedded in objects are sequences of the embedding objects, and [ListRefine]
    justifies that view.  Integers are [Z]; a place where the code can wrap is
    written with [u8], [u16], [u32], [i32].  [RT_ASSERT] does nothing, as without
    [RT_USING_DEBUG].  Error numbers are the POSIX ones of
    [extension/sys/errno.h]; no theorem depends on them but for their sign and for
    their being apart.

    Concurrency.  Code between disabling and enabling interrupts is one atomic
    function.  A call that gives up the processor inside ([rt_schedule] in a
    blocking take, send or receive) is split there: the first function ends with
    the thread suspended and the continuation is an [_after] function, and the
    label of a thread says where it will go on.  Sends and receives of a message
    queue copy their message with interrupts enabled and have a segment on each
    side of the copy.  [System.step] interleaves the segments of all threads with
    tick interrupts and other interrupt handlers.  The functions of a mutex hold
    [mutex->spinlock], which on one processor is the scheduler lock: interrupts
    can come in between but no other thread, and no interrupt handler may use a
    mutex, so that a mutex segment is atomic in the model.

    USB.  Memory is a map from addresses to bytes ([bmem]): the descriptors, the
    control buffer, the setup packet, the command and status blocks are read and
    written there.  The port driver is the interface [UsbPort]: its calls are
    recorded in order in the state ([port]), its return values are any function
    of the calls so far.  The functions registered by class drivers and by the
    application are values of the model that act on the memory, on their own
    state and on the port.  Of the controller the model assumes that an armed
    transfer of endpoint 0 completes in packets of at most 64 bytes and that a
    setup packet ends the transfer before it; of the storage of the mass storage
    class, the laws [storage_laws], which [UsbMscHost] proves of the storage in
    RAM.

    Files.  A call of the virtual file system is one step; its two locks are left
    out.  The state monad of [Dfs] is undefined where the code would use freed
    memory or a null pointer or an assertion of [dfs_romfs.c] would fail; addresses
    are never used again, so that no use of freed memory hides.  Whether an
    allocation succeeds is read from the list [mem].  The device framework is the
    class [Devices]; a file system is a record of operations on the attributes of a
    vnode and a file, and the theorems that are about all file systems use only
    the promises [lawful] of [DfsLaws], which [DfsRomProps] proves of the one in
    memory.  The promises leave out what the findings of [DfsDemo] show to go
    wrong: files that are open are not opened again with flags the file system
    refuses, nor paths that go on behind a file.  An image is a tree; the value of
    an uninitialised variable and the addresses of the entries are parameters.

    Text.  The place in a buffer that [rt_vsnprintf] writes to does not wrap
    around the address space.  Blocks of the ring of blocks have a positive size
    that fits the buffer.

    Fuel.  A C loop that a Rocq function cannot follow structurally has an
    explicit fuel, and a lemma or theorem says which fuel is enough: the number
    of pending timers for the expiry loops (a periodic timer of period 0 is the
    one case in which the C loop does not end, [TimerProps]), the length of the
    list for [rt_list_len] and the resume-all loops, the number of mutexes for
    the inheritance chain, the number of blocks of the heap for the allocator's
    searches, the length of the string for the string functions, one more than
    the number of descriptors for the lists of the ring of blocks, more than the
    length of the format (and 8 at least) for the loops of [rt_vsnprintf], one
    more than the length of the buffer for the path names and than the length of
    the path for the lookup in an image.  The walks over
    a table of descriptors take the number of descriptors or more; without fuel
    left they end as at the end of the table.  The data stage of a control
    transfer is over after ten packets, a block command after one transfer for
    each block and the status.

    ** What the theorems show

    - [System], [BoxSystem]: in every reachable state of the transition system
      the invariants of the scheduler, the timers, the mailboxes and the message
      queues hold; every wake-up succeeds; a semaphore with a positive value has
      no waiters.
    - [SchedProps], [Ffs]: the running thread is a ready thread of the highest
      priority whenever the scheduler is unlocked; threads of one priority share
      the processor in turn.
    - [SemProps], [MutexProps], [EventProps], [MbProps], [MqProps]: what each call
      returns and does to object, caller and waiters on every branch, the
      inheritance of priorities along chains of mutexes, mailboxes and message
      queues as bounded queues.
    - [TimerProps]: order and expiry of timers, across the wrap-around of the tick
      counter; timeouts.
    - [SmallMemProps]: the heap is a chain of blocks, allocation is first fit,
      distinct allocations are disjoint, freeing merges neighbours; freeing what
      was allocated restores the heap.
    - [UsbProps], [UsbConfig], [UsbMscHost]: endpoint 0 never leaves its buffer,
      whatever the host sends; control transfers to the host end for both sides
      together with the right data; setting a configuration opens its endpoints;
      the mass storage class reads and writes blocks as a disk.
    - [ListRefine], [RingBuffer], [KString]: refinement of sequences by pointer
      lists, of a bounded byte queue by the mirrored ring buffer, of byte loops
      by word loops.
    - [RingBlkProps]: the blocks of a ring of blocks lie in the buffer and apart,
      over every sequence of calls.
    - [KStdioProps], [KStdioFmt]: [rt_vsnprintf] writes its buffer only, and there
      the text that the format means.
    - [DfsPathProps], [DfsFsProps]: the normal form of a path; the file system of a
      path is the one with the longest mount point.
    - [DfsProps]: every sequence of calls on descriptors is defined and keeps the
      references right; [open] takes the lowest free descriptor.
    - [DfsRomProps]: the lookup in an image ends at the entry of the path; what is
      read from a file is what the image holds.

    ** Not modelled

    The multiprocessor scheduler, signals, [lwp] and the smart kernel, memory
    pools, slab and memheap allocators are not part of the configured build.  The
    hardware abstraction layer, the chip's headers, the board drivers and the
    interrupt-controller and context-switch assembly act on registers and on the
    processor's own state.  The shell, the C library glue, the device file system,
    lwIP and the FatFs code are separate programs with the kernel's or the file
    systems' interface as their only link to it.  Of the virtual file system the
    commands of the shell, the static mount table and the branches for the smart
    kernel and for [poll] are left out.  Of the USB
    package the host stack, the port drivers (register access) and the classes
    the board does not use for storage are left out, and the branches of the core
    that [usb_config.h] switches off.  Of what is modelled, thread stacks,
    statistics, hooks and console output are left out: they feed back into no
    other state. *)
From Stdlib Require Export ZArith Lia.
From stdpp Require Export base option gmap list.

Declare Scope rt_scope.
Delimit Scope rt_scope with rt.
Open Scope Z_scope.

(** ** Machine integers

    The C types are kept as [Z] and every place where the code can wrap is
    written with one of these truncations. *)
Definition u8 (z : Z) : Z := z mod 2 ^ 8.
Definition u16 (z : Z) : Z := z mod 2 ^ 16.
Definition u32 (z : Z) : Z := z mod 2 ^ 32.
Definition i32 (z : Z) : Z := (z + 2 ^ 31) mod 2 ^ 32 - 2 ^ 31.

(** [RT_ALIGN] and [RT_ALIGN_DOWN] of rtdef.h on 32-bit sizes, [align] a power of
    two; [RT_ALIGN_SIZE] of rtconfig.h. *)
Definition RT_ALIGN_SIZE : Z := 8.
Definition RT_ALIGN (size align : Z) : Z := Z.ldiff (u32 (size + align - 1)) (align - 1).
Definition RT_ALIGN_DOWN (size align : Z) : Z := Z.ldiff size (align - 1).

(** ** Error codes of rtdef.h

    With [RT_USING_LIBC], which the build scripts of every C library define, they
    are the POSIX ones; the numbers are those of [extension/sys/errno.h] with
    [ERROR_BASE_NO] 0.  A C library may number some of them otherwise. *)
Definition RT_EOK : Z := 0.
Definition RT_ERROR : Z := 255.
Definition RT_ETIMEOUT : Z := 110.
Definition RT_EFULL : Z := 28.
Definition RT_EEMPTY : Z := 61.
Definition RT_ENOMEM : Z := 12.
Definition RT_EBUSY : Z := 16.
Definition RT_EINTR : Z := 4.
Definition RT_EINVAL : Z := 22.

(** Boolean flags of bit masks: [flag & mask] used as a C condition. *)
Definition has_flag (flags mask : Z) : bool := negb (Z.land flags mask =? 0).
Definition set_flag (flags mask : Z) : Z := Z.lor flags mask.
Definition clear_flag (flags mask : Z) : Z := Z.land flags (Z.lnot mask).

(** ** Automation *)
Create HintDb rt discriminated.
Create Rewrite HintDb rt_rw.

Ltac rt_simpl := repeat (progress (simplify_eq/= || case_match)).

(** Turn boolean tests on [Z] into propositions, in every hypothesis. *)
Ltac rt_bool :=
  repeat match goal with
  | H : (_ =? _) = true |- _ => apply Z.eqb_eq in H
  | H : (_ =? _) = false |- _ => apply Z.eqb_neq in H
  | H : (_ <? _) = true |- _ => apply Z.ltb_lt in H
  | H : (_ <? _) = false |- _ => apply Z.ltb_ge in H
  | H : (_ <=? _) = true |- _ => apply Z.leb_le in H
  | H : (_ <=? _) = false |- _ => apply Z.leb_gt in H
  | H : negb _ = true |- _ => apply negb_true_iff in H
  | H : negb _ = false |- _ => apply negb_false_iff in H
  | H : _ && _ = true |- _ => apply andb_true_iff in H; destruct H
  end.

(** ** Machine integers in range *)
Lemma u8_small z : 0 <= z < 2 ^ 8 -> u8 z = z.
Proof. apply Z.mod_small. Qed.
Lemma u16_small z : 0 <= z < 2 ^ 16 -> u16 z = z.
Proof. apply Z.mod_small. Qed.
Lemma u32_small z : 0 <= z < 2 ^ 32 -> u32 z = z.
Proof. apply Z.mod_small. Qed.

(** ** Bit lemmas *)
Lemma testbit_range_high (a n i : Z) :
  0 <= a < 2 ^ n -> n <= i -> Z.testbit a i = false.
Proof.
  intros Ha Hi. destruct (Z.eq_dec a 0) as [->|Hnz]; [apply Z.bits_0|].
  apply Z.bits_above_log2; [lia|]. apply Z.log2_lt_pow2; [lia|].
  eapply Z.lt_le_trans; [apply Ha|]. apply Z.pow_le_mono_r; lia.
Qed.

Lemma bits_eq_range (a b n : Z) :
  0 <= a < 2 ^ n -> 0 <= b < 2 ^ n ->
  (forall i, 0 <= i < n -> Z.testbit a i = Z.testbit b i) -> a = b.
Proof.
  intros Ha Hb Hi. apply Z.bits_inj'. intros i H0.
  destruct (Z.lt_ge_cases i n) as [Hlt|Hge]; [apply Hi; lia|].
  by rewrite !(testbit_range_high _ n) by done.
Qed.

Lemma range_of_testbit (a n : Z) :
  0 <= n -> 0 <= a -> (forall i, n <= i -> Z.testbit a i = false) -> a < 2 ^ n.
Proof.
  intros Hn Ha Hi. destruct (Z.eq_dec a 0) as [->|Hnz]; [apply Z.pow_pos_nonneg; lia|].
  apply Z.log2_lt_pow2; [lia|].
  destruct (Z.lt_ge_cases (Z.log2 a) n) as [|Hge]; [done|].
  specialize (Hi (Z.log2 a) Hge). rewrite Z.bit_log2 in Hi by lia. done.
Qed.

(** ** Alignment *)
Lemma ldiff_7 x : Z.ldiff x 7 = x / 8 * 8.
Proof. change 7 with (Z.ones 3). rewrite Z.ldiff_ones_r, Z.shiftr_div_pow2, Z.shiftl_mul_pow2 by lia. done. Qed.
Lemma RT_ALIGN_8 x : 0 <= x <= 2^32 - 8 -> RT_ALIGN x RT_ALIGN_SIZE = (x + 7) / 8 * 8.
Proof.
  intros H. unfold RT_ALIGN, RT_ALIGN_SIZE, u32. change (8 - 1) with 7. rewrite ldiff_7.
  replace (x + 8 - 1) with (x + 7) by lia. by rewrite Z.mod_small by lia.
Qed.
Lemma RT_ALIGN_DOWN_8 x : RT_ALIGN_DOWN x RT_ALIGN_SIZE = x / 8 * 8.
Proof. unfold RT_ALIGN_DOWN, RT_ALIGN_SIZE. change (8 - 1) with 7. apply ldiff_7. Qed.

(** ** Lists *)
(** The list left when a node is unlinked from the ring it is in. *)
Definition unlink {A} `{EqDecision A} (x : A) (l : list A) : list A :=
  filter (fun y => y <> x) l.

Section unlink.
Context {A : Type} `{EqDecision A}.
Implicit Types (x y : A) (l : list A).

Lemma elem_of_unlink x y l : y ∈ unlink x l <-> y <> x /\ y ∈ l.
Proof. unfold unlink. by rewrite list_elem_of_filter. Qed.

Lemma NoDup_unlink x l : NoDup l -> NoDup (unlink x l).
Proof. apply NoDup_filter. Qed.

Lemma unlink_not_in x l : x ∉ l -> unlink x l = l.
Proof.
    intros Hx. induction l as [|y l IH]; [done|].
    unfold unlink. rewrite filter_cons.
    rewrite decide_True by (intros ->; apply Hx; left).
    f_equal. apply IH. set_solver.
  Qed.

Lemma unlink_app x l1 l2 : unlink x (l1 ++ l2) = unlink x l1 ++ unlink x l2.
Proof. apply filter_app. Qed.

Lemma unlink_cons_eq x l : unlink x (x :: l) = unlink x l.
Proof. unfold unlink. rewrite filter_cons, decide_False; [done|tauto]. Qed.

Lemma unlink_cons_ne x y l : y <> x -> unlink x (y :: l) = y :: unlink x l.
Proof. intros. unfold unlink. by rewrite filter_cons, decide_True. Qed.

Lemma unlink_head x l : x ∉ l -> unlink x (x :: l) = l.
Proof. intros. rewrite unlink_cons_eq. by apply unlink_not_in. Qed.

Lemma unlink_middle x l1 l2 :
    NoDup (l1 ++ x :: l2) -> unlink x (l1 ++ x :: l2) = l1 ++ l2.
Proof.
    intros (_ & Hd & Hn)%NoDup_app. apply NoDup_cons in Hn as [Hx _].
    rewrite unlink_app, unlink_head by done. f_equal.
    apply unlink_not_in. intros Hin. apply (Hd x Hin). left.
  Qed.
End unlink.
Lemma filter_all {A} (P : A -> Prop) `{forall x, Decision (P x)} (l : list A) :
  (forall x, x ∈ l -> P x) -> filter P l = l.
Proof.
  induction l as [|x l IH]; intros Hp; [done|]. rewrite filter_cons_True by (apply Hp; left).
  f_equal. apply IH. intros y Hy. apply Hp. by right.
Qed.

Lemma filter_none {A} (P : A -> Prop) `{forall x, Decision (P x)} (l : list A) :
  (forall x, x ∈ l -> ~ P x) -> filter P l = [].
Proof.
  induction l as [|x l IH]; intros Hp; [done|]. rewrite filter_cons_False by (apply Hp; left).
  apply IH. intros y Hy. apply Hp. by right.
Qed.

#[export] Hint Resolve NoDup_unlink : rt.
#[export] Hint Rewrite @elem_of_unlink : rt_rw.

Lemma foldl_ext_in {A B} (f g : A -> B -> A) (l : list B) : forall a,
  (forall a x, x ∈ l -> f a x = g a x) -> foldl f a l = foldl g a l.
Proof.
  induction l as [|x l IH]; intros a H; [done|]. simpl. rewrite H by left. apply IH. intros. apply H. by right.
Qed.

Lemma list_filter_iff_in {A} (P1 P2 : A -> Prop) `{!forall x, Decision (P1 x), !forall x, Decision (P2 x)} (l : list A) :
  (forall x, x ∈ l -> P1 x <-> P2 x) -> filter P1 l = filter P2 l.
Proof.
  induction l as [|x l IH]; intros Hx; [done|]. rewrite !filter_cons.
  rewrite IH by (intros; apply Hx; by right). specialize (Hx x ltac:(left)).
  destruct (decide (P1 x)), (decide (P2 x)); try done; tauto.
Qed.
