(* ===== verification/RtList.v ===== *)
(** * Intrusive doubly linked lists ([rt_list_t] of [include/rtservice.h])

    The kernel keeps every queue - the ready rings, the suspend lists, the
    timer lists, the list of mutexes a thread holds - as a ring of [rt_list_t]
    nodes embedded in the queued objects.  This file models the node memory and
    the operations as the C code performs them, pointer write by pointer write,
    and proves that on a well-formed ring they are the operations on sequences
    that the other files use. *)
From S2P Require Import Prelude.

(** ** The node memory *)
Record rt_list_t := Node { next : nat; prev : nat }.
Abbreviation node_mem := (gmap nat rt_list_t).

Definition get_node (m : node_mem) (a : nat) : rt_list_t := default (Node a a) (m !! a).
Definition get_next (m : node_mem) (a : nat) : nat := next (get_node m a).
Definition get_prev (m : node_mem) (a : nat) : nat := prev (get_node m a).
(** [a->next = v] and [a->prev = v]. *)
Definition set_next (m : node_mem) (a v : nat) : node_mem :=
  alter (fun nd => Node v (prev nd)) a m.
Definition set_prev (m : node_mem) (a v : nat) : node_mem :=
  alter (fun nd => Node (next nd) v) a m.

(** ** The operations *)
Definition rt_list_init (m : node_mem) (l : nat) : node_mem :=
  <[l := Node l l]> m.

Definition rt_list_insert_after (m : node_mem) (l n : nat) : node_mem :=
  let m := set_prev m (get_next m l) n in
  let m := set_next m n (get_next m l) in
  let m := set_next m l n in
  set_prev m n l.

Definition rt_list_insert_before (m : node_mem) (l n : nat) : node_mem :=
  let m := set_next m (get_prev m l) n in
  let m := set_prev m n (get_prev m l) in
  let m := set_prev m l n in
  set_next m n l.

Definition rt_list_remove (m : node_mem) (n : nat) : node_mem :=
  let m := set_prev m (get_next m n) (get_prev m n) in
  let m := set_next m (get_prev m n) (get_next m n) in
  (* n->next = n->prev = n *)
  let m := set_prev m n n in
  set_next m n n.

Definition rt_list_isempty (m : node_mem) (l : nat) : bool := (get_next m l =? l)%nat.

(** The loop of [rt_list_len]; [fuel] bounds the number of nodes visited. *)
Fixpoint list_len_loop (fuel : nat) (m : node_mem) (l p : nat) (len : Z) : option Z :=
  match fuel with
  | O => None
  | S f => if decide (get_next m p = l) then Some len
           else list_len_loop f m l (get_next m p) (u32 (len + 1))
  end.
Definition rt_list_len (fuel : nat) (m : node_mem) (l : nat) : option Z :=
  list_len_loop fuel m l l 0.

(** ** Rings *)
Fixpoint links (m : node_mem) (l : list nat) : Prop :=
  match l with
  | a :: (b :: _) as l' => get_next m a = b /\ get_prev m b = a /\ links m l'
  | _ => True
  end.

(** [ring m h xs]: from the head [h] the nodes [xs] are linked in that order,
    forwards and backwards, and back to [h]. *)
Record ring (m : node_mem) (h : nat) (xs : list nat) : Prop := {
  ring_nodup : NoDup (h :: xs);
  ring_dom : forall a, a ∈ h :: xs -> is_Some (m !! a);
  ring_links : links m (h :: xs ++ [h]);
}.

(** *** Node updates *)
Lemma get_node_alter f (m : node_mem) a b :
  is_Some (m !! a) ->
  get_node (alter f a m) b = if decide (a = b) then f (get_node m a) else get_node m b.
Proof.
  intros [nd Hnd]. unfold get_node. rewrite lookup_alter.
  case_decide; subst; [by rewrite Hnd|done].
Qed.

Lemma is_Some_alter (f : rt_list_t -> rt_list_t) (m : node_mem) (a b : nat) :
  is_Some (m !! b) -> is_Some (alter f a m !! b).
Proof. intros H. rewrite lookup_alter. case_decide; subst; [by apply fmap_is_Some|done]. Qed.
#[export] Hint Resolve is_Some_alter : rt.

(** Read a link after a write: the writes are to live nodes. *)
Lemma get_next_set_next (m : node_mem) (a v b : nat) :
  is_Some (m !! a) -> get_next (set_next m a v) b = if decide (a = b) then v else get_next m b.
Proof. intros H. unfold get_next, set_next. rewrite get_node_alter by done. by case_decide. Qed.
Lemma get_prev_set_prev (m : node_mem) (a v b : nat) :
  is_Some (m !! a) -> get_prev (set_prev m a v) b = if decide (a = b) then v else get_prev m b.
Proof. intros H. unfold get_prev, set_prev. rewrite get_node_alter by done. by case_decide. Qed.
Lemma get_next_set_prev (m : node_mem) (a v b : nat) :
  is_Some (m !! a) -> get_next (set_prev m a v) b = get_next m b.
Proof. intros H. unfold get_next, set_prev. rewrite get_node_alter by done. case_decide; by subst. Qed.
Lemma get_prev_set_next (m : node_mem) (a v b : nat) :
  is_Some (m !! a) -> get_prev (set_next m a v) b = get_prev m b.
Proof. intros H. unfold get_prev, set_next. rewrite get_node_alter by done. case_decide; by subst. Qed.

Lemma is_Some_set_next (m : node_mem) (a v b : nat) : is_Some (m !! b) -> is_Some (set_next m a v !! b).
Proof. apply is_Some_alter. Qed.
Lemma is_Some_set_prev (m : node_mem) (a v b : nat) : is_Some (m !! b) -> is_Some (set_prev m a v !! b).
Proof. apply is_Some_alter. Qed.
#[export] Hint Resolve is_Some_set_next is_Some_set_prev : rt.

Ltac read_links :=
  repeat (rewrite get_next_set_next || rewrite get_prev_set_prev ||
          rewrite get_next_set_prev || rewrite get_prev_set_next); eauto 10 with rt.

(** *** Splitting and framing [links] *)
Lemma links_app m l1 x l2 :
  links m (l1 ++ x :: l2) <-> links m (l1 ++ [x]) /\ links m (x :: l2).
Proof.
  induction l1 as [|a l1 IH]; [simpl; tauto|].
  destruct l1 as [|b l1]; simpl in *; tauto.
Qed.

Lemma links_frame m m' l :
  links m l ->
  (forall x, x ∈ removelast l -> get_next m' x = get_next m x) ->
  (forall x, x ∈ tail l -> get_prev m' x = get_prev m x) ->
  links m' l.
Proof.
  induction l as [|a [|b l] IH]; [done..|]. intros (H1 & H2 & H3) Hn Hp.
  split_and!.
  - rewrite Hn; [done|]. simpl. left.
  - rewrite Hp; [done|]. left.
  - apply IH; [done| |].
    + intros x Hx. apply Hn. simpl in *. by right.
    + intros x Hx. apply Hp. simpl in *. by right.
Qed.

(** *** Inserting and removing between two neighbours

    A ring [h :: xs ++ ys ++ [h]] is cut between [xs] and [ys]; [a] is the node
    before the cut and [b] the node after it. *)
Lemma cut_ring (h : nat) (xs ys : list nat) :
  exists us a b vs, (h :: xs) = us ++ [a] /\ ys ++ [h] = (b :: vs).
Proof.
  destruct (exists_last (l := h :: xs)) as (us & a & ->); [done|].
  destruct ys as [|b ys]; [by exists us, a, h, []|by exists us, a, b, (ys ++ [h])].
Qed.

Lemma cut_eq0 (h : nat) (xs ys us : list nat) a b vs :
  (h :: xs) = us ++ [a] -> ys ++ [h] = (b :: vs) ->
  h :: (xs ++ ys) ++ [h] = us ++ a :: b :: vs.
Proof. intros E1 E2. by rewrite <- app_assoc, E2, app_comm_cons, E1, <- app_assoc. Qed.

Lemma cut_eq1 (h : nat) (xs ys us : list nat) n a b vs :
  (h :: xs) = us ++ [a] -> ys ++ [h] = (b :: vs) ->
  h :: (xs ++ n :: ys) ++ [h] = us ++ a :: n :: b :: vs.
Proof.
  intros E1 E2. rewrite <- app_assoc. simpl. by rewrite E2, app_comm_cons, E1, <- app_assoc.
Qed.

Lemma cut_facts (h : nat) xs ys us a b vs :
  NoDup (h :: xs ++ ys) -> (h :: xs) = us ++ [a] -> ys ++ [h] = (b :: vs) ->
  a ∉ us /\ b ∉ tail (us ++ [a]) /\ a ∉ removelast (b :: vs) /\ b ∉ vs.
Proof.
  intros Hnd E1 E2. rewrite app_comm_cons in Hnd. rewrite E1 in Hnd.
  apply NoDup_app in Hnd as (Hnd1 & Hd & Hnd2).
  assert (Htl : tail (us ++ [a]) = xs) by (by rewrite <- E1).
  assert (Hhead : h ∈ us ++ [a]) by (rewrite <- E1; left).
  assert (Hxs : forall x, x ∈ xs -> x ∈ us ++ [a]) by (rewrite <- E1; by right).
  assert (Hh : h ∉ xs) by (rewrite <- E1 in Hnd1; by apply NoDup_cons in Hnd1 as [? _]).
  rewrite <- E2, removelast_last, Htl.
  apply NoDup_app in Hnd1 as (_ & Hd1 & _). split_and!.
  - intros Hin. apply (Hd1 _ Hin). left.
  - destruct ys as [|y ys]; simpl in E2; injection E2 as <- <-; [done|].
    intros Hin. apply (Hd _ (Hxs _ Hin)). left.
  - intros Hin. apply (Hd a); [set_solver|done].
  - destruct ys as [|y ys]; simpl in E2; injection E2 as <- <-; [apply not_elem_of_nil|].
    apply NoDup_cons in Hnd2 as [Hy _]. intros [Hin|Hin%list_elem_of_singleton]%elem_of_app; [done|].
    rewrite Hin in Hd. apply (Hd _ Hhead). left.
Qed.

(** What a pointer update must do to link [n] between [a] and [b]. *)
Lemma ring_insert m m' h xs ys us a b vs n :
  ring m h (xs ++ ys) -> (h :: xs) = us ++ [a] -> ys ++ [h] = (b :: vs) ->
  n ∉ h :: xs ++ ys ->
  (forall x, is_Some (m !! x) -> is_Some (m' !! x)) -> is_Some (m' !! n) ->
  get_next m' a = n -> get_prev m' n = a -> get_next m' n = b -> get_prev m' b = n ->
  (forall x, x <> a -> x <> n -> get_next m' x = get_next m x) ->
  (forall x, x <> b -> x <> n -> get_prev m' x = get_prev m x) ->
  ring m' h (xs ++ n :: ys).
Proof.
  intros [Hnd Hdom Hl] E1 E2 Hn Hd Hdn A1 A2 B1 B2 Fn Fp.
  destruct (cut_facts h xs ys us a b vs) as (C1 & C2 & C3 & C4); [done..|].
  assert (Hus : forall x, x ∈ us ++ [a] -> x <> n).
  { intros x Hx ->. apply Hn. rewrite app_comm_cons, E1. set_solver. }
  assert (Hvs : forall x, x ∈ b :: vs -> x <> n).
  { intros x Hx ->. apply Hn. rewrite <- E2 in Hx. set_solver. }
  constructor.
  - rewrite <- Permutation_middle, Permutation_swap. by apply NoDup_cons.
  - intros x Hx. destruct (decide (x = n)) as [->|]; [done|].
    apply Hd, Hdom. set_solver.
  - rewrite (cut_eq0 h xs ys us a b vs) in Hl by done.
    rewrite (cut_eq1 h xs ys us n a b vs) by done. simpl in Hl |- *.
    apply links_app in Hl as [L1 (_ & _ & L2)]. apply links_app. split.
    + eapply links_frame; [done| |].
      * intros x Hx. rewrite removelast_last in Hx. apply Fn; [by intros ->|].
        apply Hus. set_solver.
      * intros x Hx. apply Fp; [by intros ->|]. apply Hus.
        destruct us; simpl in *; [set_solver|by right].
    + do 2 (split; [done|]; split; [done|]). apply (links_frame m m' (b :: vs)); [done| |].
      * intros x Hx. apply Fn; [by intros ->|]. apply Hvs.
        rewrite <- E2 in *. rewrite removelast_last in Hx. set_solver.
      * intros x Hx. simpl in Hx. apply Fp; [by intros ->|]. apply Hvs. by right.
Qed.

Lemma links_consecutive m us a b vs :
  links m (us ++ a :: b :: vs) -> get_next m a = b /\ get_prev m b = a.
Proof. intros [_ Hl]%links_app. simpl in Hl. tauto. Qed.

(** ** The operations on rings *)
Lemma ring_init m h : ring (rt_list_init m h) h [].
Proof.
  unfold rt_list_init. constructor; simpl.
  - apply NoDup_singleton.
  - intros a Ha%list_elem_of_singleton. subst. rewrite lookup_insert_eq. by eexists.
  - unfold get_next, get_prev, get_node. by rewrite lookup_insert_eq.
Qed.

(** Inserting after the node [a] that precedes the cut. *)
Lemma ring_insert_after_node m h xs ys us a n :
  ring m h (xs ++ ys) -> (h :: xs) = us ++ [a] -> n ∉ h :: xs ++ ys -> is_Some (m !! n) ->
  ring (rt_list_insert_after m a n) h (xs ++ n :: ys).
Proof.
  intros Hr E1 Hn Hs.
  assert (exists b vs, ys ++ [h] = (b :: vs)) as (b & vs & E2) by (destruct ys; eauto).
  pose proof (ring_links _ _ _ Hr) as Hl.
  rewrite (cut_eq0 h xs ys us a b vs) in Hl by done.
  destruct (links_consecutive _ _ _ _ _ Hl) as [Hab Hba].
  assert (a ∈ h :: xs ++ ys) as Ha by (rewrite app_comm_cons, E1; set_solver).
  assert (b ∈ h :: xs ++ ys) as Hb.
  { assert (b ∈ ys ++ [h]) by (rewrite E2; left). set_solver. }
  assert (is_Some (m !! a)) by (by apply (ring_dom _ _ _ Hr)).
  assert (is_Some (m !! b)) by (by apply (ring_dom _ _ _ Hr)).
  assert (n <> a) by (by intros ->). assert (n <> b) by (by intros ->).
  eapply (ring_insert m); try done; unfold rt_list_insert_after; rewrite ?Hab.
  - intros x Hx. eauto with rt.
  - eauto with rt.
  - read_links. repeat case_decide; simplify_eq; done.
  - read_links. by repeat case_decide.
  - read_links. repeat case_decide; simplify_eq; congruence.
  - read_links. repeat case_decide; simplify_eq; done.
  - intros x Hxa Hxn. read_links. repeat case_decide; congruence.
  - intros x Hxb Hxn. read_links. repeat case_decide; congruence.
Qed.

(** Inserting before the node [b] that follows the cut. *)
Lemma ring_insert_before_node m h xs ys b vs n :
  ring m h (xs ++ ys) -> ys ++ [h] = (b :: vs) -> n ∉ h :: xs ++ ys -> is_Some (m !! n) ->
  ring (rt_list_insert_before m b n) h (xs ++ n :: ys).
Proof.
  intros Hr E2 Hn Hs.
  destruct (exists_last (l := h :: xs)) as (us & a & E1); [done|].
  pose proof (ring_links _ _ _ Hr) as Hl.
  rewrite (cut_eq0 h xs ys us a b vs) in Hl by done.
  destruct (links_consecutive _ _ _ _ _ Hl) as [Hab Hba].
  assert (a ∈ h :: xs ++ ys) as Ha by (rewrite app_comm_cons, E1; set_solver).
  assert (b ∈ h :: xs ++ ys) as Hb.
  { assert (b ∈ ys ++ [h]) by (rewrite E2; left). set_solver. }
  assert (is_Some (m !! a)) by (by apply (ring_dom _ _ _ Hr)).
  assert (is_Some (m !! b)) by (by apply (ring_dom _ _ _ Hr)).
  assert (n <> a) by (by intros ->). assert (n <> b) by (by intros ->).
  eapply (ring_insert m); try done; unfold rt_list_insert_before; rewrite ?Hba.
  - intros x Hx. eauto with rt.
  - eauto with rt.
  - read_links. repeat case_decide; simplify_eq; done.
  - read_links. repeat case_decide; simplify_eq; congruence.
  - read_links. by repeat case_decide.
  - read_links. repeat case_decide; simplify_eq; done.
  - intros x Hxa Hxn. read_links. repeat case_decide; congruence.
  - intros x Hxb Hxn. read_links. repeat case_decide; congruence.
Qed.

(** The queue operations the kernel builds from them. *)
Lemma ring_push_back m h xs n :
  ring m h xs -> n ∉ h :: xs -> is_Some (m !! n) ->
  ring (rt_list_insert_before m h n) h (xs ++ [n]).
Proof.
  intros Hr Hn Hs. apply (ring_insert_before_node m h xs [] h [] n);
    rewrite ?app_nil_r; done.
Qed.

Lemma ring_push_front m h xs n :
  ring m h xs -> n ∉ h :: xs -> is_Some (m !! n) ->
  ring (rt_list_insert_after m h n) h (n :: xs).
Proof. intros Hr Hn Hs. by apply (ring_insert_after_node m h [] xs [] h n). Qed.

Lemma ring_insert_before_elem m h xs s ys n :
  ring m h (xs ++ s :: ys) -> n ∉ h :: xs ++ s :: ys -> is_Some (m !! n) ->
  ring (rt_list_insert_before m s n) h (xs ++ n :: s :: ys).
Proof. intros Hr Hn Hs. by apply (ring_insert_before_node m h xs (s :: ys) s (ys ++ [h]) n). Qed.

(** The four writes of [rt_list_remove], with the links it reads filled in. *)
Lemma remove_eq (m : node_mem) (n a b : nat) :
  get_next m n = b -> get_prev m n = a -> n <> b ->
  is_Some (m !! b) ->
  rt_list_remove m n = set_next (set_prev (set_next (set_prev m b a) a b) n n) n n.
Proof.
  intros Hb Ha Hne Hs. unfold rt_list_remove. rewrite Hb, Ha.
  rewrite get_prev_set_prev, decide_False, Ha by done.
  by rewrite get_next_set_prev, Hb by done.
Qed.

(** Unlinking a node from the middle of a ring. *)
Lemma ring_remove_node m h xs n ys :
  ring m h (xs ++ n :: ys) -> ring (rt_list_remove m n) h (xs ++ ys).
Proof.
  intros Hr. destruct (cut_ring h xs ys) as (us & a & b & vs & E1 & E2).
  assert (Hnd : NoDup (n :: h :: xs ++ ys)).
  { pose proof (ring_nodup _ _ _ Hr) as Hnd.
    by rewrite <- Permutation_middle, Permutation_swap in Hnd. }
  apply NoDup_cons in Hnd as [Hn Hnd].
  destruct (cut_facts h xs ys us a b vs) as (C1 & C2 & C3 & C4); [done..|].
  pose proof (ring_links _ _ _ Hr) as Hl.
  rewrite (cut_eq1 h xs ys us n a b vs) in Hl by done. simpl in Hl.
  apply links_app in Hl as [L1 (Han & Hna & Hnb & Hbn & L2)].
  assert (a ∈ h :: xs ++ ys) as Ha by (rewrite app_comm_cons, E1; set_solver).
  assert (b ∈ h :: xs ++ ys) as Hb.
  { assert (b ∈ ys ++ [h]) by (rewrite E2; left). set_solver. }
  assert (n <> a) by (by intros ->). assert (n <> b) by (by intros ->).
  assert (Hdom : forall x, x ∈ n :: h :: xs ++ ys -> is_Some (m !! x)).
  { intros x Hx. apply (ring_dom _ _ _ Hr). set_solver. }
  assert (is_Some (m !! a)) by (apply Hdom; by right).
  assert (is_Some (m !! b)) by (apply Hdom; by right).
  assert (is_Some (m !! n)) by (apply Hdom; left).
  pose proof (remove_eq m n a b Hnb Hna ltac:(done) ltac:(done)) as Heq.
  assert (Fn : forall x, x <> a -> x <> n -> get_next (rt_list_remove m n) x = get_next m x).
  { intros x Hxa Hxn. rewrite Heq. read_links.
    repeat case_decide; congruence. }
  assert (Fp : forall x, x <> b -> x <> n -> get_prev (rt_list_remove m n) x = get_prev m x).
  { intros x Hxb Hxn. rewrite Heq. read_links.
    repeat case_decide; congruence. }
  assert (Hab : get_next (rt_list_remove m n) a = b /\ get_prev (rt_list_remove m n) b = a).
  { rewrite Heq. split; read_links; repeat case_decide; congruence. }
  constructor; [done| |].
  - intros x Hx. unfold rt_list_remove. eauto 10 using list_elem_of_further with rt.
  - rewrite (cut_eq0 h xs ys us a b vs) by done. simpl.
    apply links_app. split; [|split; [apply Hab|split; [apply Hab|]]].
    + apply (links_frame m _ (us ++ [a])); [done| |].
      * intros x Hx. rewrite removelast_last in Hx. apply Fn; [by intros ->|].
        intros ->. apply Hn. rewrite app_comm_cons, E1. set_solver.
      * intros x Hx. apply Fp; [by intros ->|]. intros ->. apply Hn.
        assert (n ∈ xs) by (by rewrite <- E1 in Hx). set_solver.
    + apply (links_frame m _ (b :: vs)); [done| |].
      * intros x Hx. apply Fn; [by intros ->|]. intros ->. apply Hn.
        rewrite <- E2, removelast_last in Hx. set_solver.
      * intros x Hx. simpl in Hx. apply Fp; [by intros ->|]. intros ->. apply Hn.
        assert (n ∈ ys ++ [h]) by (rewrite E2; by right). set_solver.
Qed.

(** [rt_list_remove] takes the node out of the ring it is in and leaves it
    linked to itself, so that a second removal changes nothing. *)
Lemma ring_remove m h xs n :
  ring m h xs -> n ∈ xs ->
  ring (rt_list_remove m n) h (unlink n xs) /\ ring (rt_list_remove m n) n [].
Proof.
  intros Hr Hin. apply list_elem_of_split in Hin as (l1 & l2 & ->). split.
  - pose proof (ring_nodup _ _ _ Hr) as [_ Hnd]%NoDup_cons.
    rewrite unlink_middle by done. by apply ring_remove_node.
  - assert (is_Some (m !! n)) by (apply (ring_dom _ _ _ Hr); set_solver).
    constructor; [apply NoDup_singleton| |].
    + intros x Hx%list_elem_of_singleton. subst. unfold rt_list_remove. eauto 10 with rt.
    + assert (Hab : forall x, x ∈ h :: l1 ++ n :: l2 -> is_Some (m !! x)) by apply Hr.
      destruct (cut_ring h l1 l2) as (us & a & b & vs & E1 & E2).
      pose proof (ring_links _ _ _ Hr) as Hl.
      rewrite (cut_eq1 h l1 l2 us n a b vs) in Hl by done. simpl in Hl.
      apply links_app in Hl as [L1 (Han & Hna & Hnb & Hbn & L2)].
      assert (is_Some (m !! a)).
      { apply Hab. rewrite app_comm_cons, E1. set_solver. }
      assert (is_Some (m !! b)).
      { apply Hab. assert (b ∈ l2 ++ [h]) by (rewrite E2; left). set_solver. }
      assert (n <> b).
      { intros ->. pose proof (ring_nodup _ _ _ Hr) as Hnd.
        rewrite <- Permutation_middle, Permutation_swap in Hnd.
        apply NoDup_cons in Hnd as [Hn _]. apply Hn.
        assert (b ∈ l2 ++ [h]) by (rewrite E2; left). set_solver. }
      simpl. rewrite (remove_eq m n a b) by done.
      split_and!; [..|done]; read_links; repeat case_decide; congruence.
Qed.

Lemma ring_isempty m h xs : ring m h xs -> rt_list_isempty m h = bool_decide (xs = []).
Proof.
  intros [Hnd _ Hl]. unfold rt_list_isempty. destruct xs as [|x xs]; simpl in Hl.
  - destruct Hl as [-> _]. by rewrite Nat.eqb_refl.
  - destruct Hl as [-> _]. apply NoDup_cons in Hnd as [Hh _].
    rewrite (proj2 (Nat.eqb_neq x h)) by set_solver. done.
Qed.

(** Enough fuel gives the length: one unit per node of the ring. *)
Lemma ring_len m h xs fuel :
  ring m h xs -> (length xs < fuel)%nat -> Z.of_nat (length xs) < 2 ^ 32 ->
  rt_list_len fuel m h = Some (Z.of_nat (length xs)).
Proof.
  intros [Hnd _ Hl] Hf Hb. apply NoDup_cons in Hnd as [Hh _]. unfold rt_list_len.
  enough (forall l p f k, links m (p :: l ++ [h]) -> h ∉ l -> (length l < f)%nat ->
    k + Z.of_nat (length l) < 2 ^ 32 -> 0 <= k ->
    list_len_loop f m h p k = Some (k + Z.of_nat (length l))) as Hgen.
  { by rewrite (Hgen xs) by (done || lia). }
  clear. induction l as [|x l IH]; intros p f k Hl Hh Hf Hb Hk; simpl in Hf;
    destruct f as [|f]; try lia; simpl in *; destruct Hl as [Hn [_ Hl]].
  - rewrite decide_True by done. f_equal. lia.
  - rewrite decide_False by set_solver. rewrite Hn, IH; try done; try set_solver; try lia.
    + unfold u32. rewrite Z.mod_small by lia. f_equal. lia.
    + unfold u32. rewrite Z.mod_small by lia. lia.
    + unfold u32. apply Z.mod_pos_bound. lia.
Qed.
