(* ===== verification/RtSlist.v ===== *)
(** * Singly linked lists ([rt_slist_t] of [include/rtservice.h])

    The nodes are embedded in objects; a node is named by an element of [K] and the
    memory gives its [next] pointer, [None] for [RT_NULL].  The loops have a fuel,
    one more than the number of nodes of the list is enough. *)
From S2P Require Import Prelude.

Section slist.
Context {K : Type} `{Countable K}.
#[local] Abbreviation slist_mem := (gmap K (option K)).
Definition rt_slist_next (m : slist_mem) (n : K) : option K := default None (m !! n).
Definition set_snext (m : slist_mem) (n : K) (v : option K) : slist_mem := <[n := v]> m.

Definition rt_slist_init (m : slist_mem) (l : K) : slist_mem := set_snext m l None.
Definition rt_slist_insert (m : slist_mem) (l n : K) : slist_mem :=
  let m := set_snext m n (rt_slist_next m l) in
  set_snext m l (Some n).
Definition rt_slist_first (m : slist_mem) (l : K) : option K := rt_slist_next m l.
Definition rt_slist_isempty (m : slist_mem) (l : K) : bool :=
  match rt_slist_next m l with None => true | Some _ => false end.
(** [while (l->next) l = l->next; return l;] *)
Fixpoint rt_slist_tail (fuel : nat) (m : slist_mem) (l : K) : option K :=
  match fuel with
  | O => None
  | S f => match rt_slist_next m l with Some x => rt_slist_tail f m x | None => Some l end
  end.
Definition rt_slist_append (fuel : nat) (m : slist_mem) (l n : K) : option slist_mem :=
  node ← rt_slist_tail fuel m l;
  Some (set_snext (set_snext m node (Some n)) n None).
Fixpoint slist_len_loop (fuel : nat) (m : slist_mem) (list : option K) (len : Z) : option Z :=
  match list, fuel with
  | None, _ => Some len
  | Some _, O => None
  | Some x, S f => slist_len_loop f m (rt_slist_next m x) (u32 (len + 1))
  end.
Definition rt_slist_len (fuel : nat) (m : slist_mem) (l : K) : option Z := slist_len_loop fuel m (rt_slist_next m l) 0.
(** [while (node->next && node->next != n) node = node->next;] *)
Fixpoint slist_before (fuel : nat) (m : slist_mem) (node n : K) : option K :=
  match fuel with
  | O => None
  | S f =>
      match rt_slist_next m node with
      | None => Some node
      | Some x => if decide (x = n) then Some node else slist_before f m x n
      end
  end.
Definition rt_slist_remove (fuel : nat) (m : slist_mem) (l n : K) : option slist_mem :=
  node ← slist_before fuel m l n;
  Some match rt_slist_next m node with
       | Some x => set_snext m node (rt_slist_next m x)
       | None => m
       end.

(** ** Lists in memory *)
Fixpoint path (m : slist_mem) (h : K) (xs : list K) : Prop :=
  match xs with
  | [] => rt_slist_next m h = None
  | x :: xs => rt_slist_next m h = Some x /\ path m x xs
  end.
(** The node before position [i], the head included. *)
Definition end_node (h : K) (xs : list K) : K := default h (last xs).

Lemma next_set m n v a : rt_slist_next (set_snext m n v) a = if decide (n = a) then v else rt_slist_next m a.
Proof. unfold rt_slist_next, set_snext. rewrite lookup_insert. by case_decide. Qed.
Lemma path_frame m m' xs : forall h, (forall a, a ∈ h :: xs -> rt_slist_next m' a = rt_slist_next m a) -> path m h xs -> path m' h xs.
Proof.
  induction xs as [|x xs IH]; intros h Hm; cbn; [by rewrite Hm by set_solver|].
  intros [E Hp]. split; [by rewrite Hm by set_solver|]. apply IH; [|done]. intros a Ha. apply Hm. set_solver.
Qed.
Lemma path_first m h xs : path m h xs -> rt_slist_first m h = head xs.
Proof. by destruct xs; [|intros []]. Qed.
Lemma path_isempty m h xs : path m h xs -> rt_slist_isempty m h = match xs with [] => true | _ => false end.
Proof. unfold rt_slist_isempty. destruct xs; [by intros ->|by intros [-> _]]. Qed.
Lemma end_node_cons h x xs : end_node h (x :: xs) = end_node x xs.
Proof. unfold end_node. destruct xs as [|y xs]; [done|]. change (last (x :: y :: xs)) with (last (y :: xs)). by destruct (last_is_Some (y :: xs)) as [_ [z ->]]. Qed.
Lemma end_node_in h xs : end_node h xs ∈ h :: xs.
Proof. revert h. induction xs as [|x xs IH]; intros h; [cbn; set_solver|]. rewrite end_node_cons. right. apply IH. Qed.
Lemma end_node_snoc h xs x : end_node h (xs ++ [x]) = x.
Proof. unfold end_node. by rewrite last_snoc. Qed.
Lemma path_split m y ys xs : forall h, path m h (xs ++ y :: ys) -> rt_slist_next m (end_node h xs) = Some y /\ path m y ys.
Proof. induction xs as [|x xs IH]; intros h; [done|]. intros [_ Hp]. rewrite end_node_cons. by apply IH. Qed.
Lemma path_tail m xs : forall h fuel, path m h xs -> (length xs < fuel)%nat -> rt_slist_tail fuel m h = Some (end_node h xs).
Proof.
  induction xs as [|x xs IH]; intros h [|f] Hp Hf; cbn in Hf; try lia; cbn [rt_slist_tail path] in *; [by rewrite Hp|].
  destruct Hp as [-> Hp]. rewrite end_node_cons. apply IH; [done|lia].
Qed.
Lemma path_len_loop m xs : forall h fuel n, path m h xs -> (length xs <= fuel)%nat -> 0 <= n -> n + Z.of_nat (length xs) < 2 ^ 32 ->
  slist_len_loop fuel m (rt_slist_next m h) n = Some (n + Z.of_nat (length xs)).
Proof.
  induction xs as [|x xs IH]; intros h f n Hp Hf Hn Hlt; cbn [path length] in *.
  - rewrite Hp. destruct f; cbn; f_equal; lia.
  - destruct Hp as [-> Hp]. destruct f as [|f]; [lia|]. cbn [slist_len_loop]. rewrite u32_small by lia. rewrite (IH x) by (done || lia). f_equal. lia.
Qed.
Lemma path_insert m h n xs : path m h xs -> n ∉ h :: xs -> h ∉ xs -> path (rt_slist_insert m h n) h (n :: xs).
Proof.
  intros Hp Hn Hh. unfold rt_slist_insert. cbn [path]. rewrite next_set, decide_True by done. split; [done|].
  assert (Hne : h <> n) by set_solver. destruct xs as [|x xs]; cbn [path] in *.
  - rewrite !next_set, decide_False, decide_True by done. done.
  - destruct Hp as [E Hp]. rewrite !next_set, decide_False, decide_True by done. split; [done|]. eapply path_frame; [|exact Hp].
    intros a Ha. rewrite !next_set, !decide_False; [done| |]; set_solver.
Qed.
Lemma path_snoc m n xs : forall h, path m h xs -> NoDup (h :: xs) -> n ∉ h :: xs ->
  path (set_snext (set_snext m (end_node h xs) (Some n)) n None) h (xs ++ [n]).
Proof.
  induction xs as [|x xs IH]; intros h Hp Hd Hn; apply NoDup_cons in Hd as [Hh Hd].
  - cbn [app path]. change (end_node h []) with h. assert (n <> h) by set_solver.
    split; rewrite !next_set; [by rewrite decide_False, decide_True|by rewrite decide_True].
  - destruct Hp as [E Hp]. rewrite end_node_cons. cbn [app path]. split; [|apply IH; [done|done|set_solver]].
    pose proof (end_node_in x xs). rewrite !next_set, !decide_False; [done| |]; set_solver.
Qed.
Lemma path_before m n ys xs : forall h fuel, path m h (xs ++ n :: ys) -> n ∉ xs -> (length xs < fuel)%nat ->
  slist_before fuel m h n = Some (end_node h xs).
Proof.
  induction xs as [|x xs IH]; intros h [|f] Hp Hn Hf; cbn in Hf; try lia; cbn [app path slist_before] in *; destruct Hp as [-> Hp].
  - by rewrite decide_True.
  - rewrite decide_False by set_solver. rewrite end_node_cons. apply IH; [done|set_solver|lia].
Qed.
Lemma path_cut m n ys xs : forall h, path m h (xs ++ n :: ys) -> NoDup (h :: xs ++ n :: ys) ->
  path (set_snext m (end_node h xs) (rt_slist_next m n)) h (xs ++ ys).
Proof.
  induction xs as [|x xs IH]; intros h Hp Hd; cbn [app] in *; apply NoDup_cons in Hd as [Hh Hd].
  - change (end_node h []) with h. destruct Hp as [_ Hp]. apply NoDup_cons in Hd as [Hn Hd]. destruct ys as [|y ys]; cbn [path] in *.
    + by rewrite next_set, decide_True.
    + destruct Hp as [E Hp]. rewrite next_set, decide_True by done. split; [done|]. eapply path_frame; [|exact Hp].
      intros a Ha. rewrite next_set, decide_False by set_solver. done.
  - destruct Hp as [E Hp]. rewrite end_node_cons. cbn [path]. split; [|by apply IH].
    pose proof (end_node_in x xs). rewrite next_set, decide_False; [done|]. set_solver.
Qed.
Lemma path_remove m h n xs ys fuel : path m h (xs ++ n :: ys) -> NoDup (h :: xs ++ n :: ys) -> (length xs < fuel)%nat ->
  exists m', rt_slist_remove fuel m h n = Some m' /\ path m' h (xs ++ ys) /\
    forall a, a <> end_node h xs -> rt_slist_next m' a = rt_slist_next m a.
Proof.
  intros Hp Hd Hf. assert (Hn : n ∉ xs) by (apply NoDup_cons in Hd as [_ Hd]; apply NoDup_app in Hd as (_ & Hd & _); intros Hn; apply (Hd n Hn); set_solver).
  unfold rt_slist_remove. rewrite (path_before m n ys xs h fuel Hp Hn Hf).
  cbn [mbind option_bind]. destruct (path_split m n ys xs h Hp) as [-> _]. eexists. split; [done|]. split; [by apply path_cut|].
  intros a Ha. by rewrite next_set, decide_False.
Qed.
End slist.
