(* ===== verification/Queue.v ===== *)
(** * Queues of nodes

    The abstract counterpart of [RtList]: a family of named queues, each the
    sequence of the nodes linked in one ring.  [rt_list_remove] does not name
    the ring it unlinks from, so [qunlink] removes the node wherever it is.
    [ListRefine] ties the family to the pointer memory of [RtList]. *)
From S2P Require Import Prelude RtList.

Section queues.
Context {K A : Type} `{Countable K} `{EqDecision A}.
Implicit Types (Q : gmap K (list A)) (k : K) (x : A) (l : list A).

Definition qget Q k : list A := default [] (Q !! k).
Definition qset k l Q : gmap K (list A) := <[k := l]> Q.
  (** [rt_list_insert_before(&head, node)] and [rt_list_insert_after(&head, node)]. *)
Definition qpush_back k x Q : gmap K (list A) := qset k (qget Q k ++ [x]) Q.
Definition qpush_front k x Q : gmap K (list A) := qset k (x :: qget Q k) Q.
  (** [rt_list_remove(node)]. *)
Definition qunlink x Q : gmap K (list A) := unlink x <$> Q.

  (** Every node is linked at most once. *)
Record qwf Q : Prop := {
    qwf_nodup : forall k, NoDup (qget Q k);
    qwf_uniq : forall k1 k2 x, x ∈ qget Q k1 -> x ∈ qget Q k2 -> k1 = k2;
  }.
Definition qfresh x Q : Prop := forall k, x ∉ qget Q k.

Lemma qget_empty k : qget ∅ k = [].
Proof. unfold qget. by rewrite lookup_empty. Qed.

Lemma qget_set k k' l Q : qget (qset k l Q) k' = if decide (k = k') then l else qget Q k'.
Proof.
    unfold qget, qset. case_decide; subst; [by rewrite lookup_insert_eq|by rewrite lookup_insert_ne].
  Qed.

Lemma qget_set_eq k l Q : qget (qset k l Q) k = l.
Proof. rewrite qget_set. by rewrite decide_True. Qed.
Lemma qget_set_ne k k' l Q : k <> k' -> qget (qset k l Q) k' = qget Q k'.
Proof. intros. rewrite qget_set. by rewrite decide_False. Qed.

Lemma qget_unlink x Q k : qget (qunlink x Q) k = unlink x (qget Q k).
Proof. unfold qget, qunlink. rewrite lookup_fmap. by destruct (Q !! k). Qed.

Lemma elem_of_qunlink x y Q k : y ∈ qget (qunlink x Q) k <-> y <> x /\ y ∈ qget Q k.
Proof. by rewrite qget_unlink, elem_of_unlink. Qed.

Lemma qfresh_qunlink x Q : qfresh x (qunlink x Q).
Proof. intros k. rewrite elem_of_qunlink. tauto. Qed.

Lemma qfresh_qunlink_other x y Q : qfresh x Q -> qfresh x (qunlink y Q).
Proof. intros Hx k. rewrite elem_of_qunlink. intros [_ Hin]. by apply (Hx k). Qed.

Lemma qget_unlink_fresh x Q k : qfresh x Q -> qget (qunlink x Q) k = qget Q k.
Proof. intros Hx. rewrite qget_unlink. apply unlink_not_in, Hx. Qed.

Lemma qget_unlink_notin x Q k : x ∉ qget Q k -> qget (qunlink x Q) k = qget Q k.
Proof. intros Hx. rewrite qget_unlink. by apply unlink_not_in. Qed.

Lemma qwf_empty : qwf ∅.
Proof.
    split; [intros k; rewrite qget_empty; constructor|].
    intros k1 k2 x Hx. rewrite qget_empty in Hx. by apply not_elem_of_nil in Hx.
  Qed.

Lemma qwf_qunlink x Q : qwf Q -> qwf (qunlink x Q).
Proof.
    intros [Hnd Hu]. split.
    - intros k. rewrite qget_unlink. by apply NoDup_unlink.
    - intros k1 k2 y [_ H1]%elem_of_qunlink [_ H2]%elem_of_qunlink. by eapply Hu.
  Qed.

  (** Linking a node that is nowhere, at any position of one queue. *)
Lemma qwf_insert k x l Q :
    qwf Q -> qfresh x Q -> l ≡ₚ x :: qget Q k -> qwf (qset k l Q).
Proof.
    intros [Hnd Hu] Hx Hl.
    assert (Hin : forall k' y, y ∈ qget (qset k l Q) k' -> (y = x /\ k' = k) \/ y ∈ qget Q k').
    { intros k' y. rewrite qget_set. case_decide; [subst|tauto].
      rewrite Hl, elem_of_cons. tauto. }
    split.
    - intros k'. rewrite qget_set. case_decide; [|done].
      rewrite Hl. constructor; [apply Hx|done].
    - intros k1 k2 y H1 H2. apply Hin in H1 as [[E1 ->]|H1], H2 as [[E2 ->]|H2]; subst; try done;
        [by apply Hx in H2|by apply Hx in H1|by eapply Hu].
  Qed.

Lemma qwf_push_back k x Q : qwf Q -> qfresh x Q -> qwf (qpush_back k x Q).
Proof. intros. apply qwf_insert with x; [done..|]. by rewrite Permutation_app_comm. Qed.
Lemma qwf_push_front k x Q : qwf Q -> qfresh x Q -> qwf (qpush_front k x Q).
Proof. intros. by apply qwf_insert with x. Qed.

Lemma qwf_clear k Q : qwf Q -> qwf (qset k [] Q).
Proof.
    intros [Hnd Hu].
    assert (Hin : forall k' y, y ∈ qget (qset k [] Q) k' -> y ∈ qget Q k').
    { intros k' y. rewrite qget_set. case_decide; [|done]. by intros ?%not_elem_of_nil. }
    split; [|eauto]. intros k'. rewrite qget_set. case_decide; [constructor|done].
  Qed.

  (** The head of a queue leaves its tail. *)
Lemma qunlink_head k x l Q : qwf Q -> qget Q k = (x :: l) -> qget (qunlink x Q) k = l.
Proof.
    intros [Hnd _] E. rewrite qget_unlink, E. apply unlink_head.
    specialize (Hnd k). rewrite E in Hnd. by apply NoDup_cons in Hnd as [].
  Qed.

Lemma qunlink_other k k' x Q :
    qwf Q -> x ∈ qget Q k -> k' <> k -> qget (qunlink x Q) k' = qget Q k'.
Proof. intros [_ Hu] Hx Hne. apply qget_unlink_notin. intros Hin. by apply Hne, (Hu _ _ x). Qed.
End queues.

Lemma NoDup_concat_inv {A} (ls : list (list A)) :
  NoDup (concat ls) ->
  (forall i l, ls !! i = Some l -> NoDup l) /\
  (forall i j l1 l2 x, ls !! i = Some l1 -> ls !! j = Some l2 -> x ∈ l1 -> x ∈ l2 -> i = j).
Proof.
  induction ls as [|l ls IH]; simpl; [done|].
  intros (Hn & Hd & Hn')%NoDup_app. destruct (IH Hn') as [I1 I2].
  assert (Hc : forall i l' x, ls !! i = Some l' -> x ∈ l' -> x ∈ concat ls).
  { intros i l' x Hi Hx. apply list_elem_of_In, in_concat. exists l'.
    split; apply list_elem_of_In; [by eapply list_elem_of_lookup_2|done]. }
  split.
  - intros [|i] l' Hi; simpl in Hi; [by simplify_eq|eauto].
  - intros [|i] [|j] l1 l2 x Hi Hj H1 H2; simpl in *; simplify_eq; try done.
    + exfalso. apply (Hd x H1). eauto.
    + exfalso. apply (Hd x H2). eauto.
    + f_equal. eauto.
Qed.

(** A finite family in which no node occurs twice. *)
Lemma NoDup_concat_qwf {K A} `{Countable K} `{EqDecision A} (Q : gmap K (list A)) :
  NoDup (concat (snd <$> map_to_list Q)) -> qwf Q.
Proof.
  intros [Hn Hu]%NoDup_concat_inv.
  assert (Hl : forall l ts, Q !! l = Some ts -> exists i,
     map_to_list Q !! i = Some (l, ts) /\ (snd <$> map_to_list Q) !! i = Some ts).
  { intros l ts Hq. apply elem_of_map_to_list, list_elem_of_lookup in Hq as [i Hi].
    exists i. split; [done|]. by rewrite list_lookup_fmap, Hi. }
  split.
  - intros l. unfold qget. destruct (Q !! l) as [ts|] eqn:E; [|constructor].
    destruct (Hl l ts E) as (i & _ & Hi). by apply (Hn i).
  - intros l1 l2 t. unfold qget. destruct (Q !! l1) as [ts1|] eqn:Q1; simpl;
      [|intros H1; by apply not_elem_of_nil in H1].
    destruct (Q !! l2) as [ts2|] eqn:Q2; simpl; [|intros _ H2; by apply not_elem_of_nil in H2].
    intros H1 H2. destruct (Hl _ _ Q1) as (i & E1 & F1). destruct (Hl _ _ Q2) as (j & E2 & F2).
    assert (i = j) as -> by eauto. congruence.
Qed.

#[export] Hint Resolve qwf_empty qwf_qunlink qwf_push_back qwf_push_front
  qfresh_qunlink qfresh_qunlink_other : rt.
#[export] Hint Rewrite @qget_set @qget_unlink @elem_of_qunlink : rt_rw.
