(* ===== verification/ListRefine.v ===== *)
(** * The pointer lists implement the queues

    The rest of the development works on families of sequences ([Queue]).  Here a
    node memory [represents] such a family: every queue is a ring at its head, a
    node in no queue is linked to itself.  Each [rt_list_*] call on the memory is
    the corresponding operation on the family. *)
From S2P Require Import Prelude RtList Queue.

Section refine.
Context {K A : Type} `{Countable K} `{Countable A}.
(** The addresses of the list heads and of the nodes; [heads] and [nodes] are those
    that the program has initialised. *)
Context (head : K -> nat) (addr : A -> nat) (heads : K -> Prop) (nodes : A -> Prop).
Context (head_inj : forall k k', head k = head k' -> k = k') (addr_inj : forall x y, addr x = addr y -> x = y).
Context (head_addr : forall k x, head k <> addr x).

Record represents (m : node_mem) (Q : gmap K (list A)) : Prop := {
  rp_wf : qwf Q;
  rp_nodes : forall k x, x ∈ qget Q k -> heads k /\ nodes x;
  rp_ring : forall k, heads k -> ring m (head k) (map addr (qget Q k));
  rp_free : forall x, nodes x -> qfresh x Q -> ring m (addr x) [];
}.

(** ** Which nodes an operation writes *)
Lemma ring_neighbours m h xs :
  ring m h xs -> forall a, a ∈ h :: xs -> get_next m a ∈ h :: xs /\ get_prev m a ∈ h :: xs.
Proof.
  intros [_ _ Hl]. assert (G : forall l, links m (l ++ [h]) -> forall a, a ∈ l -> get_next m a ∈ l ++ [h]).
  { induction l as [|b l IH]; intros Hk a; [by intros ?%not_elem_of_nil|]. intros [->|Ha]%elem_of_cons.
    - destruct l as [|c l]; cbn in Hk; destruct Hk as [-> _]; set_solver.
    - right. apply IH; [|done]. destruct l as [|c l]; [by apply not_elem_of_nil in Ha|]. apply Hk. }
  assert (G' : forall l b, links m (b :: l) -> forall a, a ∈ l -> get_prev m a ∈ b :: l).
  { induction l as [|c l IH]; intros b Hk a; [by intros ?%not_elem_of_nil|]. destruct Hk as (_ & Hp & Hk).
    intros [->|Ha]%elem_of_cons; [rewrite Hp; left|]. right. by apply IH. }
  intros a Ha. split.
  - specialize (G (h :: xs) Hl a Ha). cbn in G. set_solver.
  - assert (Ha' : a ∈ xs ++ [h]) by set_solver. specialize (G' (xs ++ [h]) h Hl a Ha'). set_solver.
Qed.
Lemma ring_frame m m' h xs : (forall a, a ∈ h :: xs -> m' !! a = m !! a) -> ring m h xs -> ring m' h xs.
Proof.
  intros Hm [Hn Hd Hl]. constructor; [done| |].
  - intros a Ha. rewrite Hm by done. by apply Hd.
  - assert (Hg : forall a, a ∈ h :: xs -> get_node m' a = get_node m a) by (intros a Ha; unfold get_node; by rewrite Hm).
    apply (links_frame m); [done| |].
    + intros x Hx. rewrite app_comm_cons, removelast_last in Hx. unfold get_next. by rewrite Hg.
    + intros x Hx. cbn in Hx. unfold get_prev. rewrite Hg by set_solver. done.
Qed.
Lemma lookup_alter_other (f : rt_list_t -> rt_list_t) a b (m : node_mem) : b <> a -> alter f b m !! a = m !! a.
Proof. intros. by rewrite lookup_alter_ne. Qed.

Section writes.
Context (m : node_mem) (h : nat) (xs : list nat) (Hr : ring m h xs).
Lemma writes_insert_before l n a : l ∈ h :: xs -> a ∉ h :: xs -> a <> n -> rt_list_insert_before m l n !! a = m !! a.
Proof.
  intros Hl Ha Hn. destruct (ring_neighbours m h xs Hr l Hl) as [_ Hp]. unfold rt_list_insert_before.
  unfold set_next at 1. rewrite lookup_alter_other by congruence. unfold set_prev at 1. rewrite lookup_alter_other by (intros ->; done).
  unfold set_prev at 1. rewrite lookup_alter_other by congruence. unfold set_next. rewrite lookup_alter_other; [done|]. intros E. by rewrite E in Hp.
Qed.
Lemma writes_insert_after l n a : l ∈ h :: xs -> a ∉ h :: xs -> a <> n -> rt_list_insert_after m l n !! a = m !! a.
Proof.
  intros Hl Ha Hn. destruct (ring_neighbours m h xs Hr l Hl) as [Hp _]. unfold rt_list_insert_after.
  unfold set_prev at 1. rewrite lookup_alter_other by congruence. unfold set_next at 1. rewrite lookup_alter_other by (intros ->; done).
  unfold set_next at 1. rewrite lookup_alter_other by congruence. unfold set_prev. rewrite lookup_alter_other; [done|]. intros E. by rewrite E in Hp.
Qed.
Lemma writes_remove n a : n ∈ xs -> a ∉ h :: xs -> rt_list_remove m n !! a = m !! a.
Proof.
  intros Hn Ha. assert (Hn' : n ∈ h :: xs) by (by right). destruct (ring_neighbours m h xs Hr n Hn') as [Hb Hp].
  assert (Hne : n <> get_next m n).
  { intros E. destruct Hr as [Hnd _ Hl]. apply list_elem_of_split in Hn as (l1 & l2 & ->).
    rewrite <- app_assoc in Hl. cbn in Hl. apply (links_app m (h :: l1) n (l2 ++ [h])) in Hl as [_ Hl].
    apply NoDup_cons in Hnd as [Hh Hnd]. apply NoDup_app in Hnd as (_ & _ & Hnd). apply NoDup_cons in Hnd as [Hnd _].
    destruct l2 as [|c l2]; cbn in Hl; destruct Hl as [Hl _]; [|apply Hnd; rewrite E, Hl; left].
    apply Hh. rewrite <- Hl, <- E. set_solver. }
  assert (Hs : is_Some (m !! get_next m n)) by (by apply (ring_dom _ _ _ Hr)).
  rewrite (remove_eq m n (get_prev m n) (get_next m n)) by done. unfold set_next, set_prev.
  rewrite !lookup_alter_other; [done|..]; intros E; first [by rewrite E in Hb|by rewrite E in Hp|by rewrite E in Hn'].
Qed.
End writes.
Lemma remove_self m n : ring m n [] -> rt_list_remove m n = m.
Proof.
  intros [_ Hd [Hn [Hp _]]]. destruct (Hd n ltac:(left)) as [nd Hnd].
  assert (E : nd = Node n n). { unfold get_next, get_prev, get_node in *. rewrite Hnd in *. destruct nd. cbn in *. congruence. }
  assert (G1 : set_prev m n n = m). { unfold set_prev. apply map_eq. intros a. rewrite lookup_alter. case_decide as Ea; [|done]. subst a. by rewrite Hnd, E. }
  assert (G2 : set_next m n n = m). { unfold set_next. apply map_eq. intros a. rewrite lookup_alter. case_decide as Ea; [|done]. subst a. by rewrite Hnd, E. }
  unfold rt_list_remove. by rewrite Hn, Hp, G1, Hp, Hn, G2, G1, G2.
Qed.

(** ** The operations *)
Lemma addr_in x l : addr x ∈ map addr l <-> x ∈ l.
Proof.
  rewrite list_elem_of_fmap. split; [|by eauto]. intros (y & E & Hy). by apply addr_inj in E as ->.
Qed.
Lemma addr_notin_head k x l : addr x ∈ head k :: map addr l <-> x ∈ l.
Proof. rewrite elem_of_cons, addr_in. split; [intros [E|?]; [by symmetry in E; apply head_addr in E|done]|tauto]. Qed.
Lemma head_notin k k' l : head k ∈ head k' :: map addr l -> k = k'.
Proof.
  intros [E|Hin]%elem_of_cons; [by apply head_inj|]. apply list_elem_of_fmap in Hin as (y & E & _). by apply head_addr in E.
Qed.
(** A change of one queue that writes only its nodes and those of [x]. *)
Lemma represents_update m m' Q Q' k x :
  represents m Q -> qwf Q' -> heads k -> nodes x ->
  (forall k', k' <> k -> qget Q' k' = qget Q k') -> (forall y, y ∈ qget Q' k -> y = x \/ y ∈ qget Q k) ->
  (forall y, y ∈ qget Q k -> y = x \/ y ∈ qget Q' k) -> (forall k', k' <> k -> x ∉ qget Q k') ->
  (forall a, a ∉ head k :: map addr (qget Q k) -> a <> addr x -> m' !! a = m !! a) ->
  ring m' (head k) (map addr (qget Q' k)) -> (x ∉ qget Q' k -> ring m' (addr x) []) -> represents m' Q'.
Proof.
  intros [Hw Hn Hr Hf] Hw' Hk Hx Hoth H1 H2 Hxk Hm Hrk Hxf. constructor; [done| | |].
  - intros k' y. destruct (decide (k' = k)) as [->|Hne]; [|rewrite Hoth by done; apply Hn].
    intros [->|Hy]%H1; [done|by apply Hn].
  - intros k' Hk'. destruct (decide (k' = k)) as [->|Hne]; [done|]. rewrite Hoth by done.
    apply (ring_frame m); [|by apply Hr]. intros a Ha. apply Hm.
    + intros Ha'. apply elem_of_cons in Ha as [->|Ha]; [by apply head_notin in Ha'|].
      apply list_elem_of_fmap in Ha as (y & -> & Hy). apply addr_notin_head in Ha'. by apply Hne, (qwf_uniq _ Hw k' k y).
    + apply elem_of_cons in Ha as [->|Ha]; [apply head_addr|]. apply list_elem_of_fmap in Ha as (y & -> & Hy).
      intros E. apply addr_inj in E as ->. by apply (Hxk k').
  - intros y Hy Hfy. destruct (decide (y = x)) as [->|Hne]; [apply Hxf, Hfy|].
    assert (Hfy' : qfresh y Q).
    { intros k' Hin. destruct (decide (k' = k)) as [->|Hk']; [|apply (Hfy k'); by rewrite Hoth].
      destruct (H2 y Hin) as [?|?]; [done|by apply (Hfy k)]. }
    apply (ring_frame m); [|by apply Hf]. intros a Ha%list_elem_of_singleton. subst a. apply Hm.
    + intros Hin%addr_notin_head. by apply (Hfy' k).
    + intros E%addr_inj. done.
Qed.
Lemma fresh_notin m Q k x : represents m Q -> qfresh x Q -> addr x ∉ head k :: map addr (qget Q k).
Proof. intros _ Hx Hin%addr_notin_head. by apply (Hx k). Qed.
Lemma fresh_node m Q x : represents m Q -> nodes x -> qfresh x Q -> is_Some (m !! addr x).
Proof. intros H1 Hn Hx. apply (ring_dom _ _ _ (rp_free _ _ H1 x Hn Hx)). left. Qed.

(** Linking a fresh node at any place of a queue. *)
Lemma represents_link m m' Q k l x :
  represents m Q -> heads k -> nodes x -> qfresh x Q -> l ≡ₚ x :: qget Q k ->
  (forall a, a ∉ head k :: map addr (qget Q k) -> a <> addr x -> m' !! a = m !! a) ->
  ring m' (head k) (map addr l) -> represents m' (qset k l Q).
Proof.
  intros H1 Hk Hn Hx Hl Hm Hr. apply (represents_update m m' Q _ k x); try done.
  - by apply qwf_insert with x; [apply H1|..].
  - intros k' Hne. by rewrite qget_set_ne.
  - intros y. rewrite qget_set_eq, Hl, elem_of_cons. done.
  - intros y Hy. rewrite qget_set_eq, Hl, elem_of_cons. by right; right.
  - by rewrite qget_set_eq.
  - rewrite qget_set_eq, Hl, elem_of_cons. tauto.
Qed.

Lemma unlink_map x l : unlink (addr x) (map addr l) = map addr (unlink x l).
Proof.
  unfold unlink. induction l as [|y l IH]; [done|]. cbn [map]. rewrite !filter_cons. destruct (decide (y = x)) as [->|Hne].
  - rewrite !decide_False by tauto. done.
  - rewrite !decide_True; [cbn; by f_equal|done|]. intros E. by apply Hne, addr_inj.
Qed.
Lemma queue_of (Q : gmap K (list A)) x : (exists k, x ∈ qget Q k) \/ qfresh x Q.
Proof.
  destruct (decide (Exists (fun kl => x ∈ kl.2) (map_to_list Q))) as [Hin|Hin].
  - left. apply Exists_exists in Hin as ([k l] & Hk%elem_of_map_to_list & Hx). exists k. unfold qget. by rewrite Hk.
  - right. intros k Hx. apply Hin, Exists_exists. unfold qget in Hx. destruct (Q !! k) as [l|] eqn:E; [|by apply not_elem_of_nil in Hx].
    exists (k, l). split; [by apply elem_of_map_to_list|done].
Qed.

(** C25: on a node memory that represents a family of queues, [rt_list_insert_before]
    at a head appends, [rt_list_insert_after] at a head pushes in front,
    [rt_list_insert_before] at a queued node inserts before it, and
    [rt_list_remove] takes a node out of whatever queue it is in, changing no other
    queue; [rt_list_isempty] and [rt_list_len] tell the emptiness and the length of
    a queue. *)
Theorem rt_list_implements_queues (m : node_mem) (Q : gmap K (list A)) (Hrep : represents m Q) :
  (forall k x, heads k -> nodes x -> qfresh x Q ->
     represents (rt_list_insert_before m (head k) (addr x)) (qpush_back k x Q) /\
     represents (rt_list_insert_after m (head k) (addr x)) (qpush_front k x Q)) /\
  (forall k x y l1 l2, heads k -> nodes x -> qfresh x Q -> qget Q k = l1 ++ y :: l2 ->
     represents (rt_list_insert_before m (addr y) (addr x)) (qset k (l1 ++ x :: y :: l2) Q)) /\
  (forall x, nodes x -> represents (rt_list_remove m (addr x)) (qunlink x Q)) /\
  (forall k, heads k -> rt_list_isempty m (head k) = bool_decide (qget Q k = [])) /\
  (forall k fuel, heads k -> (length (qget Q k) < fuel)%nat -> Z.of_nat (length (qget Q k)) < 2 ^ 32 ->
     rt_list_len fuel m (head k) = Some (Z.of_nat (length (qget Q k)))).
Proof.
  split; [|split; [|split; [|split]]].
  - intros k x Hk Hn Hx. pose proof (rp_ring _ _ Hrep k Hk) as Hr. pose proof (fresh_notin m Q k x Hrep Hx) as Hnx.
    pose proof (fresh_node m Q x Hrep Hn Hx) as Hs. split; apply (represents_link m _ Q k _ x); try done.
    + by rewrite Permutation_app_comm.
    + intros a Ha Hax. apply (writes_insert_before m _ _ Hr); [left|done|done].
    + rewrite map_app. cbn. by apply ring_push_back.
    + intros a Ha Hax. apply (writes_insert_after m _ _ Hr); [left|done|done].
    + cbn. by apply ring_push_front.
  - intros k x y l1 l2 Hk Hn Hx Hl. pose proof (rp_ring _ _ Hrep k Hk) as Hr. pose proof (fresh_notin m Q k x Hrep Hx) as Hnx.
    apply (represents_link m _ Q k _ x); try done.
    + rewrite Hl. by rewrite <- Permutation_middle.
    + intros a Ha Hax. apply (writes_insert_before m _ _ Hr); [|done|done]. rewrite addr_notin_head, Hl. set_solver.
    + rewrite Hl, map_app in Hr, Hnx. rewrite map_app. cbn in *. apply ring_insert_before_elem; [done|done|].
      by apply (fresh_node m Q x Hrep).
  - intros x Hn. destruct (queue_of Q x) as [[k Hin]|Hx].
    + destruct (rp_nodes _ _ Hrep k x Hin) as [Hk _]. pose proof (rp_ring _ _ Hrep k Hk) as Hr.
      pose proof (rp_wf _ _ Hrep) as Hw.
      assert (Hax : addr x ∈ map addr (qget Q k)) by (by apply addr_in).
      destruct (ring_remove m (head k) _ (addr x) Hr Hax) as [Hr1 Hr2]. rewrite unlink_map in Hr1.
      apply (represents_update m _ Q _ k x); try done.
      * by apply qwf_qunlink.
      * intros k' Hne. by apply (qunlink_other k).
      * intros y. rewrite elem_of_qunlink. tauto.
      * intros y Hy. rewrite elem_of_qunlink. destruct (decide (y = x)); tauto.
      * intros k' Hne Hin'. by apply Hne, (qwf_uniq _ Hw k' k x).
      * intros a Ha _. by apply (writes_remove m (head k) (map addr (qget Q k))).
      * by rewrite qget_unlink.
    + rewrite remove_self by (by apply (rp_free _ _ Hrep)).
      destruct Hrep as [Hw Hno Hr Hf]. constructor.
      * by apply qwf_qunlink.
      * intros k y [_ Hy]%elem_of_qunlink. by apply Hno.
      * intros k Hk. rewrite qget_unlink_fresh by done. by apply Hr.
      * intros y Hy Hfy. apply Hf; [done|]. intros k Hin. specialize (Hfy k). rewrite qget_unlink_fresh in Hfy by done. done.
  - intros k Hk. rewrite (ring_isempty _ _ _ (rp_ring _ _ Hrep k Hk)). apply bool_decide_ext. by destruct (qget Q k).
  - intros k fuel Hk Hf Hl. rewrite (ring_len _ _ _ fuel (rp_ring _ _ Hrep k Hk)); rewrite ?length_map; done.
Qed.
End refine.

(** Two heads at 0 and 2, three nodes at 1, 3 and 5. *)
Definition mem0 : node_mem := foldl rt_list_init ∅ [0; 2; 1; 3; 5]%nat.
Lemma mem0_ring a : a ∈ [0; 2; 1; 3; 5]%nat -> ring mem0 a [].
Proof.
  intros Ha. assert (G : mem0 !! a = Some (Node a a)).
  { repeat (apply elem_of_cons in Ha as [->|Ha]; [vm_compute; reflexivity|]). by apply not_elem_of_nil in Ha. }
  constructor.
  - apply NoDup_singleton.
  - intros b Hb%list_elem_of_singleton. subst b. by rewrite G.
  - assert (E : get_node mem0 a = Node a a) by (unfold get_node; by rewrite G).
    split; [unfold get_next; by rewrite E|]. split; [unfold get_prev; by rewrite E|done].
Qed.
Lemma mem0_represents :
  represents (fun k => 2 * k)%nat (fun x => 2 * x + 1)%nat (fun k => (k < 2)%nat) (fun x => (x < 3)%nat) mem0 (∅ : gmap nat (list nat)).
Proof.
  constructor.
  - apply qwf_empty.
  - intros k x. rewrite qget_empty. by intros ?%not_elem_of_nil.
  - intros k Hk. rewrite qget_empty. apply mem0_ring. destruct k as [|[|k]]; [left|right; left|lia].
  - intros x Hx _. apply mem0_ring. destruct x as [|[|[|x]]]; [do 2 right; left|do 3 right; left|do 4 right; left|lia].
Qed.
Lemma rt_list_implements_queues_witness :
  represents (fun k => 2 * k)%nat (fun x => 2 * x + 1)%nat (fun k => (k < 2)%nat) (fun x => (x < 3)%nat)
    (rt_list_insert_before mem0 2 3) (qpush_back 1%nat 1%nat ∅).
Proof.
  refine (proj1 (proj1 (rt_list_implements_queues (fun k => 2 * k)%nat (fun x => 2 * x + 1)%nat (fun k => (k < 2)%nat) (fun x => (x < 3)%nat)
    _ _ _ mem0 ∅ mem0_represents) 1%nat 1%nat _ _ _)).
  - intros k k' E. lia.
  - intros x y E. lia.
  - intros k x E. lia.
  - lia.
  - lia.
  - intros k. rewrite qget_empty. apply not_elem_of_nil.
Defined.
