(* ===== verification/Ring.v ===== *)
(** * Circular buffers

    The contents of an array used as a circular buffer, and what storing and
    fetching at its ends does to them. *)
From S2P Require Import Prelude.

Section ring.
Context {A : Type} (d : A) (n : nat).

(** The index [i] places after [out] in an array of [n]. *)
Definition ring_idx (out i : nat) : nat := if (n <=? out + i)%nat then (out + i - n)%nat else (out + i)%nat.
Definition ring_contents (out len : nat) (pool : list A) : list A :=
  map (fun i => nth (ring_idx out i) pool d) (seq 0 len).

Lemma ring_idx_lt out i : (out < n)%nat -> (i <= n)%nat -> (ring_idx out i < n)%nat.
Proof. unfold ring_idx. destruct (Nat.leb_spec n (out + i)); lia. Qed.
Lemma ring_idx_0 out : (out < n)%nat -> ring_idx out 0 = out.
Proof. unfold ring_idx. destruct (Nat.leb_spec n (out + 0)); lia. Qed.
Lemma ring_idx_inj out i j :
  (out < n)%nat -> (i < n)%nat -> (j < n)%nat -> ring_idx out i = ring_idx out j -> i = j.
Proof. unfold ring_idx. destruct (Nat.leb_spec n (out + i)), (Nat.leb_spec n (out + j)); lia. Qed.
Lemma ring_idx_add out i j :
  (out < n)%nat -> (i + j <= n)%nat -> (i < n)%nat -> ring_idx (ring_idx out i) j = ring_idx out (i + j).
Proof.
  intros Ho Hij Hi. unfold ring_idx.
  destruct (Nat.leb_spec n (out + i)), (Nat.leb_spec n (out + (i + j)));
    match goal with |- context [(n <=? ?x)%nat] => destruct (Nat.leb_spec n x) end; lia.
Qed.

Lemma nth_insert_ne (pool : list A) i j v : i <> j -> nth j (<[i := v]> pool) d = nth j pool d.
Proof. intros H. rewrite !nth_lookup. by rewrite list_lookup_insert_ne. Qed.
Lemma nth_insert_eq (pool : list A) i v : (i < length pool)%nat -> nth i (<[i := v]> pool) d = v.
Proof. intros H. rewrite nth_lookup. by rewrite list_lookup_insert_eq. Qed.

Lemma length_ring out len pool : length (ring_contents out len pool) = len.
Proof. unfold ring_contents. by rewrite length_map, length_seq. Qed.
Lemma ring_insert_out out len pool j v :
  (forall i, (i < len)%nat -> ring_idx out i <> j) -> ring_contents out len (<[j := v]> pool) = ring_contents out len pool.
Proof.
  intros H. unfold ring_contents. apply map_ext_in. intros i Hi%in_seq.
  apply nth_insert_ne. intros E. apply (H i); [lia|done].
Qed.

Lemma ring_put out len pool v :
  length pool = n -> (out < n)%nat -> (len < n)%nat ->
  ring_contents out (S len) (<[ring_idx out len := v]> pool) = ring_contents out len pool ++ [v].
Proof.
  intros Hp Ho Hl. unfold ring_contents at 1. rewrite seq_S, map_app. f_equal.
  - fold (ring_contents out len (<[ring_idx out len := v]> pool)). apply ring_insert_out.
    intros i Hi E. apply ring_idx_inj in E; lia.
  - simpl. f_equal. apply nth_insert_eq. rewrite Hp. apply ring_idx_lt; lia.
Qed.
Lemma ring_get out len pool :
  (out < n)%nat -> (S len <= n)%nat ->
  ring_contents out (S len) pool = nth out pool d :: ring_contents (ring_idx out 1) len pool.
Proof.
  intros Ho Hl. unfold ring_contents. simpl. rewrite ring_idx_0 by done. f_equal.
  rewrite <- seq_shift, map_map. apply map_ext_in. intros i Hi%in_seq.
  destruct (decide (n = 1%nat)); [lia|]. by rewrite ring_idx_add by lia.
Qed.
Lemma ring_put_front out' out len pool v :
  length pool = n -> (out' < n)%nat -> (len < n)%nat -> ring_idx out' 1 = out ->
  ring_contents out' (S len) (<[out' := v]> pool) = v :: ring_contents out len pool.
Proof.
  intros Hp Ho Hl <-. rewrite ring_get by lia. rewrite nth_insert_eq by lia. f_equal.
  apply ring_insert_out. intros i Hi E.
  rewrite ring_idx_add in E by lia. rewrite <- (ring_idx_0 out') in E at 2 by lia.
  apply ring_idx_inj in E; lia.
Qed.

(** ** Blocks *)
Lemma ring_idx_full out : (out < n)%nat -> ring_idx out n = out.
Proof. unfold ring_idx. destruct (Nat.leb_spec n (out + n)); lia. Qed.
Lemma ring_idx_cases out i : (out < n)%nat -> (i <= n)%nat ->
  (out + i < n /\ ring_idx out i = out + i \/ n <= out + i /\ ring_idx out i = out + i - n)%nat.
Proof. unfold ring_idx. destruct (Nat.leb_spec n (out + i)); lia. Qed.

Lemma lookup_ring out len pool i :
  length pool = n -> (out < n)%nat -> (i < len <= n)%nat ->
  ring_contents out len pool !! i = pool !! ring_idx out i.
Proof.
  intros Hp Ho Hi. unfold ring_contents. rewrite list_lookup_fmap, lookup_seq_lt by lia. simpl.
  destruct (lookup_lt_is_Some_2 pool (ring_idx out i)) as [x Hx].
  { rewrite Hp. apply ring_idx_lt; lia. }
  by rewrite nth_lookup, Hx.
Qed.
Lemma ring_ext out len l pool :
  length pool = n -> (out < n)%nat -> (len <= n)%nat -> length l = len ->
  (forall i, (i < len)%nat -> pool !! ring_idx out i = l !! i) -> ring_contents out len pool = l.
Proof.
  intros Hp Ho Hl Hlen H. apply list_eq. intros i. destruct (decide (i < len)%nat).
  - rewrite lookup_ring by lia. by apply H.
  - rewrite !lookup_ge_None_2; [done|lia|rewrite length_ring; lia].
Qed.

Lemma ring_drop out len k pool :
  length pool = n -> (out < n)%nat -> (k <= len <= n)%nat ->
  ring_contents (ring_idx out k) (len - k) pool = drop k (ring_contents out len pool).
Proof.
  intros Hp Ho Hk. apply ring_ext; [done|apply ring_idx_lt; lia|lia|rewrite length_drop, length_ring; lia|].
  intros i Hi. rewrite lookup_drop, lookup_ring by lia. rewrite ring_idx_add by lia. done.
Qed.

(** The two copies of a block store: up to the end of the array, the rest at its
    start. *)
Definition ring_store (w : nat) (data pool : list A) : list A :=
  list_inserts 0 (drop (n - w) data) (list_inserts w (take (n - w) data) pool).
Lemma length_ring_store w data pool : length (ring_store w data pool) = length pool.
Proof. unfold ring_store. by rewrite !length_inserts. Qed.
Lemma lookup_ring_store w data pool i j :
  length pool = n -> (w < n)%nat -> (length data <= n)%nat -> (i < n)%nat -> j = ring_idx w i ->
  ring_store w data pool !! j = if decide (i < length data)%nat then data !! i else pool !! j.
Proof.
  intros Hp Hw Hd Hi ->. unfold ring_store. destruct (ring_idx_cases w i Hw ltac:(lia)) as [[H ->]|[H ->]].
  - rewrite list_lookup_inserts_ge by (rewrite length_drop; lia). destruct (decide (i < length data)%nat).
    + rewrite list_lookup_inserts by (rewrite ?length_take; lia). rewrite lookup_take_lt by lia. f_equal. lia.
    + by rewrite list_lookup_inserts_ge by (rewrite length_take; lia).
  - destruct (decide (i < length data)%nat).
    + rewrite list_lookup_inserts by (rewrite ?length_drop, ?length_inserts; lia). rewrite lookup_drop. f_equal. lia.
    + rewrite list_lookup_inserts_ge by (rewrite length_drop; lia). by rewrite list_lookup_inserts_lt by lia.
Qed.

Lemma ring_put_block out len data pool :
  length pool = n -> (out < n)%nat -> (len + length data <= n)%nat -> (len < n)%nat ->
  ring_contents out (len + length data) (ring_store (ring_idx out len) data pool) = ring_contents out len pool ++ data.
Proof.
  intros Hp Ho Hl Hn. pose proof (ring_idx_lt out len Ho ltac:(lia)) as Hw.
  apply ring_ext; [by rewrite length_ring_store|done|lia|by rewrite length_app, length_ring|].
  intros i Hi. destruct (decide (i < len)%nat) as [Hc|Hc].
  - rewrite lookup_app_l by (rewrite length_ring; lia). rewrite lookup_ring by lia.
    rewrite (lookup_ring_store _ _ _ (n - len + i)); [|done|done|lia|lia|].
    + by rewrite decide_False by lia.
    + destruct (ring_idx_cases out len Ho ltac:(lia)), (ring_idx_cases out i Ho ltac:(lia)),
        (ring_idx_cases (ring_idx out len) (n - len + i) Hw ltac:(lia)); lia.
  - rewrite lookup_app_r by (rewrite length_ring; lia). rewrite length_ring.
    rewrite (lookup_ring_store _ _ _ (i - len)); [|done|done|lia|lia|].
    + by rewrite decide_True by lia.
    + rewrite ring_idx_add by lia. f_equal. lia.
Qed.

(** The two copies of a block fetch. *)
Definition ring_fetch (r len : nat) (pool : list A) : list A :=
  take len (drop r pool) ++ take (len - (n - r)) pool.
Lemma ring_fetch_eq out len pool :
  length pool = n -> (out < n)%nat -> (len <= n)%nat -> ring_contents out len pool = ring_fetch out len pool.
Proof.
  intros Hp Ho Hl. unfold ring_fetch. apply ring_ext; [done|done|done|rewrite length_app, !length_take, length_drop; lia|].
  intros i Hi. destruct (ring_idx_cases out i Ho ltac:(lia)) as [[H ->]|[H ->]].
  - rewrite lookup_app_l by (rewrite length_take, length_drop; lia). by rewrite lookup_take_lt, lookup_drop by lia.
  - rewrite lookup_app_r by (rewrite length_take, length_drop; lia). rewrite length_take, length_drop.
    rewrite lookup_take_lt by lia. f_equal. lia.
Qed.
End ring.
