(* ===== verification/RingBuffer.v ===== *)
(** * The byte ring buffer ([src/rt-thread/components/drivers/ipc/ringbuffer.c])

    The indices of the two ends run over the buffer and over a virtual mirror of
    it: one mirror bit each tells a full buffer from an empty one.  The second
    half of the file shows that the buffer is a bounded queue of bytes. *)
From S2P Require Import Prelude Ring.

(** The mirror bits are bit-fields of one bit, the indices of 31. *)
Definition u31 (z : Z) : Z := z mod 2 ^ 31.
Record rt_ringbuffer := RingBuffer {
  buffer_ptr : list Z;
  read_mirror : bool; read_index : Z;
  write_mirror : bool; write_index : Z;
  buffer_size : Z;
}.
Definition rb_read (mirror : bool) (index : Z) (rb : rt_ringbuffer) : rt_ringbuffer :=
  RingBuffer (buffer_ptr rb) mirror (u31 index) (write_mirror rb) (write_index rb) (buffer_size rb).
Definition rb_write (mirror : bool) (index : Z) (rb : rt_ringbuffer) : rt_ringbuffer :=
  RingBuffer (buffer_ptr rb) (read_mirror rb) (read_index rb) mirror (u31 index) (buffer_size rb).
(** [rt_memcpy(&rb->buffer_ptr[at], src, n)] and [rt_memcpy(dst, &rb->buffer_ptr[at], n)] *)
Definition rb_store (at_ : Z) (src : list Z) (n : Z) (rb : rt_ringbuffer) : rt_ringbuffer :=
  RingBuffer (list_inserts (Z.to_nat at_) (take (Z.to_nat n) src) (buffer_ptr rb))
    (read_mirror rb) (read_index rb) (write_mirror rb) (write_index rb) (buffer_size rb).
Definition rb_load (at_ n : Z) (rb : rt_ringbuffer) : list Z :=
  take (Z.to_nat n) (drop (Z.to_nat at_) (buffer_ptr rb)).

Inductive rt_ringbuffer_state := RT_RINGBUFFER_EMPTY | RT_RINGBUFFER_FULL | RT_RINGBUFFER_HALFFULL.
#[global] Instance rt_ringbuffer_state_eq_dec : EqDecision rt_ringbuffer_state.
Proof. solve_decision. Defined.

Definition rt_ringbuffer_status (rb : rt_ringbuffer) : rt_ringbuffer_state :=
  if read_index rb =? write_index rb then
    if Bool.eqb (read_mirror rb) (write_mirror rb) then RT_RINGBUFFER_EMPTY else RT_RINGBUFFER_FULL
  else RT_RINGBUFFER_HALFFULL.

Definition rt_ringbuffer_data_len (rb : rt_ringbuffer) : Z :=
  match rt_ringbuffer_status rb with
  | RT_RINGBUFFER_EMPTY => 0
  | RT_RINGBUFFER_FULL => buffer_size rb
  | RT_RINGBUFFER_HALFFULL =>
      let wi := write_index rb in
      let ri := read_index rb in
      if ri <? wi then u32 (wi - ri) else u32 (buffer_size rb - (ri - wi))
  end.
Definition rt_ringbuffer_space_len (rb : rt_ringbuffer) : Z := u32 (buffer_size rb - rt_ringbuffer_data_len rb).
Definition rt_ringbuffer_get_size (rb : rt_ringbuffer) : Z := buffer_size rb.

Definition rt_ringbuffer_init (pool : list Z) (size : Z) : rt_ringbuffer :=
  RingBuffer pool false 0 false 0 (RT_ALIGN_DOWN size RT_ALIGN_SIZE).

Definition rt_ringbuffer_put (rb : rt_ringbuffer) (ptr : list Z) (length : Z) : rt_ringbuffer * Z :=
  let size := rt_ringbuffer_space_len rb in
  (* no space *)
  if size =? 0 then (rb, 0)
  else
    (* drop some data *)
    let length := if size <? length then size else length in
    let n := u32 (buffer_size rb - write_index rb) in
    if length <? n then
      let rb := rb_store (write_index rb) ptr length rb in
      (rb_write (write_mirror rb) (write_index rb + length) rb, length)
    else
      let rb := rb_store (write_index rb) ptr n rb in
      let rb := rb_store 0 (drop (Z.to_nat n) ptr) (u32 (length - n)) rb in
      (rb_write (negb (write_mirror rb)) (u32 (length - n)) rb, length).

Definition rt_ringbuffer_put_force (rb : rt_ringbuffer) (ptr : list Z) (length : Z) : rt_ringbuffer * Z :=
  let space_length := rt_ringbuffer_space_len rb in
  let '(ptr, length) :=
    if buffer_size rb <? length then (drop (Z.to_nat (length - buffer_size rb)) ptr, buffer_size rb)
    else (ptr, length) in
  let n := u32 (buffer_size rb - write_index rb) in
  if length <? n then
    let rb := rb_store (write_index rb) ptr length rb in
    let rb := rb_write (write_mirror rb) (write_index rb + length) rb in
    let rb := if space_length <? length then rb_read (read_mirror rb) (write_index rb) rb else rb in
    (rb, length)
  else
    let rb := rb_store (write_index rb) ptr n rb in
    let rb := rb_store 0 (drop (Z.to_nat n) ptr) (u32 (length - n)) rb in
    let rb := rb_write (negb (write_mirror rb)) (u32 (length - n)) rb in
    let rb :=
      if space_length <? length then
        let rb := if write_index rb <=? read_index rb then rb_read (negb (read_mirror rb)) (read_index rb) rb else rb in
        rb_read (read_mirror rb) (write_index rb) rb
      else rb in
    (rb, length).

(** The bytes that a read copies out are part of the result. *)
Definition rt_ringbuffer_get (rb : rt_ringbuffer) (length : Z) : rt_ringbuffer * Z * list Z :=
  let size := rt_ringbuffer_data_len rb in
  (* no data *)
  if size =? 0 then (rb, 0, [])
  else
    (* less data *)
    let length := if size <? length then size else length in
    let n := u32 (buffer_size rb - read_index rb) in
    if length <? n then
      (rb_read (read_mirror rb) (read_index rb + length) rb, length, rb_load (read_index rb) length rb)
    else
      (rb_read (negb (read_mirror rb)) (u32 (length - n)) rb, length,
       rb_load (read_index rb) n rb ++ rb_load 0 (u32 (length - n)) rb).

(** [*ptr] is the offset in the buffer of the first byte, if there is one. *)
Definition rt_ringbuffer_peek (rb : rt_ringbuffer) : rt_ringbuffer * Z * option Z :=
  let size := rt_ringbuffer_data_len rb in
  if size =? 0 then (rb, 0, None)
  else
    let ptr := Some (read_index rb) in
    let n := u32 (buffer_size rb - read_index rb) in
    if size <? n then (rb_read (read_mirror rb) (read_index rb + size) rb, size, ptr)
    else (rb_read (negb (read_mirror rb)) 0 rb, n, ptr).

Definition rt_ringbuffer_putchar (rb : rt_ringbuffer) (ch : Z) : rt_ringbuffer * Z :=
  if rt_ringbuffer_space_len rb =? 0 then (rb, 0)
  else
    let rb := rb_store (write_index rb) [ch] 1 rb in
    if write_index rb =? buffer_size rb - 1 then (rb_write (negb (write_mirror rb)) 0 rb, 1)
    else (rb_write (write_mirror rb) (write_index rb + 1) rb, 1).

Definition rt_ringbuffer_putchar_force (rb : rt_ringbuffer) (ch : Z) : rt_ringbuffer * Z :=
  let old_state := rt_ringbuffer_status rb in
  let rb := rb_store (write_index rb) [ch] 1 rb in
  let rb :=
    if write_index rb =? buffer_size rb - 1 then
      let rb := rb_write (negb (write_mirror rb)) 0 rb in
      if decide (old_state = RT_RINGBUFFER_FULL) then rb_read (negb (read_mirror rb)) (write_index rb) rb else rb
    else
      let rb := rb_write (write_mirror rb) (write_index rb + 1) rb in
      if decide (old_state = RT_RINGBUFFER_FULL) then rb_read (read_mirror rb) (write_index rb) rb else rb in
  (rb, 1).

Definition rt_ringbuffer_getchar (rb : rt_ringbuffer) : rt_ringbuffer * Z * list Z :=
  if rt_ringbuffer_data_len rb =? 0 then (rb, 0, [])
  else
    let ch := rb_load (read_index rb) 1 rb in
    if read_index rb =? buffer_size rb - 1 then (rb_read (negb (read_mirror rb)) 0 rb, 1, ch)
    else (rb_read (read_mirror rb) (read_index rb + 1) rb, 1, ch).

Definition rt_ringbuffer_reset (rb : rt_ringbuffer) : rt_ringbuffer :=
  RingBuffer (buffer_ptr rb) false 0 false 0 (buffer_size rb).

(** [header] is whether the first allocation succeeds, [alloc] what the second
    one, of the buffer, gives. *)
Definition rt_ringbuffer_create (header : bool) (alloc : Z -> option (list Z)) (size : Z) : option rt_ringbuffer :=
  let size := RT_ALIGN_DOWN size RT_ALIGN_SIZE in
  if header then
    match alloc size with
    | Some pool => Some (rt_ringbuffer_init pool size)
    | None => None
    end
  else None.

(** ** The bounded queue it implements *)
Definition rb_contents (rb : rt_ringbuffer) : list Z :=
  ring_contents 0 (Z.to_nat (buffer_size rb)) (Z.to_nat (read_index rb))
    (Z.to_nat (rt_ringbuffer_data_len rb)) (buffer_ptr rb).
Record rb_ok (rb : rt_ringbuffer) : Prop := {
  rbo_size : 0 < buffer_size rb < 2 ^ 31;
  rbo_pool : length (buffer_ptr rb) = Z.to_nat (buffer_size rb);
  rbo_read : 0 <= read_index rb < buffer_size rb;
  rbo_write : 0 <= write_index rb < buffer_size rb;
  rbo_mirror : if Bool.eqb (read_mirror rb) (write_mirror rb) then read_index rb <= write_index rb
               else write_index rb <= read_index rb;
}.

Lemma u31_id z : 0 <= z < 2 ^ 31 -> u31 z = z.
Proof. apply Z.mod_small. Qed.

(** The number of bytes from the mirrored indices. *)
Lemma data_len_eq rb : rb_ok rb ->
  rt_ringbuffer_data_len rb =
    if Bool.eqb (read_mirror rb) (write_mirror rb) then write_index rb - read_index rb
    else buffer_size rb - (read_index rb - write_index rb).
Proof.
  intros [H1 _ H3 H4 H5]. unfold rt_ringbuffer_data_len, rt_ringbuffer_status.
  destruct (Z.eqb_spec (read_index rb) (write_index rb)), (Bool.eqb (read_mirror rb) (write_mirror rb)); try lia.
  - destruct (Z.ltb_spec (read_index rb) (write_index rb)); [|lia]. apply u32_small. lia.
  - destruct (Z.ltb_spec (read_index rb) (write_index rb)); [lia|]. apply u32_small. lia.
Qed.
Lemma data_len_range rb : rb_ok rb -> 0 <= rt_ringbuffer_data_len rb <= buffer_size rb.
Proof. intros H. rewrite data_len_eq by done. destruct H as [H1 _ H3 H4 H5]. destruct (Bool.eqb _ _); lia. Qed.
Lemma space_len_eq rb : rb_ok rb -> rt_ringbuffer_space_len rb = buffer_size rb - rt_ringbuffer_data_len rb.
Proof. intros H. pose proof (data_len_range _ H). destruct H as [H1 _ _ _ _]. apply u32_small. lia. Qed.
Lemma length_contents rb : length (rb_contents rb) = Z.to_nat (rt_ringbuffer_data_len rb).
Proof. apply length_ring. Qed.

(** The write index is where the contents end. *)
Lemma write_index_eq rb : rb_ok rb -> Z.to_nat (write_index rb) =
  ring_idx (Z.to_nat (buffer_size rb)) (Z.to_nat (read_index rb)) (Z.to_nat (rt_ringbuffer_data_len rb)).
Proof.
  intros H. rewrite data_len_eq by done. destruct H as [H1 _ H3 H4 H5]. unfold ring_idx.
  destruct (Bool.eqb _ _); match goal with |- context [(?a <=? ?b)%nat] => destruct (Nat.leb_spec a b) end; lia.
Qed.

(** ** Writing *)
Lemma contents_eq b b' : buffer_ptr b = buffer_ptr b' -> buffer_size b = buffer_size b' ->
  read_index b = read_index b' -> rt_ringbuffer_data_len b = rt_ringbuffer_data_len b' -> rb_contents b = rb_contents b'.
Proof. unfold rb_contents. by intros -> -> -> ->. Qed.

(** Where a block of [length] bytes at the write index leaves that index. *)
Definition rb_advance (rb : rt_ringbuffer) (length : Z) : bool * Z :=
  if length <? buffer_size rb - write_index rb then (write_mirror rb, write_index rb + length)
  else (negb (write_mirror rb), length - (buffer_size rb - write_index rb)).
Definition rb_append (rb : rt_ringbuffer) (data : list Z) : rt_ringbuffer :=
  let '(m, i) := rb_advance rb (Z.of_nat (length data)) in
  RingBuffer (ring_store (Z.to_nat (buffer_size rb)) (Z.to_nat (write_index rb)) data (buffer_ptr rb))
    (read_mirror rb) (read_index rb) m i (buffer_size rb).

Lemma rb_append_ok rb data : rb_ok rb ->
  rt_ringbuffer_data_len rb + Z.of_nat (length data) <= buffer_size rb -> rt_ringbuffer_data_len rb < buffer_size rb ->
  rb_ok (rb_append rb data) /\ rb_contents (rb_append rb data) = rb_contents rb ++ data /\
  buffer_size (rb_append rb data) = buffer_size rb.
Proof.
  intros H Hl Hn. pose proof (write_index_eq _ H) as Hw. pose proof (data_len_range _ H) as Hr.
  pose proof (data_len_eq _ H) as Hd. destruct H as [H1 H2 H3 H4 H5].
  assert (Hok : rb_ok (rb_append rb data)).
  { unfold rb_append, rb_advance. destruct (Z.ltb_spec (Z.of_nat (length data)) (buffer_size rb - write_index rb));
      constructor; cbn; rewrite ?length_ring_store; try done; try lia;
      destruct (read_mirror rb), (write_mirror rb); cbn in *; lia. }
  split; [done|]. split; [|unfold rb_append; by destruct (rb_advance rb _)].
  assert (Hlen : rt_ringbuffer_data_len (rb_append rb data) = rt_ringbuffer_data_len rb + Z.of_nat (length data)).
  { rewrite data_len_eq, Hd by done. unfold rb_append, rb_advance.
    destruct (Z.ltb_spec (Z.of_nat (length data)) (buffer_size rb - write_index rb)); cbn;
    destruct (read_mirror rb), (write_mirror rb); cbn in *; lia. }
  unfold rb_contents. rewrite Hlen, Z2Nat.inj_add, Nat2Z.id by lia.
  unfold rb_append. destruct (rb_advance rb _) as [m i]. cbn [buffer_ptr read_index buffer_size].
  rewrite Hw. apply ring_put_block; [done|lia|lia|lia].
Qed.

Lemma store_whole rb src len : rb_ok rb -> 0 <= len < buffer_size rb - write_index rb -> len <= Z.of_nat (length src) ->
  list_inserts (Z.to_nat (write_index rb)) (take (Z.to_nat len) src) (buffer_ptr rb) =
  ring_store (Z.to_nat (buffer_size rb)) (Z.to_nat (write_index rb)) (take (Z.to_nat len) src) (buffer_ptr rb).
Proof.
  intros [H1 H2 H3 H4 H5] Hl Hs. unfold ring_store. rewrite drop_ge by (rewrite length_take; lia). cbn [list_inserts].
  f_equal. by rewrite take_take, Nat.min_r by lia.
Qed.
Lemma store_split rb src len : rb_ok rb -> buffer_size rb - write_index rb <= len <= Z.of_nat (length src) ->
  let n := buffer_size rb - write_index rb in
  list_inserts 0 (take (Z.to_nat (len - n)) (drop (Z.to_nat n) src))
    (list_inserts (Z.to_nat (write_index rb)) (take (Z.to_nat n) src) (buffer_ptr rb)) =
  ring_store (Z.to_nat (buffer_size rb)) (Z.to_nat (write_index rb)) (take (Z.to_nat len) src) (buffer_ptr rb).
Proof.
  intros [H1 H2 H3 H4 H5] Hl n. unfold ring_store. replace (Z.to_nat (buffer_size rb) - Z.to_nat (write_index rb))%nat
    with (Z.to_nat n) by lia. f_equal.
  - rewrite skipn_firstn_comm. f_equal. lia.
  - f_equal. rewrite take_take, Nat.min_l by lia. done.
Qed.

(** ** Reading *)
Definition rb_skip (rb : rt_ringbuffer) (k : Z) : rt_ringbuffer :=
  let '(m, i) := if k <? buffer_size rb - read_index rb then (read_mirror rb, read_index rb + k)
                 else (negb (read_mirror rb), k - (buffer_size rb - read_index rb)) in
  RingBuffer (buffer_ptr rb) m i (write_mirror rb) (write_index rb) (buffer_size rb).
Lemma rb_skip_index rb k : rb_ok rb -> 0 <= k <= rt_ringbuffer_data_len rb ->
  Z.to_nat (read_index (rb_skip rb k)) = ring_idx (Z.to_nat (buffer_size rb)) (Z.to_nat (read_index rb)) (Z.to_nat k).
Proof.
  intros H Hk. pose proof (data_len_range _ H). destruct H as [H1 H2 H3 H4 H5]. unfold rb_skip, ring_idx.
  destruct (Z.ltb_spec k (buffer_size rb - read_index rb)), (Nat.leb_spec (Z.to_nat (buffer_size rb)) (Z.to_nat (read_index rb) + Z.to_nat k));
    cbn; lia.
Qed.
Lemma rb_skip_ok rb k : rb_ok rb -> 0 <= k <= rt_ringbuffer_data_len rb ->
  rb_ok (rb_skip rb k) /\ rb_contents (rb_skip rb k) = drop (Z.to_nat k) (rb_contents rb) /\
  buffer_size (rb_skip rb k) = buffer_size rb /\
  rt_ringbuffer_data_len (rb_skip rb k) = rt_ringbuffer_data_len rb - k.
Proof.
  intros H Hk. pose proof (rb_skip_index rb k H Hk) as Hi. pose proof (data_len_range _ H) as Hr.
  pose proof (data_len_eq _ H) as Hd. destruct H as [H1 H2 H3 H4 H5].
  assert (Hok : rb_ok (rb_skip rb k)).
  { unfold rb_skip. destruct (Z.ltb_spec k (buffer_size rb - read_index rb)); constructor; cbn; try done; try lia;
      destruct (read_mirror rb), (write_mirror rb); cbn in *; lia. }
  assert (Hlen : rt_ringbuffer_data_len (rb_skip rb k) = rt_ringbuffer_data_len rb - k).
  { rewrite data_len_eq, Hd by done. unfold rb_skip.
    destruct (Z.ltb_spec k (buffer_size rb - read_index rb)); cbn; destruct (read_mirror rb), (write_mirror rb); cbn in *; lia. }
  assert (Hs : buffer_size (rb_skip rb k) = buffer_size rb) by (unfold rb_skip; by destruct (k <? _)).
  assert (Hp : buffer_ptr (rb_skip rb k) = buffer_ptr rb) by (unfold rb_skip; by destruct (k <? _)).
  split; [done|]. split; [|done]. unfold rb_contents. rewrite Hlen, Hs, Hp, Hi, Z2Nat.inj_sub by lia.
  apply ring_drop; [done|lia|lia].
Qed.

(** The bytes that a read finds. *)
Lemma load_whole rb k : rb_ok rb -> 0 <= k <= rt_ringbuffer_data_len rb -> k <= buffer_size rb - read_index rb ->
  rb_load (read_index rb) k rb = take (Z.to_nat k) (rb_contents rb).
Proof.
  intros H Hk Hn. pose proof (data_len_range _ H). destruct H as [H1 H2 H3 H4 H5]. unfold rb_contents, rb_load.
  rewrite (ring_fetch_eq 0) by lia. unfold ring_fetch. rewrite take_app_le.
  - rewrite take_take. by rewrite Nat.min_l by lia.
  - rewrite length_take, length_drop. lia.
Qed.
Lemma load_split rb k : rb_ok rb -> k <= rt_ringbuffer_data_len rb -> buffer_size rb - read_index rb <= k ->
  let n := buffer_size rb - read_index rb in
  rb_load (read_index rb) n rb ++ rb_load 0 (k - n) rb = take (Z.to_nat k) (rb_contents rb).
Proof.
  intros H Hk Hn n. pose proof (data_len_range _ H). destruct H as [H1 H2 H3 H4 H5]. unfold rb_contents, rb_load.
  rewrite (ring_fetch_eq 0) by lia. unfold ring_fetch. rewrite take_app, !take_take, length_take, length_drop. f_equal.
  - rewrite !(take_ge (drop _ _)); [done|rewrite length_drop; lia|rewrite length_drop; lia].
  - cbn [drop]. f_equal. lia.
Qed.

(** ** The operations as appends and skips *)
Lemma put_eq rb ptr len : rb_ok rb -> 0 <= len <= Z.of_nat (length ptr) -> Z.of_nat (length ptr) < 2 ^ 32 ->
  rt_ringbuffer_put rb ptr len =
    if rt_ringbuffer_data_len rb =? buffer_size rb then (rb, 0)
    else let k := Z.min len (buffer_size rb - rt_ringbuffer_data_len rb) in (rb_append rb (take (Z.to_nat k) ptr), k).
Proof.
  intros H Hl Hp. unfold rt_ringbuffer_put. rewrite space_len_eq by done. pose proof (data_len_range _ H) as Hr.
  pose proof H as [H1 H2 H3 H4 H5]. destruct (Z.eqb_spec (rt_ringbuffer_data_len rb) (buffer_size rb)) as [E|E].
  { destruct (Z.eqb_spec (buffer_size rb - rt_ringbuffer_data_len rb) 0); [done|lia]. }
  destruct (Z.eqb_spec (buffer_size rb - rt_ringbuffer_data_len rb) 0); [lia|].
  assert (Ek : (if buffer_size rb - rt_ringbuffer_data_len rb <? len then buffer_size rb - rt_ringbuffer_data_len rb else len) =
    Z.min len (buffer_size rb - rt_ringbuffer_data_len rb)).
  { destruct (Z.ltb_spec (buffer_size rb - rt_ringbuffer_data_len rb) len); lia. }
  rewrite Ek. set (k := Z.min _ _). assert (Hk : 0 <= k <= buffer_size rb /\ k <= len) by lia. clearbody k. cbv zeta.
  rewrite (u32_small (buffer_size rb - write_index rb)) by lia. unfold rb_append, rb_advance. rewrite length_take.
  replace (Z.of_nat (Z.to_nat k `min` length ptr)) with k by lia.
  destruct (Z.ltb_spec k (buffer_size rb - write_index rb)).
  - f_equal. unfold rb_write, rb_store. cbn. rewrite u31_id by lia. f_equal. apply store_whole; [done|lia|lia].
  - f_equal. unfold rb_write, rb_store. cbn. rewrite !u32_small, u31_id by lia. f_equal. apply store_split; [done|lia].
Qed.
Lemma get_eq rb len : rb_ok rb -> 0 <= len ->
  let k := Z.min len (rt_ringbuffer_data_len rb) in
  rt_ringbuffer_get rb len = (rb_skip rb k, k, take (Z.to_nat k) (rb_contents rb)).
Proof.
  intros H Hl. unfold rt_ringbuffer_get. pose proof (data_len_range _ H) as Hr. pose proof H as [H1 H2 H3 H4 H5].
  destruct (Z.eqb_spec (rt_ringbuffer_data_len rb) 0) as [E|E]; cbv zeta.
  { rewrite E, Z.min_r by lia. f_equal. f_equal. unfold rb_skip. destruct (Z.ltb_spec 0 (buffer_size rb - read_index rb)); [|lia].
    rewrite Z.add_0_r. by destruct rb. }
  replace (if rt_ringbuffer_data_len rb <? len then rt_ringbuffer_data_len rb else len) with (Z.min len (rt_ringbuffer_data_len rb))
    by (destruct (Z.ltb_spec (rt_ringbuffer_data_len rb) len); lia).
  set (k := Z.min _ _). assert (Hk : 0 <= k <= rt_ringbuffer_data_len rb) by lia. clearbody k.
  rewrite (u32_small (buffer_size rb - read_index rb)) by lia. unfold rb_skip.
  destruct (Z.ltb_spec k (buffer_size rb - read_index rb)); unfold rb_read.
  - rewrite u31_id by lia. by rewrite load_whole by (done || lia).
  - rewrite u32_small, u31_id by lia. by rewrite load_split by (done || lia).
Qed.

Ltac rb_cbn := cbn [buffer_ptr read_mirror read_index write_mirror write_index buffer_size] in *.
Ltac rb_fields := f_equal; try done; f_equal; first [done | lia].
(** The last bytes of a block that is longer than the buffer. *)
Definition last_bytes (n : Z) (l : list Z) : list Z := drop (Z.to_nat (Z.of_nat (length l) - n)) l.
Lemma length_last_bytes n l : 0 <= n -> Z.of_nat (length (last_bytes n l)) = Z.min n (Z.of_nat (length l)).
Proof. intros Hn. unfold last_bytes. rewrite length_drop. lia. Qed.

Lemma put_force_eq rb data : rb_ok rb -> Z.of_nat (length data) < 2 ^ 32 ->
  let data' := last_bytes (buffer_size rb) data in
  let L := Z.of_nat (length data') in
  rt_ringbuffer_put_force rb data (Z.of_nat (length data)) =
    (rb_append (rb_skip rb (Z.max 0 (rt_ringbuffer_data_len rb + L - buffer_size rb))) data', L).
Proof.
  intros H Hp data' L. unfold rt_ringbuffer_put_force. rewrite space_len_eq by done. pose proof (data_len_range _ H) as Hr.
  pose proof (data_len_eq _ H) as Hd. pose proof H as [H1 H2 H3 H4 H5].
  assert (HL : L = Z.min (buffer_size rb) (Z.of_nat (length data))) by (apply length_last_bytes; lia).
  replace (if buffer_size rb <? Z.of_nat (length data) then _ else _) with (data', L).
  2:{ destruct (Z.ltb_spec (buffer_size rb) (Z.of_nat (length data))).
      - unfold data', last_bytes. f_equal. lia.
      - unfold data', last_bytes. rewrite Z2Nat.nonpos by lia. f_equal. lia. }
  assert (Ht : take (Z.to_nat L) data' = data') by (apply take_ge; unfold L; lia).
  rewrite (u32_small (buffer_size rb - write_index rb)) by lia. unfold rb_append, rb_advance. fold L.
  pose proof (store_whole rb data' L H) as Hw. pose proof (store_split rb data' L H) as Hsp.
  assert (HlL : Z.of_nat (length data') = L) by done. rewrite Ht in Hw, Hsp. clearbody data' L. cbv zeta in *. unfold rb_skip.
  destruct rb as [pool rm ri wm wi bs]; rb_cbn.
  set (dl := rt_ringbuffer_data_len _) in *. clearbody dl.
  destruct (Z.ltb_spec (Z.max 0 (dl + L - bs)) (bs - ri)); rb_cbn; destruct (Z.ltb_spec L (bs - wi)) as [Hc|Hc].
  1,3: specialize (Hw ltac:(lia) ltac:(lia)); rewrite <- Hw; unfold rb_write, rb_read, rb_store; rb_cbn;
    rewrite Ht, !(u31_id (wi + L)) by lia; destruct (Z.ltb_spec (bs - dl) L); rb_cbn;
    destruct rm, wm; cbn [Bool.eqb negb] in *; rb_fields.
  all: specialize (Hsp ltac:(lia)); unfold rb_write, rb_read, rb_store; rb_cbn; change (Z.to_nat 0) with 0%nat;
    rewrite !(u32_small (L - (bs - wi))), !(u31_id (L - (bs - wi))), Hsp by lia;
    destruct (Z.ltb_spec (bs - dl) L); rb_cbn; try destruct (Z.leb_spec (L - (bs - wi)) ri); rb_cbn;
    rewrite ?(u31_id ri), ?(u31_id (L - (bs - wi))) by lia; destruct rm, wm; cbn [Bool.eqb negb] in *; rb_fields.
Qed.

Lemma append_one rb ch : rb_ok rb ->
  rb_append rb [ch] = (if write_index rb =? buffer_size rb - 1 then rb_write (negb (write_mirror rb)) 0 (rb_store (write_index rb) [ch] 1 rb)
                       else rb_write (write_mirror rb) (write_index rb + 1) (rb_store (write_index rb) [ch] 1 rb)).
Proof.
  intros H. pose proof H as [H1 H2 H3 H4 H5]. unfold rb_append, rb_advance. change (Z.of_nat (length [ch])) with 1.
  assert (E : ring_store (Z.to_nat (buffer_size rb)) (Z.to_nat (write_index rb)) [ch] (buffer_ptr rb) =
    list_inserts (Z.to_nat (write_index rb)) [ch] (buffer_ptr rb)).
  { unfold ring_store. rewrite drop_ge, take_ge by (simpl; lia). done. }
  unfold rb_write, rb_store. rb_cbn. change (take (Z.to_nat 1) [ch]) with [ch]. rewrite E.
  destruct (Z.ltb_spec 1 (buffer_size rb - write_index rb)), (Z.eqb_spec (write_index rb) (buffer_size rb - 1)); try lia; rb_cbn.
  - by rewrite u31_id by lia.
  - f_equal. change (u31 0) with 0. lia.
Qed.
Lemma skip_one rb : rb_ok rb ->
  rb_skip rb 1 = if read_index rb =? buffer_size rb - 1 then rb_read (negb (read_mirror rb)) 0 rb
                 else rb_read (read_mirror rb) (read_index rb + 1) rb.
Proof.
  intros [H1 H2 H3 H4 H5]. unfold rb_skip, rb_read.
  destruct (Z.ltb_spec 1 (buffer_size rb - read_index rb)), (Z.eqb_spec (read_index rb) (buffer_size rb - 1)); try lia.
  - by rewrite u31_id by lia.
  - f_equal. change (u31 0) with 0. lia.
Qed.
Lemma putchar_eq rb ch : rb_ok rb ->
  rt_ringbuffer_putchar rb ch =
    if rt_ringbuffer_data_len rb =? buffer_size rb then (rb, 0) else (rb_append rb [ch], 1).
Proof.
  intros H. unfold rt_ringbuffer_putchar. rewrite space_len_eq, append_one by done.
  destruct (Z.eqb_spec (rt_ringbuffer_data_len rb) (buffer_size rb)), (Z.eqb_spec (buffer_size rb - rt_ringbuffer_data_len rb) 0); try lia; [done|].
  change (write_index (rb_store (write_index rb) [ch] 1 rb)) with (write_index rb).
  change (buffer_size (rb_store (write_index rb) [ch] 1 rb)) with (buffer_size rb).
  change (write_mirror (rb_store (write_index rb) [ch] 1 rb)) with (write_mirror rb). by destruct (_ =? _).
Qed.
Lemma status_full rb : rb_ok rb -> rt_ringbuffer_status rb = RT_RINGBUFFER_FULL <-> rt_ringbuffer_data_len rb = buffer_size rb.
Proof.
  intros H. pose proof (data_len_eq _ H) as Hd. destruct H as [H1 H2 H3 H4 H5]. rewrite Hd. unfold rt_ringbuffer_status.
  destruct (Z.eqb_spec (read_index rb) (write_index rb)), (Bool.eqb (read_mirror rb) (write_mirror rb)); split; try done; lia.
Qed.
Lemma putchar_force_eq rb ch : rb_ok rb ->
  rt_ringbuffer_putchar_force rb ch =
    (rb_append (if rt_ringbuffer_data_len rb =? buffer_size rb then rb_skip rb 1 else rb) [ch], 1).
Proof.
  intros H. unfold rt_ringbuffer_putchar_force. pose proof (status_full _ H) as Hf. pose proof (data_len_range _ H) as Hr.
  pose proof (data_len_eq _ H) as Hd. pose proof H as [H1 H2 H3 H4 H5]. f_equal.
  change (write_index (rb_store (write_index rb) [ch] 1 rb)) with (write_index rb).
  change (buffer_size (rb_store (write_index rb) [ch] 1 rb)) with (buffer_size rb).
  destruct (Z.eqb_spec (rt_ringbuffer_data_len rb) (buffer_size rb)) as [E|E].
  - rewrite append_one by (apply rb_skip_ok; [done|lia]). rewrite skip_one by done.
    rewrite !(decide_True (P := rt_ringbuffer_status rb = RT_RINGBUFFER_FULL)) by (by apply Hf).
    destruct rb as [pool rm ri wm wi bs]. unfold rb_read, rb_write, rb_store. rb_cbn.
    destruct rm, wm; cbn [Bool.eqb negb] in *; try lia; replace wi with ri in * by lia;
      destruct (Z.eqb_spec ri (bs - 1)); rb_cbn; destruct (Z.eqb_spec ri (bs - 1)); try done;
      by rewrite ?(u31_id (ri + 1)) by lia.
  - rewrite append_one by done. rewrite !(decide_False (P := rt_ringbuffer_status rb = RT_RINGBUFFER_FULL)) by tauto.
    by destruct (write_index rb =? _).
Qed.
Lemma getchar_eq rb : rb_ok rb ->
  rt_ringbuffer_getchar rb = if rt_ringbuffer_data_len rb =? 0 then (rb, 0, []) else (rb_skip rb 1, 1, take 1 (rb_contents rb)).
Proof.
  intros H. unfold rt_ringbuffer_getchar. pose proof (data_len_range _ H) as Hr. pose proof H as [H1 H2 H3 H4 H5].
  destruct (Z.eqb_spec (rt_ringbuffer_data_len rb) 0); [done|]. cbv zeta. rewrite (load_whole rb 1), skip_one by (done || lia).
  by destruct (_ =? _).
Qed.
Lemma peek_eq rb : rb_ok rb ->
  rt_ringbuffer_peek rb =
    if rt_ringbuffer_data_len rb =? 0 then (rb, 0, None)
    else let k := Z.min (rt_ringbuffer_data_len rb) (buffer_size rb - read_index rb) in (rb_skip rb k, k, Some (read_index rb)).
Proof.
  intros H. unfold rt_ringbuffer_peek. pose proof (data_len_range _ H) as Hr. pose proof H as [H1 H2 H3 H4 H5].
  destruct (Z.eqb_spec (rt_ringbuffer_data_len rb) 0); [done|]. cbv zeta. rewrite u32_small by lia. unfold rb_skip, rb_read.
  destruct (Z.ltb_spec (rt_ringbuffer_data_len rb) (buffer_size rb - read_index rb)).
  - rewrite Z.min_l by lia. destruct (Z.ltb_spec (rt_ringbuffer_data_len rb) (buffer_size rb - read_index rb)); [|lia]. by rewrite u31_id by lia.
  - rewrite Z.min_r by lia. destruct (Z.ltb_spec (buffer_size rb - read_index rb) (buffer_size rb - read_index rb)); [lia|].
    do 2 f_equal. f_equal. change (u31 0) with 0. lia.
Qed.

(** ** Refinement of a bounded queue *)
Inductive rb_op :=
  | OpPut (data : list Z) | OpPutForce (data : list Z) | OpPutchar (ch : Z) | OpPutcharForce (ch : Z)
  | OpGet (n : Z) | OpGetchar | OpPeek | OpReset.
Definition op_ok (op : rb_op) : Prop :=
  match op with
  | OpPut data | OpPutForce data => Z.of_nat (length data) < 2 ^ 32
  | OpGet n => 0 <= n < 2 ^ 32
  | _ => True
  end.
(** The new buffer, the number returned and the bytes read. *)
Definition rb_exec (op : rb_op) (rb : rt_ringbuffer) : rt_ringbuffer * Z * list Z :=
  match op with
  | OpPut data => (rt_ringbuffer_put rb data (Z.of_nat (length data)), [])
  | OpPutForce data => (rt_ringbuffer_put_force rb data (Z.of_nat (length data)), [])
  | OpPutchar ch => (rt_ringbuffer_putchar rb ch, [])
  | OpPutcharForce ch => (rt_ringbuffer_putchar_force rb ch, [])
  | OpGet n => rt_ringbuffer_get rb n
  | OpGetchar => rt_ringbuffer_getchar rb
  | OpPeek => let '(rb', n, ptr) := rt_ringbuffer_peek rb in
              (rb', n, match ptr with Some p => rb_load p n rb | None => [] end)
  | OpReset => (rt_ringbuffer_reset rb, 0, [])
  end.
(** What the queue [q] of at most [cap] bytes does: its new contents, the number
    returned and the bytes read.  A peek takes a non-empty prefix of its own
    choice. *)
Definition queue_step (cap : Z) (op : rb_op) (q q' : list Z) (n : Z) (out : list Z) : Prop :=
  match op with
  | OpPut data => q' = q ++ take (Z.to_nat n) data /\ n = Z.min (Z.of_nat (length data)) (cap - Z.of_nat (length q)) /\ out = []
  | OpPutForce data => q' = last_bytes cap (q ++ data) /\ n = Z.min (Z.of_nat (length data)) cap /\ out = []
  | OpPutchar ch => q' = q ++ take (Z.to_nat n) [ch] /\ n = Z.min 1 (cap - Z.of_nat (length q)) /\ out = []
  | OpPutcharForce ch => q' = last_bytes cap (q ++ [ch]) /\ n = 1 /\ out = []
  | OpGet k => n = Z.min k (Z.of_nat (length q)) /\ q = out ++ q' /\ Z.of_nat (length out) = n
  | OpGetchar => n = Z.min 1 (Z.of_nat (length q)) /\ q = out ++ q' /\ Z.of_nat (length out) = n
  | OpPeek => q = out ++ q' /\ Z.of_nat (length out) = n /\ (n = 0 -> q = [])
  | OpReset => q' = [] /\ n = 0 /\ out = []
  end.

Lemma last_bytes_all n l : Z.of_nat (length l) <= n -> last_bytes n l = l.
Proof. intros H. unfold last_bytes. by rewrite Z2Nat.nonpos by lia. Qed.
Lemma last_bytes_app n q data : 0 <= n -> Z.of_nat (length q) <= n ->
  last_bytes n (q ++ data) =
    drop (Z.to_nat (Z.max 0 (Z.of_nat (length q) + Z.of_nat (length (last_bytes n data)) - n))) q ++ last_bytes n data.
Proof.
  intros Hn Hq. rewrite length_last_bytes by done. unfold last_bytes. rewrite drop_app, length_app. f_equal.
  - destruct (Z.le_gt_cases (Z.of_nat (length data)) n); [f_equal; lia|].
    rewrite !drop_ge; [done|lia|lia].
  - f_equal. lia.
Qed.

Section steps.
Context (rb : rt_ringbuffer) (Hrb : rb_ok rb).
Let cap := buffer_size rb.
Let q := rb_contents rb.
Let q_len : Z.of_nat (length q) = rt_ringbuffer_data_len rb.
Proof. unfold q. rewrite length_contents. pose proof (data_len_range rb Hrb). lia. Qed.

(** Dropping what is in the way and appending. *)
Lemma rb_overwrite data : Z.of_nat (length data) <= cap ->
  let rb' := rb_append (rb_skip rb (Z.max 0 (rt_ringbuffer_data_len rb + Z.of_nat (length data) - cap))) data in
  rb_ok rb' /\ rb_contents rb' = last_bytes cap (q ++ data) /\ buffer_size rb' = cap.
Proof.
  intros Hd rb'. subst rb'. pose proof (data_len_range rb Hrb) as Hr. fold cap in Hr.
  destruct (decide (data = [])) as [->|Hne].
  - cbn [length]. rewrite Z.max_l by lia.
    destruct (rb_skip_ok rb 0 Hrb ltac:(lia)) as (H1 & H2 & H3 & H4). cbn [Z.to_nat drop] in H2.
    assert (E : rb_append (rb_skip rb 0) [] = rb_skip rb 0).
    { destruct H1 as [A B C D _]. unfold rb_append, rb_advance. cbn [length]. change (Z.of_nat 0) with 0.
      destruct (Z.ltb_spec 0 (buffer_size (rb_skip rb 0) - write_index (rb_skip rb 0))); [|lia].
      unfold ring_store. rewrite drop_nil, take_nil, Z.add_0_r. cbn [list_inserts]. by destruct (rb_skip rb 0). }
    rewrite E. split; [done|]. split; [|done]. rewrite H2, app_nil_r, last_bytes_all by lia. done.
  - set (k := Z.max _ _). assert (0 < length data)%nat by (destruct data; [done|simpl; lia]).
    assert (Hk : 0 <= k <= rt_ringbuffer_data_len rb) by lia.
    destruct (rb_skip_ok rb k Hrb Hk) as (H1 & H2 & H3 & H4).
    destruct (rb_append_ok (rb_skip rb k) data H1) as (H5 & H6 & H7); [rewrite H3, H4; fold cap; lia|rewrite H3, H4; fold cap; lia|].
    split; [done|]. split; [|by rewrite H7, H3]. rewrite H6, H2. rewrite last_bytes_app by lia.
    rewrite (last_bytes_all cap data) by done. by rewrite q_len.
Qed.

Lemma rb_exec_step op : op_ok op ->
  let '(rb', n, out) := rb_exec op rb in
  rb_ok rb' /\ buffer_size rb' = cap /\ queue_step cap op q (rb_contents rb') n out.
Proof.
  intros Hop. pose proof (data_len_range rb Hrb) as Hr. fold cap in Hr. pose proof Hrb as [Hsz _ Hri _ _]. fold cap in Hsz, Hri.
  assert (Hskip : forall k, 0 <= k <= rt_ringbuffer_data_len rb -> rb_ok (rb_skip rb k) /\ buffer_size (rb_skip rb k) = cap /\
    q = take (Z.to_nat k) q ++ rb_contents (rb_skip rb k) /\ Z.of_nat (length (take (Z.to_nat k) q)) = k).
  { intros k Hk. destruct (rb_skip_ok rb k Hrb Hk) as (H1 & H2 & H3 & _). split; [done|]. split; [done|].
    rewrite H2. split; [by rewrite take_drop|]. rewrite length_take. lia. }
  destruct op as [data|data|ch|ch|n| | |]; cbn [rb_exec queue_step op_ok] in *.
  - rewrite put_eq by (done || lia). fold cap. destruct (Z.eqb_spec (rt_ringbuffer_data_len rb) cap) as [E|E].
    + split; [done|]. split; [done|]. cbn [take Z.to_nat]. rewrite app_nil_r. split; [done|]. split; [lia|done].
    + set (k := Z.min _ _). destruct (rb_append_ok rb (take (Z.to_nat k) data) Hrb) as (H1 & H2 & H3);
        [rewrite length_take; fold cap; lia|fold cap; lia|]. split; [done|]. split; [done|]. split; [done|]. split; [lia|done].
  - rewrite put_force_eq by (done || lia). fold cap.
    destruct (rb_overwrite (last_bytes cap data)) as (H1 & H2 & H3); [rewrite length_last_bytes by lia; lia|].
    split; [done|]. split; [done|]. split; [|split; [rewrite length_last_bytes by lia; lia|done]]. rewrite H2.
    rewrite !last_bytes_app by lia. rewrite (last_bytes_all cap (last_bytes cap data)) by (rewrite length_last_bytes by lia; lia). done.
  - rewrite putchar_eq by done. fold cap. destruct (Z.eqb_spec (rt_ringbuffer_data_len rb) cap) as [E|E].
    + split; [done|]. split; [done|]. cbn [take Z.to_nat]. rewrite app_nil_r. split; [done|]. split; [lia|done].
    + destruct (rb_append_ok rb [ch] Hrb) as (H1 & H2 & H3); [simpl; fold cap; lia|fold cap; lia|].
      split; [done|]. split; [done|]. split; [done|]. split; [lia|done].
  - rewrite putchar_force_eq by done. destruct (rb_overwrite [ch]) as (H1 & H2 & H3); [simpl; lia|].
    cbn [length] in *. fold cap.
    replace (if rt_ringbuffer_data_len rb =? cap then rb_skip rb 1 else rb)
      with (rb_skip rb (Z.max 0 (rt_ringbuffer_data_len rb + Z.of_nat 1 - cap))); [done|].
    destruct (Z.eqb_spec (rt_ringbuffer_data_len rb) cap); [f_equal; lia|]. rewrite Z.max_l by lia.
    unfold rb_skip. fold cap. destruct (Z.ltb_spec 0 (cap - read_index rb)); [|lia]. rewrite Z.add_0_r. unfold cap. by destruct rb.
  - rewrite get_eq by (done || lia). cbv zeta. destruct (Hskip (Z.min n (rt_ringbuffer_data_len rb))) as (H1 & H2 & H3 & H4); [lia|].
    split; [done|]. split; [done|]. split; [lia|]. by split.
  - rewrite getchar_eq by done. destruct (Z.eqb_spec (rt_ringbuffer_data_len rb) 0) as [E|E].
    + split; [done|]. split; [done|]. split; [lia|done].
    + destruct (Hskip 1) as (H1 & H2 & H3 & H4); [lia|]. split; [done|]. split; [done|]. split; [lia|]. by split.
  - rewrite peek_eq by done. fold cap. destruct (Z.eqb_spec (rt_ringbuffer_data_len rb) 0) as [E|E].
    + split; [done|]. split; [done|]. split; [done|]. split; [done|]. intros _. apply length_zero_iff_nil. lia.
    + cbv zeta. set (k := Z.min _ _). destruct (Hskip k) as (H1 & H2 & H3 & H4); [lia|]. split; [done|]. split; [done|].
      rewrite load_whole by (done || fold cap; lia). split; [done|]. split; [done|]. lia.
  - split; [by destruct Hrb; constructor; cbn; lia|]. split; [done|]. done.
Qed.
End steps.

Fixpoint rb_run (ops : list rb_op) (rb : rt_ringbuffer) : rt_ringbuffer * list (Z * list Z) :=
  match ops with
  | [] => (rb, [])
  | op :: ops' =>
      let '(rb, n, out) := rb_exec op rb in
      let '(rb, rs) := rb_run ops' rb in (rb, (n, out) :: rs)
  end.
Inductive queue_run (cap : Z) : list rb_op -> list Z -> list Z -> list (Z * list Z) -> Prop :=
  | queue_run_nil q : queue_run cap [] q q []
  | queue_run_cons op ops q q1 q2 n out rs :
      queue_step cap op q q1 n out -> queue_run cap ops q1 q2 rs -> queue_run cap (op :: ops) q q2 ((n, out) :: rs).

Lemma init_ok pool size :
  0 < RT_ALIGN_DOWN size RT_ALIGN_SIZE < 2 ^ 31 -> length pool = Z.to_nat (RT_ALIGN_DOWN size RT_ALIGN_SIZE) ->
  rb_ok (rt_ringbuffer_init pool size) /\ rb_contents (rt_ringbuffer_init pool size) = [].
Proof. intros H1 H2. split; [constructor; cbn; done || lia|done]. Qed.
Lemma rb_run_refines ops : forall rb, rb_ok rb -> Forall op_ok ops ->
  let '(rb', rs) := rb_run ops rb in
  rb_ok rb' /\ buffer_size rb' = buffer_size rb /\ queue_run (buffer_size rb) ops (rb_contents rb) (rb_contents rb') rs.
Proof.
  induction ops as [|op ops IH]; intros rb H Hops; [split; [done|]; split; [done|]; constructor|].
  apply Forall_cons in Hops as [Hop Hops]. cbn [rb_run]. pose proof (rb_exec_step rb H op Hop) as Hst.
  destruct (rb_exec op rb) as [[rb1 n] out]. destruct Hst as (H1 & H2 & H3). specialize (IH rb1 H1 Hops).
  destruct (rb_run ops rb1) as [rb2 rs]. destruct IH as (H4 & H5 & H6). rewrite H2 in *.
  split; [done|]. split; [done|]. by econstructor.
Qed.


(** What is put into an empty buffer that it fits in is read back, in any two
    pieces, and leaves the buffer empty. *)
Theorem ringbuffer_put_get (rb : rt_ringbuffer) (data : list Z) (n : Z)
    (Hrb : rb_ok rb) (Hempty : rt_ringbuffer_status rb = RT_RINGBUFFER_EMPTY)
    (Hfit : 0 <= n <= Z.of_nat (length data)) (Hsize : Z.of_nat (length data) <= buffer_size rb) :
  let '(rb1, m) := rt_ringbuffer_put rb data (Z.of_nat (length data)) in
  let '(rb2, m1, out1) := rt_ringbuffer_get rb1 n in
  let '(rb3, m2, out2) := rt_ringbuffer_get rb2 (buffer_size rb) in
  m = Z.of_nat (length data) /\ m1 = n /\ m2 = m - n /\ out1 ++ out2 = data /\
  rt_ringbuffer_status rb3 = RT_RINGBUFFER_EMPTY.
Proof.
  pose proof Hrb as [Hsz _ _ _ _].
  assert (Hd : rt_ringbuffer_data_len rb = 0) by (unfold rt_ringbuffer_data_len; by rewrite Hempty).
  assert (Hq : rb_contents rb = []) by (apply length_zero_iff_nil; rewrite length_contents, Hd; done).
  rewrite put_eq by (done || lia). destruct (Z.eqb_spec (rt_ringbuffer_data_len rb) (buffer_size rb)); [lia|]. cbv zeta.
  rewrite Hd, Z.sub_0_r, Z.min_l, Nat2Z.id, firstn_all by lia.
  destruct (rb_append_ok rb data Hrb ltac:(lia) ltac:(lia)) as (H1 & H2 & H3). rewrite Hq in H2.
  assert (Hl : rt_ringbuffer_data_len (rb_append rb data) = Z.of_nat (length data)).
  { pose proof (length_contents (rb_append rb data)) as Hc. rewrite H2 in Hc. pose proof (data_len_range _ H1). simpl in Hc. lia. }
  rewrite get_eq by (done || lia). cbv zeta. rewrite Hl, Z.min_l by lia.
  destruct (rb_skip_ok (rb_append rb data) n H1 ltac:(lia)) as (H4 & H5 & H6 & H7).
  rewrite get_eq by (done || lia). cbv zeta. rewrite H7, Hl, Z.min_r by lia.
  destruct (rb_skip_ok (rb_skip (rb_append rb data) n) (Z.of_nat (length data) - n) H4 ltac:(lia)) as (H8 & _ & _ & H9).
  split; [done|]. split; [done|]. split; [done|]. split.
  - rewrite H5, H2. cbn [app]. rewrite (take_ge (drop _ _)) by (rewrite length_drop; lia). apply take_drop.
  - rewrite H7, Hl in H9. rewrite Z.sub_diag, (data_len_eq _ H8) in H9. unfold rt_ringbuffer_status. destruct H8 as [A B C D F].
    destruct (Bool.eqb _ _); [|lia]. destruct (Z.eqb_spec (read_index (rb_skip (rb_skip (rb_append rb data) n) (Z.of_nat (length data) - n)))
      (write_index (rb_skip (rb_skip (rb_append rb data) n) (Z.of_nat (length data) - n)))); [done|lia].
Qed.
Lemma ringbuffer_put_get_witness :
  let rb := RingBuffer (repeat 0 8) false 5 false 5 8 in
  rt_ringbuffer_put rb [1; 2; 3; 4; 5] 5 = (RingBuffer [4; 5; 0; 0; 0; 1; 2; 3] false 5 true 2 8, 5) /\
  (let '(rb1, m) := rt_ringbuffer_put rb [1; 2; 3; 4; 5] 5 in
   let '(rb2, m1, out1) := rt_ringbuffer_get rb1 2 in
   let '(rb3, m2, out2) := rt_ringbuffer_get rb2 8 in
   m = 5 /\ m1 = 2 /\ m2 = m - 2 /\ out1 ++ out2 = [1; 2; 3; 4; 5] /\ rt_ringbuffer_status rb3 = RT_RINGBUFFER_EMPTY).
Proof.
  split; [vm_compute; reflexivity|].
  apply (ringbuffer_put_get (RingBuffer (repeat 0 8) false 5 false 5 8) [1; 2; 3; 4; 5] 2).
  - constructor; cbn; lia.
  - reflexivity.
  - cbn. lia.
  - cbn. lia.
Defined.
