(* ===== verification/RingBlk.v ===== *)
(** * The ring block buffer ([src/rt-thread/components/drivers/ipc/ringblk_buf.c])

    Blocks of a buffer are allocated, filled, read and freed in the order of a ring.
    The descriptors of the blocks are an array; those in use are linked in
    [blk_list] in the order of their allocation, the others in [free_list].  Each
    function runs with interrupts disabled. *)
From S2P Require Import Prelude RtSlist.

(** The nodes of the two lists: their heads, and the member [list] of a block. *)
Inductive rbnode := BlkList | FreeList | Blk (i : nat).
#[export] Instance rbnode_eq_dec : EqDecision rbnode.
Proof. solve_decision. Defined.
#[export] Instance rbnode_countable : Countable rbnode :=
  inj_countable' (fun n => match n with BlkList => inl false | FreeList => inl true | Blk i => inr i end)
                 (fun c => match c with inl false => BlkList | inl true => FreeList | inr i => Blk i end)
                 ltac:(by intros []).

Inductive rt_rbb_status := RT_RBB_BLK_UNUSED | RT_RBB_BLK_INITED | RT_RBB_BLK_PUT | RT_RBB_BLK_GET.
#[export] Instance rt_rbb_status_eq_dec : EqDecision rt_rbb_status.
Proof. solve_decision. Defined.

(** The member [list] of a block is in [lists]; [size] has 24 bits. *)
Record rt_rbb_blk := { status : rt_rbb_status; bsize : Z; bbuf : Z }.
Record rt_rbb := {
  buf : Z;
  buf_size : Z;
  blk_set : list rt_rbb_blk;
  blk_max_num : nat;
  tail : rbnode;
  lists : gmap rbnode (option rbnode);
}.
Record rt_rbb_blk_queue := { blocks : nat; blk_num : Z }.

Definition no_blk : rt_rbb_blk := {| status := RT_RBB_BLK_UNUSED; bsize := 0; bbuf := 0 |}.
Definition blk (r : rt_rbb) (i : nat) : rt_rbb_blk := default no_blk (blk_set r !! i).
(** [rt_slist_entry(node, struct rt_rbb_blk, list)] *)
Definition blk_entry (n : rbnode) : option nat := match n with Blk i => Some i | _ => None end.
Definition with_blocks (f : list rt_rbb_blk -> list rt_rbb_blk) (r : rt_rbb) : rt_rbb :=
  {| buf := buf r; buf_size := buf_size r; blk_set := f (blk_set r); blk_max_num := blk_max_num r; tail := tail r; lists := lists r |}.
Definition set_status (s : rt_rbb_status) (i : nat) : rt_rbb -> rt_rbb :=
  with_blocks (alter (fun b => {| status := s; bsize := bsize b; bbuf := bbuf b |}) i).
Definition with_lists (m : gmap rbnode (option rbnode)) (t : rbnode) (r : rt_rbb) : rt_rbb :=
  {| buf := buf r; buf_size := buf_size r; blk_set := blk_set r; blk_max_num := blk_max_num r; tail := t; lists := m |}.
(** More than the number of nodes of a list. *)
Definition list_fuel (r : rt_rbb) : nat := S (blk_max_num r).

(** [block_set] is not initialised. *)
Definition rt_rbb_init (b bs : Z) (block_set : list rt_rbb_blk) (max_num : nat) : rt_rbb :=
  let m := rt_slist_init (rt_slist_init ∅ BlkList) FreeList in
  let r := {| buf := b; buf_size := bs; blk_set := block_set; blk_max_num := max_num; tail := BlkList; lists := m |} in
  foldl (fun r i =>
    let r := set_status RT_RBB_BLK_UNUSED i r in
    with_lists (rt_slist_insert (rt_slist_init (lists r) (Blk i)) FreeList (Blk i)) (tail r) r) r (seq 0 max_num).
(** The three results of [rt_malloc], the last one with the memory of the
    descriptors; what is freed again, in order. *)
Definition rt_rbb_create (bs : Z) (max_num : nat) (m_rbb m_buf : option Z) (m_set : option (Z * list rt_rbb_blk)) : option rt_rbb * list Z :=
  match m_rbb, m_buf, m_set with
  | None, _, _ => (None, [])
  | Some rbb, None, _ => (None, [rbb])
  | Some rbb, Some b, None => (None, [b; rbb])
  | Some _, Some b, Some (_, set) => (Some (rt_rbb_init b bs set max_num), [])
  end.
(** What is freed. *)
Definition rt_rbb_destroy (rbb set : Z) (r : rt_rbb) : list Z := [buf r; set; rbb].

Definition find_empty_blk_in_set (r : rt_rbb) : option (rt_rbb * option nat) :=
  match rt_slist_first (lists r) FreeList with
  | None => Some (r, None)
  | Some n =>
      i ← blk_entry n;
      m ← rt_slist_remove (list_fuel r) (lists r) FreeList n;
      Some (with_lists m (tail r) r, Some i)
  end.
Definition list_append (n : rbnode) (r : rt_rbb) : rt_rbb :=
  with_lists (set_snext (set_snext (lists r) (tail r) (Some n)) n None) n r.
Definition list_remove (n : rbnode) (r : rt_rbb) : option rt_rbb :=
  node ← slist_before (list_fuel r) (lists r) BlkList n;
  Some match rt_slist_next (lists r) node with
       | Some x =>
           let m := set_snext (lists r) node (rt_slist_next (lists r) x) in
           with_lists (set_snext m n None) (if decide (tail r = n) then node else tail r) r
       | None => r
       end.

(** The block is appended to the list and laid out at an address. *)
Definition place_blk (i : nat) (addr blk_size : Z) (r : rt_rbb) : rt_rbb :=
  with_blocks (alter (fun _ => {| status := RT_RBB_BLK_INITED; bsize := blk_size mod 2 ^ 24; bbuf := addr |}) i) (list_append (Blk i) r).
(** The free memory behind the last block and before the first one. *)
Definition room_behind (r : rt_rbb) (t : rt_rbb_blk) : Z := u32 (buf r + buf_size r - (bbuf t + bsize t)).
Definition room_before (r : rt_rbb) (h : rt_rbb_blk) : Z := u32 (bbuf h - buf r).
Definition room_between (h t : rt_rbb_blk) : Z := u32 (bbuf h - (bbuf t + bsize t)).
Definition rt_rbb_blk_alloc (blk_size : Z) (r : rt_rbb) : option (rt_rbb * option nat) :=
  '(r, new_rbb) ← find_empty_blk_in_set r;
  match new_rbb with
  | None => Some (r, None)
  | Some i =>
      match rt_slist_first (lists r) BlkList with
      | Some n =>
          h ← blk_entry n;
          t ← blk_entry (tail r);
          let head := blk r h in
          let tl := blk r t in
          Some (if bbuf head <=? bbuf tl then
                  if blk_size <=? room_behind r tl then (place_blk i (bbuf tl + bsize tl) blk_size r, Some i)
                  else if blk_size <=? room_before r head then (place_blk i (buf r) blk_size r, Some i)
                  else (r, None)
                else
                  if blk_size <=? room_between head tl then (place_blk i (bbuf tl + bsize tl) blk_size r, Some i)
                  else (r, None))
      | None => Some (place_blk i (buf r) blk_size r, Some i)
      end
  end.

Definition rt_rbb_blk_put (i : nat) : rt_rbb -> rt_rbb := set_status RT_RBB_BLK_PUT i.
(** The first block in the status [PUT], from a node on. *)
Fixpoint blk_get_loop (fuel : nat) (r : rt_rbb) (node : option rbnode) : option (option nat) :=
  match node, fuel with
  | None, _ => Some None
  | Some _, O => None
  | Some n, S f =>
      i ← blk_entry n;
      if decide (status (blk r i) = RT_RBB_BLK_PUT) then Some (Some i) else blk_get_loop f r (rt_slist_next (lists r) n)
  end.
Definition rt_rbb_blk_get (r : rt_rbb) : option (rt_rbb * option nat) :=
  if rt_slist_isempty (lists r) BlkList then Some (r, None)
  else
    block ← blk_get_loop (list_fuel r) r (rt_slist_first (lists r) BlkList);
    Some (match block with Some i => set_status RT_RBB_BLK_GET i r | None => r end, block).
Definition rt_rbb_blk_size (r : rt_rbb) (i : nat) : Z := bsize (blk r i).
Definition rt_rbb_blk_buf (r : rt_rbb) (i : nat) : Z := bbuf (blk r i).
Definition rt_rbb_blk_free (i : nat) (r : rt_rbb) : option rt_rbb :=
  r ← list_remove (Blk i) r;
  let r := set_status RT_RBB_BLK_UNUSED i r in
  Some (with_lists (rt_slist_insert (lists r) FreeList (Blk i)) (tail r) r).

(** ** Queues of blocks *)
(** The loop of [rt_rbb_blk_queue_get].  Behind the last node it reads the member
    [next] through a null pointer ([tmp]); what it reads is not used. *)
Fixpoint queue_get_loop (fuel : nat) (queue_data_len : Z) (node tmp : option rbnode) (last_block : option nat) (total : Z)
    (q : rt_rbb_blk_queue) (r : rt_rbb) : option (rt_rbb * rt_rbb_blk_queue * Z) :=
  match node, fuel with
  | None, _ => Some (r, q, total)
  | Some _, O => None
  | Some n, S f =>
      let next := queue_get_loop f queue_data_len tmp (tmp ≫= rt_slist_next (lists r)) in
      let take i q :=
        next (Some i) (u32 (total + bsize (blk r i))) {| blocks := blocks q; blk_num := u32 (blk_num q + 1) |} (set_status RT_RBB_BLK_GET i r) in
      i ← blk_entry n;
      match last_block with
      | None =>
          if decide (status (blk r i) = RT_RBB_BLK_PUT) then take i {| blocks := i; blk_num := 0 |}
          else next None total q r
      | Some l =>
          if negb (bool_decide (status (blk r i) = RT_RBB_BLK_PUT)) || (bbuf (blk r i) <? bbuf (blk r l)) || (queue_data_len <? u32 (total + bsize (blk r i)))
          then Some (r, q, total)
          else take i q
      end
  end.
Definition rt_rbb_blk_queue_get (queue_data_len : Z) (q : rt_rbb_blk_queue) (r : rt_rbb) : option (rt_rbb * rt_rbb_blk_queue * Z) :=
  if rt_slist_isempty (lists r) BlkList then Some (r, q, 0)
  else
    let node := rt_slist_first (lists r) BlkList in
    queue_get_loop (list_fuel r) queue_data_len node (node ≫= rt_slist_next (lists r)) None 0 q r.
(** The blocks of a queue are neighbours in the list. *)
Fixpoint queue_len_loop (n : nat) (i : nat) (total : Z) (r : rt_rbb) : option Z :=
  let total' := u32 (total + bsize (blk r i)) in
  match n with
  | O => Some total
  | S O => Some total'
  | S n => j ← rt_slist_next (lists r) (Blk i) ≫= blk_entry; queue_len_loop n j total' r
  end.
Definition rt_rbb_blk_queue_len (q : rt_rbb_blk_queue) (r : rt_rbb) : option Z := queue_len_loop (Z.to_nat (blk_num q)) (blocks q) 0 r.
Definition rt_rbb_blk_queue_buf (q : rt_rbb_blk_queue) (r : rt_rbb) : Z := bbuf (blk r (blocks q)).
Fixpoint queue_free_loop (n : nat) (i : nat) (r : rt_rbb) : option rt_rbb :=
  match n with
  | O => Some r
  | S n =>
      let next := rt_slist_next (lists r) (Blk i) ≫= blk_entry in
      r ← rt_rbb_blk_free i r;
      match n with O => Some r | _ => j ← next; queue_free_loop n j r end
  end.
Definition rt_rbb_blk_queue_free (q : rt_rbb_blk_queue) (r : rt_rbb) : option rt_rbb := queue_free_loop (Z.to_nat (blk_num q)) (blocks q) r.
Fixpoint next_queue_len_loop (fuel : nat) (r : rt_rbb) (node : option rbnode) (last_block : option nat) (data_len : Z) : option Z :=
  match node, fuel with
  | None, _ => Some data_len
  | Some _, O => None
  | Some n, S f =>
      i ← blk_entry n;
      let next := next_queue_len_loop f r (rt_slist_next (lists r) n) in
      let put := bool_decide (status (blk r i) = RT_RBB_BLK_PUT) in
      match last_block with
      | None => if put then next (Some i) (u32 (data_len + bsize (blk r i))) else next None data_len
      | Some l => if negb put || (bbuf (blk r i) <? bbuf (blk r l)) then Some data_len else next (Some i) (u32 (data_len + bsize (blk r i)))
      end
  end.
Definition rt_rbb_next_blk_queue_len (r : rt_rbb) : option Z :=
  if rt_slist_isempty (lists r) BlkList then Some 0
  else next_queue_len_loop (list_fuel r) r (rt_slist_first (lists r) BlkList) None 0.
Definition rt_rbb_get_buf_size (r : rt_rbb) : Z := buf_size r.
