(* ===== verification/RingBlkProps.v ===== *)
(** * The ring block buffer keeps its blocks apart

    The blocks in use lie in the buffer in the order of a ring: [asc] from some place
    on to the end of the buffer, then [asc] from its start up to that place. *)
From S2P Require Import Prelude RtSlist RingBlk.

(** ** Regions in a row *)
Fixpoint asc (lo hi : Z) (l : list (Z * Z)) : Prop :=
  match l with
  | [] => lo <= hi
  | (b, s) :: l => lo <= b /\ 0 < s /\ asc (b + s) hi l
  end.
Definition arranged (lo hi : Z) (l : list (Z * Z)) : Prop :=
  exists m l1 l2, l = l1 ++ l2 /\ asc m hi l1 /\ asc lo m l2.
Definition apart (p q : Z * Z) : Prop := p.1 + p.2 <= q.1 \/ q.1 + q.2 <= p.1.

Lemma asc_le l : forall lo hi, asc lo hi l -> lo <= hi.
Proof. induction l as [|[b s] l IH]; intros lo hi; cbn; [done|]. intros (H1 & H2 & H3). apply IH in H3. lia. Qed.
Lemma asc_lo l lo lo' hi : lo' <= lo -> asc lo hi l -> asc lo' hi l.
Proof. intros Hl. destruct l as [|[b s] l]; cbn; [lia|]. intros (H1 & H2 & H3). split; [lia|done]. Qed.
Lemma asc_hd lo hi b s l : asc lo hi ((b, s) :: l) -> asc b hi ((b, s) :: l).
Proof. cbn. intros (H1 & H2 & H3). done. Qed.
Lemma asc_in l p : forall lo hi, asc lo hi l -> p ∈ l -> lo <= p.1 /\ 0 < p.2 /\ p.1 + p.2 <= hi.
Proof.
  induction l as [|[b s] l IH]; intros lo hi Ha Hp; [by apply elem_of_nil in Hp|]. destruct Ha as (H1 & H2 & H3).
  apply elem_of_cons in Hp as [->|Hp]; [apply asc_le in H3; cbn; lia|]. apply (IH _ _ H3) in Hp. lia.
Qed.
Lemma asc_app l k : forall lo m hi, asc lo m l -> asc m hi k -> asc lo hi (l ++ k).
Proof.
  induction l as [|[b s] l IH]; intros lo m hi; cbn; [intros H1 H2; by apply (asc_lo k m)|].
  intros (H1 & H2 & H3) H4. split; [done|]. split; [done|]. by apply (IH _ m).
Qed.
(** The last region may be the bound. *)
Lemma asc_tight l b s : forall lo hi, last l = Some (b, s) -> asc lo hi l -> asc lo (b + s) l.
Proof.
  induction l as [|[b' s'] l IH]; intros lo hi Hl; [done|]. destruct l as [|p l]; cbn [asc].
  - injection Hl as -> ->. intros (H1 & H2 & H3). split; [done|]. split; [done|lia].
  - intros (H1 & H2 & H3). split; [done|]. split; [done|]. by apply (IH _ hi).
Qed.
Lemma asc_sublist l k : sublist k l -> forall lo hi, asc lo hi l -> asc lo hi k.
Proof.
  induction 1 as [|[b s] k l Hs IH|[b s] k l Hs IH]; intros lo hi; cbn; [done| |].
  - intros (H1 & H2 & H3). split; [done|]. split; [done|]. by apply IH.
  - intros (H1 & H2 & H3). apply (asc_lo k (b + s)); [lia|]. by apply IH.
Qed.
Lemma asc_apart l : forall lo hi i j p q, asc lo hi l -> l !! i = Some p -> l !! j = Some q -> i <> j -> apart p q.
Proof.
  induction l as [|[b s] l IH]; intros lo hi i j p q Ha Hi Hj Hne; [done|].
  destruct Ha as (H1 & H2 & H3), i as [|i], j as [|j]; try done; cbn in Hi, Hj.
  - injection Hi as <-. left. apply list_elem_of_lookup_2 in Hj. by apply (asc_in _ _ _ _ H3) in Hj as [? _].
  - injection Hj as <-. right. apply list_elem_of_lookup_2 in Hi. by apply (asc_in _ _ _ _ H3) in Hi as [? _].
  - apply (IH _ _ i j p q H3 Hi Hj). congruence.
Qed.
Lemma arranged_sublist lo hi l k : sublist k l -> arranged lo hi l -> arranged lo hi k.
Proof.
  intros Hs (m & l1 & l2 & -> & H1 & H2). apply sublist_app_r in Hs as (k1 & k2 & -> & Hs1 & Hs2).
  exists m, k1, k2. split; [done|]. by split; eapply asc_sublist.
Qed.
Lemma arranged_in lo hi l p : arranged lo hi l -> p ∈ l -> lo <= p.1 /\ 0 < p.2 /\ p.1 + p.2 <= hi.
Proof.
  intros (m & l1 & l2 & -> & H1 & H2) Hp. pose proof (asc_le _ _ _ H1). pose proof (asc_le _ _ _ H2).
  apply elem_of_app in Hp as [Hp|Hp]; [apply (asc_in _ _ _ _ H1) in Hp|apply (asc_in _ _ _ _ H2) in Hp]; lia.
Qed.
Lemma arranged_apart lo hi l i j p q : arranged lo hi l -> l !! i = Some p -> l !! j = Some q -> i <> j -> apart p q.
Proof.
  intros (m & l1 & l2 & -> & H1 & H2) Hi Hj Hne. apply lookup_app_Some in Hi as [Hi|[Hi' Hi]], Hj as [Hj|[Hj' Hj]].
  - by apply (asc_apart l1 m hi i j).
  - right. apply list_elem_of_lookup_2 in Hi, Hj. apply (asc_in _ _ _ _ H1) in Hi. apply (asc_in _ _ _ _ H2) in Hj. lia.
  - left. apply list_elem_of_lookup_2 in Hi, Hj. apply (asc_in _ _ _ _ H2) in Hi. apply (asc_in _ _ _ _ H1) in Hj. lia.
  - apply (asc_apart l2 lo m (i - length l1) (j - length l1) p q H2 Hi Hj). lia.
Qed.

(** Where the next block goes: behind the last one, or else at the start of the
    buffer, without passing the first one. *)
Definition spot (lo hi : Z) (l : list (Z * Z)) (sz : Z) : option Z :=
  match head l, last l with
  | Some (hb, _), Some (tb, ts) =>
      if hb <=? tb then
        if tb + ts + sz <=? hi then Some (tb + ts) else if lo + sz <=? hb then Some lo else None
      else if tb + ts + sz <=? hb then Some (tb + ts) else None
  | _, _ => Some lo
  end.
Lemma arranged_spot lo hi l sz a : arranged lo hi l -> 0 < sz <= hi - lo -> spot lo hi l sz = Some a -> arranged lo hi (l ++ [(a, sz)]).
Proof.
  intros (m & l1 & l2 & -> & H1 & H2) Hsz. pose proof (asc_le _ _ _ H1) as L1. pose proof (asc_le _ _ _ H2) as L2.
  destruct l1 as [|[b1 s1] l1].
  - (* one row from the start of the buffer *)
    cbn [app]. unfold spot. destruct l2 as [|[b2 s2] l2]; cbn [head]; [intros [= <-]; exists lo, [(lo, sz)], []; split; [done|cbn; lia]|].
    destruct (last ((b2, s2) :: l2)) as [[tb ts]|] eqn:E; [|by apply last_None in E].
    pose proof (asc_tight _ _ _ _ _ E H2) as H3.
    destruct (asc_in _ (tb, ts) _ _ H3) as (I1 & I2 & _); [by apply last_Some_elem_of|].
    destruct (asc_in _ (tb, ts) _ _ (asc_hd _ _ _ _ _ H3)) as (Hh & _); [by apply last_Some_elem_of|]. cbn in Hh.
    destruct (Z.leb_spec b2 tb); [|lia]. destruct (Z.leb_spec (tb + ts + sz) hi).
    + intros [= <-]. exists lo, (((b2, s2) :: l2) ++ [(tb + ts, sz)]), []. split; [by rewrite app_nil_r|]. split; [|cbn; lia].
      eapply asc_app; [exact H3|]. cbn. lia.
    + destruct (Z.leb_spec (lo + sz) b2); [|done]. intros [= <-]. exists b2, ((b2, s2) :: l2), [(lo, sz)]. split; [done|].
      split; [|cbn; lia]. rewrite <- (app_nil_r ((b2, s2) :: l2)). eapply asc_app; [exact (asc_hd _ _ _ _ _ H2)|exact L1].
  - unfold spot. cbn [app head]. pose proof (asc_hd _ _ _ _ _ H1) as H1'. destruct (asc_in _ (b1, s1) _ _ H1) as (I1 & I2 & I3); [by left|]. cbn in I1, I2, I3.
    destruct l2 as [|p l2].
    + rewrite app_nil_r. destruct (last ((b1, s1) :: l1)) as [[tb ts]|] eqn:E; [|by apply last_None in E].
      pose proof (asc_tight _ _ _ _ _ E H1') as H3.
      destruct (asc_in _ (tb, ts) _ _ H3) as (J1 & J2 & _); [by apply last_Some_elem_of|]. cbn in J1, J2.
      destruct (Z.leb_spec b1 tb); [|lia]. destruct (Z.leb_spec (tb + ts + sz) hi).
      * intros [= <-]. exists lo, (((b1, s1) :: l1) ++ [(tb + ts, sz)]), []. split; [by rewrite app_nil_r|]. split; [|cbn; lia].
        eapply asc_app; [apply (asc_lo _ b1); [cbn in L2; lia|exact H3]|]. cbn. lia.
      * destruct (Z.leb_spec (lo + sz) b1); [|done]. intros [= <-]. exists b1, ((b1, s1) :: l1), [(lo, sz)]. split; [done|]. split; [exact H1'|cbn; lia].
    + assert (E0 : last ((b1, s1) :: l1 ++ p :: l2) = last (p :: l2)) by apply (last_app_cons ((b1, s1) :: l1)). rewrite E0.
      destruct (last (p :: l2)) as [[tb ts]|] eqn:E; [|by apply last_None in E].
      destruct (asc_in _ (tb, ts) _ _ H2) as (J1 & J2 & J3); [by apply last_Some_elem_of|]. cbn in J1, J2, J3.
      destruct (Z.leb_spec b1 tb); [lia|]. destruct (Z.leb_spec (tb + ts + sz) b1); [|done]. intros [= <-].
      exists b1, ((b1, s1) :: l1), ((p :: l2) ++ [(tb + ts, sz)]). split; [by rewrite <- app_assoc|]. split; [exact H1'|].
      eapply asc_app; [exact (asc_tight _ _ _ _ _ E H2)|cbn; lia].
Qed.

(** ** The invariant *)
Definition region (r : rt_rbb) (i : nat) : Z * Z := (bbuf (blk r i), bsize (blk r i)).
Record rbb_ok (r : rt_rbb) (live free : list nat) : Prop := {
  ro_blk : path (lists r) BlkList (Blk <$> live);
  ro_free : path (lists r) FreeList (Blk <$> free);
  ro_nodup : NoDup (live ++ free);
  ro_bound : forall i, i ∈ live ++ free -> (i < blk_max_num r)%nat;
  ro_max : length (blk_set r) = blk_max_num r;
  ro_tail : tail r = end_node BlkList (Blk <$> live);
  ro_status : forall i, i ∈ live <-> status (blk r i) <> RT_RBB_BLK_UNUSED;
  ro_space : arranged (buf r) (buf r + buf_size r) (region r <$> live);
  ro_buf : 0 <= buf r /\ 0 <= buf_size r /\ buf r + buf_size r < 2 ^ 32;
}.
#[export] Instance Blk_inj : Inj (=) (=) Blk.
Proof. by intros i j [= ->]. Qed.
Lemma nodup_nodes h l : (forall i, h <> Blk i) -> NoDup l -> NoDup (h :: (Blk <$> l)).
Proof. intros Hh Hl. apply NoDup_cons. split; [intros (i & E & _)%list_elem_of_fmap; by destruct (Hh i)|by apply NoDup_fmap_2; [apply _|]]. Qed.
Lemma not_in_nodes h (l : list nat) i : (forall j, h <> Blk j) -> i ∉ l -> Blk i ∉ h :: (Blk <$> l).
Proof. intros Hh Hi [E|(j & [= ->] & Hj)%list_elem_of_fmap]%elem_of_cons; [exact (Hh i (eq_sym E))|done]. Qed.
Lemma blk_alter r f i j : (i < length (blk_set r))%nat -> blk (with_blocks (alter f i) r) j = if decide (i = j) then f (blk r i) else blk r j.
Proof.
  intros Hi. unfold blk. cbn [blk_set with_blocks]. rewrite list_lookup_alter. case_decide as E; [subst j|done].
  destruct (lookup_lt_is_Some_2 _ _ Hi) as [b ->]. done.
Qed.
Section ok.
Context (r : rt_rbb) (live free : list nat) (Hok : rbb_ok r live free).
Lemma live_notin_free i : i ∈ live -> i ∉ free.
Proof. pose proof (ro_nodup _ _ _ Hok) as H. apply NoDup_app in H as (_ & Hd & _). apply Hd. Qed.
Lemma nodup_live : NoDup live.
Proof. pose proof (ro_nodup _ _ _ Hok) as H. by apply NoDup_app in H as (? & _). Qed.
Lemma nodup_free : NoDup free.
Proof. pose proof (ro_nodup _ _ _ Hok) as H. by apply NoDup_app in H as (_ & _ & ?). Qed.
Lemma in_set i : i ∈ live ++ free -> (i < length (blk_set r))%nat.
Proof. rewrite (ro_max _ _ _ Hok). apply (ro_bound _ _ _ Hok). Qed.
Lemma length_lists : (length live + length free <= blk_max_num r)%nat.
Proof.
  rewrite <- length_app, <- (length_seq (blk_max_num r) 0). apply submseteq_length, NoDup_submseteq; [apply (ro_nodup _ _ _ Hok)|].
  intros i Hi. apply (ro_bound _ _ _ Hok) in Hi. apply elem_of_seq. lia.
Qed.
(** A block of the lists changes its status only. *)
Lemma status_ok i s : i ∈ live -> s <> RT_RBB_BLK_UNUSED -> rbb_ok (set_status s i r) live free.
Proof.
  intros Hi Hs. assert (Hl : (i < length (blk_set r))%nat) by (apply in_set; set_solver). destruct Hok as [H1 H2 H3 H4 H5 H6 H7 H8 H9].
  constructor; try done; cbn [blk_set with_blocks set_status].
  - by rewrite length_alter.
  - intros j. unfold set_status. rewrite blk_alter by done. case_decide as E; [subst j; cbn; split; [done|by intros _]|apply H7].
  - erewrite list_fmap_ext; [exact H8|]. intros k j _. unfold region, set_status. rewrite !blk_alter by done. by case_decide as E; [subst j|].
Qed.
End ok.

(** ** One operation at a time *)
Lemma find_empty_ok r live free : rbb_ok r live free ->
  match free with
  | [] => find_empty_blk_in_set r = Some (r, None)
  | i :: free' => exists m, find_empty_blk_in_set r = Some (with_lists m (tail r) r, Some i) /\ rbb_ok (with_lists m (tail r) r) live free'
  end.
Proof.
  intros Hok. pose proof (nodup_free r live free Hok) as Hd. destruct Hok as [H1 H2 H3 H4 H5 H6 H7 H8 H9].
  unfold find_empty_blk_in_set. rewrite (path_first _ _ _ H2). destruct free as [|i free]; [done|]. cbn [fmap list_fmap head blk_entry mbind option_bind].
  destruct (path_remove (lists r) FreeList (Blk i) [] (fmap (M := list) Blk free) (list_fuel r) H2) as (m & -> & Hm & Hk); [|unfold list_fuel; cbn; lia|].
  { cbn. by apply (nodup_nodes FreeList (i :: free)). }
  exists m. split; [done|]. apply NoDup_app in H3 as (N1 & N2 & N3). constructor; try done.
  - cbn. eapply path_frame; [|exact H1]. intros a Ha. apply Hk. intros ->. change (FreeList ∈ BlkList :: (Blk <$> live)) in Ha.
    apply elem_of_cons in Ha as [?|(j & ? & _)%list_elem_of_fmap]; done.
  - apply NoDup_app. apply NoDup_cons in N3 as [? ?]. split; [done|]. split; [|done]. intros j Hj. specialize (N2 j Hj). set_solver.
  - intros j Hj. apply H4. set_solver.
Qed.

Lemma place_ok r live free i addr sz : rbb_ok r live free -> i ∉ live ++ free -> (i < blk_max_num r)%nat -> 0 < sz < 2 ^ 24 ->
  arranged (buf r) (buf r + buf_size r) ((region r <$> live) ++ [(addr, sz)]) ->
  rbb_ok (place_blk i addr sz r) (live ++ [i]) free /\
  (forall j, blk (place_blk i addr sz r) j = if decide (i = j) then {| status := RT_RBB_BLK_INITED; bsize := sz; bbuf := addr |} else blk r j).
Proof.
  intros Hok Hi Hmax Hsz Har. pose proof (nodup_live r live free Hok) as Hd. destruct Hok as [H1 H2 H3 H4 H5 H6 H7 H8 H9].
  assert (Hblk : forall j, blk (place_blk i addr sz r) j = if decide (i = j) then {| status := RT_RBB_BLK_INITED; bsize := sz; bbuf := addr |} else blk r j).
  { intros j. unfold place_blk. rewrite blk_alter by (cbn; rewrite H5; done). rewrite Z.mod_small by lia. done. }
  split; [|done]. apply not_elem_of_app in Hi as [Hi1 Hi2]. constructor; try done; cbn [place_blk with_blocks list_append with_lists lists blk_set tail buf buf_size blk_max_num].
  - rewrite fmap_app, H6. apply path_snoc; [done|by apply nodup_nodes|by apply not_in_nodes].
  - eapply path_frame; [|exact H2]. intros a Ha. rewrite !next_set, !decide_False; [done| |].
    + rewrite H6. intros <-. pose proof (end_node_in BlkList (Blk <$> live)) as He. apply elem_of_cons in Ha as [E|(j & E & Hj)%list_elem_of_fmap]; rewrite E in He;
        apply elem_of_cons in He as [?|(k & [= ->] & Hk)%list_elem_of_fmap]; try done. apply NoDup_app in H3 as (_ & N & _). by apply (N k).
    + intros <-. by apply (not_in_nodes FreeList free i).
  - apply NoDup_app in H3 as (N1 & N2 & N3). rewrite <- app_assoc. apply NoDup_app. split; [done|]. split; [|apply NoDup_cons; done].
    intros j Hj. specialize (N2 j Hj). set_solver.
  - intros j Hj. destruct (decide (j = i)) as [->|]; [done|]. apply H4. set_solver.
  - by rewrite length_alter.
  - rewrite fmap_app. change (fmap (M := list) Blk [i]) with [Blk i]. by rewrite end_node_snoc.
  - intros j. rewrite Hblk. rewrite elem_of_app, list_elem_of_singleton. case_decide as E; [subst j; cbn; split; [done|by right]|].
    rewrite <- H7. split; [intros [?|?]; [done|congruence]|by left].
  - rewrite fmap_app. rewrite (list_fmap_ext _ (region r) live).
    + cbn [fmap list_fmap]. unfold region at 2. by rewrite Hblk, decide_True.
    + intros k j Hj. apply list_elem_of_lookup_2 in Hj. unfold region. rewrite Hblk, decide_False; [done|]. by intros <-.
Qed.
Lemma room_u32 r live free b s : rbb_ok r live free -> arranged (buf r) (buf r + buf_size r) (region r <$> live) -> (b, s) ∈ region r <$> live ->
  buf r <= b /\ 0 < s /\ b + s <= buf r + buf_size r /\ u32 (buf r + buf_size r - (b + s)) = buf r + buf_size r - (b + s) /\ u32 (b - buf r) = b - buf r.
Proof.
  intros Hok Ha Hin. apply (arranged_in _ _ _ _ Ha) in Hin as (I1 & I2 & I3). cbn in *. pose proof (ro_buf _ _ _ Hok).
  rewrite !u32_small by lia. done.
Qed.
(** The place the code chooses is [spot]. *)
Lemma alloc_place r live free i sz : rbb_ok r live free -> 0 < sz -> live <> [] ->
  exists h t, head live = Some h /\ last live = Some t /\
  (if bbuf (blk r h) <=? bbuf (blk r t) then
     if sz <=? room_behind r (blk r t) then (place_blk i (bbuf (blk r t) + bsize (blk r t)) sz r, Some i)
     else if sz <=? room_before r (blk r h) then (place_blk i (buf r) sz r, Some i) else (r, None)
   else if sz <=? room_between (blk r h) (blk r t) then (place_blk i (bbuf (blk r t) + bsize (blk r t)) sz r, Some i) else (r, None)) =
  match spot (buf r) (buf r + buf_size r) (region r <$> live) sz with
  | Some addr => (place_blk i addr sz r, Some i)
  | None => (r, None)
  end.
Proof.
  intros Hok Hsz Hne. destruct live as [|h l]; [done|]. destruct (last (h :: l)) as [t|] eqn:E; [|by apply last_None in E].
  exists h, t. split; [done|]. split; [done|]. unfold spot. rewrite fmap_last, E. cbn [fmap list_fmap head option_fmap option_map].
  pose proof (ro_space _ _ _ Hok) as Ha.
  destruct (room_u32 r (h :: l) free (bbuf (blk r h)) (bsize (blk r h)) Hok Ha) as (A1 & A2 & A3 & _ & A5); [by left|].
  destruct (room_u32 r (h :: l) free (bbuf (blk r t)) (bsize (blk r t)) Hok Ha) as (B1 & B2 & B3 & B4 & _).
  { apply list_elem_of_fmap. exists t. split; [done|]. by apply last_Some_elem_of. }
  unfold region, room_behind, room_before. rewrite A5, B4. set (hb := bbuf (blk r h)) in *. set (tb := bbuf (blk r t)) in *. set (ts := bsize (blk r t)) in *.
  destruct (Z.leb_spec hb tb).
  - destruct (Z.leb_spec sz (buf r + buf_size r - (tb + ts))), (Z.leb_spec (tb + ts + sz) (buf r + buf_size r)); try lia; [done|].
    destruct (Z.leb_spec sz (hb - buf r)), (Z.leb_spec (buf r + sz) hb); try lia; done.
  - assert (Hw : tb + ts <= hb).
    { assert (Hp : apart (hb, bsize (blk r h)) (tb, ts)); [|unfold apart in Hp; cbn in Hp; lia].
      apply (arranged_apart _ _ _ 0 (length l) _ _ Ha eq_refl).
      - rewrite list_lookup_fmap. rewrite last_lookup in E. cbn [length pred] in E. by rewrite E.
      - intros E0. destruct l; [|done]. injection E as <-. lia. }
    unfold room_between. fold hb tb ts. rewrite u32_small by (pose proof (ro_buf _ _ _ Hok); lia).
    destruct (Z.leb_spec sz (hb - (tb + ts))), (Z.leb_spec (tb + ts + sz) hb); try lia; done.
Qed.

Lemma live_head r live free : rbb_ok r live free -> rt_slist_first (lists r) BlkList = Blk <$> head live.
Proof. intros Hok. rewrite (path_first _ _ _ (ro_blk _ _ _ Hok)). by destruct live. Qed.
Lemma live_tail r live free t : rbb_ok r live free -> last live = Some t -> tail r = Blk t.
Proof. intros Hok E. rewrite (ro_tail _ _ _ Hok). unfold end_node. by rewrite fmap_last, E. Qed.
(** An allocation goes through the free list, then takes the place [spot]. *)
Lemma alloc_eq r live free sz : rbb_ok r live free -> 0 < sz -> sz <= buf_size r ->
  match free with
  | [] => rt_rbb_blk_alloc sz r = Some (r, None)
  | i :: free' => exists m, rbb_ok (with_lists m (tail r) r) live free' /\
      rt_rbb_blk_alloc sz r =
        Some match spot (buf r) (buf r + buf_size r) (region r <$> live) sz with
             | Some addr => (place_blk i addr sz (with_lists m (tail r) r), Some i)
             | None => (with_lists m (tail r) r, None)
             end
  end.
Proof.
  intros Hok Hsz Hbs. pose proof (find_empty_ok _ _ _ Hok) as Hf. unfold rt_rbb_blk_alloc. destruct free as [|i free]; [by rewrite Hf|].
  destruct Hf as (m & -> & Hok'). exists m. split; [done|]. cbn [mbind option_bind]. rewrite (live_head _ _ _ Hok').
  destruct live as [|h l]; [done|]. destruct (alloc_place _ _ _ i sz Hok' Hsz ltac:(done)) as (h' & t & [= <-] & E & E').
  rewrite (live_tail _ _ _ t Hok' E). cbn [head fmap option_fmap option_map blk_entry mbind option_bind]. by rewrite E'.
Qed.

Lemma nodup_mid (l1 l2 : list nat) i : NoDup (l1 ++ i :: l2) -> i ∉ l1 /\ i ∉ l2 /\ NoDup (l1 ++ l2).
Proof.
  intros Hd. assert (Hs : NoDup (l1 ++ l2)) by (apply (sublist_NoDup _ (l1 ++ i :: l2)); [done|apply sublist_app; [done|by apply sublist_cons]]). apply NoDup_app in Hd as (_ & N & N').
  apply NoDup_cons in N' as [? _]. split; [|done]. intros Hi. apply (N i Hi). by left.
Qed.
Lemma in_nodes h (l : list nat) i : (forall j, h <> Blk j) -> Blk i ∈ h :: (Blk <$> l) -> i ∈ l.
Proof. intros Hh Hi. destruct (decide (i ∈ l)) as [|Hn]; [done|]. by destruct (not_in_nodes h l i Hh Hn). Qed.
(** Unlinking a block, the tail included. *)
Lemma list_remove_ok r l1 i l2 free : rbb_ok r (l1 ++ i :: l2) free ->
  exists m, list_remove (Blk i) r = Some (with_lists m (end_node BlkList (Blk <$> l1 ++ l2)) r) /\
    path m BlkList (Blk <$> l1 ++ l2) /\ path m FreeList (Blk <$> free).
Proof.
  intros Hok. pose proof (nodup_live _ _ _ Hok) as Hd. pose proof (length_lists _ _ _ Hok) as Hlen. rewrite length_app in Hlen. cbn in Hlen.
  assert (Hfr : i ∉ free) by (apply (live_notin_free _ _ _ Hok); set_solver).
  pose proof (nodup_nodes BlkList _ ltac:(done) Hd) as Hdn. pose proof (nodup_mid _ _ _ Hd) as (Hi1 & Hi2 & _). destruct Hok as [H1 H2 H3 H4 H5 H6 H7 H8 H9].
  rewrite fmap_app in H1, H6, Hdn. cbn [fmap list_fmap] in H1, H6, Hdn. pose proof (path_split _ _ _ _ _ H1) as [Es _].
  assert (Hb : slist_before (list_fuel r) (lists r) BlkList (Blk i) = Some (end_node BlkList (Blk <$> l1))).
  { apply (path_before _ _ _ _ _ _ H1); [|unfold list_fuel; rewrite length_fmap; lia]. by intros (j & [= <-] & Hj)%list_elem_of_fmap. }
  pose proof (end_node_in BlkList (Blk <$> l1)) as He. set (e := end_node BlkList (Blk <$> l1)) in *.
  assert (He1 : e <> Blk i) by (intros E; rewrite E in He; by apply in_nodes in He).
  pose proof (path_cut _ _ _ _ _ H1 Hdn) as Hc. fold e in Hc. rewrite <- fmap_app in Hc.
  unfold list_remove. rewrite Hb. cbn [mbind option_bind]. rewrite Es. eexists. split; [f_equal; f_equal|split].
  - rewrite H6. destruct l2 as [|x l2].
    + cbn [fmap list_fmap]. rewrite end_node_snoc, decide_True, app_nil_r by done. done.
    + change (Blk i :: (Blk <$> x :: l2)) with ([Blk i] ++ (Blk <$> x :: l2)). rewrite decide_False.
      * unfold end_node. rewrite fmap_app. change (fmap (M := list) Blk (x :: l2)) with (Blk x :: (Blk <$> l2)). by rewrite app_assoc, !last_app_cons.
      * intros E. assert (Hin : Blk i ∈ BlkList :: (Blk <$> x :: l2)); [|by apply in_nodes in Hin]. right. rewrite <- E. unfold end_node. rewrite app_assoc.
        change (fmap (M := list) Blk (x :: l2)) with (Blk x :: (Blk <$> l2)). rewrite last_app_cons. destruct (last (Blk x :: (Blk <$> l2))) as [y|] eqn:Ey; [by apply last_Some_elem_of|by apply last_None in Ey].
  - eapply path_frame; [|exact Hc]. intros a Ha. rewrite next_set, decide_False; [done|]. intros <-. apply in_nodes in Ha; [|done]. set_solver.
  - eapply path_frame; [|exact H2]. intros a Ha. rewrite !next_set, !decide_False; [done| |].
    + intros <-. apply elem_of_cons in He as [E|(j & E & Hj)%list_elem_of_fmap]; rewrite E in Ha; [by apply elem_of_cons in Ha as [?|(k & ? & _)%list_elem_of_fmap]|].
      apply in_nodes in Ha; [|done]. apply NoDup_app in H3 as (_ & N & _). apply (N j); [set_solver|done].
    + intros <-. apply in_nodes in Ha; done.
Qed.
Lemma blk_free_ok r l1 i l2 free : rbb_ok r (l1 ++ i :: l2) free ->
  exists r', rt_rbb_blk_free i r = Some r' /\ rbb_ok r' (l1 ++ l2) (i :: free) /\ (forall j, j <> i -> blk r' j = blk r j) /\
    buf r' = buf r /\ buf_size r' = buf_size r.
Proof.
  intros Hok. destruct (list_remove_ok _ _ _ _ _ Hok) as (m & Hr & P1 & P2). pose proof (nodup_mid _ _ _ (nodup_live _ _ _ Hok)) as (Hi1 & Hi2 & Hd).
  assert (Hi : (i < length (blk_set r))%nat) by (apply (in_set _ _ _ Hok); set_solver).
  assert (Hfr : i ∉ free) by (apply (live_notin_free _ _ _ Hok); set_solver). destruct Hok as [H1 H2 H3 H4 H5 H6 H7 H8 H9].
  unfold rt_rbb_blk_free. rewrite Hr. cbn [mbind option_bind]. eexists. split; [reflexivity|].
  match goal with |- rbb_ok ?x _ _ /\ _ => set (r' := x) end.
  assert (Hblk : forall j, blk r' j = if decide (i = j) then {| status := RT_RBB_BLK_UNUSED; bsize := bsize (blk r i); bbuf := bbuf (blk r i) |} else blk r j).
  { intros j. exact (blk_alter (with_lists m (end_node BlkList (Blk <$> l1 ++ l2)) r) _ i j Hi). }
  split; [|split; [|done]].
  - constructor; try done; cbn [r' lists with_lists set_status with_blocks blk_set tail blk_max_num].
    + unfold rt_slist_insert. eapply path_frame; [|exact P1]. intros a Ha. rewrite !next_set, !decide_False; [done| |].
      * intros <-. apply in_nodes in Ha; [|done]. set_solver.
      * intros <-. by apply elem_of_cons in Ha as [?|(k & ? & _)%list_elem_of_fmap].
    + apply path_insert; [done|by apply not_in_nodes|by intros (j & ? & _)%list_elem_of_fmap].
    + apply NoDup_app in H3 as (N1 & N2 & N3). apply NoDup_app. split; [done|]. split; [|by apply NoDup_cons]. intros j Hj. specialize (N2 j). set_solver.
    + intros j Hj. apply H4. set_solver.
    + by rewrite length_alter.
    + intros j. rewrite Hblk. case_decide as E; [subst j; cbn; split; [set_solver|done]|]. rewrite <- H7. set_solver.
    + rewrite (list_fmap_ext _ (region r)); [eapply arranged_sublist; [|exact H8]; rewrite !fmap_app; apply sublist_app; [done|by apply sublist_cons]|].
      intros k j Hj. apply list_elem_of_lookup_2 in Hj. unfold region. rewrite Hblk, decide_False; [done|]. intros <-. set_solver.
  - intros j Hj. by rewrite Hblk, decide_False.
Qed.

(** The neighbour in the list. *)
Lemma live_link r l1 i l2 free : rbb_ok r (l1 ++ i :: l2) free -> rt_slist_next (lists r) (Blk i) = Blk <$> head l2.
Proof.
  intros Hok. pose proof (ro_blk _ _ _ Hok) as Hp. rewrite fmap_app in Hp. cbn [fmap list_fmap] in Hp. apply path_split in Hp as [_ Hp].
  change (rt_slist_first (lists r) (Blk i) = Blk <$> head l2). rewrite (path_first _ _ _ Hp). by destruct l2.
Qed.
Notation put_block r := (fun i => status (blk r i) = RT_RBB_BLK_PUT).
Lemma get_loop_eq r l : forall h f, path (lists r) h (Blk <$> l) -> (length l <= f)%nat ->
  blk_get_loop f r (rt_slist_next (lists r) h) = Some (head (filter (put_block r) l)).
Proof.
  induction l as [|i l IH]; intros h f Hp Hf.
  - cbn in Hp. rewrite Hp. by destruct f.
  - destruct Hp as [-> Hp]. destruct f as [|f]; cbn in Hf; [lia|]. cbn [blk_get_loop blk_entry mbind option_bind]. rewrite filter_cons.
    destruct (decide (status (blk r i) = RT_RBB_BLK_PUT)); [done|]. apply IH; [done|lia].
Qed.
Lemma list_fuel_ok r live free : rbb_ok r live free -> (length live < list_fuel r)%nat.
Proof. intros Hok. pose proof (length_lists _ _ _ Hok). unfold list_fuel. lia. Qed.
(** A read takes the oldest block that has been put. *)
Lemma blk_get_eq r live free : rbb_ok r live free ->
  rt_rbb_blk_get r =
    match head (filter (put_block r) live) with
    | Some i => Some (set_status RT_RBB_BLK_GET i r, Some i)
    | None => Some (r, None)
    end.
Proof.
  intros Hok. unfold rt_rbb_blk_get. rewrite (path_isempty _ _ _ (ro_blk _ _ _ Hok)).
  pose proof (get_loop_eq r live BlkList (list_fuel r) (ro_blk _ _ _ Hok) ltac:(pose proof (list_fuel_ok _ _ _ Hok); lia)) as E.
  destruct live as [|i live]; [done|]. cbn [fmap list_fmap]. unfold rt_slist_first. rewrite E. cbn [mbind option_bind]. by destruct (head _).
Qed.
Lemma head_filter_in (P : nat -> Prop) `{forall x, Decision (P x)} l i : head (filter P l) = Some i -> i ∈ l /\ P i.
Proof. intros E. assert (Hi : i ∈ filter P l) by (destruct (filter P l); [done|injection E as ->; by left]). by apply list_elem_of_filter in Hi as [? ?]. Qed.
Lemma blk_get_ok r live free : rbb_ok r live free -> exists r' o, rt_rbb_blk_get r = Some (r', o) /\ rbb_ok r' live free.
Proof.
  intros Hok. rewrite (blk_get_eq _ _ _ Hok). destruct (head _) as [i|] eqn:E; [|by exists r, None].
  apply head_filter_in in E as [E _]. eexists _, _. split; [done|]. by apply status_ok.
Qed.

(** ** Queues *)
Definition extends (r : rt_rbb) (len total : Z) (l i : nat) : bool :=
  bool_decide (status (blk r i) = RT_RBB_BLK_PUT) && negb (bbuf (blk r i) <? bbuf (blk r l)) && (total + bsize (blk r i) <=? len).
Fixpoint run_from (r : rt_rbb) (len total : Z) (l : nat) (k : list nat) : list nat :=
  match k with
  | [] => []
  | i :: k => if extends r len total l i then i :: run_from r len (total + bsize (blk r i)) i k else []
  end.
(** The first block that has been put, and those behind it as far as they go on. *)
Fixpoint queue_run (r : rt_rbb) (len : Z) (k : list nat) : list nat :=
  match k with
  | [] => []
  | i :: k => if decide (status (blk r i) = RT_RBB_BLK_PUT) then i :: run_from r len (bsize (blk r i)) i k else queue_run r len k
  end.
Definition total_size (r : rt_rbb) (l : list nat) : Z := foldr (fun i n => bsize (blk r i) + n) 0 l.
Definition set_statuses (s : rt_rbb_status) (l : list nat) (r : rt_rbb) : rt_rbb := foldl (fun r i => set_status s i r) r l.
Lemma asc_total l : forall lo hi, asc lo hi l -> lo + foldr (fun p n => p.2 + n) 0 l <= hi /\ Z.of_nat (length l) <= foldr (fun p n => p.2 + n) 0 l.
Proof. induction l as [|[b s] l IH]; intros lo hi; cbn [asc foldr length]; [lia|]. intros (H1 & H2 & H3). apply IH in H3. cbn. lia. Qed.
Lemma total_size_le r live free : rbb_ok r live free -> total_size r live <= buf_size r /\ Z.of_nat (length live) <= total_size r live.
Proof.
  intros Hok. destruct (ro_space _ _ _ Hok) as (m & l1 & l2 & E & H1 & H2). apply asc_total in H1, H2.
  assert (Et : forall l, total_size r l = foldr (fun p n => p.2 + n) 0 (region r <$> l)) by (induction l as [|i l IH]; cbn; [done|by rewrite <- IH]).
  rewrite Et, E. rewrite <- (length_fmap (region r) live), E, length_app.
  assert (Ea : foldr (fun p n => p.2 + n) 0 (l1 ++ l2) = foldr (fun p n => p.2 + n) 0 l1 + foldr (fun p n => p.2 + n) 0 l2).
  { clear. induction l1 as [|p l1 IH]; cbn; [done|]. rewrite IH. lia. }
  rewrite Ea. lia.
Qed.
(** Blocks that have kept their place, and their status but for [l]. *)
Record same_blocks (k : list nat) (r r' : rt_rbb) : Prop := {
  sb_region : forall i, region r' i = region r i;
  sb_status : forall i, i ∈ k -> status (blk r' i) = status (blk r i);
}.
Lemma same_set_status k s i r : (i < length (blk_set r))%nat -> i ∉ k -> same_blocks k r (set_status s i r).
Proof.
  intros Hi Hk. constructor.
  - intros j. unfold region, set_status. rewrite !blk_alter by done. by case_decide as E; [subst j|].
  - intros j Hj. unfold set_status. rewrite blk_alter by done. rewrite decide_False; [done|]. by intros <-.
Qed.
Lemma run_from_ext r r' len k : forall total l, same_blocks k r r' -> run_from r' len total l k = run_from r len total l k.
Proof.
  induction k as [|i k IH]; intros total l [Hr Hs]; cbn; [done|].
  assert (E : forall j, bbuf (blk r' j) = bbuf (blk r j) /\ bsize (blk r' j) = bsize (blk r j)) by (intros j; specialize (Hr j); by injection Hr).
  unfold extends. destruct (E i) as [-> ->], (E l) as [-> _]. rewrite Hs by (by left). case_match; [|done]. f_equal. apply IH. constructor; [done|].
  intros j Hj. apply Hs. by right.
Qed.
Lemma total_size_ext r r' k l : same_blocks k r r' -> total_size r' l = total_size r l.
Proof. intros [Hr _]. unfold total_size. induction l as [|i l IH]; cbn; [done|]. rewrite IH. specialize (Hr i). by injection Hr as _ ->. Qed.
Lemma total_size_nonneg r l : Forall (fun i => 0 < bsize (blk r i)) l -> 0 <= total_size r l.
Proof. unfold total_size. induction 1; cbn; lia. Qed.
Lemma run_loop k : forall f len l total q r h, path (lists r) h (Blk <$> k) -> NoDup k -> (length k <= f)%nat ->
  (forall i, i ∈ k -> (i < length (blk_set r))%nat) -> Forall (fun i => 0 < bsize (blk r i)) k ->
  0 <= total -> total + total_size r k < 2 ^ 32 -> 0 <= blk_num q -> blk_num q + Z.of_nat (length k) < 2 ^ 32 ->
  let run := run_from r len total l k in
  queue_get_loop f len (rt_slist_next (lists r) h) (rt_slist_next (lists r) h ≫= rt_slist_next (lists r)) (Some l) total q r =
    Some (set_statuses RT_RBB_BLK_GET run r, {| blocks := blocks q; blk_num := blk_num q + Z.of_nat (length run) |}, total + total_size r run).
Proof.
  induction k as [|i k IH]; intros f len l total q r h Hp Hd Hf Hin Hpos Ht Hov Hq Hqo run.
  - cbn in Hp. rewrite Hp. unfold run. destruct f; cbn; rewrite !Z.add_0_r; by destruct q.
  - destruct Hp as [E Hp]. rewrite E. destruct f as [|f]; cbn [length] in *; [lia|]. apply NoDup_cons in Hd as [Hi Hd]. apply Forall_cons in Hpos as [Hb Hpos].
    cbn [total_size foldr] in Hov. pose proof (total_size_nonneg _ _ Hpos) as Hn. fold (total_size r k) in Hov.
    cbn [queue_get_loop blk_entry mbind option_bind]. rewrite !u32_small by lia. unfold run. cbn [run_from]. unfold extends. rewrite (Z.leb_antisym len).
    destruct (bool_decide _); cbn [negb andb orb]; [|cbn; rewrite !Z.add_0_r; by destruct q].
    destruct (Z.ltb_spec (bbuf (blk r i)) (bbuf (blk r l))); cbn [negb orb andb]; [cbn; rewrite !Z.add_0_r; by destruct q|].
    destruct (len <? total + bsize (blk r i)) eqn:El; cbn [negb]; [cbn; rewrite !Z.add_0_r; by destruct q|].
    pose proof (same_set_status k RT_RBB_BLK_GET i r ltac:(apply Hin; by left) Hi) as Hsame. set (r1 := set_status RT_RBB_BLK_GET i r) in *.
    change (rt_slist_next (lists r)) with (rt_slist_next (lists r1)). rewrite (IH f len i _ _ r1 (Blk i) Hp Hd).
    + rewrite (run_from_ext _ _ _ _ _ _ Hsame), (total_size_ext _ _ _ _ Hsame). cbn [blocks blk_num length total_size foldr set_statuses foldl].
      apply (f_equal Some), pair_eq. split; [apply pair_eq; split; [done|f_equal; lia]|unfold total_size; cbn [foldr]; lia].
    + lia.
    + intros j Hj. cbn. rewrite length_alter. apply Hin. by right.
    + eapply Forall_impl; [exact Hpos|]. intros j Hj. cbn in Hj. destruct Hsame as [Hr _]. specialize (Hr j). injection Hr as _ ->. done.
    + lia.
    + rewrite (total_size_ext _ _ _ _ Hsame). lia.
    + cbn. lia.
    + cbn. lia.
Qed.
Lemma first_loop k : forall f len q r h, path (lists r) h (Blk <$> k) -> NoDup k -> (length k <= f)%nat ->
  (forall i, i ∈ k -> (i < length (blk_set r))%nat) -> Forall (fun i => 0 < bsize (blk r i)) k ->
  total_size r k < 2 ^ 32 -> Z.of_nat (length k) < 2 ^ 32 ->
  let run := queue_run r len k in
  queue_get_loop f len (rt_slist_next (lists r) h) (rt_slist_next (lists r) h ≫= rt_slist_next (lists r)) None 0 q r =
    Some (set_statuses RT_RBB_BLK_GET run r,
          match run with [] => q | i :: _ => {| blocks := i; blk_num := Z.of_nat (length run) |} end, total_size r run).
Proof.
  induction k as [|i k IH]; intros f len q r h Hp Hd Hf Hin Hpos Hov Hq run.
  - cbn in Hp. rewrite Hp. unfold run. by destruct f.
  - destruct Hp as [E Hp]. rewrite E. destruct f as [|f]; cbn [length] in *; [lia|]. apply NoDup_cons in Hd as [Hi Hd]. apply Forall_cons in Hpos as [Hb Hpos].
    unfold total_size in Hov. cbn [foldr] in Hov. pose proof (total_size_nonneg _ _ Hpos) as Hn. unfold total_size in Hn.
    cbn [queue_get_loop blk_entry mbind option_bind]. unfold run. cbn [queue_run]. case_decide.
    + pose proof (same_set_status k RT_RBB_BLK_GET i r ltac:(apply Hin; by left) Hi) as Hsame. set (r1 := set_status RT_RBB_BLK_GET i r) in *.
      change (rt_slist_next (lists r)) with (rt_slist_next (lists r1)). rewrite !u32_small by (cbn; lia). change (0 + bsize (blk r i)) with (bsize (blk r i)). cbn [blocks blk_num].
      rewrite (run_loop k f len i _ _ r1 (Blk i) Hp Hd); [|lia| | |lia| |cbn; lia|cbn; lia].
      * rewrite (run_from_ext _ _ _ _ _ _ Hsame), (total_size_ext _ _ _ _ Hsame). cbn [blocks blk_num length set_statuses foldl].
        apply (f_equal Some), pair_eq. split; [apply pair_eq; split; [done|f_equal; lia]|done].
      * intros j Hj. cbn. rewrite length_alter. apply Hin. by right.
      * eapply Forall_impl; [exact Hpos|]. intros j Hj. cbn in Hj. destruct Hsame as [Hr _]. specialize (Hr j). injection Hr as _ ->. done.
      * rewrite (total_size_ext _ _ _ _ Hsame). unfold total_size. lia.
    + apply (IH f len q r (Blk i) Hp Hd); [lia| |done|unfold total_size; lia|lia]. intros j Hj. apply Hin. by right.
Qed.
Lemma live_pos r live free : rbb_ok r live free -> Forall (fun i => 0 < bsize (blk r i)) live.
Proof.
  intros Hok. apply Forall_forall. intros i Hi. apply (arranged_in _ _ _ (region r i) (ro_space _ _ _ Hok)). by apply list_elem_of_fmap_2.
Qed.
Lemma queue_get_eq r live free len q : rbb_ok r live free ->
  rt_rbb_blk_queue_get len q r =
    let run := queue_run r len live in
    Some (set_statuses RT_RBB_BLK_GET run r,
          match run with [] => q | i :: _ => {| blocks := i; blk_num := Z.of_nat (length run) |} end, total_size r run).
Proof.
  intros Hok. pose proof (total_size_le _ _ _ Hok) as [T1 T2]. pose proof (ro_buf _ _ _ Hok).
  unfold rt_rbb_blk_queue_get. rewrite (path_isempty _ _ _ (ro_blk _ _ _ Hok)). destruct live as [|i live]; [done|]. cbn [fmap list_fmap].
  apply first_loop; [apply (ro_blk _ _ _ Hok)|apply (nodup_live _ _ _ Hok)|pose proof (list_fuel_ok _ _ _ Hok); lia| |apply (live_pos _ _ _ Hok)|lia|lia].
  intros j Hj. apply (in_set _ _ _ Hok). by apply elem_of_app; left.
Qed.
Lemma run_from_in r len k : forall total l i, i ∈ run_from r len total l k -> i ∈ k.
Proof. induction k as [|j k IH]; intros total l i; cbn; [done|]. case_match; [|by intros ?%elem_of_nil]. intros [->|Hi]%elem_of_cons; [by left|right; by eapply IH]. Qed.
Lemma queue_run_in r len k i : i ∈ queue_run r len k -> i ∈ k.
Proof.
  induction k as [|j k IH]; cbn; [done|]. case_decide; [|intros Hi; right; by apply IH].
  intros [->|Hi]%elem_of_cons; [by left|right; by eapply run_from_in].
Qed.
Lemma set_statuses_ok l : forall r live free, (forall i, i ∈ l -> i ∈ live) -> rbb_ok r live free -> rbb_ok (set_statuses RT_RBB_BLK_GET l r) live free.
Proof.
  induction l as [|i l IH]; intros r live free Hl Hok; [done|]. cbn. apply IH; [intros j Hj; apply Hl; by right|].
  apply status_ok; [done|apply Hl; by left|done].
Qed.
(** Freeing a queue frees its blocks, neighbours in the list, one after the other. *)
Lemma queue_free_ok run : forall r l1 l2 free i, rbb_ok r (l1 ++ (i :: run) ++ l2) free ->
  exists r', queue_free_loop (S (length run)) i r = Some r' /\ rbb_ok r' (l1 ++ l2) (reverse (i :: run) ++ free) /\ buf r' = buf r /\ buf_size r' = buf_size r.
Proof.
  induction run as [|j run IH]; intros r l1 l2 free i Hok; cbn [queue_free_loop length].
  - destruct (blk_free_ok r l1 i l2 free Hok) as (r' & -> & H1 & _ & H2). by exists r'.
  - cbn [app] in Hok. rewrite (live_link _ _ _ _ _ Hok). destruct (blk_free_ok r l1 i _ free Hok) as (r1 & -> & H1 & _ & B1 & B2).
    cbn [head fmap option_fmap option_map mbind option_bind blk_entry].
    destruct (IH r1 l1 l2 (i :: free) j H1) as (r' & E & H2 & B3 & B4). exists r'. split; [exact E|].
    rewrite (reverse_cons (j :: run)), <- app_assoc, <- B1, <- B2. done.
Qed.

(** ** A fresh buffer *)
Definition init_step (r : rt_rbb) (i : nat) : rt_rbb :=
  let r := set_status RT_RBB_BLK_UNUSED i r in
  with_lists (rt_slist_insert (rt_slist_init (lists r) (Blk i)) FreeList (Blk i)) (tail r) r.
Lemma rbb_init_ok b bs set n : 0 <= b -> 0 <= bs -> b + bs < 2 ^ 32 -> length set = n -> rbb_ok (rt_rbb_init b bs set n) [] (reverse (seq 0 n)).
Proof.
  intros Hb Hbs Hov Hlen. unfold rt_rbb_init. set (r0 := {| buf := b; tail := BlkList |}).
  assert (Hk : forall k, (k <= n)%nat -> let r := foldl init_step r0 (seq 0 k) in
    path (lists r) BlkList [] /\ path (lists r) FreeList (Blk <$> reverse (seq 0 k)) /\ length (blk_set r) = n /\ blk_max_num r = n /\ tail r = BlkList /\
    (forall i, (i < k)%nat -> status (blk r i) = RT_RBB_BLK_UNUSED) /\ buf r = b /\ buf_size r = bs).
  { induction k as [|k IH]; intros Hk.
    - cbn. split; [done|]. split; [done|]. split; [done|]. split; [done|]. split; [done|]. split; [lia|done].
    - destruct (IH ltac:(lia)) as (H1 & H2 & H3 & H4 & H5 & H6 & H7 & H8). rewrite seq_S, foldl_app. cbn [foldl Nat.add]. set (r := foldl init_step r0 (seq 0 k)) in *.
      unfold init_step. cbn [with_lists set_status with_blocks lists blk_set tail blk_max_num buf buf_size]. rewrite reverse_snoc.
      assert (Hnew : Blk k ∉ FreeList :: (Blk <$> reverse (seq 0 k))).
      { apply not_in_nodes; [done|]. rewrite elem_of_reverse, elem_of_seq. lia. }
      split; [|split; [|split; [by rewrite length_alter|split; [done|split; [done|split; [|done]]]]]].
      + cbn in H1 |- *. unfold rt_slist_insert, rt_slist_init. by rewrite !next_set, !decide_False by done.
      + apply path_insert; [|done|by intros (j & ? & _)%list_elem_of_fmap]. eapply path_frame; [|exact H2]. intros a Ha.
        unfold rt_slist_init. rewrite next_set, decide_False; [done|]. by intros <-.
      + intros i Hi. change (status (blk (set_status RT_RBB_BLK_UNUSED k r) i) = RT_RBB_BLK_UNUSED). unfold set_status. rewrite blk_alter by lia.
        case_decide; [done|]. apply H6. lia. }
  destruct (Hk n ltac:(lia)) as (H1 & H2 & H3 & H4 & H5 & H6 & H7 & H8). fold init_step. set (r := foldl init_step r0 (seq 0 n)) in *.
  constructor; try done.
  - cbn. rewrite reverse_Permutation. apply NoDup_seq.
  - intros i Hi. rewrite H4. cbn in Hi. rewrite elem_of_reverse, elem_of_seq in Hi. lia.
  - by rewrite H3, H4.
  - intros i. split; [by intros ?%elem_of_nil|]. destruct (decide (i < n)%nat) as [Hi|Hi]; [by rewrite H6|].
    unfold blk. rewrite lookup_ge_None_2 by lia. done.
  - exists b, [], []. split; [done|]. rewrite H7, H8. cbn. lia.
  - by rewrite H7, H8.
Qed.

Lemma init_buf b bs set n : buf (rt_rbb_init b bs set n) = b /\ buf_size (rt_rbb_init b bs set n) = bs.
Proof.
  unfold rt_rbb_init. set (r0 := {| buf := b; tail := BlkList |}). assert (H0 : buf r0 = b /\ buf_size r0 = bs) by done. clearbody r0. revert r0 H0.
  induction (seq 0 n) as [|i l IH]; intros r0 H0; [done|]. by apply IH.
Qed.

(** ** Any sequence of operations

    The assertions of the functions are conditions; sizes are positive and not
    larger than the buffer. *)
Definition in_use (r : rt_rbb) (i : nat) : Prop := status (blk r i) <> RT_RBB_BLK_UNUSED.
(** The blocks of a queue, from the first one along the list. *)
Fixpoint queue_blocks (n : nat) (i : nat) (r : rt_rbb) : option (list nat) :=
  match n with
  | O => Some []
  | S O => Some [i]
  | S n => j ← rt_slist_next (lists r) (Blk i) ≫= blk_entry; cons i <$> queue_blocks n j r
  end.
Inductive rbb_step (r : rt_rbb) : rt_rbb -> Prop :=
| step_alloc sz r' o : 0 < sz < 2 ^ 24 -> sz <= buf_size r -> rt_rbb_blk_alloc sz r = Some (r', o) -> rbb_step r r'
| step_put i : status (blk r i) = RT_RBB_BLK_INITED -> rbb_step r (rt_rbb_blk_put i r)
| step_get r' o : rt_rbb_blk_get r = Some (r', o) -> rbb_step r r'
| step_free i r' : in_use r i -> rt_rbb_blk_free i r = Some r' -> rbb_step r r'
| step_queue_get len q r' q' n : rt_rbb_blk_queue_get len q r = Some (r', q', n) -> rbb_step r r'
| step_queue_free q l r' : in_use r (blocks q) -> queue_blocks (Z.to_nat (blk_num q)) (blocks q) r = Some l ->
    rt_rbb_blk_queue_free q r = Some r' -> rbb_step r r'.

Lemma alloc_placed r live free i addr sz m : rbb_ok r live (i :: free) -> rbb_ok (with_lists m (tail r) r) live free -> 0 < sz < 2 ^ 24 -> sz <= buf_size r ->
  spot (buf r) (buf r + buf_size r) (region r <$> live) sz = Some addr ->
  let r' := place_blk i addr sz (with_lists m (tail r) r) in
  rbb_ok r' (live ++ [i]) free /\
  forall j, blk r' j = if decide (i = j) then {| status := RT_RBB_BLK_INITED; bsize := sz; bbuf := addr |} else blk r j.
Proof.
  intros Hok Hok' Hsz Hle Es r'. apply (place_ok (with_lists m (tail r) r) live free i addr sz Hok'); [| |done|].
  - intros Hi. pose proof (ro_nodup _ _ _ Hok) as Hd. apply NoDup_app in Hd as (_ & N & N'). apply NoDup_cons in N' as [N' _].
    apply elem_of_app in Hi as [Hi|Hi]; [apply (N i Hi); by left|done].
  - apply (ro_bound _ _ _ Hok). apply elem_of_app. right. by left.
  - apply arranged_spot; [apply (ro_space _ _ _ Hok)|pose proof (ro_buf _ _ _ Hok); cbn; lia|done].
Qed.
Lemma alloc_ok r live free sz : rbb_ok r live free -> 0 < sz < 2 ^ 24 -> sz <= buf_size r ->
  exists r' o live' free', rt_rbb_blk_alloc sz r = Some (r', o) /\ rbb_ok r' live' free' /\ buf r' = buf r /\ buf_size r' = buf_size r.
Proof.
  intros Hok Hsz Hbs. pose proof (alloc_eq r live free sz Hok ltac:(lia) Hbs) as E. destruct free as [|i free]; [by exists r, None, live, []|].
  destruct E as (m & Hok' & ->). destruct (spot _ _ _ _) as [addr|] eqn:Es; [|by eexists _, None, live, free].
  destruct (alloc_placed _ _ _ _ _ _ _ Hok Hok' Hsz Hbs Es) as [Hp _]. by eexists _, _, _, _.
Qed.
Lemma in_use_split r live free i : rbb_ok r live free -> in_use r i -> exists l1 l2, live = l1 ++ i :: l2.
Proof. intros Hok Hi. apply (ro_status _ _ _ Hok) in Hi. by apply list_elem_of_split. Qed.
Lemma queue_blocks_S n i r : queue_blocks (S (S n)) i r = (j ← rt_slist_next (lists r) (Blk i) ≫= blk_entry; cons i <$> queue_blocks (S n) j r).
Proof. done. Qed.
Lemma queue_blocks_ok n : forall r l1 i l2 free l, rbb_ok r (l1 ++ i :: l2) free -> queue_blocks (S n) i r = Some l ->
  exists run l3, l = i :: run /\ l2 = run ++ l3 /\ length run = n.
Proof.
  induction n as [|n IH]; intros r l1 i l2 free l Hok E.
  - injection E as <-. by exists [], l2.
  - rewrite queue_blocks_S, (live_link _ _ _ _ _ Hok) in E. destruct l2 as [|j l2]; [discriminate E|].
    change (head (j :: l2)) with (Some j) in E. cbn [fmap option_fmap option_map mbind option_bind blk_entry] in E. change (l1 ++ i :: j :: l2) with (l1 ++ [i] ++ j :: l2) in Hok. rewrite app_assoc in Hok.
    destruct (queue_blocks (S n) j r) as [k|] eqn:Ek; [|done]. injection E as <-.
    destruct (IH r _ j l2 free k Hok Ek) as (run & l3 & -> & -> & Hl). exists (j :: run), l3. cbn. by rewrite Hl.
Qed.
Lemma step_ok r r' live free : rbb_ok r live free -> rbb_step r r' ->
  exists live' free', rbb_ok r' live' free' /\ buf r' = buf r /\ buf_size r' = buf_size r.
Proof.
  intros Hok [sz r1 o Hsz Hbs E|i Hi|r1 o E|i r1 Hi E|len q r1 q' n E|q l r1 Hi Hl E].
  - destruct (alloc_ok _ _ _ _ Hok Hsz Hbs) as (r2 & o' & live' & free' & E' & H1 & H2). rewrite E in E'. injection E' as <- <-. by exists live', free'.
  - exists live, free. split; [|done]. apply status_ok; [done| |done]. apply (ro_status _ _ _ Hok). by rewrite Hi.
  - rewrite (blk_get_eq _ _ _ Hok) in E. exists live, free. destruct (head _) as [i|] eqn:Ei; injection E as <- <-; [|done].
    split; [|done]. apply head_filter_in in Ei as [Ei _]. by apply status_ok.
  - destruct (in_use_split _ _ _ _ Hok Hi) as (l1 & l2 & ->). destruct (blk_free_ok _ _ _ _ _ Hok) as (r2 & E' & H1 & _ & H2).
    rewrite E in E'. injection E' as <-. by exists (l1 ++ l2), (i :: free).
  - rewrite (queue_get_eq _ _ _ _ _ Hok) in E. injection E as <- _ _. exists live, free.
    assert (Hs : forall l r, buf (set_statuses RT_RBB_BLK_GET l r) = buf r /\ buf_size (set_statuses RT_RBB_BLK_GET l r) = buf_size r).
    { clear. induction l as [|i l IH]; intros r; [done|]. exact (IH (set_status RT_RBB_BLK_GET i r)). }
    split; [|apply Hs]. apply set_statuses_ok; [apply queue_run_in|done].
  - unfold rt_rbb_blk_queue_free in E. destruct (Z.to_nat (blk_num q)) as [|n]; [injection E as <-; by exists live, free|].
    destruct (in_use_split _ _ _ _ Hok Hi) as (l1 & l2 & ->). destruct (queue_blocks_ok n _ _ _ _ _ _ Hok Hl) as (run & l3 & -> & -> & <-).
    destruct (queue_free_ok run r l1 l3 free _ Hok) as (r2 & E' & H1 & H2). rewrite E in E'. injection E' as <-.
    by exists (l1 ++ l3), (reverse (blocks q :: run) ++ free).
Qed.


(** C20: what an allocation does on a well-formed buffer: with a free descriptor and
    room at the next place of the ring the block is laid out there, behind the blocks
    in use, and no other block changes; without a free descriptor nothing happens;
    without room it fails, and the descriptor it has taken is in neither list any
    more. *)
Theorem rt_rbb_blk_alloc_spec (r : rt_rbb) (live free : list nat) (sz : Z) :
  rbb_ok r live free -> 0 < sz < 2 ^ 24 -> sz <= buf_size r ->
  exists r',
    match free, spot (buf r) (buf r + buf_size r) (region r <$> live) sz with
    | [], _ => rt_rbb_blk_alloc sz r = Some (r', None) /\ r' = r
    | i :: free', Some addr =>
        rt_rbb_blk_alloc sz r = Some (r', Some i) /\ rbb_ok r' (live ++ [i]) free' /\
        forall j, blk r' j = if decide (i = j) then {| status := RT_RBB_BLK_INITED; bsize := sz; bbuf := addr |} else blk r j
    | i :: free', None =>
        rt_rbb_blk_alloc sz r = Some (r', None) /\ rbb_ok r' live free' /\ ~ (i ∈ live ++ free') /\ forall j, blk r' j = blk r j
    end.
Proof.
  intros Hok Hsz Hbs. pose proof (alloc_eq r live free sz Hok ltac:(lia) Hbs) as E. destruct free as [|i free]; [by exists r|].
  destruct E as (m & Hok' & ->). destruct (spot _ _ _ _) as [addr|] eqn:Es.
  - eexists. split; [reflexivity|]. exact (alloc_placed _ _ _ _ _ _ _ Hok Hok' Hsz Hbs Es).
  - eexists. split; [reflexivity|]. split; [done|]. split; [|done]. pose proof (ro_nodup _ _ _ Hok) as Hd. apply NoDup_app in Hd as (_ & N & N').
    apply NoDup_cons in N' as [N' _]. intros [Hi|Hi]%elem_of_app; [apply (N i Hi); by left|done].
Qed.

(** ** A small buffer: 100 bytes, three descriptors *)
Definition fresh3 : rt_rbb := rt_rbb_init 1000 100 (replicate 3 no_blk) 3.
Definition alloc1 (sz : Z) (r : rt_rbb) : rt_rbb := from_option fst r (rt_rbb_blk_alloc sz r).
Definition freed1 (i : nat) (r : rt_rbb) : rt_rbb := default r (rt_rbb_blk_free i r).
(** One block of 60 bytes. *)
Definition one_block : rt_rbb := alloc1 60 fresh3.
Lemma one_block_regions : region one_block <$> [2%nat] = [(1000, 60)] /\ buf one_block = 1000 /\ buf_size one_block = 100.
Proof. vm_compute. done. Qed.
Lemma one_block_status (i : nat) : i ∈ [2%nat] <-> status (blk one_block i) <> RT_RBB_BLK_UNUSED.
Proof.
  rewrite list_elem_of_singleton. destruct (decide (i < 3)%nat) as [Hi|Hi].
  - assert (E : i = 0%nat \/ i = 1%nat \/ i = 2%nat) by lia. by destruct E as [-> | [-> | ->]]; vm_compute.
  - split; [lia|]. assert (E : length (blk_set one_block) = 3%nat) by (vm_compute; reflexivity).
    unfold blk. rewrite lookup_ge_None_2 by lia. done.
Qed.
Lemma one_block_ok : rbb_ok one_block [2%nat] [1%nat; 0%nat].
Proof.
  destruct one_block_regions as (E1 & E2 & E3). assert (E4 : blk_max_num one_block = 3%nat) by (vm_compute; reflexivity).
  constructor.
  - vm_compute. done.
  - vm_compute. done.
  - by apply (bool_decide_eq_true_1 (NoDup [2%nat; 1%nat; 0%nat])).
  - intros i Hi. rewrite E4. change (i ∈ [2%nat; 1%nat; 0%nat]) in Hi. rewrite !elem_of_cons, elem_of_nil in Hi. lia.
  - vm_compute. done.
  - vm_compute. done.
  - exact one_block_status.
  - rewrite E1, E2, E3. exists 1000, [(1000, 60)], []. split; [done|]. cbn. lia.
  - rewrite E2, E3. lia.
Qed.
Lemma rt_rbb_blk_alloc_spec_witness :
  (exists r', rt_rbb_blk_alloc 60 one_block = Some (r', None) /\ rbb_ok r' [2%nat] [0%nat]) /\
  (exists r', rt_rbb_blk_alloc 40 one_block = Some (r', Some 1%nat) /\ rbb_ok r' [2%nat; 1%nat] [0%nat]).
Proof.
  split.
  - destruct (rt_rbb_blk_alloc_spec one_block [2%nat] [1%nat; 0%nat] 60 one_block_ok) as (r' & H); [lia|vm_compute; done|].
    destruct one_block_regions as (E1 & E2 & E3). rewrite E1, E2, E3 in H. exists r'. destruct H as (H1 & H2 & _). by split.
  - destruct (rt_rbb_blk_alloc_spec one_block [2%nat] [1%nat; 0%nat] 40 one_block_ok) as (r' & H); [lia|vm_compute; done|].
    destruct one_block_regions as (E1 & E2 & E3). rewrite E1, E2, E3 in H. exists r'. destruct H as (H1 & H2 & _). by split.
Defined.

(** ** What goes wrong

    A failed allocation loses its descriptor: with 90 bytes free none is left. *)
Lemma descriptors_lost :
  let r := alloc1 10 (freed1 2 (alloc1 60 (alloc1 60 one_block))) in
  rt_rbb_blk_alloc 10 r = Some (r, None) /\ filter (fun i => bool_decide (in_use r i)) [0%nat; 1%nat; 2%nat] = [2%nat] /\ region r 2 = (1000, 10).
Proof. vm_compute. done. Qed.
(** The first block may be larger than the buffer. *)
Lemma first_block_unchecked : (fun ri => region ri.1 2) <$> rt_rbb_blk_alloc 5000 fresh3 = Some (1000, 5000).
Proof. vm_compute. done. Qed.
(** A queue over a released block is not contiguous: 40 bytes from 1000 on, which
    are not the two blocks of 20. *)
Definition three_blocks : rt_rbb := alloc1 20 (alloc1 20 (alloc1 20 fresh3)).
Lemma queue_with_gap :
  let r := rt_rbb_blk_put 0 (freed1 1 (rt_rbb_blk_put 2 three_blocks)) in
  (fun x => (rt_rbb_blk_queue_buf x.1.2 x.1.1, x.2)) <$> rt_rbb_blk_queue_get 100 {| blocks := 0; blk_num := 0 |} r = Some (1000, 40) /\
  region r 2 = (1000, 20) /\ region r 0 = (1040, 20).
Proof. vm_compute. done. Qed.
(** The first block is not measured against the limit. *)
Lemma queue_over_limit :
  snd <$> rt_rbb_blk_queue_get 10 {| blocks := 0; blk_num := 0 |} (rt_rbb_blk_put 2 one_block) = Some 60.
Proof. vm_compute. done. Qed.
