(* ===== verification/Ffs.v ===== *)
(** * The find-first-set routine of the ready bitmap

    [__rt_ffs] of [src/rt-thread/src/kservice.c]: the byte-table version, with
    the table [__lowest_bit_bitmap] it reads. *)
From S2P Require Import Prelude.

(** The 16-entry row pattern is written out as in the source. *)
Definition __lowest_bit_bitmap : list Z :=
  [ 0; 0; 1; 0; 2; 0; 1; 0; 3; 0; 1; 0; 2; 0; 1; 0;
    4; 0; 1; 0; 2; 0; 1; 0; 3; 0; 1; 0; 2; 0; 1; 0;
    5; 0; 1; 0; 2; 0; 1; 0; 3; 0; 1; 0; 2; 0; 1; 0;
    4; 0; 1; 0; 2; 0; 1; 0; 3; 0; 1; 0; 2; 0; 1; 0;
    6; 0; 1; 0; 2; 0; 1; 0; 3; 0; 1; 0; 2; 0; 1; 0;
    4; 0; 1; 0; 2; 0; 1; 0; 3; 0; 1; 0; 2; 0; 1; 0;
    5; 0; 1; 0; 2; 0; 1; 0; 3; 0; 1; 0; 2; 0; 1; 0;
    4; 0; 1; 0; 2; 0; 1; 0; 3; 0; 1; 0; 2; 0; 1; 0;
    7; 0; 1; 0; 2; 0; 1; 0; 3; 0; 1; 0; 2; 0; 1; 0;
    4; 0; 1; 0; 2; 0; 1; 0; 3; 0; 1; 0; 2; 0; 1; 0;
    5; 0; 1; 0; 2; 0; 1; 0; 3; 0; 1; 0; 2; 0; 1; 0;
    4; 0; 1; 0; 2; 0; 1; 0; 3; 0; 1; 0; 2; 0; 1; 0;
    6; 0; 1; 0; 2; 0; 1; 0; 3; 0; 1; 0; 2; 0; 1; 0;
    4; 0; 1; 0; 2; 0; 1; 0; 3; 0; 1; 0; 2; 0; 1; 0;
    5; 0; 1; 0; 2; 0; 1; 0; 3; 0; 1; 0; 2; 0; 1; 0;
    4; 0; 1; 0; 2; 0; 1; 0; 3; 0; 1; 0; 2; 0; 1; 0 ].

Definition bitmap_at (i : Z) : Z := nth (Z.to_nat i) __lowest_bit_bitmap 0.

Definition __rt_ffs (value : Z) : Z :=
  if value =? 0 then 0
  else if has_flag value 0xff then bitmap_at (Z.land value 0xff) + 1
  else if has_flag value 0xff00 then
    bitmap_at (Z.shiftr (Z.land value 0xff00) 8) + 9
  else if has_flag value 0xff0000 then
    bitmap_at (Z.shiftr (Z.land value 0xff0000) 16) + 17
  else bitmap_at (Z.shiftr (Z.land value 0xff000000) 24) + 25.

(** ** Correctness *)

(** [i] is the lowest set bit of [v]. *)
Definition lowest_bit (v i : Z) : Prop :=
  0 <= i /\ Z.testbit v i = true /\ forall j, 0 <= j < i -> Z.testbit v j = false.

Lemma lowest_bit_unique v i j : lowest_bit v i -> lowest_bit v j -> i = j.
Proof.
  intros (Hi & Hti & Hli) (Hj & Htj & Hlj).
  destruct (Z.lt_trichotomy i j) as [Hlt|[?|Hlt]]; [|done|].
  - rewrite Hlj in Hti by lia. done.
  - rewrite Hli in Htj by lia. done.
Qed.

Definition byte_ok (b : Z) : bool :=
  let j := bitmap_at b in
  (0 <=? j) && (j <? 8) && Z.testbit b j &&
  forallb (fun k => negb (Z.testbit b (Z.of_nat k))) (seq 0 (Z.to_nat j)).

Lemma table_ok : forallb (fun n => byte_ok (Z.of_nat n)) (seq 1 255) = true.
Proof. vm_compute. reflexivity. Qed.

Lemma table_byte b : 0 < b < 256 -> lowest_bit b (bitmap_at b) /\ bitmap_at b < 8.
Proof.
  intros Hb. pose proof table_ok as Ht. rewrite forallb_forall in Ht.
  specialize (Ht (Z.to_nat b)). rewrite Z2Nat.id in Ht by lia.
  assert (byte_ok b = true) as Hok by (apply Ht, in_seq; lia).
  unfold byte_ok in Hok. rewrite !andb_true_iff in Hok.
  destruct Hok as [[[H1 H2] H3] H4]. rt_bool. rewrite forallb_forall in H4.
  split; [|done]. split; [done|]. split; [done|]. intros j Hj.
  specialize (H4 (Z.to_nat j)). rewrite Z2Nat.id in H4 by lia.
  apply negb_true_iff, H4, in_seq. lia.
Qed.

(** One byte of the word: [k] is the shift of the byte, and the bits below it
    are all zero. *)
Lemma ffs_byte v k :
  0 <= k -> Z.land v (Z.shiftl 255 k) <> 0 ->
  (forall j, 0 <= j < k -> Z.testbit v j = false) ->
  lowest_bit v (bitmap_at (Z.shiftr (Z.land v (Z.shiftl 255 k)) k) + k).
Proof.
  intros Hk Hnz Hlow.
  set (b := Z.shiftr (Z.land v (Z.shiftl 255 k)) k).
  assert (Hbit : forall i, 0 <= i -> Z.testbit b i = Z.testbit v (i + k) && (i <? 8)).
  { intros i Hi. unfold b. rewrite Z.shiftr_spec, Z.land_spec by lia.
    f_equal. rewrite Z.shiftl_spec by lia. replace (i + k - k) with i by lia.
    change 255 with (Z.ones 8). destruct (Z.ltb_spec i 8).
    - apply Z.ones_spec_low. lia.
    - apply Z.ones_spec_high. lia. }
  assert (Hb0 : 0 <= b).
  { unfold b. apply Z.shiftr_nonneg, Z.land_nonneg. right. apply Z.shiftl_nonneg. lia. }
  assert (Hb : b < 2 ^ 8).
  { apply range_of_testbit; [lia|done|]. intros i Hi. rewrite Hbit by lia.
    rewrite (proj2 (Z.ltb_ge i 8)) by lia. apply andb_false_r. }
  assert (Hb1 : b <> 0).
  { intros Hb2. apply Hnz, Z.bits_inj_0. intros i.
    destruct (Z.lt_ge_cases i k) as [Hi|Hi].
    - rewrite Z.land_spec, Z.shiftl_spec_low by lia. apply andb_false_r.
    - pose proof (Hbit (i - k) ltac:(lia)) as Hbi. rewrite Hb2, Z.bits_0 in Hbi.
      replace (i - k + k) with i in Hbi by lia.
      rewrite Z.land_spec, Z.shiftl_spec by lia. change 255 with (Z.ones 8).
      rewrite Z.testbit_ones by lia. rewrite (proj2 (Z.leb_le 0 (i - k))) by lia. done. }
  destruct (table_byte b) as [(H0 & H1 & H2) H8]; [lia|].
  split; [lia|]. split.
  - pose proof (Hbit (bitmap_at b) H0) as Hbi. rewrite H1 in Hbi.
    by apply eq_sym, andb_true_iff in Hbi as [-> _].
  - intros j Hj. destruct (Z.lt_ge_cases j k); [apply Hlow; lia|].
    specialize (H2 (j - k) ltac:(lia)). rewrite Hbit in H2 by lia.
    replace (j - k + k) with j in H2 by lia.
    rewrite (proj2 (Z.ltb_lt (j - k) 8)) in H2 by lia. by rewrite andb_true_r in H2.
Qed.

Lemma land_zero_low v k :
  0 <= k -> Z.land v (Z.shiftl 255 k) = 0 ->
  forall j, k <= j < k + 8 -> Z.testbit v j = false.
Proof.
  intros Hk Hz j Hj. assert (Hb : Z.testbit (Z.land v (Z.shiftl 255 k)) j = false)
    by (rewrite Hz; apply Z.bits_0).
  rewrite Z.land_spec, Z.shiftl_spec in Hb by lia. change 255 with (Z.ones 8) in Hb.
  rewrite Z.ones_spec_low in Hb by lia. by rewrite andb_true_r in Hb.
Qed.

(** The result of [__rt_ffs] on a non-zero 32-bit word is one more than the
    index of its lowest set bit; on zero it is zero. *)
Lemma rt_ffs_lowest v : 0 < v < 2 ^ 32 -> lowest_bit v (__rt_ffs v - 1).
Proof.
  intros Hv. unfold __rt_ffs. rewrite (proj2 (Z.eqb_neq v 0)) by lia.
  unfold has_flag.
  assert (Hl0 : forall j, 0 <= j < 0 -> Z.testbit v j = false) by lia.
  destruct (Z.land v 255 =? 0) eqn:H1; simpl; rt_bool.
  2:{ pose proof (ffs_byte v 0 ltac:(lia) H1 Hl0) as Hb. rewrite Z.shiftr_0_r in Hb.
      change (Z.shiftl 255 0) with 255 in Hb.
      by replace (bitmap_at (Z.land v 255) + 1 - 1) with (bitmap_at (Z.land v 255) + 0) by lia. }
  assert (Hl1 : forall j, 0 <= j < 8 -> Z.testbit v j = false).
  { intros j Hj. by apply (land_zero_low v 0). }
  destruct (Z.land v 65280 =? 0) eqn:H2; simpl; rt_bool.
  2:{ pose proof (ffs_byte v 8 ltac:(lia) H2 Hl1) as Hb.
      change (Z.shiftl 255 8) with 65280 in Hb.
      by replace (_ + 9 - 1) with (bitmap_at (Z.shiftr (Z.land v 65280) 8) + 8) by lia. }
  assert (Hl2 : forall j, 0 <= j < 16 -> Z.testbit v j = false).
  { intros j Hj. destruct (Z.lt_ge_cases j 8); [by apply Hl1; lia|].
    apply (land_zero_low v 8); [lia|done|lia]. }
  destruct (Z.land v 16711680 =? 0) eqn:H3; simpl; rt_bool.
  2:{ pose proof (ffs_byte v 16 ltac:(lia) H3 Hl2) as Hb.
      change (Z.shiftl 255 16) with 16711680 in Hb.
      by replace (_ + 17 - 1) with (bitmap_at (Z.shiftr (Z.land v 16711680) 16) + 16) by lia. }
  assert (Hl3 : forall j, 0 <= j < 24 -> Z.testbit v j = false).
  { intros j Hj. destruct (Z.lt_ge_cases j 16); [by apply Hl2; lia|].
    apply (land_zero_low v 16); [lia|done|lia]. }
  assert (Z.land v 4278190080 <> 0) as Hb.
  2:{ pose proof (ffs_byte v 24 ltac:(lia) Hb Hl3) as Hb'.
      change (Z.shiftl 255 24) with 4278190080 in Hb'.
      by replace (_ + 25 - 1) with (bitmap_at (Z.shiftr (Z.land v 4278190080) 24) + 24) by lia. }
  intros H4. apply Z.lt_irrefl with 0.
  assert (v = 0) as Hv0; [|lia]. apply Z.bits_inj_0. intros i.
  destruct (Z.lt_ge_cases i 0); [by apply Z.testbit_neg_r|].
  destruct (Z.lt_ge_cases i 24); [by apply Hl3; lia|].
  destruct (Z.lt_ge_cases i 32).
  - apply (land_zero_low v 24); [lia|done|lia].
  - by apply (testbit_range_high v 32); [lia|].
Qed.

(** C26: on a 32-bit word [__rt_ffs] returns 0 for 0 and otherwise one more than
    the index of the lowest set bit, a value between 1 and 32. *)
Theorem rt_ffs_correct v :
  0 <= v < 2 ^ 32 ->
  (v = 0 -> __rt_ffs v = 0) /\
  (v <> 0 -> lowest_bit v (__rt_ffs v - 1) /\ 1 <= __rt_ffs v <= 32).
Proof.
  intros Hv. split; [by intros ->|]. intros Hnz.
  assert (Hl : lowest_bit v (__rt_ffs v - 1)) by (apply rt_ffs_lowest; lia).
  split; [done|]. destruct Hl as (H0 & Hb & _). split; [lia|].
  destruct (Z.lt_ge_cases (__rt_ffs v - 1) 32) as [|Hge]; [lia|].
  rewrite (testbit_range_high v 32) in Hb; done.
Qed.

Lemma rt_ffs_correct_witness : __rt_ffs 0x30000 = 17 /\ lowest_bit 0x30000 16.
Proof.
  destruct (rt_ffs_correct 0x30000) as [_ H]; [lia|]. destruct H as [H _]; [lia|].
  split; [reflexivity|exact H].
Defined.
