(* ===== verification/Object.v ===== *)
(** * The kernel object containers ([src/rt-thread/src/object.c])

    Every kernel object carries a type, a name of [RT_NAME_MAX] bytes and a node
    in the list of its class.  The development is generic in the type [O] of
    object addresses. *)
From S2P Require Import Prelude Queue.

(** ** Names

    A C string is the sequence of the bytes before its terminator; a [char]
    array is a list of its bytes.  These are the string routines of
    [klibc/kstring.c] on such values; [KString] proves that the routines that
    work on memory compute them. *)
Definition RT_NAME_MAX : nat := 8.
Definition i8 (z : Z) : Z := (z + 2 ^ 7) mod 2 ^ 8 - 2 ^ 7.

Definition strncpy_bytes (src : list Z) (n : nat) : list Z := take n (src ++ repeat 0 n).

Fixpoint strncmp_bytes (cs ct : list Z) (count : nat) : Z :=
  match count with
  | O => 0
  | S k =>
      let res := i8 (hd 0 cs - hd 0 ct) in
      if negb (res =? 0) || (hd 0 cs =? 0) then res
      else strncmp_bytes (tl cs) (tl ct) k
  end.

(** ** Classes *)
Definition RT_Object_Class_Null : Z := 0x00.
Definition RT_Object_Class_Thread : Z := 0x01.
Definition RT_Object_Class_Semaphore : Z := 0x02.
Definition RT_Object_Class_Mutex : Z := 0x03.
Definition RT_Object_Class_Event : Z := 0x04.
Definition RT_Object_Class_MailBox : Z := 0x05.
Definition RT_Object_Class_MessageQueue : Z := 0x06.
Definition RT_Object_Class_MemPool : Z := 0x08.
Definition RT_Object_Class_Device : Z := 0x09.
Definition RT_Object_Class_Timer : Z := 0x0a.
Definition RT_Object_Class_Memory : Z := 0x0c.
Definition RT_Object_Class_Custom : Z := 0x10.
Definition RT_Object_Class_Static : Z := 0x80.

(** The [type] column of [_object_container], with the IPC objects, the memory
    pools and the heap enabled. *)
Definition _object_container : list Z :=
  [ RT_Object_Class_Thread; RT_Object_Class_Semaphore; RT_Object_Class_Mutex;
    RT_Object_Class_Event; RT_Object_Class_MailBox; RT_Object_Class_MessageQueue;
    RT_Object_Class_MemPool; RT_Object_Class_Device; RT_Object_Class_Timer;
    RT_Object_Class_Memory; RT_Object_Class_Custom ].

Record rt_object := RtObject { obj_type : Z; obj_name : list Z }.

Section object.
Context {O : Type} `{Countable O}.
Implicit Types (o : O).

(** [objs] are the live objects, [olists] the object list of every class. *)
Record ostate := OState { objs : gmap O rt_object; olists : gmap Z (list O) }.

(** The class of the container, [None] for [RT_NULL]. *)
Definition rt_object_get_information (type : Z) : option Z :=
  let type := clear_flag type RT_Object_Class_Static in
  find (fun c => c =? type) _object_container.

Definition object_list (s : ostate) (type : Z) : list O :=
  match rt_object_get_information type with
  | Some c => qget (olists s) c
  | None => []
  end.

Definition rt_object_get_length (s : ostate) (type : Z) : Z :=
  match rt_object_get_information type with
  | None => 0
  | Some c => Z.of_nat (length (qget (olists s) c))
  end.

(** The objects written to [pointers]; the result is their number. *)
Definition rt_object_get_pointers (s : ostate) (type : Z) (maxlen : Z) : list O :=
  if maxlen <=? 0 then []
  else match rt_object_get_information type with
       | None => []
       | Some c => take (Z.to_nat maxlen) (qget (olists s) c)
       end.

Definition link_object (c : Z) o (s : ostate) : ostate :=
  OState (objs s) (qpush_front c o (olists s)).
Definition unlink_object o (s : ostate) : ostate :=
  OState (objs s) (qunlink o (olists s)).
Definition set_object o (ob : rt_object) (s : ostate) : ostate :=
  OState (<[o := ob]> (objs s)) (olists s).

Definition rt_object_init o (type : Z) (name : list Z) (s : ostate) : ostate :=
  let s := set_object o (RtObject (set_flag type RT_Object_Class_Static)
                           (strncpy_bytes name RT_NAME_MAX)) s in
  match rt_object_get_information type with
  | Some c => link_object c o s
  | None => s (* information == RT_NULL is dereferenced: outside the contract *)
  end.

Definition set_type (type : Z) o (s : ostate) : ostate :=
  OState (alter (fun ob => RtObject type (obj_name ob)) o (objs s)) (olists s).

Definition rt_object_detach o (s : ostate) : ostate :=
  let s := unlink_object o s in
  set_type 0 o s.

(** [alloc] is the address [RT_KERNEL_MALLOC] returns, [None] when it fails. *)
Definition rt_object_allocate (alloc : option O) (type : Z) (name : list Z) (s : ostate)
    : ostate * option O :=
  match alloc with
  | None => (s, None)
  | Some o =>
      let s := set_object o (RtObject type (strncpy_bytes name (RT_NAME_MAX - 1) ++ [0])) s in
      match rt_object_get_information type with
      | Some c => (link_object c o s, Some o)
      | None => (s, Some o)
      end
  end.

(** The memory of the object is given back: it is no longer an object. *)
Definition rt_object_delete o (s : ostate) : ostate :=
  let s := unlink_object o s in
  let s := set_type RT_Object_Class_Null o s in
  OState (delete o (objs s)) (olists s).

Definition type_of (s : ostate) o : Z :=
  match objs s !! o with Some ob => obj_type ob | None => 0 end.

Definition rt_object_is_systemobject (s : ostate) o : bool :=
  has_flag (type_of s o) RT_Object_Class_Static.

Definition rt_object_get_type (s : ostate) o : Z :=
  u8 (clear_flag (type_of s o) RT_Object_Class_Static).

Definition name_of (s : ostate) o : list Z :=
  match objs s !! o with Some ob => obj_name ob | None => [] end.

Fixpoint find_name (s : ostate) (name : list Z) (l : list O) : option O :=
  match l with
  | [] => None
  | o :: l' => if strncmp_bytes (name_of s o) name RT_NAME_MAX =? 0 then Some o
               else find_name s name l'
  end.

Definition rt_object_find (s : ostate) (name : option (list Z)) (type : Z) : option O :=
  match name, rt_object_get_information type with
  | Some name, Some c => find_name s name (qget (olists s) c)
  | _, _ => None
  end.

(** The result code and the bytes written to [name]. *)
Definition rt_object_get_name (s : ostate) (object : option O) (name_size : Z) : Z * list Z :=
  match object with
  | Some o => if negb (name_size =? 0)
              then (0, strncpy_bytes (name_of s o) (Z.to_nat name_size)) else (-10, [])
  | None => (-10, [])
  end.

(** ** Invariant: the object lists partition the live objects by class *)
Record owf (s : ostate) : Prop := {
  ow_q : qwf (olists s);
  ow_class : forall c o, o ∈ qget (olists s) c -> exists ob, objs s !! o = Some ob /\
    clear_flag (obj_type ob) RT_Object_Class_Static = c /\ c ∈ _object_container;
  ow_name : forall o ob, objs s !! o = Some ob -> length (obj_name ob) = RT_NAME_MAX;
}.
End object.
Arguments ostate O {_ _}.
