(* ===== verification/SmallMem.v ===== *)
(** * The small memory allocator ([src/rt-thread/src/mem.c])

    The heap is a chain of blocks, each led by a header with the offsets of the
    next and of the previous header.  A pointer into the heap is its offset from
    [heap_ptr]; [None] is [RT_NULL].  The words of the headers and the bytes of
    the blocks are kept in two maps: the invariant of [SmallMemProps] shows that
    a header never lies in a block that is in use. *)
From S2P Require Import Prelude Queue Object.

Record rt_small_mem_item := Item { pool_ptr : Z; next : Z; prev : Z }.
(** [self] is the address of the structure, [heap_ptr] that of the first header. *)
Record rt_small_mem := SmallMem {
  self : Z;
  heap_ptr : Z;
  items : gmap Z rt_small_mem_item;
  bytes : gmap Z Z;
  heap_end : Z;
  lfree : Z;
  mem_size_aligned : Z;
  total : Z; used : Z; max : Z;
}.

Definition MIN_SIZE : Z := 12.
Definition MIN_SIZE_ALIGNED : Z := RT_ALIGN MIN_SIZE RT_ALIGN_SIZE.
Definition SIZEOF_STRUCT_MEM : Z := RT_ALIGN 12 RT_ALIGN_SIZE.
(** [sizeof(struct rt_small_mem)]: an object header of 20 bytes (a name of 8, type
    and flag, a list node), then nine words. *)
Definition SIZEOF_SMALL_MEM : Z := 56.

Definition MEM_MASK : Z := 0xFFFFFFFE.
Definition MEM_USED (a : Z) : Z := Z.lor (Z.land a MEM_MASK) 1.
Definition MEM_FREED (a : Z) : Z := Z.lor (Z.land a MEM_MASK) 0.
Definition MEM_ISUSED (it : rt_small_mem_item) : bool := has_flag (pool_ptr it) (Z.ldiff 0xFFFFFFFF MEM_MASK).
Definition MEM_POOL (it : rt_small_mem_item) : Z := Z.land (pool_ptr it) MEM_MASK.

(** ** Access to the headers *)
Definition item (m : rt_small_mem) (p : Z) : rt_small_mem_item := default (Item 0 0 0) (items m !! p).
Definition with_items (its : gmap Z rt_small_mem_item) (m : rt_small_mem) : rt_small_mem :=
  SmallMem (self m) (heap_ptr m) its (bytes m) (heap_end m) (lfree m) (mem_size_aligned m) (total m) (used m) (max m).
Definition with_bytes (bs : gmap Z Z) (m : rt_small_mem) : rt_small_mem :=
  SmallMem (self m) (heap_ptr m) (items m) bs (heap_end m) (lfree m) (mem_size_aligned m) (total m) (used m) (max m).
Definition with_lfree (p : Z) (m : rt_small_mem) : rt_small_mem :=
  SmallMem (self m) (heap_ptr m) (items m) (bytes m) (heap_end m) p (mem_size_aligned m) (total m) (used m) (max m).
Definition with_used (u x : Z) (m : rt_small_mem) : rt_small_mem :=
  SmallMem (self m) (heap_ptr m) (items m) (bytes m) (heap_end m) (lfree m) (mem_size_aligned m) (total m) u x.
Definition set_item (p : Z) (it : rt_small_mem_item) (m : rt_small_mem) : rt_small_mem := with_items (<[p := it]> (items m)) m.
Definition set_pool_ptr (p v : Z) (m : rt_small_mem) : rt_small_mem := set_item p (Item v (next (item m p)) (prev (item m p))) m.
Definition set_next (p v : Z) (m : rt_small_mem) : rt_small_mem := set_item p (Item (pool_ptr (item m p)) v (prev (item m p))) m.
Definition set_prev (p v : Z) (m : rt_small_mem) : rt_small_mem := set_item p (Item (pool_ptr (item m p)) (next (item m p)) v) m.
(** [used += d], and the new maximum *)
Definition add_used (d : Z) (m : rt_small_mem) : rt_small_mem :=
  let u := u32 (used m + d) in with_used u (if max m <? u then u else max m) m.
Definition sub_used (d : Z) (m : rt_small_mem) : rt_small_mem := with_used (u32 (used m - d)) (max m) m.

(** ** Merging *)
(** The code of each half of [plug_holes]: the header [second] becomes part of the
    block of [first]. *)
Definition combine (first second : Z) (m : rt_small_mem) : rt_small_mem :=
  let m := if lfree m =? second then with_lfree first m else m in
  let m := set_pool_ptr second 0 m in
  let m := set_next first (next (item m second)) m in
  set_prev (next (item m second)) first m.
Definition plug_holes (mem : Z) (m : rt_small_mem) : rt_small_mem :=
  (* plug hole forward *)
  let nmem := next (item m mem) in
  let m := if negb (mem =? nmem) && negb (MEM_ISUSED (item m nmem)) && negb (nmem =? heap_end m)
           then combine mem nmem m else m in
  (* plug hole backward *)
  let pmem := prev (item m mem) in
  if negb (pmem =? mem) && negb (MEM_ISUSED (item m pmem)) then combine pmem mem m else m.

(** ** Initialisation *)
Section objects.
Context {O : Type} `{EqDecision O} `{!Countable O}.
Definition rt_smem_init (o : O) (name : list Z) (begin_addr size : Z) (s : ostate O) : ostate O * option rt_small_mem :=
  let small_mem := RT_ALIGN begin_addr RT_ALIGN_SIZE in
  let start_addr := u32 (small_mem + SIZEOF_SMALL_MEM) in
  let begin_align := RT_ALIGN start_addr RT_ALIGN_SIZE in
  let end_align := RT_ALIGN_DOWN (u32 (begin_addr + size)) RT_ALIGN_SIZE in
  if (2 * SIZEOF_STRUCT_MEM <? end_align) && (start_addr <=? end_align - 2 * SIZEOF_STRUCT_MEM) then
    let mem_size := u32 (end_align - begin_align - 2 * SIZEOF_STRUCT_MEM) in
    let s := rt_object_init o RT_Object_Class_Memory name s in
    let end_ := u32 (mem_size + SIZEOF_STRUCT_MEM) in
    let m := SmallMem small_mem begin_align ∅ ∅ end_ 0 mem_size mem_size 0 0 in
    let m := set_item 0 (Item (MEM_FREED small_mem) end_ 0) m in
    (s, Some (set_item end_ (Item (MEM_USED small_mem) end_ end_) m))
  else (s, None).
Definition rt_smem_detach (o : O) (s : ostate O) : ostate O * Z := (rt_object_detach o s, RT_EOK).
End objects.

(** ** Allocation *)
Fixpoint lfree_loop (fuel : nat) (m : rt_small_mem) : rt_small_mem :=
  match fuel with
  | O => m
  | S f => if MEM_ISUSED (item m (lfree m)) && negb (lfree m =? heap_end m)
           then lfree_loop f (with_lfree (next (item m (lfree m))) m) else m
  end.
(** Enough for a walk over every header. *)
Definition walk_fuel (m : rt_small_mem) : nat := S (size (items m)).

(** The code that both an allocation and a reallocation have: a free header
    [ptr2] inside the block of [ptr]. *)
Definition split_header (ptr ptr2 : Z) (m : rt_small_mem) : rt_small_mem :=
  let m := set_item ptr2 (Item (MEM_FREED (self m)) (next (item m ptr)) ptr) m in
  let m := set_next ptr ptr2 m in
  if negb (next (item m ptr2) =? u32 (mem_size_aligned m + SIZEOF_STRUCT_MEM))
  then set_prev (next (item m ptr2)) ptr2 m else m.
(** The block of the header [ptr] is free and has [size] bytes. *)
Definition alloc_at (size ptr : Z) (m : rt_small_mem) : rt_small_mem :=
  let avail := u32 (next (item m ptr) - u32 (ptr + SIZEOF_STRUCT_MEM)) in
  let m :=
    if size + SIZEOF_STRUCT_MEM + MIN_SIZE_ALIGNED <=? avail then
      (* split large block, create empty remainder *)
      let ptr2 := u32 (ptr + SIZEOF_STRUCT_MEM + size) in
      let m := split_header ptr ptr2 m in
      add_used (size + SIZEOF_STRUCT_MEM) m
    else add_used (u32 (next (item m ptr) - ptr)) m in
  let m := set_pool_ptr ptr (MEM_USED (self m)) m in
  if ptr =? lfree m then lfree_loop (walk_fuel m) m else m.

Fixpoint alloc_loop (fuel : nat) (size ptr : Z) (m : rt_small_mem) : rt_small_mem * option Z :=
  match fuel with
  | O => (m, None)
  | S f =>
      if ptr <=? u32 (mem_size_aligned m - size) then
        let mem := item m ptr in
        if negb (MEM_ISUSED mem) && (size <=? u32 (next mem - u32 (ptr + SIZEOF_STRUCT_MEM)))
        then (alloc_at size ptr m, Some (u32 (ptr + SIZEOF_STRUCT_MEM)))
        else alloc_loop f size (next mem) m
      else (m, None)
  end.
Definition rt_smem_alloc (m : rt_small_mem) (size : Z) : rt_small_mem * option Z :=
  if size =? 0 then (m, None)
  else
    let size := RT_ALIGN size RT_ALIGN_SIZE in
    let size := if size <? MIN_SIZE_ALIGNED then MIN_SIZE_ALIGNED else size in
    if mem_size_aligned m <? size then (m, None)
    else alloc_loop (walk_fuel m) size (lfree m) m.

(** ** Release *)
Definition rt_smem_free (m : rt_small_mem) (rmem : option Z) : rt_small_mem :=
  match rmem with
  | None => m
  | Some rmem =>
      let mem := rmem - SIZEOF_STRUCT_MEM in
      let m := set_pool_ptr mem (MEM_FREED (self m)) m in
      let m := if mem <? lfree m then with_lfree mem m else m in
      let m := sub_used (u32 (next (item m mem) - mem)) m in
      plug_holes mem m
  end.

(** ** Reallocation *)
(** [rt_memcpy(dst, src, n)] inside the heap. *)
Definition copy_bytes (dst src n : Z) (m : rt_small_mem) : rt_small_mem :=
  with_bytes (foldl (fun b i => <[dst + Z.of_nat i := default 0 (bytes m !! (src + Z.of_nat i))]> b)
                (bytes m) (seq 0 (Z.to_nat n))) m.
Definition split_block (ptr newsize : Z) (m : rt_small_mem) : rt_small_mem :=
  let ptr2 := u32 (ptr + SIZEOF_STRUCT_MEM + newsize) in
  let m := split_header ptr ptr2 m in
  let m := if ptr2 <? lfree m then with_lfree ptr2 m else m in
  plug_holes ptr2 m.
Definition rt_smem_realloc (m : rt_small_mem) (rmem : option Z) (newsize : Z) : rt_small_mem * option Z :=
  let newsize := RT_ALIGN newsize RT_ALIGN_SIZE in
  if mem_size_aligned m <? newsize then (m, None)
  else if newsize =? 0 then (rt_smem_free m rmem, None)
  else
    match rmem with
    | None => rt_smem_alloc m newsize
    | Some r =>
        let ptr := r - SIZEOF_STRUCT_MEM in
        let size := u32 (next (item m ptr) - ptr - SIZEOF_STRUCT_MEM) in
        if size =? newsize then (m, rmem)
        else if newsize + SIZEOF_STRUCT_MEM + MIN_SIZE <? size then
          (* split memory block *)
          (split_block ptr newsize (sub_used (size - newsize) m), rmem)
        else
          (* expand memory *)
          let '(m, nmem) := rt_smem_alloc m newsize in
          match nmem with
          | None => (m, None)
          | Some n =>
              let m := copy_bytes n r (if size <? newsize then size else newsize) m in
              (rt_smem_free m rmem, nmem)
          end
    end.
