(* ===== verification/SmallMemProps.v ===== *)
(** * The heap invariant and the allocator's specification

    A heap [m] lays out the blocks [bs], each a number of bytes and whether it is
    in use: the headers form one chain from the start of the heap to its end, no
    two neighbours are both free, and [lfree] is the first free header.  On lists
    of blocks, allocation is first fit and release merges neighbours. *)
From S2P Require Import Prelude Queue Object SmallMem.

(** ** Lists of blocks *)
Abbreviation block := (Z * bool)%type.
Definition HDR : Z := 16.
Fixpoint tot (bs : list block) : Z :=
  match bs with [] => 0 | b :: bs' => HDR + b.1 + tot bs' end.
Fixpoint coalesced (bs : list block) : Prop :=
  match bs with
  | (_, false) :: (((_, false) :: _) as bs') => False
  | _ :: bs' => coalesced bs'
  | [] => True
  end.
Fixpoint first_free (bs : list block) : Z :=
  match bs with [] => 0 | (n, true) :: bs' => HDR + n + first_free bs' | (_, false) :: _ => 0 end.
Fixpoint used_bytes (bs : list block) : Z :=
  match bs with [] => 0 | (n, u) :: bs' => (if (u : bool) then HDR + n else 0) + used_bytes bs' end.
Definition sized (b : block) : Prop := 0 <= b.1 /\ (8 | b.1).
(** The offset of the header before the one at [o + tot bs]. *)
Fixpoint last_off (o p : Z) (bs : list block) : Z :=
  match bs with [] => p | (n, _) :: bs' => last_off (o + HDR + n) o bs' end.

(** Add a block in front, merging two free ones. *)
Definition cons_block (b : block) (bs : list block) : list block :=
  match b, bs with
  | (n, false), (n2, false) :: r => (n + HDR + n2, false) :: r
  | _, _ => b :: bs
  end.
(** First fit: the new blocks and the offset of the one taken. *)
Fixpoint first_fit (size : Z) (bs : list block) : option (list block * Z) :=
  match bs with
  | [] => None
  | (n, u) :: bs' =>
      if negb u && (size <=? n) then
        Some (if size + HDR + 16 <=? n then (size, true) :: (n - size - HDR, false) :: bs' else (n, true) :: bs', 0)
      else
        match first_fit size bs' with
        | Some (r, off) => Some ((n, u) :: r, HDR + n + off)
        | None => None
        end
  end.
(** Free the block whose header is at [off]. *)
Fixpoint free_at (off : Z) (bs : list block) : list block :=
  match bs with
  | [] => []
  | (n, u) :: bs' => if off =? 0 then cons_block (n, false) bs' else cons_block (n, u) (free_at (off - HDR - n) bs')
  end.

(** ** The layout *)
Definition tag (m : rt_small_mem) (u : bool) : Z := if u then MEM_USED (self m) else MEM_FREED (self m).
Fixpoint seg (m : rt_small_mem) (o p : Z) (bs : list block) : Prop :=
  match bs with
  | [] => True
  | (n, u) :: bs' => items m !! o = Some (Item (tag m u) (o + HDR + n) p) /\ seg m (o + HDR + n) o bs'
  end.
Record laid (m : rt_small_mem) (bs : list block) : Prop := {
  ld_seg : seg m 0 0 bs;
  ld_end : exists p, items m !! heap_end m = Some (Item (MEM_USED (self m)) (heap_end m) p);
  ld_tot : tot bs = heap_end m;
  ld_size : mem_size_aligned m + HDR = heap_end m;
  ld_range : HDR <= heap_end m < 2 ^ 32 - 16;
  ld_sized : Forall sized bs;
  ld_lfree : lfree m = first_free bs;
  ld_used : used m = used_bytes bs;
}.
Record smem_ok (m : rt_small_mem) (bs : list block) : Prop := {
  so_laid : laid m bs;
  so_coalesced : coalesced bs;
}.

Lemma tot_nonneg bs : Forall sized bs -> 0 <= tot bs.
Proof. induction 1 as [|[n u] bs [H _]]; cbn in *; unfold HDR in *; lia. Qed.
Lemma tot_app b1 b2 : tot (b1 ++ b2) = tot b1 + tot b2.
Proof. induction b1; cbn; lia. Qed.
Lemma used_range bs : Forall sized bs -> 0 <= used_bytes bs <= tot bs.
Proof. induction 1 as [|[n []] bs [H _]]; cbn in *; unfold HDR in *; lia. Qed.
Lemma used_app b1 b2 : used_bytes (b1 ++ b2) = used_bytes b1 + used_bytes b2.
Proof. induction b1 as [|[n u] b1 IH]; cbn; lia. Qed.
Lemma first_free_range bs : Forall sized bs -> 0 <= first_free bs <= tot bs.
Proof.
  induction 1 as [|[n u] bs [H Hd] Hs]; [done|]. pose proof (tot_nonneg bs Hs). destruct u; cbn in *; unfold HDR in *; lia.
Qed.
Lemma last_off_app o p b1 b2 : last_off o p (b1 ++ b2) = last_off (o + tot b1) (last_off o p b1) b2.
Proof.
  revert o p. induction b1 as [|[n u] b1 IH]; intros o p; cbn; [by rewrite Z.add_0_r|]. rewrite IH. f_equal. lia.
Qed.
Lemma seg_app m o p b1 b2 : seg m o p (b1 ++ b2) <-> seg m o p b1 /\ seg m (o + tot b1) (last_off o p b1) b2.
Proof.
  revert o p. induction b1 as [|[n u] b1 IH]; intros o p; cbn; [rewrite Z.add_0_r; tauto|].
  rewrite IH. replace (o + HDR + n + tot b1) with (o + (HDR + n + tot b1)) by lia. tauto.
Qed.
(** A chain does not depend on headers outside it. *)
Lemma seg_frame m m' o p bs :
  Forall sized bs -> self m' = self m -> (forall x, o <= x < o + tot bs -> items m' !! x = items m !! x) ->
  seg m o p bs -> seg m' o p bs.
Proof.
  intros Hs He. revert o p. induction Hs as [|[n u] bs [Hn _] Hs IH]; intros o p Hx; cbn in *; [done|].
  pose proof (tot_nonneg bs Hs). unfold HDR in *. intros [H1 H2]. split.
  - rewrite Hx by lia. unfold tag in *. by rewrite He.
  - apply IH; [|done]. intros x Hr. apply Hx. lia.
Qed.
(** The same chain after another header. *)
Lemma seg_prev m m' o p p' bs :
  Forall sized bs -> self m' = self m ->
  (forall x, o < x < o + tot bs -> items m' !! x = items m !! x) ->
  (forall n u r, bs = (n, u) :: r -> items m' !! o = Some (Item (tag m u) (o + HDR + n) p')) ->
  seg m o p bs -> seg m' o p' bs.
Proof.
  intros Hs He Hx H0. destruct bs as [|[n u] bs]; [done|]. cbn in *. inversion Hs as [|? ? [Hn _] Hs']; subst.
  pose proof (tot_nonneg bs Hs'). cbn in *. unfold HDR in *. intros [H1 H2]. split.
  - rewrite (H0 n u bs) by done. unfold tag. by rewrite He.
  - apply (seg_frame m); try done. intros x Hr. apply Hx. lia.
Qed.

(** ** Tags *)
Lemma isused_used a n p : MEM_ISUSED (Item (MEM_USED a) n p) = true.
Proof.
  unfold MEM_ISUSED, MEM_USED, has_flag. cbn [pool_ptr]. change (Z.ldiff 0xFFFFFFFF MEM_MASK) with 1.
  rewrite Z.land_lor_distr_l, <- Z.land_assoc. change (Z.land MEM_MASK 1) with 0. by rewrite Z.land_0_r.
Qed.
Lemma isused_freed a n p : MEM_ISUSED (Item (MEM_FREED a) n p) = false.
Proof.
  unfold MEM_ISUSED, MEM_FREED, has_flag. cbn [pool_ptr]. change (Z.ldiff 0xFFFFFFFF MEM_MASK) with 1.
  rewrite Z.land_lor_distr_l, <- Z.land_assoc. change (Z.land MEM_MASK 1) with 0. by rewrite Z.land_0_r.
Qed.
Lemma isused_tag m u n p : MEM_ISUSED (Item (tag m u) n p) = u.
Proof. destruct u; [apply isused_used|apply isused_freed]. Qed.

Lemma sized_split b1 n u b2 : Forall sized (b1 ++ (n, u) :: b2) -> Forall sized b1 /\ 0 <= n /\ (8 | n) /\ Forall sized b2.
Proof. intros [H1 H2]%Forall_app. inversion H2 as [|? ? [? ?]]; subst. done. Qed.
Lemma first_free_app b1 n r :
  Forall sized b1 -> first_free (b1 ++ (n, false) :: r) = first_free b1 /\ first_free b1 <= tot b1.
Proof.
  intros Hs. induction Hs as [|[k u] b1 [Hk _] Hs IH]; [done|]. destruct u; cbn in *.
  - destruct IH as [-> IH]. unfold HDR. lia.
  - pose proof (tot_nonneg b1 Hs). unfold HDR. lia.
Qed.

(** ** Merging two free neighbours *)
Lemma item_lookup m p it : items m !! p = Some it -> item m p = it.
Proof. unfold item. by intros ->. Qed.
Lemma combine_eq m a b c ia ib ic :
  a <> b -> c <> a -> c <> b -> lfree m <> b ->
  items m !! a = Some ia -> items m !! b = Some ib -> next ib = c -> items m !! c = Some ic ->
  combine a b m = with_items (<[c := Item (pool_ptr ic) (next ic) a]>
    (<[a := Item (pool_ptr ia) c (prev ia)]> (<[b := Item 0 c (prev ib)]> (items m)))) m.
Proof.
  intros Hab Hca Hcb Hl Ha Hb <- Hc. unfold combine. destruct (Z.eqb_spec (lfree m) b); [done|].
  unfold set_prev, set_next, set_pool_ptr, set_item, with_items, item. cbn [items self heap_ptr bytes heap_end lfree mem_size_aligned total used max].
  repeat (rewrite ?lookup_insert_eq, ?lookup_insert_ne, ?Ha, ?Hb, ?Hc by done; cbn [default pool_ptr next prev id]).
  done.
Qed.
(** What the chain of blocks says about a split of it. *)
Lemma laid_split m b1 n u b2 :
  laid m (b1 ++ (n, u) :: b2) ->
  seg m 0 0 b1 /\ items m !! tot b1 = Some (Item (tag m u) (tot b1 + HDR + n) (last_off 0 0 b1)) /\
  seg m (tot b1 + HDR + n) (tot b1) b2 /\ Forall sized b1 /\ Forall sized b2 /\ 0 <= n /\ (8 | n) /\
  tot b1 + HDR + n + tot b2 = heap_end m /\ 0 <= tot b1 /\ 0 <= tot b2.
Proof.
  intros [Hseg _ Ht _ _ Hs _ _]. apply sized_split in Hs as (H1 & H2 & H3 & H4).
  apply seg_app in Hseg as [Ha Hb]. cbn in Hb. destruct Hb as [Hb Hc]. rewrite tot_app in Ht. cbn in Ht.
  pose proof (tot_nonneg b1 H1). pose proof (tot_nonneg b2 H4). split_and!; try done. lia.
Qed.
(** The header after a block, the one of the end included. *)
Lemma next_header m b1 n u b2 :
  laid m (b1 ++ (n, u) :: b2) -> exists ic, items m !! (tot b1 + HDR + n) = Some ic.
Proof.
  intros H. destruct (laid_split _ _ _ _ _ H) as (_ & _ & H1 & _ & _ & _ & _ & H2 & _). destruct (ld_end _ _ H) as [p Hp].
  destruct b2 as [|[k v] b2]; cbn in *; [|destruct H1; eauto]. rewrite Z.add_0_r in H2. rewrite H2. eauto.
Qed.

Lemma combine_laid m b1 n n2 r :
  laid m (b1 ++ (n, false) :: (n2, false) :: r) ->
  let a := tot b1 in let b := a + HDR + n in
  laid (combine a b m) (b1 ++ (n + HDR + n2, false) :: r) /\ bytes (combine a b m) = bytes m /\
  self (combine a b m) = self m.
Proof.
  intros H a b. destruct (laid_split _ _ _ _ _ H) as (S1 & Ha & S2 & Z1 & Z2 & Hn & Hdn & Ht & Hp1 & Hp2).
  cbn in S2, Ht, Hp2. destruct S2 as [Hb S2]. inversion Z2 as [|? ? [Hn2 Hdn2] Z3]; subst. cbn in Hn2, Hdn2.
  pose proof (tot_nonneg r Z3) as Hr.
  assert (H' : laid m ((b1 ++ [(n, false)]) ++ (n2, false) :: r)) by (by rewrite <- app_assoc).
  destruct (next_header _ _ _ _ _ H') as [ic Hc]. rewrite tot_app in Hc. cbn in Hc. fold a b in Ha, Hb, S2, Ht.
  replace (tot b1 + (HDR + n + 0)) with b in Hc by (unfold b, a; lia). set (c := b + HDR + n2) in *.
  destruct H as [_ [pe He] Htot Hsz Hrg Hsd Hlf Hus]. destruct (first_free_app b1 n ((n2, false) :: r) Z1) as [Hff Hfa].
  unfold HDR in *. assert (Hlt : a < b < c) by (unfold c, b; lia).
  rewrite (combine_eq m a b c _ _ ic) by (done || lia). cbn [pool_ptr next prev].
  set (its := <[c := _]> _). split; [|done].
  assert (Hits : forall x, x <> a -> x <> b -> x <> c -> its !! x = items m !! x).
  { intros x ? ? ?. unfold its. by rewrite !lookup_insert_ne. }
  assert (Hitc : its !! c = Some (Item (pool_ptr ic) (next ic) a)) by (unfold its; by rewrite lookup_insert_eq).
  assert (Hita : its !! a = Some (Item (tag m false) c (last_off 0 0 b1))).
  { unfold its. rewrite lookup_insert_ne, lookup_insert_eq by lia. done. }
  constructor; cbn; try done.
  - apply seg_app. change (0 + tot b1) with a. split; [|cbn; split].
    + apply (seg_frame m); try done. intros x Hx. cbn. apply Hits; lia.
    + replace (a + HDR + (n + 16 + n2)) with c by (unfold c, b, HDR; lia). exact Hita.
    + replace (a + HDR + (n + 16 + n2)) with c by (unfold c, b, HDR; lia).
      apply (seg_prev m _ _ b); try done.
      * intros x Hx. cbn. apply Hits; lia.
      * intros n3 u3 r3 ->. cbn in S2 |- *. destruct S2 as [S2 _]. rewrite Hitc. rewrite S2 in Hc. injection Hc as <-. done.
  - destruct (decide (heap_end m = c)) as [E|Hne].
    + exists a. rewrite E in *. rewrite Hitc. rewrite He in Hc. injection Hc as <-. done.
    + exists pe. rewrite Hits; [done|lia|lia|done].
  - rewrite <- Htot, !tot_app. cbn. unfold HDR. lia.
  - apply Forall_app. split; [done|]. constructor; [|done]. split; cbn; [lia|].
    apply Z.divide_add_r; [apply Z.divide_add_r; [done|exists 2; lia]|done].
  - rewrite Hlf, Hff. symmetry. by apply first_free_app.
  - rewrite Hus, !used_app. cbn. lia.
Qed.

(** ** Releasing a block *)
Lemma coalesced_cons b bs : coalesced (b :: bs) -> coalesced bs /\ cons_block b bs = b :: bs.
Proof. destruct b as [n []], bs as [|[k []] bs]; cbn; tauto. Qed.
Lemma coalesced_cons_block b bs : coalesced bs -> coalesced (cons_block b bs).
Proof. destruct b as [n []], bs as [|[k []] bs]; cbn; tauto. Qed.
Lemma coalesced_foldr b1 rest : coalesced rest -> coalesced (foldr cons_block rest b1).
Proof. intros H. induction b1; cbn; [done|by apply coalesced_cons_block]. Qed.
Lemma foldr_cons_block b1 rest : coalesced (b1 ++ rest) -> foldr cons_block rest b1 = b1 ++ rest /\ coalesced rest.
Proof.
  induction b1 as [|b b1 IH]; cbn [foldr app]; [done|]. intros [H1 H2]%coalesced_cons. destruct (IH H1) as [-> H3]. done.
Qed.
Lemma coalesced_app b1 n u b2 : coalesced (b1 ++ (n, u) :: b2) -> coalesced b1 /\ coalesced b2.
Proof.
  induction b1 as [|[k v] b1 IH]; cbn [app].
  - intros H. split; [done|]. by apply (coalesced_cons (n, u)).
  - intros H. destruct (coalesced_cons _ _ H) as [H1 _]. destruct (IH H1) as [H3 H4]. split; [|done].
    destruct b1 as [|[j w] b1]; [by destruct v|]. cbn [app] in H. by destruct v, w.
Qed.
Lemma foldr_plain b1 k u n r : coalesced (b1 ++ [(k, u)]) -> foldr cons_block ((n, u) :: r) b1 = b1 ++ (n, u) :: r.
Proof.
  induction b1 as [|[j v] b1 IH]; [done|]. cbn [foldr app]. intros H. destruct (coalesced_cons _ _ H) as [H1 _].
  rewrite IH by done. destruct v; [done|]. destruct b1 as [|[i []] b1]; cbn in H |- *; by destruct u.
Qed.
Lemma last_off_snoc b1 x : last_off 0 0 (b1 ++ [x]) = tot b1.
Proof. rewrite last_off_app. by destruct x. Qed.

(** The first half of [plug_holes]. *)
Definition plug_next (mem : Z) (m : rt_small_mem) : rt_small_mem :=
  let nmem := next (item m mem) in
  if negb (mem =? nmem) && negb (MEM_ISUSED (item m nmem)) && negb (nmem =? heap_end m) then combine mem nmem m else m.
Lemma plug_holes_eq mem m : plug_holes mem m =
  let m1 := plug_next mem m in
  let pmem := prev (item m1 mem) in
  if negb (pmem =? mem) && negb (MEM_ISUSED (item m1 pmem)) then combine pmem mem m1 else m1.
Proof. done. Qed.
Lemma plug_forward m b1 n b2 :
  laid m (b1 ++ (n, false) :: b2) ->
  let m' := plug_next (tot b1) m in
  laid m' (b1 ++ cons_block (n, false) b2) /\ bytes m' = bytes m /\ self m' = self m.
Proof.
  intros H. unfold plug_next. set (mem := tot b1).
  destruct (laid_split _ _ _ _ _ H) as (_ & Ha & S2 & _ & Z2 & Hn & _ & Ht & Hp1 & Hp2). fold mem in Ha, S2.
  rewrite (item_lookup _ _ _ Ha). cbn [next]. cbv zeta. unfold HDR in *.
  destruct b2 as [|[k u] b2]; cbn [cons_block].
  - cbn in Ht. rewrite Z.add_0_r in Ht. fold mem in Ht. rewrite Ht, Z.eqb_refl, andb_false_r. done.
  - cbn in S2. destruct S2 as [Hb S2]. rewrite (item_lookup _ _ _ Hb), isused_tag. destruct u; cbn [negb].
    + rewrite andb_false_r. done.
    + destruct (Z.eqb_spec mem (mem + 16 + n)); [unfold mem in *; lia|]. cbn in Ht, Hp2. inversion Z2 as [|? ? [Hk _] Z3]; subst.
      pose proof (tot_nonneg b2 Z3). cbn in Hk; unfold HDR in Ht, Hp2. destruct (Z.eqb_spec (mem + 16 + n) (heap_end m)); [unfold mem in *; lia|].
      cbn [negb andb]. apply (combine_laid m b1 n k b2 H).
Qed.
Lemma plug_holes_laid m b1 n b2 :
  laid m (b1 ++ (n, false) :: b2) -> coalesced b1 -> coalesced b2 ->
  let m' := plug_holes (tot b1) m in
  smem_ok m' (foldr cons_block (cons_block (n, false) b2) b1) /\ bytes m' = bytes m /\ self m' = self m.
Proof.
  intros H C1 C2. destruct (plug_forward m b1 n b2 H) as (H1 & Hby & Hself).
  rewrite plug_holes_eq. set (m1 := plug_next (tot b1) m) in *. cbv zeta.
  destruct (cons_block (n, false) b2) as [|[n' u'] r'] eqn:E; [by destruct b2 as [|[k []] b2]|].
  assert (u' = false) as -> by (destruct b2 as [|[k []] b2]; cbn in E; congruence).
  assert (C3 : coalesced ((n', false) :: r')) by (rewrite <- E; by apply coalesced_cons_block).
  destruct (laid_split _ _ _ _ _ H1) as (S1 & Ha & _ & Z1 & _ & _ & _ & _ & Hp1 & _). rewrite (item_lookup _ _ _ Ha). cbn [prev].
  destruct b1 as [|[k u] b1 _] using rev_ind.
  - cbn. split; [|done]. by split.
  - rewrite last_off_snoc. rewrite foldr_app. cbn [foldr].
    assert (Hpm : items m1 !! tot b1 = Some (Item (tag m1 u) (tot b1 + HDR + k) (last_off 0 0 b1))).
    { apply (laid_split m1 b1 k u ((n', false) :: r')). by rewrite <- app_assoc in H1. }
    apply Forall_app in Z1 as [Z1 Zk]. inversion Zk as [|? ? [Hk _] _]; subst. cbn in Hk.
    rewrite (item_lookup _ _ _ Hpm), isused_tag, tot_app. cbn [tot fst]. unfold HDR in *.
    destruct (Z.eqb_spec (tot b1) (tot b1 + (16 + k + 0))); [lia|]. destruct u; cbn [negb andb].
    + split; [|done]. cbn [cons_block]. rewrite (foldr_plain b1 k) by done. split; [by rewrite <- app_assoc in H1|].
      rewrite <- (foldr_plain b1 k) by done. by apply coalesced_foldr.
    + rewrite <- app_assoc in H1. cbn [app] in H1. destruct (combine_laid m1 b1 k n' r' H1) as (H2 & Hb2 & Hs2).
      unfold HDR in H2, Hb2, Hs2. replace (tot b1 + (16 + k + 0)) with (tot b1 + 16 + k) by lia.
      split; [|split; congruence]. cbn [cons_block]. unfold HDR. rewrite (foldr_plain b1 k) by done. split; [done|].
      rewrite <- (foldr_plain b1 k) by done. apply coalesced_foldr. by destruct r' as [|[j []] r'].
Qed.

(** Changing whether a block is in use. *)
Lemma laid_retag m m' b1 n u u' b2 :
  laid m (b1 ++ (n, u) :: b2) ->
  items m' = <[tot b1 := Item (tag m u') (tot b1 + HDR + n) (last_off 0 0 b1)]> (items m) ->
  self m' = self m -> heap_end m' = heap_end m -> mem_size_aligned m' = mem_size_aligned m ->
  lfree m' = first_free (b1 ++ (n, u') :: b2) -> used m' = used_bytes (b1 ++ (n, u') :: b2) ->
  laid m' (b1 ++ (n, u') :: b2).
Proof.
  intros H Hi Hs He Hm Hl Hu. destruct (laid_split _ _ _ _ _ H) as (S1 & Ha & S2 & Z1 & Z2 & Hn & Hd & Ht & Hp1 & Hp2).
  destruct H as [_ [pe Hpe] Htot Hsz Hrg Hsd _ _].
  assert (Hits : forall x, x <> tot b1 -> items m' !! x = items m !! x).
  { intros x Hx. rewrite Hi. by rewrite lookup_insert_ne. }
  assert (Htot' : tot (b1 ++ (n, u') :: b2) = tot (b1 ++ (n, u) :: b2)) by (by rewrite !tot_app).
  unfold HDR in *. constructor; rewrite ?He, ?Hm, ?Hs, ?Htot'; try done.
  - apply seg_app. change (0 + tot b1) with (tot b1). split; [|cbn [seg]; split].
    + apply (seg_frame m); try done. intros x Hx. apply Hits. lia.
    + rewrite Hi, lookup_insert_eq. unfold tag. by rewrite Hs.
    + unfold HDR. apply (seg_frame m); try done. intros x Hx. apply Hits. lia.
  - exists pe. rewrite Hits by lia. done.
  - apply Forall_app. split; [done|]. by constructor.
Qed.
Lemma first_free_cat b1 b2 : Forall sized b1 ->
  first_free (b1 ++ b2) = if first_free b1 <? tot b1 then first_free b1 else tot b1 + first_free b2.
Proof.
  induction 1 as [|[k u] b1 [Hk _] Hs IH]; [done|]. cbn [app first_free tot fst] in *. unfold HDR.
  pose proof (tot_nonneg b1 Hs). destruct u.
  - rewrite IH. destruct (Z.ltb_spec (first_free b1) (tot b1)), (Z.ltb_spec (16 + k + first_free b1) (16 + k + tot b1)); lia.
  - destruct (Z.ltb_spec 0 (16 + k + tot b1)); lia.
Qed.
Lemma free_at_split b1 n u b2 : Forall sized b1 ->
  free_at (tot b1) (b1 ++ (n, u) :: b2) = foldr cons_block (cons_block (n, false) b2) b1.
Proof.
  induction 1 as [|[k v] b1 [Hk _] Hs IH]; [done|]. cbn [app free_at tot foldr fst] in *. pose proof (tot_nonneg b1 Hs).
  unfold HDR. destruct (Z.eqb_spec (16 + k + tot b1) 0); [lia|]. rewrite <- IH. do 2 f_equal. lia.
Qed.

Lemma smem_free_laid m b1 n b2 :
  smem_ok m (b1 ++ (n, true) :: b2) ->
  smem_ok (rt_smem_free m (Some (tot b1 + HDR))) (free_at (tot b1) (b1 ++ (n, true) :: b2)) /\
  bytes (rt_smem_free m (Some (tot b1 + HDR))) = bytes m /\ self (rt_smem_free m (Some (tot b1 + HDR))) = self m.
Proof.
  intros [H Hc]. destruct (coalesced_app _ _ _ _ Hc) as [C1 C2].
  destruct (laid_split _ _ _ _ _ H) as (S1 & Ha & S2 & Z1 & Z2 & Hn & Hd & Ht & Hp1 & Hp2).
  rewrite free_at_split by done. unfold rt_smem_free. change SIZEOF_STRUCT_MEM with 16.
  replace (tot b1 + HDR - 16) with (tot b1) by (unfold HDR; lia).
  set (m1 := set_pool_ptr (tot b1) (MEM_FREED (self m)) m). set (m2 := if tot b1 <? lfree m1 then with_lfree (tot b1) m1 else m1).
  assert (Hi2 : item m2 (tot b1) = Item (tag m false) (tot b1 + HDR + n) (last_off 0 0 b1)).
  { assert (Hi1 : item m1 (tot b1) = Item (tag m false) (tot b1 + HDR + n) (last_off 0 0 b1)).
    { apply item_lookup. cbn. rewrite lookup_insert_eq. by rewrite (item_lookup _ _ _ Ha). }
    unfold m2. by destruct (_ <? _). }
  rewrite Hi2. cbn [next]. set (m3 := sub_used _ m2).
  destruct H as [? ? ? ? Hr ? Hl Hu]. pose proof (used_range _ ld_sized0) as Hur. rewrite used_app in Hu, Hur. cbn in Hu, Hur.
  rewrite tot_app in ld_tot0, Hur. cbn in ld_tot0, Hur. unfold HDR in *.
  destruct (plug_holes_laid m3 b1 n b2) as (H1 & H2 & H3); try done.
  - apply (laid_retag m m3 b1 n true false b2).
    + constructor; try done; unfold HDR; rewrite ?tot_app, ?used_app; cbn; unfold HDR; try done.
    + unfold m3, m2. destruct (_ <? lfree m1); cbn; by rewrite (item_lookup _ _ _ Ha).
    + unfold m3, m2. by destruct (_ <? lfree m1).
    + unfold m3, m2. by destruct (_ <? lfree m1).
    + unfold m3, m2. by destruct (_ <? lfree m1).
    + rewrite first_free_cat by done. change (lfree m3) with (lfree m2). unfold m2. change (lfree m1) with (lfree m).
      rewrite Hl, first_free_cat by done. cbn [first_free]. pose proof (first_free_range _ Z1). pose proof (first_free_range _ Z2).
      unfold HDR. destruct (Z.ltb_spec (first_free b1) (tot b1)).
      * destruct (Z.ltb_spec (tot b1) (first_free b1)); [lia|]. change (lfree m1) with (lfree m). rewrite Hl, first_free_cat by done.
        destruct (Z.ltb_spec (first_free b1) (tot b1)); lia.
      * destruct (Z.ltb_spec (tot b1) (tot b1 + (16 + n + first_free b2))); cbn; lia.
    + cbn [m3 sub_used used with_used]. replace (used m2) with (used m) by (unfold m2; by destruct (_ <? lfree m1)).
      pose proof (used_range _ Z1). pose proof (used_range _ Z2). unfold u32. rewrite used_app. cbn.
      rewrite (Z.mod_small (tot b1 + 16 + n - tot b1)) by lia. rewrite Z.mod_small by lia. lia.
  - split; [done|]. split; [rewrite H2|rewrite H3]; unfold m3, m2; by destruct (_ <? lfree m1).
Qed.

(** ** Splitting a block *)
Lemma split_header_eq m a d ia c ic :
  a <> d -> c <> a -> c <> d -> heap_end m = u32 (mem_size_aligned m + SIZEOF_STRUCT_MEM) ->
  items m !! a = Some ia -> next ia = c -> items m !! c = Some ic ->
  split_header a d m =
    with_items (let i := <[a := Item (pool_ptr ia) d (prev ia)]> (<[d := Item (MEM_FREED (self m)) c a]> (items m)) in
                if c =? heap_end m then i else <[c := Item (pool_ptr ic) (next ic) d]> i) m.
Proof.
  intros Had Hca Hcd He Ha <- Hc. unfold split_header. rewrite (item_lookup _ _ _ Ha).
  unfold set_prev, set_next, set_item, with_items, item. cbn [items self heap_ptr bytes heap_end lfree mem_size_aligned total used max].
  repeat (rewrite ?lookup_insert_eq, ?lookup_insert_ne, ?Ha, ?Hc by done; cbn [default pool_ptr next prev id]).
  rewrite He. by destruct (_ =? _).
Qed.
Lemma laid_split_header m m' b1 n u k b2 :
  laid m (b1 ++ (n, u) :: b2) -> 0 <= k -> (8 | k) -> k + HDR <= n ->
  items m' = items (split_header (tot b1) (tot b1 + HDR + k) m) ->
  self m' = self m -> heap_end m' = heap_end m -> mem_size_aligned m' = mem_size_aligned m ->
  lfree m' = first_free (b1 ++ (k, u) :: (n - k - HDR, false) :: b2) ->
  used m' = used_bytes (b1 ++ (k, u) :: (n - k - HDR, false) :: b2) ->
  laid m' (b1 ++ (k, u) :: (n - k - HDR, false) :: b2).
Proof.
  intros H Hk Hdk Hkn Hi Hs He Hm Hl Hu. destruct (laid_split _ _ _ _ _ H) as (S1 & Ha & S2 & Z1 & Z2 & Hn & Hd & Ht & Hp1 & Hp2).
  destruct (next_header _ _ _ _ _ H) as [ic Hc]. destruct H as [_ [pe Hpe] Htot Hsz Hrg Hsd _ _].
  set (a := tot b1) in *. set (d := a + HDR + k) in *. set (c := a + HDR + n) in *. unfold HDR in *.
  rewrite (split_header_eq m a d (Item (tag m u) c (last_off 0 0 b1)) c ic) in Hi; try done; try (unfold c, d; lia).
  2:{ rewrite <- Hsz. symmetry. apply Z.mod_small. change SIZEOF_STRUCT_MEM with 16. lia. }
  cbn [items with_items pool_ptr next prev] in Hi.
  assert (Hits : forall x, x <> a -> x <> d -> x <> c -> items m' !! x = items m !! x).
  { intros x ? ? ?. rewrite Hi. cbv zeta. destruct (_ =? _); rewrite ?lookup_insert_ne by done; done. }
  assert (Hita : items m' !! a = Some (Item (tag m u) d (last_off 0 0 b1))).
  { rewrite Hi. cbv zeta. destruct (_ =? _); rewrite ?lookup_insert_ne by (unfold c; lia); by rewrite lookup_insert_eq. }
  assert (Hitd : items m' !! d = Some (Item (tag m false) c a)).
  { rewrite Hi. cbv zeta. destruct (_ =? _); rewrite ?lookup_insert_ne by (unfold c, d; lia); by rewrite lookup_insert_eq. }
  assert (Htot' : tot (b1 ++ (k, u) :: (n - k - 16, false) :: b2) = tot (b1 ++ (n, u) :: b2)).
  { rewrite !tot_app. cbn. unfold HDR. lia. }
  constructor; rewrite ?He, ?Hm, ?Hs, ?Htot'; try done.
  - apply seg_app. change (0 + tot b1) with a. split; [|cbn [seg]; split; [|split]].
    + apply (seg_frame m); try done. intros x Hx. apply Hits; unfold d, c in *; lia.
    + change (a + HDR + k) with d. rewrite Hita. unfold tag. by rewrite Hs.
    + change (a + HDR + k) with d. rewrite Hitd. unfold tag. rewrite Hs. do 2 f_equal. unfold c, d, HDR. lia.
    + change (a + HDR + k) with d. replace (d + HDR + (n - k - 16)) with c by (unfold c, d, HDR; lia).
      destruct (Z.eqb_spec c (heap_end m)) as [E|E].
      * assert (b2 = []) as ->; [|done]. destruct b2 as [|[j v] b2]; [done|]. inversion Z2 as [|? ? [Hj _] Z3]; subst.
        pose proof (tot_nonneg b2 Z3). cbn in *. unfold HDR in *. unfold c in *. lia.
      * apply (seg_prev m _ _ a); try done.
        -- intros x Hx. apply Hits; unfold d, c in *; lia.
        -- intros n3 u3 r3 ->. cbn in S2. destruct S2 as [S2 _]. rewrite Hi. cbv zeta.
           rewrite lookup_insert_eq. rewrite S2 in Hc. injection Hc as <-. done.
  - destruct (decide (heap_end m = c)) as [E|Hne].
    + rewrite E in *. destruct (Z.eqb_spec c c); [|done]. exists pe. rewrite Hi. cbv zeta.
      rewrite !lookup_insert_ne by (unfold c, d; lia). done.
    + exists pe. rewrite Hits; [done|unfold d, c in *; lia|unfold d, c in *; lia|done].
  - apply Forall_app. split; [done|]. constructor; [by split|]. constructor; [|done]. split; cbn; [lia|].
    apply Z.divide_sub_r; [by apply Z.divide_sub_r|exists 2; lia].
Qed.

(** ** Walking the chain *)
Fixpoint offsets (o : Z) (bs : list block) : list Z :=
  match bs with [] => [] | (n, _) :: bs' => o :: offsets (o + HDR + n) bs' end.
Lemma offsets_ge o bs x : Forall sized bs -> x ∈ offsets o bs -> o <= x.
Proof.
  intros Hs. revert o. induction Hs as [|[n u] bs [Hn _] _ IH]; intros o; cbn in *; [by intros ?%not_elem_of_nil|].
  intros [->|H]%elem_of_cons; [lia|]. specialize (IH _ H). unfold HDR in *. lia.
Qed.
Lemma offsets_nodup o bs : Forall sized bs -> NoDup (offsets o bs).
Proof.
  intros Hs. revert o. induction Hs as [|[n u] bs [Hn _] Hs IH]; intros o; cbn in *; constructor; [|apply IH].
  intros H%offsets_ge; [|done]. unfold HDR in *. lia.
Qed.
Lemma offsets_dom m o p bs x : seg m o p bs -> x ∈ offsets o bs -> x ∈ dom (items m).
Proof.
  revert o p. induction bs as [|[n u] bs IH]; intros o p; cbn; [by intros _ ?%not_elem_of_nil|].
  intros [H1 H2] [->|H]%elem_of_cons; [apply elem_of_dom; by eexists|by apply (IH _ _ H2)].
Qed.
Lemma length_offsets o bs : length (offsets o bs) = length bs.
Proof. revert o. induction bs as [|[n u] bs IH]; intros o; cbn; [done|by rewrite IH]. Qed.
Lemma walk_fuel_enough m o p bs : Forall sized bs -> seg m o p bs -> (length bs < walk_fuel m)%nat.
Proof.
  intros Hs H. unfold walk_fuel. rewrite <- (length_offsets o), <- size_dom.
  rewrite <- (size_list_to_set (C := gset Z)) by (by apply offsets_nodup).
  apply Nat.lt_succ_r, subseteq_size. intros x Hx%elem_of_list_to_set. by apply (offsets_dom m o p bs).
Qed.

Lemma lfree_loop_eq m o p bs fuel :
  seg m o p bs -> Forall sized bs -> o + tot bs = heap_end m -> lfree m = o -> (length bs < fuel)%nat ->
  lfree_loop fuel m = with_lfree (o + first_free bs) m.
Proof.
  assert (Hid : forall m, with_lfree (lfree m) m = m) by (by intros []).
  intros Hseg Hs. revert m o p fuel Hseg. induction Hs as [|[n u] bs [Hn _] Hs IH]; intros m o p [|fuel] Hseg Ht Hl Hf;
    cbn in *; try lia.
  - replace (heap_end m) with (lfree m) by lia. rewrite Z.eqb_refl, andb_false_r. cbn [negb andb].
    replace (o + 0) with (lfree m) by lia. by rewrite Hid.
  - destruct Hseg as [H1 H2]. rewrite Hl, (item_lookup _ _ _ H1), isused_tag. cbn [next]. pose proof (tot_nonneg bs Hs).
    destruct u; cbn [andb negb].
    + unfold HDR in *. destruct (Z.eqb_spec o (heap_end m)); [lia|]. cbn [negb].
      rewrite (IH (with_lfree (o + 16 + n) m) (o + 16 + n) o); [|by apply (seg_frame m)|cbn; lia|done|lia].
      unfold with_lfree. cbn. f_equal. lia.
    + replace (o + 0) with (lfree m) by lia. by rewrite Hid.
Qed.

(** ** Taking a free block *)
Definition taken_blocks (size n : Z) (b2 : list block) : list block :=
  if size + HDR + 16 <=? n then (size, true) :: (n - size - HDR, false) :: b2 else (n, true) :: b2.
Lemma first_free_all_used b1 : Forall sized b1 -> tot b1 <= first_free b1 -> forall b2, first_free (b1 ++ b2) = tot b1 + first_free b2.
Proof. intros Hs H b2. rewrite first_free_cat by done. by destruct (Z.ltb_spec (first_free b1) (tot b1)); [lia|]. Qed.

(** The state of [alloc_at] before it looks for the next free header. *)
Definition take_block (size ptr : Z) (m : rt_small_mem) : rt_small_mem :=
  let avail := u32 (next (item m ptr) - u32 (ptr + SIZEOF_STRUCT_MEM)) in
  let m :=
    if size + SIZEOF_STRUCT_MEM + MIN_SIZE_ALIGNED <=? avail then
      add_used (size + SIZEOF_STRUCT_MEM) (split_header ptr (u32 (ptr + SIZEOF_STRUCT_MEM + size)) m)
    else add_used (u32 (next (item m ptr) - ptr)) m in
  set_pool_ptr ptr (MEM_USED (self m)) m.
Lemma alloc_at_eq size ptr m : alloc_at size ptr m =
  let m' := take_block size ptr m in if ptr =? lfree m' then lfree_loop (walk_fuel m') m' else m'.
Proof. done. Qed.
Lemma split_header_keeps a d m :
  let m' := split_header a d m in
  self m' = self m /\ heap_end m' = heap_end m /\ mem_size_aligned m' = mem_size_aligned m /\ lfree m' = lfree m /\
  used m' = used m /\ bytes m' = bytes m.
Proof. unfold split_header. by destruct (negb _). Qed.
Lemma take_block_keeps size ptr m :
  let m' := take_block size ptr m in
  self m' = self m /\ heap_end m' = heap_end m /\ mem_size_aligned m' = mem_size_aligned m /\ lfree m' = lfree m /\
  bytes m' = bytes m.
Proof.
  unfold take_block. destruct (_ <=? _); [|done].
  destruct (split_header_keeps ptr (u32 (ptr + SIZEOF_STRUCT_MEM + size)) m) as (? & ? & ? & ? & ? & ?). done.
Qed.

Lemma take_block_laid m b1 n b2 size :
  laid m (b1 ++ (n, false) :: b2) -> 16 <= size <= n -> (8 | size) ->
  let bs' := b1 ++ taken_blocks size n b2 in
  laid (with_lfree (first_free bs') (take_block size (tot b1) m)) bs'.
Proof.
  intros H Hsz Hds bs'. destruct (laid_split _ _ _ _ _ H) as (S1 & Ha & S2 & Z1 & Z2 & Hn & Hd & Ht & Hp1 & Hp2).
  pose proof (used_range _ Z1). pose proof (used_range _ Z2). pose proof (ld_range _ _ H) as Hr. pose proof (ld_used _ _ H) as Hu.
  rewrite used_app in Hu. cbn in Hu. set (a := tot b1) in *. unfold take_block.
  change SIZEOF_STRUCT_MEM with 16. change MIN_SIZE_ALIGNED with 16. rewrite (item_lookup _ _ _ Ha). cbn [next].
  unfold HDR in *. unfold u32. rewrite !(Z.mod_small (a + 16)), !(Z.mod_small (a + 16 + n - (a + 16))), (Z.mod_small (a + 16 + n - a)),
    (Z.mod_small (a + 16 + size)) by (unfold a in *; lia).
  replace (a + 16 + n - (a + 16)) with n by lia. replace (a + 16 + n - a) with (16 + n) by lia.
  subst bs'. unfold taken_blocks, HDR. destruct (Z.leb_spec (size + 16 + 16) n) as [Hc|Hc].
  - set (bs1 := b1 ++ (size, false) :: (n - size - 16, false) :: b2).
    set (m1 := with_used (used_bytes bs1) 0 (with_lfree (first_free bs1) (split_header a (a + 16 + size) m))).
    destruct (split_header_keeps a (a + 16 + size) m) as (E1 & E2 & E3 & E4 & E5 & _).
    assert (Hl1 : laid m1 bs1) by (apply (laid_split_header m m1 b1 n false size b2); try done; unfold HDR; lia).
    destruct (laid_split _ _ _ _ _ Hl1) as (_ & Ha1 & _). fold a in Ha1.
    apply (laid_retag m1 _ b1 size false true); try done.
    + change (items (set_pool_ptr a (MEM_USED (self m1)) m1) = <[a := Item (tag m1 true) (a + HDR + size) (last_off 0 0 b1)]> (items m1)).
      unfold set_pool_ptr. by rewrite (item_lookup _ _ _ Ha1).
    + cbn. rewrite E5, Hu, used_app. cbn. unfold u32, HDR. rewrite Z.mod_small by (unfold a in *; lia). lia.
  - apply (laid_retag m _ b1 n false true); try done.
    + change (items (set_pool_ptr a (MEM_USED (self m)) m) = <[a := Item (tag m true) (a + HDR + n) (last_off 0 0 b1)]> (items m)).
      unfold set_pool_ptr. by rewrite (item_lookup _ _ _ Ha).
    + cbn. rewrite Hu, used_app. cbn. unfold u32, HDR. rewrite Z.mod_small by (unfold a in *; lia). lia.
Qed.
Lemma coalesced_taken b1 n b2 size : coalesced (b1 ++ (n, false) :: b2) -> coalesced (b1 ++ taken_blocks size n b2).
Proof.
  assert (H0 : coalesced ((n, false) :: b2) -> coalesced (taken_blocks size n b2)).
  { unfold taken_blocks. destruct (_ <=? _), b2 as [|[k []] b2]; cbn; tauto. }
  induction b1 as [|[k u] b1 IH]; [done|]. cbn [app]. intros H. destruct (coalesced_cons _ _ H) as [H1 _]. specialize (IH H1).
  destruct u; [done|]. destruct b1 as [|[j v] b1]; cbn [app] in *; [by cbn in H|]. by destruct v.
Qed.
Lemma with_lfree_id m : with_lfree (lfree m) m = m.
Proof. by destruct m. Qed.

Lemma alloc_at_ok m b1 n b2 size :
  smem_ok m (b1 ++ (n, false) :: b2) -> 16 <= size <= n -> (8 | size) ->
  smem_ok (alloc_at size (tot b1) m) (b1 ++ taken_blocks size n b2) /\
  bytes (alloc_at size (tot b1) m) = bytes m /\ self (alloc_at size (tot b1) m) = self m.
Proof.
  intros [H Hc] Hsz Hds. pose proof (take_block_laid m b1 n b2 size H Hsz Hds) as Hl. cbv zeta in Hl.
  destruct (take_block_keeps size (tot b1) m) as (E1 & E2 & E3 & E4 & E5).
  set (m' := take_block size (tot b1) m) in *. set (bs' := b1 ++ taken_blocks size n b2) in *.
  assert (E : alloc_at size (tot b1) m = with_lfree (first_free bs') m').
  { rewrite alloc_at_eq. cbv zeta. fold m'. destruct (laid_split _ _ _ _ _ H) as (_ & _ & _ & Z1 & _).
    pose proof (ld_lfree _ _ H) as Hf. rewrite first_free_cat in Hf by done. cbn [first_free] in Hf.
    destruct (Z.eqb_spec (tot b1) (lfree m')) as [Eq|Ne].
    - unfold bs' at 1. rewrite first_free_all_used by (try done; destruct (Z.ltb_spec (first_free b1) (tot b1)); lia).
      pose proof (ld_seg _ _ Hl) as Hseg. apply seg_app in Hseg as [_ Hseg]. change (0 + tot b1) with (tot b1) in Hseg.
      pose proof (ld_sized _ _ Hl) as Hs. unfold bs' in Hs. apply Forall_app in Hs as [_ Hs].
      pose proof (ld_tot _ _ Hl) as Ht. unfold bs' in Ht. rewrite tot_app in Ht.
      apply (lfree_loop_eq m' (tot b1) (last_off 0 0 b1)); try done.
      + by apply (seg_frame (with_lfree (first_free bs') m')).
      + by apply (walk_fuel_enough _ (tot b1) (last_off 0 0 b1) (taken_blocks size n b2)) in Hseg.
    - unfold bs'. rewrite first_free_cat by done. destruct (Z.ltb_spec (first_free b1) (tot b1)); [|lia].
      replace (first_free b1) with (lfree m') by lia. by rewrite with_lfree_id. }
  rewrite E. split; [|done]. split; [done|]. by apply coalesced_taken.
Qed.

Lemma first_fit_small size bs : Forall sized bs -> tot bs < size + HDR -> first_fit size bs = None.
Proof.
  induction 1 as [|[n u] bs [Hn _] Hs IH]; [done|]. cbn in *. unfold HDR in *. pose proof (tot_nonneg bs Hs). intros Ht.
  destruct (Z.leb_spec size n); [lia|]. rewrite andb_false_r, IH; [done|lia].
Qed.
Lemma alloc_loop_eq m b1 b2 size fuel :
  laid m (b1 ++ b2) -> 16 <= size <= mem_size_aligned m -> (length b2 < fuel)%nat ->
  alloc_loop fuel size (tot b1) m =
    match first_fit size b2 with
    | Some (_, off) => (alloc_at size (tot b1 + off) m, Some (tot b1 + off + HDR))
    | None => (m, None)
    end.
Proof.
  intros H Hsz. pose proof (ld_size _ _ H) as Hms. pose proof (ld_range _ _ H) as Hr. unfold HDR in *.
  revert b1 fuel H. induction b2 as [|[n u] b2 IH]; intros b1 [|fuel] H Hf; cbn [length] in Hf; try lia; cbn [alloc_loop].
  - pose proof (ld_tot _ _ H) as Ht. rewrite app_nil_r in Ht. unfold u32. rewrite Z.mod_small by lia.
    destruct (Z.leb_spec (tot b1) (mem_size_aligned m - size)); [lia|]. done.
  - destruct (laid_split _ _ _ _ _ H) as (_ & Ha & _ & Z1 & Z2 & Hn & _ & Ht & Hp1 & Hp2). unfold HDR in *.
    unfold u32. rewrite (Z.mod_small (mem_size_aligned m - size)) by lia.
    destruct (Z.leb_spec (tot b1) (mem_size_aligned m - size)).
    + rewrite (item_lookup _ _ _ Ha), isused_tag. cbn [next]. change SIZEOF_STRUCT_MEM with 16.
      rewrite (Z.mod_small (tot b1 + 16)), (Z.mod_small (tot b1 + 16 + n - (tot b1 + 16))) by lia.
      replace (tot b1 + 16 + n - (tot b1 + 16)) with n by lia. cbn [first_fit].
      destruct (negb u && (size <=? n)); [by rewrite Z.add_0_r|].
      assert (H' : laid m ((b1 ++ [(n, u)]) ++ b2)) by (by rewrite <- app_assoc). specialize (IH _ fuel H' ltac:(lia)).
      rewrite tot_app in IH. cbn in IH. unfold HDR in *. replace (tot b1 + (16 + n + 0)) with (tot b1 + 16 + n) in IH by lia.
      rewrite IH. destruct (first_fit size b2) as [[r off]|]; [|done].
      do 2 f_equal; lia.
    + pose proof (ld_sized _ _ H) as Hsd. apply Forall_app in Hsd as [_ Hsd].
      rewrite first_fit_small; [done|done|cbn; unfold HDR; lia].
Qed.

Lemma first_fit_split size bs bs' off :
  first_fit size bs = Some (bs', off) ->
  exists b1 n b2, bs = b1 ++ (n, false) :: b2 /\ off = tot b1 /\ size <= n /\ bs' = b1 ++ taken_blocks size n b2.
Proof.
  revert bs' off. induction bs as [|[n u] bs IH]; intros bs' off; cbn [first_fit]; [done|].
  destruct (negb u && (size <=? n)) eqn:E.
  - intros [= <- <-]. apply andb_true_iff in E as [E1%negb_true_iff E2%Z.leb_le]. subst u. by exists [], n, bs.
  - destruct (first_fit size bs) as [[r o]|]; [|done]. intros [= <- <-].
    destruct (IH r o eq_refl) as (b1 & k & b2 & -> & -> & Hk & ->). by exists ((n, u) :: b1), k, b2.
Qed.
(** The search may start at the first free header. *)
Lemma first_free_split bs : exists b1 b2, bs = b1 ++ b2 /\ tot b1 = first_free bs /\
  forall size, first_fit size bs =
    match first_fit size b2 with Some (r, off) => Some (b1 ++ r, tot b1 + off) | None => None end.
Proof.
  induction bs as [|[n u] bs IH]; [by exists [], []|]. destruct u.
  - destruct IH as (b1 & b2 & -> & Ht & Hf). exists ((n, true) :: b1), b2. split; [done|]. cbn. rewrite Ht. split; [done|].
    intros size. rewrite Hf. destruct (first_fit size b2) as [[r off]|]; [|done]. do 2 f_equal. rewrite Ht. lia.
  - exists [], ((n, false) :: bs). split; [done|]. split; [done|]. intros size. by destruct (first_fit size ((n, false) :: bs)) as [[]|].
Qed.

(** ** The blocks in use *)
(** Their addresses and sizes. *)
Fixpoint live (o : Z) (bs : list block) : list (Z * Z) :=
  match bs with
  | [] => []
  | (n, u) :: bs' => if (u : bool) then (o + HDR, n) :: live (o + HDR + n) bs' else live (o + HDR + n) bs'
  end.
Lemma live_app o b1 b2 : live o (b1 ++ b2) = live o b1 ++ live (o + tot b1) b2.
Proof.
  revert o. induction b1 as [|[n u] b1 IH]; intros o; cbn; [by rewrite Z.add_0_r|]. rewrite IH.
  replace (o + HDR + n + tot b1) with (o + (HDR + n + tot b1)) by lia. by destruct u.
Qed.
Lemma live_cons_block o b bs : live o (cons_block b bs) = live o (b :: bs).
Proof.
  destruct b as [n []], bs as [|[k []] bs]; cbn; try done. f_equal. lia.
Qed.
Lemma live_foldr o b1 rest : live o (foldr cons_block rest b1) = live o (b1 ++ rest).
Proof.
  revert o. induction b1 as [|[n u] b1 IH]; intros o; [done|]. cbn [foldr app]. rewrite live_cons_block. cbn. by rewrite IH.
Qed.
Lemma live_range o bs p n : Forall sized bs -> (p, n) ∈ live o bs ->
  o + HDR <= p /\ 0 <= n /\ p + n <= o + tot bs /\ (8 | p - o) /\ (8 | n).
Proof.
  intros Hs. revert o. induction Hs as [|[k u] bs [Hk Hd] Hs IH]; intros o; cbn in *; [by intros ?%not_elem_of_nil|].
  pose proof (tot_nonneg bs Hs). assert (Hrec : (p, n) ∈ live (o + HDR + k) bs ->
    o + HDR <= p /\ 0 <= n /\ p + n <= o + (HDR + k + tot bs) /\ (8 | p - o) /\ (8 | n)).
  { intros Hin. destruct (IH _ Hin) as (H1 & H2 & H3 & H4 & H5). unfold HDR in *. split_and!; try lia; [|done].
    replace (p - o) with ((p - (o + 16 + k)) + (k + 16)) by lia. apply Z.divide_add_r; [done|]. apply Z.divide_add_r; [done|exists 2; lia]. }
  destruct u; [|done]. intros [[= -> ->]|Hin]%elem_of_cons; [|by apply Hrec]. unfold HDR in *.
  split_and!; try lia; [|done]. replace (o + 16 - o) with 16 by lia. exists 2. lia.
Qed.
Lemma live_split bs p n : (p, n) ∈ live 0 bs -> exists b1 b2, bs = b1 ++ (n, true) :: b2 /\ p = tot b1 + HDR.
Proof.
  assert (G : forall o, (p, n) ∈ live o bs -> exists b1 b2, bs = b1 ++ (n, true) :: b2 /\ p = o + tot b1 + HDR); [|exact (G 0)].
  induction bs as [|[k u] bs IH]; intros o; cbn; [by intros ?%not_elem_of_nil|].
  assert (Hrec : (p, n) ∈ live (o + HDR + k) bs -> exists b1 b2, (k, u) :: bs = b1 ++ (n, true) :: b2 /\ p = o + tot b1 + HDR).
  { intros Hin. destruct (IH _ Hin) as (b1 & b2 & -> & ->). exists ((k, u) :: b1), b2. split; [done|]. cbn. lia. }
  destruct u; [|done]. intros [[= -> ->]|Hin]%elem_of_cons; [|by apply Hrec]. exists [], bs. split; [done|]. cbn. lia.
Qed.
(** Every other block in use lies before the header of a block or after its end. *)
Lemma live_around b1 n u b2 q j :
  Forall sized (b1 ++ (n, u) :: b2) -> (q, j) ∈ live 0 b1 ++ live (tot b1 + HDR + n) b2 ->
  q + j <= tot b1 \/ tot b1 + HDR + n + HDR <= q.
Proof.
  intros (H1 & H2 & H3 & H4)%sized_split [Hin|Hin]%elem_of_app.
  - left. by apply live_range in Hin as (_ & _ & ? & _).
  - right. by apply live_range in Hin as (? & _).
Qed.
Lemma live_taken o b1 n b2 size :
  exists k, (k = size \/ k = n) /\ live o (b1 ++ taken_blocks size n b2) ≡ₚ (o + tot b1 + HDR, k) :: live o (b1 ++ (n, false) :: b2) /\
    (size <= n -> size <= k <= n).
Proof.
  rewrite !live_app. unfold taken_blocks. destruct (Z.leb_spec (size + HDR + 16) n).
  - exists size. split; [by left|]. split; [|lia]. cbn [live]. rewrite <- Permutation_middle. f_equiv. f_equiv.
    replace (o + tot b1 + HDR + size + HDR + (n - size - HDR)) with (o + tot b1 + HDR + n) by lia. done.
  - exists n. split; [by right|]. split; [|lia]. cbn [live]. by rewrite <- Permutation_middle.
Qed.

Lemma RT_ALIGN_divide x : (8 | RT_ALIGN x RT_ALIGN_SIZE).
Proof. unfold RT_ALIGN, RT_ALIGN_SIZE. change (8 - 1) with 7. rewrite ldiff_7. eexists. done. Qed.
Lemma RT_ALIGN_range x : 0 <= x < 2 ^ 32 -> 0 <= RT_ALIGN x RT_ALIGN_SIZE < 2 ^ 32 /\ (x <= 2 ^ 32 - 8 -> x <= RT_ALIGN x RT_ALIGN_SIZE).
Proof.
  intros H. split.
  - unfold RT_ALIGN, RT_ALIGN_SIZE, u32. change (8 - 1) with 7. rewrite ldiff_7.
    pose proof (Z.mod_pos_bound (x + 8 - 1) (2 ^ 32) ltac:(lia)). set (y := _ mod _) in *. pose proof (Z.div_mod y 8 ltac:(lia)).
    pose proof (Z.mod_pos_bound y 8 ltac:(lia)). lia.
  - intros Hx. rewrite RT_ALIGN_8 by lia. pose proof (Z.div_mod (x + 7) 8 ltac:(lia)). pose proof (Z.mod_pos_bound (x + 7) 8 ltac:(lia)). lia.
Qed.

(** ** Properties *)
Definition need (size : Z) : Z := Z.max 16 (RT_ALIGN size RT_ALIGN_SIZE).
Lemma smem_alloc_eq m bs size : smem_ok m bs -> 0 < size < 2 ^ 32 ->
  match first_fit (need size) bs with
  | Some (bs', off) => exists m', rt_smem_alloc m size = (m', Some (off + HDR)) /\ smem_ok m' bs' /\ bytes m' = bytes m /\ self m' = self m
  | None => rt_smem_alloc m size = (m, None)
  end.
Proof.
  intros Hok Hs. pose proof (so_laid _ _ Hok) as H. unfold rt_smem_alloc. destruct (Z.eqb_spec size 0); [lia|].
  pose proof (RT_ALIGN_divide size) as Hd. destruct (RT_ALIGN_range size ltac:(lia)) as [Hr _]. change MIN_SIZE_ALIGNED with 16.
  replace (if RT_ALIGN size RT_ALIGN_SIZE <? 16 then 16 else _) with (need size)
    by (unfold need; destruct (Z.ltb_spec (RT_ALIGN size RT_ALIGN_SIZE) 16); lia).
  assert (Hn : 16 <= need size < 2 ^ 32) by (unfold need; lia).
  assert (Hnd : (8 | need size)).
  { unfold need. destruct (Z.max_spec 16 (RT_ALIGN size RT_ALIGN_SIZE)) as [[_ ->]|[_ ->]]; [done|]. exists 2. lia. }
  pose proof (ld_size _ _ H) as Hms. pose proof (ld_tot _ _ H) as Ht. pose proof (ld_sized _ _ H) as Hsd.
  destruct (Z.ltb_spec (mem_size_aligned m) (need size)).
  - rewrite first_fit_small; [done|done|lia].
  - destruct (first_free_split bs) as (b1 & b2 & E & Hff & Hfit). rewrite Hfit.
    pose proof (ld_lfree _ _ H) as Hl. rewrite <- Hff in Hl. rewrite Hl, E in *.
    assert (Hf : (length b2 < walk_fuel m)%nat).
    { pose proof (ld_seg _ _ H) as Hseg. apply seg_app in Hseg as [_ Hseg]. apply Forall_app in Hsd as [_ Hsd].
      by apply (walk_fuel_enough m _ _ b2) in Hseg. }
    rewrite (alloc_loop_eq m b1 b2) by (done || lia).
    destruct (first_fit (need size) b2) as [[r off]|] eqn:Ef; [|done].
    destruct (first_fit_split _ _ _ _ Ef) as (c1 & k & c2 & -> & -> & Hk & ->).
    exists (alloc_at (need size) (tot b1 + tot c1) m). split; [done|]. rewrite <- tot_app, app_assoc in *.
    apply alloc_at_ok; [done|lia|done].
Qed.


Lemma smem_free_live m bs p n : smem_ok m bs -> (p, n) ∈ live 0 bs ->
  let bs' := free_at (p - HDR) bs in
  smem_ok (rt_smem_free m (Some p)) bs' /\ bytes (rt_smem_free m (Some p)) = bytes m /\
  live 0 bs ≡ₚ (p, n) :: live 0 bs'.
Proof.
  intros Hok Hp. destruct (live_split _ _ _ Hp) as (b1 & b2 & -> & ->). replace (tot b1 + HDR - HDR) with (tot b1) by lia.
  destruct (smem_free_laid m b1 n b2 Hok) as (H1 & H2 & _). split; [exact H1|]. split; [done|].
  destruct (laid_split _ _ _ _ _ (so_laid _ _ Hok)) as (_ & _ & _ & Z1 & _). rewrite free_at_split by done.
  rewrite live_foldr, !live_app, live_cons_block. cbn. by rewrite <- Permutation_middle.
Qed.
(** The used bytes follow from the blocks in use. *)
Lemma used_live o bs : used_bytes bs = foldr (fun b s => HDR + b.2 + s) 0 (live o bs).
Proof. revert o. induction bs as [|[n u] bs IH]; intros o; [done|]. cbn. rewrite (IH (o + HDR + n)). by destruct u. Qed.
Lemma used_live_perm bs bs' p n : live 0 bs ≡ₚ (p, n) :: live 0 bs' -> used_bytes bs = HDR + n + used_bytes bs'.
Proof.
  intros H. rewrite !(used_live 0).
  apply (foldr_permutation (=) (fun (b : Z * Z) s => HDR + b.2 + s) 0 _ _) in H; [by rewrite H|]. intros. lia.
Qed.

(** C22: releasing a block in use returns it and merges it with free neighbours: the
    heap stays well formed with no two free neighbours, every other block in use and
    every byte stays as it is, and the number of used bytes goes down by the block
    and its header. *)
Theorem rt_smem_free_spec (m : rt_small_mem) (bs : list block) (p n : Z)
    (Hok : smem_ok m bs) (Hp : (p, n) ∈ live 0 bs) :
  exists bs', smem_ok (rt_smem_free m (Some p)) bs' /\ bs' = free_at (p - HDR) bs /\
    bytes (rt_smem_free m (Some p)) = bytes m /\
    live 0 bs ≡ₚ (p, n) :: live 0 bs' /\ used (rt_smem_free m (Some p)) = used m - (HDR + n).
Proof.
  destruct (smem_free_live m bs p n Hok Hp) as (H1 & H2 & H3). eexists. split; [exact H1|]. do 3 (split; [done|]).
  rewrite (ld_used _ _ (so_laid _ _ H1)), (ld_used _ _ (so_laid _ _ Hok)), (used_live_perm _ _ _ _ H3). lia.
Qed.

(** C24: an allocation followed by the release of what it returned leaves the blocks
    of the heap as they were. *)
Theorem rt_smem_alloc_free (m m' : rt_small_mem) (bs : list block) (size p : Z)
    (Hok : smem_ok m bs) (Hsize : 0 < size < 2 ^ 32) (Halloc : rt_smem_alloc m size = (m', Some p)) :
  smem_ok (rt_smem_free m' (Some p)) bs /\ used (rt_smem_free m' (Some p)) = used m /\
  bytes (rt_smem_free m' (Some p)) = bytes m.
Proof.
  pose proof (smem_alloc_eq m bs size Hok Hsize) as Ha. destruct (first_fit (need size) bs) as [[bs' off]|] eqn:E; [|congruence].
  destruct Ha as (m1 & Ea & Hok' & Hby & _). rewrite Halloc in Ea. injection Ea as <- ->.
  destruct (first_fit_split _ _ _ _ E) as (b1 & n & b2 & -> & -> & Hn & ->).
  destruct (laid_split _ _ _ _ _ (so_laid _ _ Hok)) as (_ & _ & _ & Z1 & _).
  assert (Ef : free_at (tot b1) (b1 ++ taken_blocks (need size) n b2) = b1 ++ (n, false) :: b2).
  { destruct (foldr_cons_block b1 ((n, false) :: b2) (so_coalesced _ _ Hok)) as [Ef Hc].
    unfold taken_blocks. destruct (_ <=? _); rewrite free_at_split by done; rewrite <- Ef; f_equal.
    - cbn. f_equal. f_equal. lia.
    - by apply (coalesced_cons (n, false)). }
  assert (G : exists k r, b1 ++ taken_blocks (need size) n b2 = b1 ++ (k, true) :: r).
  { unfold taken_blocks. destruct (_ <=? _); eauto. }
  destruct G as (k & r & G). rewrite G in *. destruct (smem_free_laid m' b1 k r Hok') as (H1 & H2 & _). rewrite Ef in H1.
  split; [done|]. split; [|congruence]. rewrite (ld_used _ _ (so_laid _ _ H1)). by rewrite (ld_used _ _ (so_laid _ _ Hok)).
Qed.

(** ** Reallocation *)
Definition byte (m : rt_small_mem) (p : Z) : Z := default 0 (bytes m !! p).
Lemma foldl_copy (g : nat -> Z) dst l : NoDup l -> forall (b : gmap Z Z) x,
  foldl (fun b i => <[dst + Z.of_nat i := g i]> b) b l !! x =
    if decide (x - dst < 0) then b !! x else if decide (Z.to_nat (x - dst) ∈ l) then Some (g (Z.to_nat (x - dst))) else b !! x.
Proof.
  induction 1 as [|i l Hi Hnd IH]; intros b x; cbn [foldl].
  - rewrite (decide_False (P := _ ∈ [])) by apply not_elem_of_nil. by destruct (decide _).
  - rewrite IH. destruct (decide (x - dst < 0)).
    + by rewrite lookup_insert_ne by lia.
    + destruct (decide (Z.to_nat (x - dst) ∈ l)) as [Hl|Hl]; [by rewrite decide_True by (by right)|].
      destruct (decide (Z.to_nat (x - dst) = i)) as [<-|Hne].
      * rewrite decide_True by left. rewrite Z2Nat.id by lia. replace (dst + (x - dst)) with x by lia. by rewrite lookup_insert_eq.
      * rewrite decide_False by (intros [?|?]%elem_of_cons; done). by rewrite lookup_insert_ne by lia.
Qed.
Lemma byte_copy dst src n m x : byte (copy_bytes dst src n m) x =
  if decide (dst <= x < dst + n) then byte m (src + (x - dst)) else byte m x.
Proof.
  unfold byte, copy_bytes. cbn [bytes with_bytes]. rewrite (foldl_copy (fun i => default 0 (bytes m !! (src + Z.of_nat i)))) by apply NoDup_seq.
  destruct (decide (x - dst < 0)); [by rewrite decide_False by lia|]. destruct (decide (dst <= x < dst + n)).
  - rewrite decide_True by (apply elem_of_seq; lia). cbn. by rewrite Z2Nat.id by lia.
  - rewrite decide_False by (rewrite elem_of_seq; lia). done.
Qed.
(** Only what the allocator looks at matters for the layout. *)
Lemma laid_bytes b m bs : laid m bs -> laid (with_bytes b m) bs.
Proof.
  intros [H1 H2 H3 H4 H5 H6 H7 H8]. constructor; try done. by apply (seg_frame m).
Qed.

Lemma split_block_ok m b1 n b2 k :
  smem_ok m (b1 ++ (n, true) :: b2) -> 0 <= k -> (8 | k) -> k + HDR <= n ->
  let m' := split_block (tot b1) k (sub_used (n - k) m) in
  smem_ok m' (foldr cons_block (cons_block (n - k - HDR, false) b2) (b1 ++ [(k, true)])) /\ bytes m' = bytes m.
Proof.
  intros [H Hc] Hk Hdk Hkn. destruct (laid_split _ _ _ _ _ H) as (S1 & Ha & S2 & Z1 & Z2 & Hn & Hd & Ht & Hp1 & Hp2).
  pose proof (ld_range _ _ H) as Hr. pose proof (ld_used _ _ H) as Hu. pose proof (ld_lfree _ _ H) as Hl.
  pose proof (used_range _ Z1). pose proof (used_range _ Z2). rewrite used_app in Hu. cbn in Hu.
  rewrite first_free_cat in Hl by done. cbn [first_free] in Hl. pose proof (first_free_range _ Z2).
  destruct (coalesced_app _ _ _ _ Hc) as [C1 C2]. unfold split_block. change SIZEOF_STRUCT_MEM with 16. unfold HDR in *.
  unfold u32. rewrite (Z.mod_small (tot b1 + 16 + k)) by lia. set (m1 := sub_used (n - k) m).
  destruct (split_header_keeps (tot b1) (tot b1 + 16 + k) m1) as (E1 & E2 & E3 & E4 & E5 & E6).
  set (m2 := split_header (tot b1) (tot b1 + 16 + k) m1) in *.
  set (m3 := if tot b1 + 16 + k <? lfree m2 then with_lfree (tot b1 + 16 + k) m2 else m2). cbv zeta.
  assert (H3 : laid m3 (b1 ++ (k, true) :: (n - k - 16, false) :: b2)).
  { apply (laid_split_header m m3 b1 n true k b2); unfold HDR; try done; try (unfold m3; by destruct (_ <? lfree m2)).
    - transitivity (items m2); [unfold m3; by destruct (_ <? lfree m2)|].
      unfold m2, split_header. cbn. by destruct (negb _).
    - rewrite first_free_cat by done. cbn [first_free]. unfold m3. rewrite E4. change (lfree m1) with (lfree m). rewrite Hl. unfold HDR.
      destruct (Z.ltb_spec (first_free b1) (tot b1)).
      + destruct (Z.ltb_spec (tot b1 + 16 + k) (first_free b1)); [lia|]. rewrite E4. change (lfree m1) with (lfree m). lia.
      + destruct (Z.ltb_spec (tot b1 + 16 + k) (tot b1 + (16 + n + first_free b2))); [cbn|]; lia.
    - transitivity (used m1); [unfold m3; by destruct (_ <? lfree m2)|]. cbn. unfold u32. rewrite used_app. cbn. unfold HDR.
      rewrite Z.mod_small by lia. lia. }
  destruct (plug_holes_laid m3 (b1 ++ [(k, true)]) (n - k - 16) b2) as (H4 & H5 & _).
  - by rewrite <- app_assoc.
  - clear -C1 Hc. revert Hc. induction b1 as [|[j v] b1 IH]; [done|]. cbn [app]. intros Hc.
    destruct (coalesced_cons _ _ Hc) as [H1 _]. destruct (coalesced_cons _ _ C1) as [C2 _]. specialize (IH C2 H1).
    destruct v; [done|]. destruct b1 as [|[i []] b1]; cbn in *; done.
  - done.
  - replace (tot (b1 ++ [(k, true)])) with (tot b1 + 16 + k) in H4, H5 by (rewrite tot_app; cbn; unfold HDR; lia).
    split; [exact H4|]. rewrite H5. unfold m3. by destruct (_ <? lfree m2).
Qed.

(** C23: a reallocation of a block in use either fails and changes nothing, or - for
    size 0 - releases the block, or returns a block of at least the new size that
    holds the bytes of the old one up to the smaller of the two sizes; no byte of
    another block in use changes.  It does not move a block that it can shrink in
    place. *)
Theorem rt_smem_realloc_spec (m : rt_small_mem) (bs : list block) (p n newsize : Z)
    (Hok : smem_ok m bs) (Hp : (p, n) ∈ live 0 bs) (Hsize : 0 <= newsize <= 2 ^ 32 - 8) :
  let size := RT_ALIGN newsize RT_ALIGN_SIZE in
  match rt_smem_realloc m (Some p) newsize with
  | (m', None) =>
      if (0 <? size) then m' = m
      else exists bs', smem_ok m' bs' /\ live 0 bs ≡ₚ (p, n) :: live 0 bs' /\ bytes m' = bytes m
  | (m', Some p') =>
      exists bs' rest k, smem_ok m' bs' /\ live 0 bs ≡ₚ (p, n) :: rest /\ live 0 bs' ≡ₚ (p', k) :: rest /\
        newsize <= k /\ (n = size \/ size + 28 < n -> p' = p) /\
        (forall i, 0 <= i < Z.min n newsize -> byte m' (p' + i) = byte m (p + i)) /\
        (forall q j i, (q, j) ∈ rest -> 0 <= i < j -> byte m' (q + i) = byte m (q + i))
  end.
Proof.
  cbv zeta. unfold rt_smem_realloc. set (size := RT_ALIGN newsize RT_ALIGN_SIZE).
  destruct (RT_ALIGN_range newsize ltac:(lia)) as [Hr Hge]. specialize (Hge ltac:(lia)). fold size in Hr, Hge.
  pose proof (RT_ALIGN_divide newsize) as Hds. fold size in Hds. pose proof (so_laid _ _ Hok) as H.
  destruct (live_split _ _ _ Hp) as (b1 & b2 & -> & ->). set (p := tot b1 + HDR) in *.
  assert (Hrest : live 0 (b1 ++ (n, true) :: b2) ≡ₚ (p, n) :: live 0 b1 ++ live (tot b1 + HDR + n) b2).
  { rewrite live_app. cbn. by rewrite <- Permutation_middle. }
  destruct (laid_split _ _ _ _ _ H) as (_ & Ha & _ & Z1 & Z2 & Hn & Hdn & Ht & Hp1 & Hp2).
  pose proof (ld_size _ _ H) as Hms. pose proof (ld_range _ _ H) as Hrg.
  destruct (Z.ltb_spec (mem_size_aligned m) size); [destruct (Z.ltb_spec 0 size); [done|lia]|].
  destruct (Z.eqb_spec size 0) as [E0|E0].
  { destruct (Z.ltb_spec 0 size); [lia|]. destruct (smem_free_live m _ p n Hok Hp) as (Hs1 & Hs2 & Hs3).
    eexists. split; [exact Hs1|]. by split. }
  change SIZEOF_STRUCT_MEM with 16. change MIN_SIZE with 12. replace (p - 16) with (tot b1) by (unfold p, HDR; lia).
  rewrite (item_lookup _ _ _ Ha). cbn [next]. unfold u32, HDR in *.
  replace (tot b1 + 16 + n - tot b1 - 16) with n by lia. rewrite Z.mod_small by lia.
  destruct (Z.eqb_spec n size) as [E|E].
  { exists (b1 ++ (n, true) :: b2), (live 0 b1 ++ live (tot b1 + 16 + n) b2), n. do 2 (split; [done|]). split; [done|].
    split; [lia|]. done. }
  destruct (Z.ltb_spec (size + 16 + 12) n).
  - assert (Hd16 : size + 16 <= n) by lia. destruct (split_block_ok m b1 n b2 size Hok ltac:(lia) Hds Hd16) as (Hs1 & Hs2).
    eexists _, (live 0 b1 ++ live (tot b1 + 16 + n) b2), size. split; [exact Hs1|]. split; [done|]. split.
    + rewrite live_foldr, !live_app, live_cons_block, tot_app. cbn. unfold HDR. rewrite <- app_assoc. cbn [app].
      rewrite <- Permutation_middle. match goal with |- ?a ≡ₚ ?b => assert (Eab : a = b); [|by rewrite Eab] end.
      do 3 f_equal. lia.
    + split; [lia|]. split; [done|]. unfold byte. rewrite Hs2. done.
  - pose proof (smem_alloc_eq m _ size Hok ltac:(lia)) as Hal.
    destruct (first_fit (need size) (b1 ++ (n, true) :: b2)) as [[bs' off]|] eqn:Ef.
    2:{ rewrite Hal. destruct (Z.ltb_spec 0 size); [done|lia]. }
    destruct Hal as (m1 & -> & Hok1 & Hby1 & _). destruct (first_fit_split _ _ _ _ Ef) as (c1 & j & c2 & Ebs & -> & Hj & ->).
    destruct (live_taken 0 c1 j c2 (need size)) as (k & _ & Hlt & Hk). specialize (Hk Hj). cbn [Z.add] in Hlt.
    set (pn := tot c1 + 16) in *. set (bs1 := c1 ++ taken_blocks (need size) j c2) in *.
    rewrite <- Ebs, Hrest in Hlt. set (rest := live 0 b1 ++ _) in *.
    set (cnt := if n <? size then n else size). set (m2 := copy_bytes pn p cnt m1).
    assert (Hok2 : smem_ok m2 bs1) by (destruct Hok1; split; [by apply laid_bytes|done]).
    assert (Hin : (p, n) ∈ live 0 bs1) by (rewrite Hlt; right; left).
    destruct (smem_free_live m2 bs1 p n Hok2 Hin) as (H3 & H4 & H5). eexists _, rest, k. split; [exact H3|]. split; [done|].
    split. { apply (Permutation_cons_inv (a := (p, n))). rewrite <- H5, Hlt. apply Permutation_swap. }
    assert (Hneed : size <= need size) by (unfold need; destruct (RT_ALIGN_range size ltac:(lia)) as [_ ?]; unfold size in *; lia).
    split; [lia|]. split; [unfold size in *; lia|].
    assert (Haway : forall q i, (q, i) ∈ live 0 (b1 ++ (n, true) :: b2) -> q + i <= pn \/ pn + j <= q).
    { intros q i Hq. rewrite Ebs, live_app in Hq. cbn in Hq. pose proof (ld_sized _ _ H) as Hsd. rewrite Ebs in Hsd.
      pose proof (live_around c1 j false c2 q i Hsd Hq). unfold HDR, pn in *. lia. }
    assert (Hby : forall q, byte (rt_smem_free m2 (Some p)) q = if decide (pn <= q < pn + cnt) then byte m (p + (q - pn)) else byte m q).
    { intros q. unfold byte at 1. rewrite H4. fold (byte m2 q). unfold m2. rewrite byte_copy. unfold byte. by rewrite Hby1. }
    assert (Hcnt : cnt = Z.min n size) by (unfold cnt; destruct (Z.ltb_spec n size); lia).
    split.
    + intros i Hi. rewrite Hby, decide_True by (unfold pn, HDR; lia). f_equal. unfold pn, HDR. lia.
    + intros q i' i Hq Hi. rewrite Hby. rewrite decide_False; [done|].
      assert (Hq' : (q, i') ∈ live 0 (b1 ++ (n, true) :: b2)) by (rewrite Hrest; by right). specialize (Haway q i' Hq'). lia.
Qed.

(** ** A fresh heap *)
Lemma RT_ALIGN_small x : 0 <= x <= 2 ^ 32 - 8 -> exists d, RT_ALIGN x RT_ALIGN_SIZE = x + d /\ 0 <= d < 8.
Proof.
  intros H. rewrite RT_ALIGN_8 by lia. exists ((x + 7) / 8 * 8 - x). pose proof (Z.div_mod (x + 7) 8 ltac:(lia)).
  pose proof (Z.mod_pos_bound (x + 7) 8 ltac:(lia)). lia.
Qed.
Lemma smem_init_ok {O} `{EqDecision O} `{!Countable O} (o : O) name begin_addr size (s s' : ostate O) m :
  0 <= begin_addr -> 0 <= size -> begin_addr + size < 2 ^ 32 - 128 ->
  rt_smem_init o name begin_addr size s = (s', Some m) ->
  smem_ok m [(mem_size_aligned m, false)] /\ (8 | heap_ptr m) /\ begin_addr + SIZEOF_SMALL_MEM <= heap_ptr m /\
  heap_ptr m + heap_end m + HDR <= begin_addr + size.
Proof.
  intros Hb Hs Hbs. unfold rt_smem_init. change SIZEOF_STRUCT_MEM with 16. change SIZEOF_SMALL_MEM with 56.
  destruct (RT_ALIGN_small begin_addr ltac:(lia)) as (d & Ed & Hd). rewrite Ed.
  unfold u32. rewrite (Z.mod_small (begin_addr + d + 56)), (Z.mod_small (begin_addr + size)) by lia.
  pose proof (RT_ALIGN_divide (begin_addr + d + 56)) as Hdv.
  destruct (RT_ALIGN_small (begin_addr + d + 56) ltac:(lia)) as (e & Ee & He). rewrite Ee in *.
  rewrite RT_ALIGN_DOWN_8. pose proof (Z.div_mod (begin_addr + size) 8 ltac:(lia)) as Hdm.
  pose proof (Z.mod_pos_bound (begin_addr + size) 8 ltac:(lia)) as Hmb. set (ea := (begin_addr + size) / 8 * 8) in *.
  assert (Hea : ea <= begin_addr + size < ea + 8) by lia. assert (Hdvea : (8 | ea)) by (exists ((begin_addr + size) / 8); done).
  clearbody ea. destruct ((2 * 16 <? ea) && (begin_addr + d + 56 <=? ea - 2 * 16)) eqn:E; [|done].
  apply andb_true_iff in E as [_ E%Z.leb_le].
  assert (Hge : begin_addr + d + 56 + e <= ea - 32).
  { destruct Hdv as [x Hx], Hdvea as [y Hy]. lia. }
  set (ms := (ea - (begin_addr + d + 56 + e) - 2 * 16) mod 2 ^ 32).
  assert (Hms : ms = ea - (begin_addr + d + 56 + e) - 32) by (apply Z.mod_small; lia). clearbody ms.
  rewrite (Z.mod_small (ms + 16)) by lia. intros [= _ <-]. cbn [mem_size_aligned heap_ptr heap_end set_item with_items].
  assert (H8 : (8 | ms)) by (rewrite Hms; apply Z.divide_sub_r; [by apply Z.divide_sub_r|exists 4; lia]).
  unfold HDR. split; [|split; [done|]; lia].
  split; [|done]. constructor; cbn; unfold HDR; try lia; try done.
  - rewrite lookup_insert_ne, lookup_insert_eq by lia. split; [|done]. do 2 f_equal. unfold HDR. lia.
  - rewrite lookup_insert_eq. by eexists.
  - repeat constructor; cbn; try lia. done.
Qed.

(** A heap of 512 bytes, and the blocks of it that are taken next. *)
Definition heap0 : rt_small_mem :=
  default (SmallMem 0 0 ∅ ∅ 0 0 0 0 0 0) (snd (rt_smem_init 0%nat [104] 0x20000000 512 (OState ∅ ∅))).
Definition heap1 : rt_small_mem := fst (rt_smem_alloc heap0 100).
Lemma heap0_ok : smem_ok heap0 [(424, false)].
Proof.
  assert (E : exists s', rt_smem_init 0%nat [104] 0x20000000 512 (OState ∅ ∅) = (s', Some heap0)) by (eexists; vm_compute; reflexivity).
  destruct E as [s' E]. apply smem_init_ok in E as (H & _); [|lia..]. exact H.
Qed.
Lemma heap1_ok : smem_ok heap1 [(104, true); (304, false)].
Proof.
  pose proof (smem_alloc_eq heap0 _ 100 heap0_ok ltac:(lia)) as H.
  assert (E : first_fit (need 100) [(424, false)] = Some ([(104, true); (304, false)], 0)) by (vm_compute; reflexivity).
  rewrite E in H. destruct H as (m' & E' & H & _). unfold heap1. rewrite E'. exact H.
Qed.

Lemma rt_smem_free_spec_witness :
  free_at 0 [(104, true); (304, false)] = [(424, false)] /\ smem_ok (rt_smem_free heap1 (Some 16)) [(424, false)].
Proof.
  assert (E : free_at 0 [(104, true); (304, false)] = [(424, false)]) by (vm_compute; reflexivity). split; [exact E|].
  destruct (rt_smem_free_spec heap1 [(104, true); (304, false)] 16 104 heap1_ok) as (bs' & H & -> & _); [left|].
  change (16 - HDR) with 0 in H. rewrite E in H. exact H.
Defined.
Lemma rt_smem_alloc_free_witness :
  exists m', rt_smem_alloc heap1 20 = (m', Some 136) /\ smem_ok (rt_smem_free m' (Some 136)) [(104, true); (304, false)].
Proof.
  assert (E : exists m', rt_smem_alloc heap1 20 = (m', Some 136)) by (eexists; vm_compute; reflexivity).
  destruct E as [m' E]. exists m'. split; [exact E|].
  destruct (rt_smem_alloc_free heap1 m' [(104, true); (304, false)] 20 136 heap1_ok ltac:(lia) E) as [H _]. exact H.
Defined.
Lemma rt_smem_realloc_spec_witness :
  exists m', rt_smem_realloc heap1 (Some 16) 150 = (m', Some 136) /\
    exists bs' k, smem_ok m' bs' /\ live 0 bs' ≡ₚ [(136, k)] /\ 150 <= k.
Proof.
  assert (E : exists m', rt_smem_realloc heap1 (Some 16) 150 = (m', Some 136)) by (eexists; vm_compute; reflexivity).
  destruct E as [m' E]. exists m'. split; [exact E|].
  pose proof (rt_smem_realloc_spec heap1 [(104, true); (304, false)] 16 104 150 heap1_ok) as H. cbv zeta in H. rewrite E in H.
  destruct H as (bs' & rest & k & H1 & H2 & H3 & H4 & _); [left|lia|]. exists bs', k. split; [exact H1|].
  cbn in H2. apply Permutation_cons_inv in H2. apply Permutation_nil_l in H2. subst rest. split; [exact H3|exact H4].
Defined.
(** The alignment of a size in the last word before the end wraps to 0: the caller
    gets a block of the smallest size. *)
Lemma alloc_size_wraps : exists m', rt_smem_alloc heap0 0xFFFFFFFA = (m', Some 16) /\ smem_ok m' [(16, true); (392, false)].
Proof.
  pose proof (smem_alloc_eq heap0 _ 0xFFFFFFFA heap0_ok ltac:(lia)) as H.
  assert (E : first_fit (need 0xFFFFFFFA) [(424, false)] = Some ([(16, true); (392, false)], 0)) by (vm_compute; reflexivity).
  rewrite E in H. destruct H as (m' & E' & H & _). by exists m'.
Qed.
