(* ===== verification/KString.v ===== *)
(** * Memory and string routines ([src/rt-thread/src/klibc/kstring.c])

    Memory is a map from addresses to bytes; reads outside it give 0, so that a
    string always ends.  [rt_memset] and [rt_memcpy] work on words where they can:
    a word is four bytes, read before it is written.  [char] is unsigned, as on
    the board. *)
From S2P Require Import Prelude Object.

Abbreviation bmem := (gmap Z Z).
Definition rd (m : bmem) (p : Z) : Z := default 0 (m !! p).
Definition wr (m : bmem) (p v : Z) : bmem := <[p := v]> m.
(** [*(long * )p] and its assignment, little endian. *)
Definition rd_word (m : bmem) (p : Z) : list Z := [rd m p; rd m (p + 1); rd m (p + 2); rd m (p + 3)].
Definition wr_word (m : bmem) (p : Z) (w : list Z) : bmem :=
  foldl (fun m ib => wr m (p + Z.of_nat ib.1) ib.2) m (zip (seq 0 4) w).
Definition WORD : Z := 4.
Definition UNALIGNED (x : Z) : bool := negb (Z.land x (WORD - 1) =? 0).

(** ** rt_memset *)
Fixpoint memset_bytes (n : nat) (d : Z) (p : Z) (m : bmem) : bmem :=
  match n with O => m | S k => memset_bytes k d (p + 1) (wr m p d) end.
(** [while (count >= 4 * words)]: stores of [words] words. *)
Fixpoint memset_words (fuel words : nat) (d p count : Z) (m : bmem) : bmem * Z * Z :=
  match fuel with
  | O => (m, p, count)
  | S f =>
      if WORD * Z.of_nat words <=? count then
        let m := foldl (fun m i => wr_word m (p + WORD * Z.of_nat i) [d; d; d; d]) m (seq 0 words) in
        memset_words f words d (p + WORD * Z.of_nat words) (count - WORD * Z.of_nat words) m
      else (m, p, count)
  end.
Definition rt_memset (m : bmem) (s c count : Z) : bmem :=
  let d := Z.land (u32 c) 0xFF in
  let '(m, p, count) :=
    if negb (count <? WORD) && negb (UNALIGNED s) then
      let fuel := Z.to_nat count in
      let '(m, p, count) := memset_words fuel 4 d s count m in
      memset_words fuel 1 d p count m
    else (m, s, count) in
  memset_bytes (Z.to_nat count) d p m.

(** ** rt_memcpy and rt_memmove *)
Fixpoint memcpy_bytes (n : nat) (dst src : Z) (m : bmem) : bmem :=
  match n with O => m | S k => memcpy_bytes k (dst + 1) (src + 1) (wr m dst (rd m src)) end.
Fixpoint memcpy_words (fuel words : nat) (dst src len : Z) (m : bmem) : bmem * Z * Z * Z :=
  match fuel with
  | O => (m, dst, src, len)
  | S f =>
      if WORD * Z.of_nat words <=? len then
        let m := foldl (fun m i => wr_word m (dst + WORD * Z.of_nat i) (rd_word m (src + WORD * Z.of_nat i))) m (seq 0 words) in
        memcpy_words f words (dst + WORD * Z.of_nat words) (src + WORD * Z.of_nat words) (len - WORD * Z.of_nat words) m
      else (m, dst, src, len)
  end.
Definition rt_memcpy (m : bmem) (dst src count : Z) : bmem :=
  let '(m, d, s, len) :=
    if negb (count <? 4 * WORD) && negb (UNALIGNED src || UNALIGNED dst) then
      let fuel := Z.to_nat count in
      let '(m, d, s, len) := memcpy_words fuel 4 dst src count m in
      memcpy_words fuel 1 d s len m
    else (m, dst, src, count) in
  memcpy_bytes (Z.to_nat len) d s m.

(** From the ends downwards: [dst] and [src] point behind the last byte. *)
Fixpoint memmove_down (n : nat) (dst src : Z) (m : bmem) : bmem :=
  match n with O => m | S k => memmove_down k (dst - 1) (src - 1) (wr m (dst - 1) (rd m (src - 1))) end.
Definition rt_memmove (m : bmem) (dest src n : Z) : bmem :=
  if (src <? dest) && (dest <? src + n) then memmove_down (Z.to_nat n) (dest + n) (src + n) m
  else memcpy_bytes (Z.to_nat n) dest src m.

Fixpoint memcmp_loop (count : nat) (m : bmem) (cs ct : Z) : Z :=
  match count with
  | O => 0
  | S k => let res := rd m cs - rd m ct in if negb (res =? 0) then res else memcmp_loop k m (cs + 1) (ct + 1)
  end.
Definition rt_memcmp (m : bmem) (cs ct count : Z) : Z := memcmp_loop (Z.to_nat count) m cs ct.

(** ** Strings

    The loops run to a terminator; [fuel] bounds the bytes looked at. *)
Fixpoint rt_strlen (fuel : nat) (m : bmem) (s : Z) : option Z :=
  match fuel with
  | O => None
  | S f => if rd m s =? 0 then Some 0 else Z.succ <$> rt_strlen f m (s + 1)
  end.
Fixpoint strnlen_loop (fuel : nat) (m : bmem) (s sc maxlen : Z) : Z :=
  match fuel with
  | O => sc - s
  | S f => if negb (rd m sc =? 0) && (sc - s <? maxlen) then strnlen_loop f m s (sc + 1) maxlen else sc - s
  end.
Definition rt_strnlen (m : bmem) (s maxlen : Z) : Z := strnlen_loop (S (Z.to_nat maxlen)) m s s maxlen.

(** The do-while loop of [rt_strncpy], [n] bytes left; after the terminator
    [memset_bytes] pads. *)
Fixpoint strncpy_loop (n : nat) (m : bmem) (d s : Z) : bmem :=
  match n with
  | O => m
  | S k =>
      let c := rd m s in
      let m := wr m d c in
      if c =? 0 then memset_bytes k 0 (d + 1) m else strncpy_loop k m (d + 1) (s + 1)
  end.
Definition rt_strncpy (m : bmem) (dst src n : Z) : bmem :=
  if negb (n =? 0) then strncpy_loop (Z.to_nat n) m dst src else m.
Fixpoint rt_strcpy (fuel : nat) (m : bmem) (dst src : Z) : option bmem :=
  match fuel with
  | O => None
  | S f => if rd m src =? 0 then Some (wr m dst 0) else rt_strcpy f (wr m dst (rd m src)) (dst + 1) (src + 1)
  end.

Fixpoint rt_strncmp (count : nat) (m : bmem) (cs ct : Z) : Z :=
  match count with
  | O => 0
  | S k =>
      let res := i8 (rd m cs - rd m ct) in
      if negb (res =? 0) || (rd m cs =? 0) then res
      else rt_strncmp k m (cs + 1) (ct + 1)
  end.
Fixpoint rt_strcmp (fuel : nat) (m : bmem) (cs ct : Z) : option Z :=
  match fuel with
  | O => None
  | S f => if negb (rd m cs =? 0) && (rd m cs =? rd m ct) then rt_strcmp f m (cs + 1) (ct + 1)
           else Some (rd m cs - rd m ct)
  end.
(** Letters in lower case. *)
Definition lower (c : Z) : Z := if (65 <=? c) && (c <=? 90) then c + 32 else c.
Fixpoint rt_strcasecmp (fuel : nat) (m : bmem) (a b : Z) : option Z :=
  match fuel with
  | O => None
  | S f =>
      let ca := lower (Z.land (rd m a) 0xFF) in
      let cb := lower (Z.land (rd m b) 0xFF) in
      if (ca =? cb) && negb (ca =? 0) then rt_strcasecmp f m (a + 1) (b + 1) else Some (ca - cb)
  end.
(** The loop of [rt_strstr], [l1] bytes of [s1] left. *)
Fixpoint strstr_loop (fuel : nat) (m : bmem) (s1 s2 l1 l2 : Z) : option Z :=
  match fuel with
  | O => None
  | S f =>
      if l2 <=? l1 then
        if rt_memcmp m s1 s2 l2 =? 0 then Some s1 else strstr_loop f m (s1 + 1) s2 (l1 - 1) l2
      else None
  end.
Definition rt_strstr (fuel : nat) (m : bmem) (s1 s2 : Z) : option (option Z) :=
  match rt_strlen fuel m s2 with
  | None => None
  | Some l2 =>
      if l2 =? 0 then Some (Some s1)
      else match rt_strlen fuel m s1 with
           | None => None
           | Some l1 => Some (strstr_loop (S (Z.to_nat l1)) m s1 s2 l1 l2)
           end
  end.
(** [alloc] is what [rt_malloc] returns for a size. *)
Definition rt_strdup (fuel : nat) (alloc : Z -> option Z) (m : bmem) (s : Z) : option (bmem * option Z) :=
  match rt_strlen fuel m s with
  | None => None
  | Some l =>
      match alloc (l + 1) with
      | None => Some (m, None)
      | Some tmp => Some (rt_memcpy m tmp s (l + 1), Some tmp)
      end
  end.

(** ** The memory routines, byte by byte *)
Lemma rd_wr m p v q : rd (wr m p v) q = if decide (p = q) then v else rd m q.
Proof. unfold rd, wr. rewrite lookup_insert. by case_decide. Qed.
Lemma rd_wr_word m p a b c d q :
  rd (wr_word m p [a; b; c; d]) q =
    if decide (q = p) then a else if decide (q = p + 1) then b else if decide (q = p + 2) then c
    else if decide (q = p + 3) then d else rd m q.
Proof.
  unfold wr_word. cbn [zip zip_with seq foldl fst snd]. rewrite !rd_wr.
  change (Z.of_nat 0) with 0. change (Z.of_nat 1) with 1. change (Z.of_nat 2) with 2. change (Z.of_nat 3) with 3.
  repeat case_decide; try done; lia.
Qed.
Lemma memset_bytes_spec n d : forall p m q,
  rd (memset_bytes n d p m) q = if decide (p <= q < p + Z.of_nat n) then d else rd m q.
Proof.
  induction n as [|n IH]; intros p m q; cbn [memset_bytes]; [by rewrite decide_False by lia|].
  rewrite IH, rd_wr. repeat case_decide; try done; lia.
Qed.
Lemma memset_row words d p m q :
  rd (foldl (fun m i => wr_word m (p + WORD * Z.of_nat i) [d; d; d; d]) m (seq 0 words)) q =
    if decide (p <= q < p + WORD * Z.of_nat words) then d else rd m q.
Proof.
  unfold WORD. induction words as [|w IH]; [by rewrite decide_False by lia|].
  rewrite seq_S, foldl_app. cbn [foldl]. rewrite rd_wr_word, IH. repeat case_decide; try done; lia.
Qed.
Lemma memset_words_spec fuel words d : (0 < words)%nat -> forall p count m m' p' c',
  0 <= count -> memset_words fuel words d p count m = (m', p', c') ->
  p + count = p' + c' /\ 0 <= c' <= count /\ (forall q, rd m' q = if decide (p <= q < p') then d else rd m q).
Proof.
  intros Hw. induction fuel as [|f IH]; intros p count m m' p' c' Hc; cbn [memset_words].
  - intros [= <- <- <-]. split; [done|]. split; [lia|]. intros q. by rewrite decide_False by lia.
  - destruct (Z.leb_spec (WORD * Z.of_nat words) count).
    + intros E. apply IH in E as (H1 & H2 & H3); [|unfold WORD in *; lia]. unfold WORD in *. split; [lia|]. split; [lia|].
      intros q. rewrite H3. pose proof (memset_row words d p m q) as Hrow. unfold WORD in Hrow. rewrite Hrow.
      repeat case_decide; try done; lia.
    + intros [= <- <- <-]. split; [done|]. split; [lia|]. intros q. by rewrite decide_False by lia.
Qed.

Lemma memcpy_bytes_spec n : forall dst src m q,
  dst <= src \/ src + Z.of_nat n <= dst ->
  rd (memcpy_bytes n dst src m) q = if decide (dst <= q < dst + Z.of_nat n) then rd m (src + (q - dst)) else rd m q.
Proof.
  induction n as [|n IH]; intros dst src m q Hov; cbn [memcpy_bytes]; [by rewrite decide_False by lia|].
  rewrite IH by lia. rewrite !rd_wr. repeat case_decide; try done; try lia; try (f_equal; lia).
Qed.
Lemma memmove_down_spec n : forall dst src m q,
  src <= dst ->
  rd (memmove_down n dst src m) q = if decide (dst - Z.of_nat n <= q < dst) then rd m (src + (q - dst)) else rd m q.
Proof.
  induction n as [|n IH]; intros dst src m q Hov; cbn [memmove_down]; [by rewrite decide_False by lia|].
  rewrite IH by lia. rewrite !rd_wr. repeat case_decide; try done; try lia; try (f_equal; lia).
Qed.
(** Words that do not overlap. *)
Lemma memcpy_row words dst src m q :
  dst + WORD * Z.of_nat words <= src \/ src + WORD * Z.of_nat words <= dst ->
  rd (foldl (fun m i => wr_word m (dst + WORD * Z.of_nat i) (rd_word m (src + WORD * Z.of_nat i))) m (seq 0 words)) q =
    if decide (dst <= q < dst + WORD * Z.of_nat words) then rd m (src + (q - dst)) else rd m q.
Proof.
  unfold WORD. induction words as [|w IH] in q |- *; intros Hov; [by rewrite decide_False by lia|].
  rewrite seq_S, foldl_app. cbn [foldl]. unfold rd_word. rewrite rd_wr_word, !IH by lia.
  repeat case_decide; try done; try lia; f_equal; lia.
Qed.
Lemma memcpy_words_spec fuel words : (0 < words)%nat -> forall dst src len m m' d' s' l',
  0 <= len -> dst + len <= src \/ src + len <= dst -> memcpy_words fuel words dst src len m = (m', d', s', l') ->
  d' + l' = dst + len /\ s' + l' = src + len /\ 0 <= l' <= len /\
  (forall q, rd m' q = if decide (dst <= q < d') then rd m (src + (q - dst)) else rd m q).
Proof.
  intros Hw. induction fuel as [|f IH]; intros dst src len m m' d' s' l' Hl Hov; cbn [memcpy_words].
  - intros [= <- <- <- <-]. split; [done|]. split; [done|]. split; [lia|]. intros q. by rewrite decide_False by lia.
  - destruct (Z.leb_spec (WORD * Z.of_nat words) len).
    + intros E. apply IH in E as (H1 & H2 & H3 & H4); [|unfold WORD in *; lia|unfold WORD in *; lia]. unfold WORD in *.
      split; [lia|]. split; [lia|]. split; [lia|].
      intros q. rewrite H4. assert (Hrow := fun q => memcpy_row words dst src m q). unfold WORD in Hrow. rewrite !Hrow by lia.
      repeat case_decide; try done; try lia; f_equal; lia.
    + intros [= <- <- <- <-]. split; [done|]. split; [done|]. split; [lia|]. intros q. by rewrite decide_False by lia.
Qed.

(** C40: the routines that work on words do what their byte loops would: [rt_memset]
    fills the bytes of its range with the low byte of its argument, [rt_memcpy]
    copies a range to one that it does not overlap, [rt_memmove] to any range; no
    other byte of the memory changes. *)
Theorem memory_routines_bytewise (m : bmem) (dst src c n : Z) (Hn : 0 <= n) :
  (forall q, rd (rt_memset m dst c n) q = if decide (dst <= q < dst + n) then c mod 256 else rd m q) /\
  (dst + n <= src \/ src + n <= dst ->
   forall q, rd (rt_memcpy m dst src n) q = if decide (dst <= q < dst + n) then rd m (src + (q - dst)) else rd m q) /\
  (forall q, rd (rt_memmove m dst src n) q = if decide (dst <= q < dst + n) then rd m (src + (q - dst)) else rd m q).
Proof.
  split; [|split].
  - intros q. unfold rt_memset. assert (Ed : Z.land (u32 c) 0xFF = c mod 256).
    { change 0xFF with (Z.ones 8). rewrite Z.land_ones by lia. unfold u32. change (2 ^ 8) with 256.
      rewrite <- (Znumtheory.Zmod_div_mod 256 (2 ^ 32) c); [done|lia|lia|]. exists (2 ^ 24). done. }
    rewrite Ed. destruct (negb (n <? WORD) && negb (UNALIGNED dst)).
    + destruct (memset_words (Z.to_nat n) 4 (c mod 256) dst n m) as [[m1 p1] c1] eqn:E1.
      apply memset_words_spec in E1 as (H1 & H2 & H3); [|lia|done].
      destruct (memset_words (Z.to_nat n) 1 (c mod 256) p1 c1 m1) as [[m2 p2] c2] eqn:E2.
      apply memset_words_spec in E2 as (H4 & H5 & H6); [|lia|lia].
      rewrite memset_bytes_spec, H6, H3. repeat case_decide; try done; lia.
    + rewrite memset_bytes_spec. repeat case_decide; try done; lia.
  - intros Hov q. unfold rt_memcpy. destruct (negb (n <? 4 * WORD) && _).
    + destruct (memcpy_words (Z.to_nat n) 4 dst src n m) as [[[m1 d1] s1] l1] eqn:E1.
      apply memcpy_words_spec in E1 as (H1 & H2 & H3 & H4); [|lia|done|done].
      destruct (memcpy_words (Z.to_nat n) 1 d1 s1 l1 m1) as [[[m2 d2] s2] l2] eqn:E2.
      apply memcpy_words_spec in E2 as (H5 & H6 & H7 & H8); [|lia|lia|lia].
      rewrite memcpy_bytes_spec by lia. rewrite !H8, !H4. repeat case_decide; try done; try lia; f_equal; lia.
    + rewrite memcpy_bytes_spec by lia. repeat case_decide; try done; lia.
  - intros q. unfold rt_memmove. destruct (Z.ltb_spec src dst), (Z.ltb_spec dst (src + n)); cbn [andb].
    2-4: rewrite memcpy_bytes_spec by lia; repeat case_decide; try done; lia.
    rewrite memmove_down_spec by lia. repeat case_decide; try done; try lia; f_equal; lia.
Qed.
(** Copying a block over its own tail, word aligned copying, and filling. *)
Definition mem0 : bmem := wr_word (wr_word ∅ 0x1000 [1; 2; 3; 4]) 0x1004 [5; 6; 7; 8].
Lemma memory_routines_bytewise_witness :
  rd (rt_memmove mem0 0x1002 0x1000 6) 0x1007 = 6 /\ rd (rt_memcpy mem0 0x2000 0x1000 17) 0x2005 = 6 /\
  rd (rt_memset mem0 0x1000 0x1FF 6) 0x1005 = 255.
Proof.
  destruct (memory_routines_bytewise mem0 0x1002 0x1000 0 6 ltac:(lia)) as (_ & _ & H1).
  destruct (memory_routines_bytewise mem0 0x2000 0x1000 0 17 ltac:(lia)) as (_ & H2 & _).
  destruct (memory_routines_bytewise mem0 0x1000 0 0x1FF 6 ltac:(lia)) as (H3 & _).
  split; [rewrite H1; vm_compute; reflexivity|]. split; [rewrite H2 by lia; vm_compute; reflexivity|].
  rewrite H3. vm_compute. reflexivity.
Defined.

(** ** Strings

    [cstr m p l]: at [p] stands the string of the bytes [l]. *)
Record cstr (m : bmem) (p : Z) (l : list Z) : Prop := {
  cs_bytes : forall i c, l !! i = Some c -> rd m (p + Z.of_nat i) = c /\ c <> 0;
  cs_end : rd m (p + Z.of_nat (length l)) = 0;
}.
Lemma cstr_nil m p : cstr m p [] <-> rd m p = 0.
Proof.
  split; [intros [_ H]; by rewrite Z.add_0_r in H|]. intros H. constructor; [done|]. by rewrite Z.add_0_r.
Qed.
Lemma cstr_cons m p c l : cstr m p (c :: l) <-> rd m p = c /\ c <> 0 /\ cstr m (p + 1) l.
Proof.
  split.
  - intros [H1 H2]. destruct (H1 0%nat c eq_refl) as [H3 H4]. rewrite Z.add_0_r in H3. split; [done|]. split; [done|].
    constructor.
    + intros i d Hi. destruct (H1 (S i) d Hi) as [<- H5]. split; [f_equal; lia|done].
    + rewrite <- H2. f_equal. simpl length. lia.
  - intros (H1 & H2 & [H3 H4]). constructor.
    + intros [|i] d; cbn; [intros [= <-]; by rewrite Z.add_0_r|]. intros Hi. destruct (H3 i d Hi) as [<- ?]. split; [f_equal; lia|done].
    + rewrite <- H4. f_equal. simpl length. lia.
Qed.
Lemma cstr_hd m p l : cstr m p l -> rd m p = hd 0 l.
Proof. destruct l; [by intros ?%cstr_nil|by intros [? _]%cstr_cons]. Qed.
Lemma cstr_zero m p l : cstr m p l -> rd m p = 0 <-> l = [].
Proof. destruct l; [by intros ->%cstr_nil|]. intros (-> & H & _)%cstr_cons. split; [done|congruence]. Qed.
Lemma cstr_tl m p l : cstr m p l -> rd m p <> 0 -> cstr m (p + 1) (tl l).
Proof. destruct l; [by intros ?%cstr_nil|by intros (_ & _ & ?)%cstr_cons]. Qed.

Lemma rt_strlen_spec l : forall fuel m p, cstr m p l -> (length l < fuel)%nat -> rt_strlen fuel m p = Some (Z.of_nat (length l)).
Proof.
  induction l as [|c l IH]; intros [|fuel] m p; cbn [length]; try lia; cbn [rt_strlen].
  - intros ->%cstr_nil _. done.
  - intros (-> & Hc & H)%cstr_cons Hf. destruct (Z.eqb_spec c 0); [done|]. rewrite (IH fuel) by (done || lia). cbn. f_equal. lia.
Qed.
Definition bytes_ok (l : list Z) : Prop := Forall (fun c => 0 <= c < 256) l.
Lemma hd_range l : bytes_ok l -> 0 <= hd 0 l < 256.
Proof. destruct 1; cbn; lia. Qed.
Lemma tl_ok l : bytes_ok l -> bytes_ok (tl l).
Proof. destruct 1; [constructor|done]. Qed.
Lemma i8_zero x : -255 <= x <= 255 -> i8 x = 0 <-> x = 0.
Proof.
  intros H. unfold i8. change (2 ^ 7) with 128. change (2 ^ 8) with 256. pose proof (Z.div_mod (x + 128) 256 ltac:(lia)).
  pose proof (Z.mod_pos_bound (x + 128) 256 ltac:(lia)). lia.
Qed.
(** On strings in memory [rt_strncmp] and [rt_strncpy] are the functions on byte
    sequences that the object names use. *)
Lemma rt_strncmp_spec n : forall m p q l1 l2, cstr m p l1 -> cstr m q l2 -> bytes_ok l1 -> bytes_ok l2 ->
  rt_strncmp n m p q = strncmp_bytes l1 l2 n.
Proof.
  induction n as [|n IH]; intros m p q l1 l2 H1 H2 B1 B2; [done|]. cbn [rt_strncmp strncmp_bytes].
  pose proof (hd_range _ B1) as R1. pose proof (hd_range _ B2) as R2.
  rewrite (cstr_hd m p l1 H1), (cstr_hd m q l2 H2). destruct (negb _ || _) eqn:E; [done|].
  apply orb_false_iff in E as [E1%negb_false_iff%Z.eqb_eq E2%Z.eqb_neq]. assert (E3 : hd 0 l1 - hd 0 l2 = 0) by (apply i8_zero; [lia|done]).
  apply IH; [apply cstr_tl; [done|by rewrite (cstr_hd m p l1 H1)]| |by apply tl_ok|by apply tl_ok].
  apply cstr_tl; [done|]. rewrite (cstr_hd m q l2 H2). lia.
Qed.
Lemma rt_strcmp_spec l1 : forall fuel m p q l2, cstr m p l1 -> cstr m q l2 -> bytes_ok l1 -> bytes_ok l2 -> (length l1 < fuel)%nat ->
  exists r, rt_strcmp fuel m p q = Some r /\ (r = 0 <-> l1 = l2).
Proof.
  induction l1 as [|c l1 IH]; intros [|fuel] m p q l2 H1 H2 B1 B2; cbn [length]; try lia; intros Hf; cbn [rt_strcmp].
  - rewrite (cstr_hd m p [] H1). cbn. eexists. split; [done|]. rewrite (cstr_hd m q l2 H2).
    destruct l2 as [|d l2]; [done|]. apply cstr_cons in H2 as (_ & Hd & _). cbn. split; [lia|done].
  - apply cstr_cons in H1 as (-> & Hc & H1). destruct (Z.eqb_spec c 0); [done|]. cbn [negb andb].
    destruct (Z.eqb_spec c (rd m q)) as [E|E].
    + destruct l2 as [|d l2]; [apply cstr_nil in H2; congruence|]. apply cstr_cons in H2 as (Eq & Hd & H2).
      inversion B1; subst. inversion B2; subst. destruct (IH fuel m (p + 1) (q + 1) l2) as (r & -> & Hr); try done; [lia|].
      exists r. split; [done|]. rewrite Hr. split; [congruence|by intros [= ->]].
    + eexists. split; [done|]. split; [lia|]. intros <-. apply cstr_cons in H2 as (Eq & _). congruence.
Qed.
Lemma strncpy_loop_spec n : forall m d s l q, cstr m s l -> d + Z.of_nat n <= s \/ s + Z.of_nat (length l) < d ->
  rd (strncpy_loop n m d s) q = if decide (d <= q < d + Z.of_nat n) then default 0 (l !! Z.to_nat (q - d)) else rd m q.
Proof.
  induction n as [|n IH]; intros m d s l q Hs Hov; cbn [strncpy_loop]; [by rewrite decide_False by lia|].
  rewrite (cstr_hd m s l Hs). destruct l as [|c l]; cbn [hd].
  - destruct (Z.eqb_spec 0 0); [|done]. rewrite memset_bytes_spec, rd_wr. repeat case_decide; try done; try lia.
  - pose proof Hs as (Hc & Hnz & Hs')%cstr_cons. destruct (Z.eqb_spec c 0); [done|]. cbn [length] in Hov.
    assert (Hs2 : cstr (wr m d c) (s + 1) l).
    { destruct Hs' as [Hb He]. constructor.
      - intros i x Hi. rewrite rd_wr. pose proof (lookup_lt_Some _ _ _ Hi). rewrite decide_False by lia. by apply Hb.
      - rewrite rd_wr. rewrite decide_False by lia. done. }
    rewrite (IH _ _ _ l q Hs2) by lia. rewrite rd_wr. destruct (decide (d = q)) as [<-|Hq].
    + rewrite decide_False, decide_True by lia. by rewrite Z.sub_diag.
    + repeat case_decide; try done; try lia. replace (Z.to_nat (q - d)) with (S (Z.to_nat (q - (d + 1)))) by lia. done.
Qed.
Lemma rt_strncpy_spec m d s l n i :
  cstr m s l -> d + Z.of_nat n <= s \/ s + Z.of_nat (length l) < d -> (i < n)%nat ->
  strncpy_bytes l n !! i = Some (rd (rt_strncpy m d s (Z.of_nat n)) (d + Z.of_nat i)).
Proof.
  intros Hs Hov Hi. unfold rt_strncpy. destruct (Z.eqb_spec (Z.of_nat n) 0); [lia|]. cbn [negb]. rewrite Nat2Z.id.
  rewrite (strncpy_loop_spec n m d s l) by done. rewrite decide_True by lia. replace (Z.to_nat (d + Z.of_nat i - d)) with i by lia.
  unfold strncpy_bytes. rewrite lookup_take_lt by done. destruct (decide (i < length l)%nat).
  - rewrite lookup_app_l by done. by destruct (lookup_lt_is_Some_2 l i) as [x ->].
  - rewrite lookup_app_r by lia. rewrite (lookup_ge_None_2 l) by lia. assert (Er : repeat 0 n = replicate n 0) by (clear; induction n; cbn; congruence). rewrite Er.
    by rewrite lookup_replicate_2 by lia.
Qed.
(** Bytes that differ by more than 127 compare the wrong way round: [signed char]
    cannot hold the difference. *)
Lemma rt_strncmp_sign :
  let m := wr (wr ∅ 0 200) 2 1 in rt_strncmp 8 m 0 2 = -57 /\ rt_strcmp 8 m 0 2 = Some 199.
Proof. vm_compute. done. Qed.
