(* ===== verification/KStdio.v ===== *)
(** * Formatted output ([src/rt-thread/src/klibc/kstdio.c])

    [rt_vsnprintf] and its callers, without [RT_KPRINTF_USING_LONGLONG].  The text
    is written at a position that goes on behind the end of the buffer, where
    nothing is stored.  The position does not wrap: a text that ends beyond the
    last address is undefined in C.  A run is undefined ([None]) when an argument
    of another type than the next one is read, or when the fuel of the loops over
    strings is less than their length. *)
From Stdlib Require Import Ascii String.
From S2P Require Import Prelude Object KString.

Definition ch (a : ascii) : Z := Z.of_N (N_of_ascii a).
Arguments ch _%_char_scope.
Definition codes (s : string) : list Z := map ch (list_ascii_of_string s).
Definition i16 (z : Z) : Z := (z + 2 ^ 15) mod 2 ^ 16 - 2 ^ 15.

Definition ZEROPAD : Z := 1.
Definition SIGN : Z := 2.
Definition PLUS : Z := 4.
Definition SPACE : Z := 8.
Definition LEFT : Z := 16.
Definition SPECIAL : Z := 32.
Definition LARGE : Z := 64.

(** [((unsigned)((c) - '0') < 10)] *)
Definition _ISDIGIT (c : Z) : bool := u32 (c - ch "0") <? 10.

(** ** Writing the text *)
Record output := { omem : bmem; str : Z }.
(** [if (str < end) *str = c; ++str;] *)
Definition put_char (end_ c : Z) (o : output) : output :=
  {| omem := if str o <? end_ then wr (omem o) (str o) c else omem o; str := str o + 1 |}.
Definition put_all (end_ : Z) (l : list Z) (o : output) : output := foldl (fun o c => put_char end_ c o) o l.
Fixpoint put_n (n : nat) (end_ c : Z) (o : output) : output :=
  match n with O => o | S n => put_n n end_ c (put_char end_ c o) end.
(** [while (n-- > 0) put c], with the value [n] has afterwards. *)
Definition pad (end_ c n : Z) (o : output) : output * Z := (put_n (Z.to_nat n) end_ c o, i32 (Z.min n 0 - 1)).
(** [while (--n > 0) put c] *)
Definition pad_pre (end_ c n : Z) (o : output) : output * Z := (put_n (Z.to_nat (n - 1)) end_ c o, i32 (Z.min (n - 1) 0)).
(** [while (len < n--) put c] *)
Definition pad_to (end_ c len n : Z) (o : output) : output * Z := (put_n (Z.to_nat (n - len)) end_ c o, i32 (Z.min n len - 1)).

Definition pad_if (b : bool) (end_ c n : Z) (o : output) : output * Z := if b then pad end_ c n o else (o, n).

(** ** print_number *)
Definition small_digits : list Z := codes "0123456789abcdef".
Definition large_digits : list Z := codes "0123456789ABCDEF".
(** The number divided by the base, and the remainder. *)
Definition divide (n base : Z) : Z * Z := (u32 (i32 (n / base)), n mod base).
(** [while (num != 0) tmp[i++] = digits[divide(&num, base)];], the digits in the
    order of [tmp]; 32 turns are enough for a base of 2 or more. *)
Fixpoint digit_loop (fuel : nat) (num base : Z) (digits : list Z) : list Z :=
  match fuel with
  | O => []
  | S f => if num =? 0 then []
           else let '(num', res) := divide num base in nth (Z.to_nat res) digits 0 :: digit_loop f num' base digits
  end.
(** The sign, 0 for none, and the number without it. *)
Definition get_sign (num qualifier type : Z) : Z * Z :=
  if has_flag type SIGN then
    let '(sign, num) :=
      if qualifier =? ch "h" then if i16 num <? 0 then (ch "-", u16 (- num)) else (0, num)
      else if i32 num <? 0 then (ch "-", u32 (- num)) else (0, num) in
    if negb (sign =? ch "-") then
      if has_flag type PLUS then (ch "+", num) else if has_flag type SPACE then (ch " ", num) else (sign, num)
    else (sign, num)
  else (0, num).
Definition put_sign (end_ sign size : Z) (o : output) : output * Z :=
  if negb (sign =? 0) then (put_char end_ sign o, i32 (size - 1)) else (o, size).
Definition put_prefix (end_ base type : Z) (o : output) : output :=
  if has_flag type SPECIAL then
    if base =? 2 then put_char end_ (ch "b") (put_char end_ (ch "0") o)
    else if base =? 8 then put_char end_ (ch "0") o
    else if base =? 16 then put_char end_ (if has_flag type LARGE then ch "X" else ch "x") (put_char end_ (ch "0") o)
    else o
  else o.
Definition print_number (end_ num base qualifier s precision type : Z) (o : output) : output :=
  let precision_bak := precision in
  let digits := if has_flag type LARGE then large_digits else small_digits in
  let type := if has_flag type LEFT then clear_flag type ZEROPAD else type in
  let c := if has_flag type ZEROPAD then ch "0" else ch " " in
  let '(sign, num) := get_sign num qualifier type in
  let size :=
    if has_flag type SPECIAL then
      if (base =? 2) || (base =? 16) then s - 2 else if base =? 8 then s - 1 else s
    else s in
  let tmp := if num =? 0 then [ch "0"] else digit_loop 32 num base digits in
  let i := Z.of_nat (length tmp) in
  let precision := if precision <? i then i else precision in
  let size := i32 (size - precision) in
  let to_right := negb (has_flag type (Z.lor ZEROPAD LEFT)) in
  let size := if to_right && negb (sign =? 0) && (0 <? size) then size - 1 else size in
  let '(o, size) := pad_if to_right end_ (ch " ") size o in
  let '(o, size) := put_sign end_ sign size o in
  let o := put_prefix end_ base type o in
  let '(o, size) := pad_if (negb (has_flag type LEFT)) end_ c size o in
  (* while (i < precision--) *)
  let o := put_n (Z.to_nat (precision - i)) end_ (ch "0") o in
  (* while (i-- > 0 && (precision_bak != 0)) *)
  let o := if negb (precision_bak =? 0) then put_all end_ (rev tmp) o else o in
  fst (pad end_ (ch " ") size o).

(** ** Arguments

    A word for integers and pointers, or a [double]. *)
Inductive va := Word (w : Z) | Double.
Definition va_arg (args : list va) : option (Z * list va) :=
  match args with Word w :: args => Some (w, args) | _ => None end.
Definition va_double (args : list va) : option (list va) :=
  match args with Double :: args => Some args | _ => None end.

(** ** Reading the format *)
Fixpoint skip_atoi_loop (fuel : nat) (m : bmem) (s i : Z) : option (Z * Z) :=
  match fuel with
  | O => None
  | S f => if _ISDIGIT (rd m s) then skip_atoi_loop f m (s + 1) (i32 (i * 10 + rd m s - ch "0")) else Some (s, i)
  end.
Definition skip_atoi (fuel : nat) (m : bmem) (s : Z) : option (Z * Z) := skip_atoi_loop fuel m s 0.
(** [fmt] stands before the character to look at. *)
Fixpoint flags_loop (fuel : nat) (m : bmem) (fmt flags : Z) : option (Z * Z) :=
  match fuel with
  | O => None
  | S f =>
      let fmt := fmt + 1 in
      let c := rd m fmt in
      if c =? ch "-" then flags_loop f m fmt (Z.lor flags LEFT)
      else if c =? ch "+" then flags_loop f m fmt (Z.lor flags PLUS)
      else if c =? ch " " then flags_loop f m fmt (Z.lor flags SPACE)
      else if c =? ch "#" then flags_loop f m fmt (Z.lor flags SPECIAL)
      else if c =? ch "0" then flags_loop f m fmt (Z.lor flags ZEROPAD)
      else Some (fmt, flags)
  end.
Definition get_width (fuel : nat) (m : bmem) (fmt flags : Z) (args : list va) : option (Z * Z * Z * list va) :=
  if _ISDIGIT (rd m fmt) then
    '(fmt, field_width) ← skip_atoi fuel m fmt; Some (fmt, flags, field_width, args)
  else if rd m fmt =? ch "*" then
    '(w, args) ← va_arg args;
    let field_width := i32 w in
    Some (if field_width <? 0 then (fmt + 1, Z.lor flags LEFT, i32 (- field_width), args) else (fmt + 1, flags, field_width, args))
  else Some (fmt, flags, -1, args).
Definition get_precision (fuel : nat) (m : bmem) (fmt : Z) (args : list va) : option (Z * Z * list va) :=
  if rd m fmt =? ch "." then
    let fmt := fmt + 1 in
    '(fmt, precision, args) ←
      (if _ISDIGIT (rd m fmt) then '(fmt, precision) ← skip_atoi fuel m fmt; Some (fmt, precision, args)
       else if rd m fmt =? ch "*" then '(w, args) ← va_arg args; Some (fmt + 1, i32 w, args)
       else Some (fmt, -1, args));
    Some (fmt, if precision <? 0 then 0 else precision, args)
  else Some (fmt, -1, args).
Definition get_qualifier (m : bmem) (fmt : Z) : Z * Z :=
  let c := rd m fmt in
  if (c =? ch "h") || (c =? ch "l") || (c =? ch "z") then
    if (c =? ch "h") && (rd m (fmt + 1) =? ch "h") then (fmt + 2, ch "H") else (fmt + 1, c)
  else (fmt, 0).

(** ** Conversions *)
Definition print_c (end_ flags field_width c : Z) (o : output) : output :=
  let '(o, field_width) := if negb (has_flag flags LEFT) then pad_pre end_ (ch " ") field_width o else (o, field_width) in
  let o := put_char end_ c o in
  fst (pad_pre end_ (ch " ") field_width o).
(** [s[i]], where the null pointer stands for ["(NULL)"]. *)
Definition str_at (m : bmem) (s i : Z) : Z :=
  if s =? 0 then nth (Z.to_nat i) (codes "(NULL)") 0 else rd m (s + i).
Fixpoint len_loop (fuel : nat) (m : bmem) (s len field_width : Z) : option Z :=
  match fuel with
  | O => None
  | S f => if negb (len =? field_width) && negb (str_at m s len =? 0) then len_loop f m s (len + 1) field_width else Some len
  end.
Fixpoint put_str (n : nat) (end_ s i : Z) (o : output) : output :=
  match n with O => o | S n => put_str n end_ s (i + 1) (put_char end_ (str_at (omem o) s i) o) end.
Definition print_s (fuel : nat) (end_ flags field_width precision s : Z) (o : output) : option output :=
  len ← len_loop fuel (omem o) s 0 field_width;
  let len := if (0 <? precision) && (precision <? len) then precision else len in
  let '(o, field_width) := if negb (has_flag flags LEFT) then pad_to end_ (ch " ") len field_width o else (o, field_width) in
  let o := put_str (Z.to_nat len) end_ s 0 o in
  Some (fst (pad_to end_ (ch " ") len field_width o)).
(** The base and the flags of an integer conversion. *)
Definition number_format (c flags : Z) : option (Z * Z) :=
  if c =? ch "b" then Some (2, flags)
  else if c =? ch "o" then Some (8, flags)
  else if c =? ch "X" then Some (16, Z.lor flags LARGE)
  else if c =? ch "x" then Some (16, flags)
  else if (c =? ch "d") || (c =? ch "i") then Some (10, Z.lor flags SIGN)
  else if c =? ch "u" then Some (10, flags)
  else None.
Definition is_float (c : Z) : bool := existsb (Z.eqb c) (codes "eEGgfF").
(** [num], from the argument. *)
Definition get_num (qualifier flags w : Z) : Z :=
  if qualifier =? ch "l" then u32 w
  else if qualifier =? ch "H" then
    let num := u32 (i8 w) in if has_flag flags SIGN then u32 (i8 num) else num
  else if qualifier =? ch "h" then
    let num := u16 w in if has_flag flags SIGN then u32 (i16 num) else num
  else u32 w.

(** The [switch] on the character at [fmt]; [fmt] is then behind the conversion. *)
Definition convert (fuel : nat) (end_ fmt flags field_width precision qualifier : Z) (args : list va) (o : output) : option (Z * list va * output) :=
  let c := rd (omem o) fmt in
  if c =? ch "c" then
    '(w, args) ← va_arg args; Some (fmt + 1, args, print_c end_ flags field_width (u8 w) o)
  else if c =? ch "s" then
    '(s, args) ← va_arg args; o ← print_s fuel end_ flags field_width precision s o; Some (fmt + 1, args, o)
  else if c =? ch "p" then
    let '(field_width, flags) :=
      if field_width =? -1 then (10, Z.lor (Z.lor flags SPECIAL) ZEROPAD) else (field_width, flags) in
    '(w, args) ← va_arg args;
    Some (fmt + 1, args, print_number end_ (u32 w) 16 qualifier field_width precision flags o)
  else if c =? ch "%" then Some (fmt + 1, args, put_char end_ (ch "%") o)
  else
    match number_format c flags with
    | Some (base, flags) =>
        '(w, args) ← va_arg args;
        Some (fmt + 1, args, print_number end_ (get_num qualifier flags w) base qualifier field_width precision flags o)
    | None =>
        args ← (if is_float c then va_double args else Some args);
        let o := put_char end_ (ch "%") o in
        Some (if negb (c =? 0) then (fmt + 1, args, put_char end_ c o) else (fmt, args, o))
    end.
(** One conversion, from the ["%"] on. *)
Definition directive (fuel : nat) (end_ fmt : Z) (args : list va) (o : output) : option (Z * list va * output) :=
  let m := omem o in
  '(fmt, flags) ← flags_loop fuel m fmt 0;
  '(fmt, flags, field_width, args) ← get_width fuel m fmt flags args;
  '(fmt, precision, args) ← get_precision fuel m fmt args;
  let '(fmt, qualifier) := get_qualifier m fmt in
  convert fuel end_ fmt flags field_width precision qualifier args o.
(** [n] bounds the pieces of the format, [fuel] the loops inside one. *)
Fixpoint format_loop (n fuel : nat) (end_ fmt : Z) (args : list va) (o : output) : option output :=
  match n with
  | O => None
  | S n =>
      let c := rd (omem o) fmt in
      if c =? 0 then Some o
      else if negb (c =? ch "%") then format_loop n fuel end_ (fmt + 1) args (put_char end_ c o)
      else '(fmt, args, o) ← directive fuel end_ fmt args o; format_loop n fuel end_ fmt args o
  end.
(** The result is the memory and the return value. *)
Definition rt_vsnprintf (fuel : nat) (m : bmem) (buf size fmt : Z) (args : list va) : option (bmem * Z) :=
  let end_ := u32 (buf + size) in
  let '(end_, size) := if end_ <? buf then (2 ^ 32 - 1, 2 ^ 32 - 1 - buf) else (end_, size) in
  o ← format_loop fuel fuel end_ fmt args {| omem := m; str := buf |};
  let m := if 0 <? size then if str o <? end_ then wr (omem o) (str o) 0 else wr (omem o) (end_ - 1) 0 else omem o in
  Some (m, i32 (str o - buf)).
Definition rt_snprintf : nat -> bmem -> Z -> Z -> Z -> list va -> option (bmem * Z) := rt_vsnprintf.
Definition rt_vsprintf (fuel : nat) (m : bmem) (buf format : Z) (args : list va) : option (bmem * Z) :=
  rt_vsnprintf fuel m buf (2 ^ 32 - 1) format args.
Definition rt_sprintf : nat -> bmem -> Z -> Z -> list va -> option (bmem * Z) := rt_vsprintf.
