(* ===== verification/KStdioProps.v ===== *)
(** * What formatted output writes

    Every function of [KStdio] writes some text from the position on ([put_all]);
    for each conversion the text is given by a definition of its own, and a whole
    format is described by a list of pieces. *)
From Stdlib Require Import Ascii String.
From S2P Require Import Prelude Object KString KStdio.

(** ** Text in memory *)
Section put.
Context (end_ : Z).
Lemma put_all_app l k o : put_all end_ (l ++ k) o = put_all end_ k (put_all end_ l o).
Proof. apply foldl_app. Qed.
Lemma put_n_eq n c : forall o, put_n n end_ c o = put_all end_ (replicate n c) o.
Proof. induction n as [|n IH]; intros o; [done|]. apply IH. Qed.
Lemma str_put_all l : forall o, str (put_all end_ l o) = str o + Z.of_nat (length l).
Proof. induction l as [|c l IH]; intros o; cbn [put_all foldl length]; [lia|]. unfold put_all in IH. rewrite IH. cbn. lia. Qed.
Lemma rd_put_all l q : forall o,
  rd (omem (put_all end_ l o)) q =
    if decide (str o <= q < str o + Z.of_nat (length l) /\ q < end_) then nth (Z.to_nat (q - str o)) l 0 else rd (omem o) q.
Proof.
  induction l as [|c l IH]; intros o; cbn [put_all foldl length].
  - rewrite decide_False by lia. done.
  - unfold put_all in IH. rewrite IH. cbn [put_char str omem].
    assert (E : rd (if str o <? end_ then wr (omem o) (str o) c else omem o) q = if decide (str o = q /\ q < end_) then c else rd (omem o) q).
    { destruct (Z.ltb_spec (str o) end_); [rewrite rd_wr|]; repeat case_decide; try done; lia. }
    rewrite E. clear E IH. destruct (decide (q = str o)) as [->|Hq].
    + rewrite (decide_False (P := str o + 1 <= _ < _ /\ _)) by lia. rewrite Z.sub_diag. repeat case_decide; try done; lia.
    + destruct (decide (str o + 1 <= q < str o + 1 + Z.of_nat (length l) /\ q < end_)) as [H|H].
      * rewrite decide_True by lia. by replace (Z.to_nat (q - str o)) with (S (Z.to_nat (q - (str o + 1)))) by lia.
      * rewrite !decide_False by lia. done.
Qed.
(** What may be known of a part of the program: it writes some text. *)
Definition emits (o o' : output) : Prop := exists l, o' = put_all end_ l o.
#[export] Instance emits_refl : Reflexive emits.
Proof. intros o. by exists []. Qed.
#[export] Instance emits_trans : Transitive emits.
Proof. intros o1 o2 o3 [l ->] [k ->]. exists (l ++ k). by rewrite put_all_app. Qed.
Lemma emits_char c o : emits o (put_char end_ c o).
Proof. by exists [c]. Qed.
Lemma emits_n n c o : emits o (put_n n end_ c o).
Proof. rewrite put_n_eq. by eexists. Qed.
Lemma emits_all l o : emits o (put_all end_ l o).
Proof. by exists l. Qed.
Lemma emits_str n s : forall i o, emits o (put_str n end_ s i o).
Proof. induction n as [|n IH]; intros i o; cbn; [done|]. etrans; [apply emits_char|apply IH]. Qed.
End put.
#[export] Hint Resolve emits_char emits_n emits_all emits_str : rt.
#[export] Hint Extern 1 (emits _ ?o ?o) => reflexivity : rt.

(** ** Whatever the format and the arguments are *)
Section emitted.
Context (end_ : Z).
Notation emits := (emits end_).
Lemma emits_pad c n o : emits o (fst (pad end_ c n o)).
Proof. apply emits_n. Qed.
Lemma emits_pad_if b c n o : emits o (fst (pad_if b end_ c n o)).
Proof. destruct b; [apply emits_n|done]. Qed.
Lemma emits_sign sign n o : emits o (fst (put_sign end_ sign n o)).
Proof. unfold put_sign. destruct (negb _); cbn; auto with rt. Qed.
Lemma emits_prefix base t o : emits o (put_prefix end_ base t o).
Proof. unfold put_prefix. repeat case_match; try done; try apply emits_char; etrans; apply emits_char. Qed.
Lemma emits_number num base q s p t o : emits o (print_number end_ num base q s p t o).
Proof.
  unfold print_number. destruct (get_sign _ _ _) as [sign n].
  destruct (pad_if _ _ _ _ o) as [o1 n1] eqn:E1. destruct (put_sign _ _ _ o1) as [o2 n2] eqn:E2. destruct (pad_if _ _ _ _ (put_prefix _ _ _ o2)) as [o3 n3] eqn:E3.
  etrans; [|apply emits_pad]. apply (f_equal fst) in E1, E2, E3. cbn [fst] in E1, E2, E3. subst o3 o2 o1.
  etrans; [apply emits_pad_if|]. etrans; [apply emits_sign|]. etrans; [apply emits_prefix|]. etrans; [apply emits_pad_if|].
  etrans; [apply emits_n|]. destruct (negb _); [apply emits_all|reflexivity].
Qed.
Lemma emits_c flags w c o : emits o (print_c end_ flags w c o).
Proof.
  unfold print_c, pad_pre. destruct (negb _); cbn [fst]; repeat (etrans; [|by auto with rt]); reflexivity.
Qed.
Lemma emits_s fuel flags w p s o o' : print_s fuel end_ flags w p s o = Some o' -> emits o o'.
Proof.
  unfold print_s, pad_to. destruct (len_loop _ _ _ _ _) as [n|]; [|done]. cbn [mbind option_bind].
  destruct (negb _); intros [= <-]; cbn [fst]; repeat (etrans; [|by auto with rt]); reflexivity.
Qed.
Lemma emits_directive fuel fmt args o fmt' args' o' : directive fuel end_ fmt args o = Some (fmt', args', o') -> emits o o'.
Proof.
  unfold directive. intros H.
  apply bind_Some in H as ([fmt1 flags] & _ & H). apply bind_Some in H as ([[[fmt2 flags2] w] args2] & _ & H).
  apply bind_Some in H as ([[fmt3 p] args3] & _ & H). destruct (get_qualifier _ _) as [fmt4 q]. unfold convert in H.
  destruct (_ =? ch "c") in H; [apply bind_Some in H as ([x args4] & _ & [= <- <- <-]); apply emits_c|].
  destruct (_ =? ch "s") in H.
  { apply bind_Some in H as ([x args4] & _ & H). apply bind_Some in H as (o4 & H & [= <- <- <-]). by eapply emits_s. }
  destruct (_ =? ch "p") in H.
  { destruct (if w =? -1 then _ else _) as [w' fl']. apply bind_Some in H as ([x args4] & _ & [= <- <- <-]). apply emits_number. }
  destruct (_ =? ch "%") in H; [injection H as <- <- <-; apply emits_char|]. destruct (number_format _ _) as [[base fl']|].
  - apply bind_Some in H as ([x args4] & _ & [= <- <- <-]). apply emits_number.
  - apply bind_Some in H as (args4 & _ & H). destruct (negb _); injection H as <- <- <-; [|apply emits_char].
    etrans; apply emits_char.
Qed.
Lemma emits_loop n fuel : forall fmt args o o', format_loop n fuel end_ fmt args o = Some o' -> emits o o'.
Proof.
  induction n as [|n IH]; intros fmt args o o'; cbn [format_loop]; [done|].
  destruct (_ =? 0); [by intros [= ->]|]. destruct (negb _).
  - intros H. etrans; [apply emits_char|by eapply IH].
  - destruct (directive _ _ _ _ _) as [[[fmt1 args1] o1]|] eqn:E; [|done]. intros H.
    etrans; [by eapply emits_directive|by eapply IH].
Qed.
End emitted.

(** ** The buffer

    [stored m m' p l]: [m'] is [m] with the bytes [l] from [p] on. *)
Definition stored (m m' : bmem) (p : Z) (l : list Z) : Prop :=
  forall q, rd m' q = if decide (p <= q < p + Z.of_nat (length l)) then nth (Z.to_nat (q - p)) l 0 else rd m q.
(** A text cut to a buffer of [size] bytes, with its terminator. *)
Definition cut (size : Z) (text : list Z) : list Z :=
  if 0 <? size then take (Z.to_nat (size - 1)) text ++ [0] else [].
(** The bytes between a buffer and the last address. *)
Definition room (buf size : Z) : Z := Z.min size (2 ^ 32 - 1 - buf).
Lemma stored_finish m buf size text :
  let o := put_all (buf + size) text {| omem := m; str := buf |} in
  stored m (if 0 <? size then if str o <? buf + size then wr (omem o) (str o) 0 else wr (omem o) (buf + size - 1) 0 else omem o) buf (cut size text).
Proof.
  intros o q. pose proof (rd_put_all (buf + size) text q {| omem := m; str := buf |}) as Hq. pose proof (str_put_all (buf + size) text {| omem := m; str := buf |}) as Hs.
  fold o in Hq, Hs. cbn [str omem] in Hq, Hs. unfold cut. destruct (Z.ltb_spec 0 size) as [H0|H0].
  - rewrite length_app, length_take. cbn [length].
    assert (E : rd (if str o <? buf + size then wr (omem o) (str o) 0 else wr (omem o) (buf + size - 1) 0) q =
                if decide (buf + Z.of_nat (Z.to_nat (size - 1) `min` length text) = q) then 0 else rd (omem o) q).
    { rewrite Hs. destruct (Z.ltb_spec (buf + Z.of_nat (length text)) (buf + size)); rewrite rd_wr; repeat case_decide; try done; lia. }
    rewrite E, Hq. clear E. destruct (decide (buf + Z.of_nat (Z.to_nat (size - 1) `min` length text) = q)) as [E1|E1].
    + rewrite decide_True by lia. rewrite nth_lookup, lookup_app_r by (rewrite length_take; lia). rewrite length_take.
      by replace (Z.to_nat (q - buf) - _)%nat with 0%nat by lia.
    + destruct (decide (buf <= q < buf + Z.of_nat (length text) /\ q < buf + size)) as [E2|E2].
      * rewrite decide_True by lia. rewrite !nth_lookup, lookup_app_l by (rewrite length_take; lia). by rewrite lookup_take_lt by lia.
      * rewrite decide_False by lia. done.
  - cbn [length]. rewrite Hq, !decide_False by lia. done.
Qed.
Lemma end_room buf size : 0 <= buf < 2 ^ 32 -> 0 <= size < 2 ^ 32 ->
  (if u32 (buf + size) <? buf then (2 ^ 32 - 1, 2 ^ 32 - 1 - buf) else (u32 (buf + size), size)) = (buf + room buf size, room buf size).
Proof.
  intros Hb Hs. unfold room, u32. destruct (decide (buf + size < 2 ^ 32)).
  - rewrite Z.mod_small by lia. destruct (Z.ltb_spec (buf + size) buf); [lia|]. apply pair_eq. lia.
  - assert (E : (buf + size) mod 2 ^ 32 = buf + size - 2 ^ 32) by (symmetry; apply (Z.mod_unique _ _ 1); lia).
    rewrite E. destruct (Z.ltb_spec (buf + size - 2 ^ 32) buf); [|lia]. apply pair_eq. lia.
Qed.
Lemma vsnprintf_run fuel m buf size fmt args text o' : 0 <= buf < 2 ^ 32 -> 0 <= size < 2 ^ 32 ->
  let end_ := buf + room buf size in
  format_loop fuel fuel end_ fmt args {| omem := m; str := buf |} = Some o' -> o' = put_all end_ text {| omem := m; str := buf |} ->
  exists m', rt_vsnprintf fuel m buf size fmt args = Some (m', i32 (Z.of_nat (length text))) /\ stored m m' buf (cut (room buf size) text).
Proof.
  intros Hb Hs end_ Hl Ho. pose proof (stored_finish m buf (room buf size) text) as Hst. cbn zeta in Hst. unfold rt_vsnprintf.
  rewrite end_room by done. fold end_. rewrite Hl. cbn [mbind option_bind]. subst o'. eexists. split; [|exact Hst]. apply (f_equal Some), pair_eq. split; [done|]. rewrite str_put_all. cbn [str]. f_equal. lia.
Qed.
Lemma vsnprintf_inv fuel m buf size fmt args m' n : 0 <= buf < 2 ^ 32 -> 0 <= size < 2 ^ 32 ->
  rt_vsnprintf fuel m buf size fmt args = Some (m', n) -> is_Some (format_loop fuel fuel (buf + room buf size) fmt args {| omem := m; str := buf |}).
Proof.
  intros Hb Hs. unfold rt_vsnprintf. rewrite end_room by done. by intros (o & -> & _)%bind_Some.
Qed.



(** ** Numbers *)
Definition digits_of (large : bool) : list Z := if large then large_digits else small_digits.
Definition numeral (large : bool) (base num : Z) : list Z :=
  if num =? 0 then [ch "0"] else rev (digit_loop 32 num base (digits_of large)).
Definition digit_val (c : Z) : Z := if c <? 58 then c - 48 else if c <? 71 then c - 55 else c - 87.
Definition value (base : Z) (l : list Z) : Z := foldl (fun a c => a * base + digit_val c) 0 l.
Lemma digit_val_nth large d : 0 <= d < 16 -> digit_val (nth (Z.to_nat d) (digits_of large) 0) = d /\ (nth (Z.to_nat d) (digits_of large) 0 = ch "0" <-> d = 0).
Proof.
  intros Hd. assert (E : exists k, (k < 16)%nat /\ d = Z.of_nat k) by (exists (Z.to_nat d); lia). destruct E as (k & Hk & ->). rewrite Nat2Z.id.
  assert (E : (k <= 15)%nat) by lia. clear Hk Hd. destruct large; do 16 (destruct k as [|k]; [vm_compute; done|]); lia.
Qed.
Lemma divide_eq n base : 0 <= n < 2 ^ 32 -> 2 <= base -> divide n base = (n / base, n mod base).
Proof.
  intros Hn Hb. unfold divide. assert (H : 0 <= n / base < 2 ^ 31).
  { split; [apply Z.div_pos; lia|]. apply Z.div_lt_upper_bound; [lia|]. nia. }
  unfold i32. rewrite Z.mod_small by lia. replace (n / base + 2 ^ 31 - 2 ^ 31) with (n / base) by lia. by rewrite u32_small by lia.
Qed.
Lemma value_snoc base l c : value base (l ++ [c]) = value base l * base + digit_val c.
Proof. unfold value. by rewrite foldl_app. Qed.
Lemma digit_loop_ok large base fuel : 2 <= base <= 16 -> forall num, 0 <= num < 2 ^ Z.of_nat fuel -> num < 2 ^ 32 ->
  let l := digit_loop fuel num base (digits_of large) in
  value base (rev l) = num /\ (length l <= fuel)%nat /\ (num <> 0 -> exists c, last l = Some c /\ c <> ch "0") /\ (num = 0 -> l = []) /\
  Forall (fun c => exists d, 0 <= d < base /\ c = nth (Z.to_nat d) (digits_of large) 0) l.
Proof.
  intros Hb. induction fuel as [|f IH]; intros num Hn Hlt.
  - cbn in Hn. assert (num = 0) as -> by lia. cbn. split; [done|]. split; [lia|]. done.
  - cbn [digit_loop]. destruct (Z.eqb_spec num 0) as [->|Hz]; [cbn; split; [done|]; split; [lia|]; done|].
    rewrite divide_eq by lia. pose proof (Z.mod_pos_bound num base ltac:(lia)) as Hm. pose proof (Z.div_mod num base ltac:(lia)) as Hd.
    assert (Hq : 0 <= num / base < 2 ^ Z.of_nat f).
    { split; [apply Z.div_pos; lia|]. apply Z.div_lt_upper_bound; [lia|]. rewrite Nat2Z.inj_succ, Z.pow_succ_r in Hn by lia. nia. }
    destruct (IH (num / base) Hq ltac:(nia)) as (H1 & H2 & H3 & H4 & H5). destruct (digit_val_nth large (num mod base) ltac:(lia)) as [D1 D2].
    split; [|split; [|split; [|split]]].
    + cbn [rev]. rewrite value_snoc, H1, D1. lia.
    + cbn [length]. lia.
    + intros _. destruct (decide (num / base = 0)) as [E|E].
      * rewrite (H4 E). cbn. eexists. split; [done|]. rewrite D2. lia.
      * destruct (H3 E) as (c & Hc & Hc'). exists c. split; [|done]. set (l := digit_loop _ _ _ _) in *. destruct l; [done|exact Hc].
    + done.
    + constructor; [by exists (num mod base)|done].
Qed.
(** A numeral has the value of its number, no leading zeros, and fits in the 32
    bytes of [tmp]. *)
Lemma numeral_ok large base num : 2 <= base <= 16 -> 0 <= num < 2 ^ 32 ->
  value base (numeral large base num) = num /\ (1 <= length (numeral large base num) <= 32)%nat /\
  (num <> 0 -> hd 0 (numeral large base num) <> ch "0") /\
  Forall (fun c => exists d, 0 <= d < base /\ c = nth (Z.to_nat d) (digits_of large) 0) (numeral large base num).
Proof.
  intros Hb Hn. unfold numeral. destruct (Z.eqb_spec num 0) as [->|Hz].
  - split; [done|]. split; [cbn; lia|]. split; [done|]. constructor; [|done]. exists 0. split; [lia|]. by destruct large.
  - destruct (digit_loop_ok large base 32 Hb num ltac:(lia) ltac:(lia)) as (H1 & H2 & H3 & _ & H5). set (l := digit_loop _ _ _ _) in *.
    destruct (H3 Hz) as (c & Hc & Hc'). apply last_Some in Hc as [k Hk]. split; [done|]. split; [|split].
    + rewrite length_rev. split; [|done]. rewrite Hk, length_app. cbn. lia.
    + intros _. rewrite Hk, rev_app_distr. done.
    + by apply Forall_rev.
Qed.

(** ** The text of a number *)
Definition prefix_text (base type : Z) : list Z :=
  if has_flag type SPECIAL then
    if base =? 2 then codes "0b" else if base =? 8 then codes "0"
    else if base =? 16 then if has_flag type LARGE then codes "0X" else codes "0x" else []
  else [].
Definition sign_text (sign : Z) : list Z := if sign =? 0 then [] else [sign].
Definition spaces (n : Z) : list Z := replicate (Z.to_nat n) (ch " ").
Definition zeros (n : Z) : list Z := replicate (Z.to_nat n) (ch "0").
Definition len (l : list Z) : Z := Z.of_nat (length l).
(** A number in a field: sign and prefix, at least [precision] digits, filled up to
    [width] characters at the left or the right.  A precision of 0 prints no digit
    at all and leaves the field short by them. *)
Definition number_text (type width precision base sign num : Z) : list Z :=
  let digits := numeral (has_flag type LARGE) base num in
  let lead := sign_text sign ++ prefix_text base type in
  let more := zeros (precision - len digits) in
  let fill := width - len (lead ++ more ++ digits) in
  let body := more ++ if precision =? 0 then [] else digits in
  if has_flag type LEFT then lead ++ body ++ spaces fill
  else if has_flag type ZEROPAD then lead ++ zeros fill ++ body
  else spaces fill ++ lead ++ body.

Lemma has_flag_testbit f k : 0 <= k -> has_flag f (2 ^ k) = Z.testbit f k.
Proof.
  intros Hk. unfold has_flag. destruct (Z.testbit f k) eqn:E.
  - apply negb_true_iff, Z.eqb_neq. intros H. apply (f_equal (fun z => Z.testbit z k)) in H.
    rewrite Z.land_spec, Z.pow2_bits_true, E, Z.bits_0 in H by done. done.
  - apply negb_false_iff, Z.eqb_eq. apply Z.bits_inj_0. intros i. rewrite Z.land_spec, Z.pow2_bits_eqb by done.
    destruct (Z.eqb_spec k i) as [<-|]; [by rewrite E|apply andb_false_r].
Qed.
Lemma has_flag_clear f i j : 0 <= i -> 0 <= j -> has_flag (clear_flag f (2 ^ i)) (2 ^ j) = has_flag f (2 ^ j) && negb (i =? j).
Proof.
  intros Hi Hj. rewrite !has_flag_testbit by done. unfold clear_flag. rewrite Z.land_spec, Z.lnot_spec by done. by rewrite Z.pow2_bits_eqb.
Qed.
Lemma has_flag_set f i j : 0 <= i -> 0 <= j -> has_flag (Z.lor f (2 ^ i)) (2 ^ j) = has_flag f (2 ^ j) || (i =? j).
Proof. intros Hi Hj. rewrite !has_flag_testbit by done. rewrite Z.lor_spec. by rewrite Z.pow2_bits_eqb. Qed.
Lemma has_flag_lor f a b : has_flag f (Z.lor a b) = has_flag f a || has_flag f b.
Proof.
  unfold has_flag. rewrite Z.land_lor_distr_r. destruct (Z.eqb_spec (Z.lor (Z.land f a) (Z.land f b)) 0) as [E|E].
  - apply Z.lor_eq_0_iff in E as [-> ->]. done.
  - destruct (Z.eqb_spec (Z.land f a) 0) as [Ea|]; [|done]. destruct (Z.eqb_spec (Z.land f b) 0) as [Eb|]; [|done]. by rewrite Ea, Eb in E.
Qed.
Definition pads (type : Z) : Z := if has_flag type LEFT then clear_flag type ZEROPAD else type.
Lemma pads_flags type :
  has_flag (pads type) LEFT = has_flag type LEFT /\ has_flag (pads type) ZEROPAD = has_flag type ZEROPAD && negb (has_flag type LEFT) /\
  has_flag (pads type) SIGN = has_flag type SIGN /\ has_flag (pads type) PLUS = has_flag type PLUS /\ has_flag (pads type) SPACE = has_flag type SPACE /\
  has_flag (pads type) SPECIAL = has_flag type SPECIAL /\ has_flag (pads type) LARGE = has_flag type LARGE.
Proof.
  unfold pads. destruct (has_flag type LEFT) eqn:EL; [|by rewrite EL, andb_true_r].
  assert (Hc : forall j, 0 <= j -> has_flag (clear_flag type ZEROPAD) (2 ^ j) = has_flag type (2 ^ j) && negb (0 =? j)) by (intros j Hj; exact (has_flag_clear type 0 j (Z.le_refl 0) Hj)).
  rewrite andb_false_r. change LEFT with (2 ^ 4) in *. change SIGN with (2 ^ 1). change PLUS with (2 ^ 2). change SPACE with (2 ^ 3).
  change SPECIAL with (2 ^ 5). change LARGE with (2 ^ 6). change ZEROPAD with (2 ^ 0). change ZEROPAD with (2 ^ 0) in Hc. rewrite !Hc by lia. rewrite EL.
  cbn [Z.eqb negb Pos.eqb]. rewrite !andb_true_r. rewrite andb_false_r. done.
Qed.
Lemma put_sign_eq end_ sign n o : put_sign end_ sign n o = (put_all end_ (sign_text sign) o, if sign =? 0 then n else i32 (n - 1)).
Proof. unfold put_sign, sign_text. by destruct (sign =? 0). Qed.
Lemma put_prefix_eq end_ base t o : put_prefix end_ base t o = put_all end_ (prefix_text base t) o.
Proof. unfold put_prefix, prefix_text. by repeat case_match. Qed.
Lemma pad_if_eq b end_ c n o : pad_if b end_ c n o = (put_all end_ (if b then replicate (Z.to_nat n) c else []) o, if b then i32 (Z.min n 0 - 1) else n).
Proof. destruct b; cbn; [|done]. unfold pad. by rewrite put_n_eq. Qed.
Lemma i32_small z : - 2 ^ 31 <= z < 2 ^ 31 -> i32 z = z.
Proof. intros H. unfold i32. rewrite Z.mod_small by lia. lia. Qed.
Lemma rep0 z c : z <= 0 -> replicate (Z.to_nat z) c = @nil Z.
Proof. intros H. by replace (Z.to_nat z) with 0%nat by lia. Qed.
Lemma print_number_eq end_ num base q s p t o sign n : base = 2 \/ base = 8 \/ base = 10 \/ base = 16 ->
  -1 <= s < 2 ^ 30 -> -1 <= p < 2 ^ 30 -> get_sign num q (pads t) = (sign, n) -> 0 <= n < 2 ^ 32 ->
  print_number end_ num base q s p t o = put_all end_ (number_text t s p base sign n) o.
Proof.
  intros Hbase Hs Hp Hsign Hn. unfold print_number. fold (pads t). rewrite Hsign.
  destruct (pads_flags t) as (FL & FZ & _ & _ & _ & FS & FX). rewrite has_flag_lor, FL, FZ, FS.
  set (tmp := if n =? 0 then [ch "0"] else _).
  assert (Etmp : rev tmp = numeral (has_flag t LARGE) base n) by (unfold tmp, numeral; by destruct (n =? 0)).
  assert (Elen : length tmp = length (numeral (has_flag t LARGE) base n)) by (by rewrite <- Etmp, length_rev).
  destruct (numeral_ok (has_flag t LARGE) base n ltac:(lia) Hn) as (_ & Hlen & _). rewrite <- Elen in Hlen.
  unfold number_text. rewrite <- Etmp. unfold len. rewrite !length_app, length_rev. clearbody tmp. clear Etmp Elen Hsign FX.
  set (i := Z.of_nat (length tmp)) in *. assert (Hi : 1 <= i <= 32) by (unfold i; lia).
  assert (Epre : prefix_text base (pads t) = prefix_text base t).
  { unfold prefix_text. destruct (pads_flags t) as (_ & _ & _ & _ & _ & -> & ->). done. }
  set (size := if has_flag t SPECIAL then _ else s).
  assert (Esize : size = s - Z.of_nat (length (prefix_text base t))).
  { unfold size, prefix_text. destruct (has_flag t SPECIAL); [|cbn; lia].
    destruct Hbase as [-> | [-> | [-> | ->]]]; cbn; try lia. destruct (has_flag t LARGE); cbn; lia. }
  assert (Hpre : (length (prefix_text base t) <= 2)%nat) by (unfold prefix_text; repeat case_match; cbn; lia).
  assert (Hsg : (length (sign_text sign) <= 1)%nat) by (unfold sign_text; case_match; cbn; lia).
  clearbody size. set (prec := if p <? i then i else p). assert (Hprec : prec = Z.max i p) by (unfold prec; destruct (Z.ltb_spec p i); lia). clearbody prec.
  rewrite (i32_small (size - prec)) by lia. cbn zeta.
  rewrite pad_if_eq, put_sign_eq, put_prefix_eq, pad_if_eq, Epre, !put_n_eq. unfold pad. rewrite put_n_eq. cbn [fst].
  assert (Edig : forall o', (if negb (p =? 0) then put_all end_ (rev tmp) o' else o') = put_all end_ (if p =? 0 then [] else rev tmp) o') by (intros o'; by destruct (p =? 0)).
  rewrite Edig, <- !put_all_app. apply (f_equal (fun l => put_all end_ l o)). clear Edig FL FZ FS Epre.
  assert (Hsl : Z.of_nat (length (sign_text sign)) = if sign =? 0 then 0 else 1) by (unfold sign_text; by destruct (sign =? 0)).
  unfold zeros, spaces. rewrite !length_replicate, <- !app_assoc.
  destruct (has_flag t LEFT), (has_flag t ZEROPAD), (sign =? 0); cbn [negb andb orb app]; try (destruct (Z.ltb_spec 0 (size - prec)));
    repeat match goal with |- context [i32 ?z] => rewrite (i32_small z) by lia end;
    repeat match goal with |- context [replicate (Z.to_nat ?z) ?c] => rewrite (rep0 z c) by lia end;
    cbn [app]; rewrite ?app_nil_r; repeat (f_equal; try lia).
Qed.

(** The value of an integer argument, for a signed and for an unsigned conversion. *)
Definition signed_value (qualifier w : Z) : Z :=
  if qualifier =? ch "H" then i8 w else if qualifier =? ch "h" then i16 w else i32 w.
(** With ["hh"] the sign is extended although the conversion is unsigned. *)
Definition unsigned_value (qualifier w : Z) : Z :=
  if qualifier =? ch "H" then u32 (i8 w) else if qualifier =? ch "h" then u16 w else u32 w.
Definition sign_char (type v : Z) : Z :=
  if v <? 0 then ch "-" else if has_flag type PLUS then ch "+" else if has_flag type SPACE then ch " " else 0.
Lemma i8_range w : - 2 ^ 7 <= i8 w < 2 ^ 7.
Proof. unfold i8. pose proof (Z.mod_pos_bound (w + 2 ^ 7) (2 ^ 8) ltac:(lia)). lia. Qed.
Lemma i16_range w : - 2 ^ 15 <= i16 w < 2 ^ 15.
Proof. unfold i16. pose proof (Z.mod_pos_bound (w + 2 ^ 15) (2 ^ 16) ltac:(lia)). lia. Qed.
Lemma i32_range w : - 2 ^ 31 <= i32 w < 2 ^ 31.
Proof. unfold i32. pose proof (Z.mod_pos_bound (w + 2 ^ 31) (2 ^ 32) ltac:(lia)). lia. Qed.
Lemma u32_between w : 0 <= u32 w < 2 ^ 32.
Proof. apply Z.mod_pos_bound. lia. Qed.
Lemma u32_neg v : - 2 ^ 31 <= v < 0 -> u32 v = v + 2 ^ 32.
Proof. intros H. unfold u32. symmetry. apply (Z.mod_unique _ _ (-1)); lia. Qed.
Lemma i32_u32 v : - 2 ^ 31 <= v < 2 ^ 31 -> i32 (u32 v) = v.
Proof.
  intros H. destruct (decide (v < 0)).
  - rewrite u32_neg by lia. unfold i32.
    assert (E : (v + 2 ^ 32 + 2 ^ 31) mod 2 ^ 32 = v + 2 ^ 31) by (symmetry; apply (Z.mod_unique _ _ 1); lia). rewrite E. lia.
  - rewrite u32_small by lia. by apply i32_small.
Qed.

(** Truncations forget multiples of their modulus. *)
Lemma mod_shift z c n h : 0 < n -> (z + c * n + h) mod n = (z + h) mod n.
Proof. intros Hn. rewrite <- (Z.mod_add (z + h) c n) by lia. f_equal. lia. Qed.
Lemma i8_add z c : i8 (z + c * 2 ^ 8) = i8 z.
Proof. unfold i8. by rewrite mod_shift by lia. Qed.
Lemma i16_add z c : i16 (z + c * 2 ^ 16) = i16 z.
Proof. unfold i16. by rewrite mod_shift by lia. Qed.
Lemma u32_eq z : exists c, u32 z = z + c * 2 ^ 32.
Proof. exists (- (z / 2 ^ 32)). unfold u32. pose proof (Z.div_mod z (2 ^ 32) ltac:(lia)). lia. Qed.
Lemma u16_eq z : exists c, u16 z = z + c * 2 ^ 16.
Proof. exists (- (z / 2 ^ 16)). unfold u16. pose proof (Z.div_mod z (2 ^ 16) ltac:(lia)). lia. Qed.
Lemma i32_eq z : exists c, i32 z = z + c * 2 ^ 32.
Proof. exists (- ((z + 2 ^ 31) / 2 ^ 32)). unfold i32. pose proof (Z.div_mod (z + 2 ^ 31) (2 ^ 32) ltac:(lia)). lia. Qed.
Lemma i8_u32 z : i8 (u32 z) = i8 z.
Proof. destruct (u32_eq z) as [c ->]. rewrite <- (i8_add z (c * 2 ^ 24)). f_equal. lia. Qed.
Lemma i16_u32 z : i16 (u32 z) = i16 z.
Proof. destruct (u32_eq z) as [c ->]. rewrite <- (i16_add z (c * 2 ^ 16)). f_equal. lia. Qed.
Lemma i16_u16 z : i16 (u16 z) = i16 z.
Proof. destruct (u16_eq z) as [c ->]. apply i16_add. Qed.
Lemma u32_i32 z : u32 (i32 z) = u32 z.
Proof. destruct (i32_eq z) as [c ->]. unfold u32. by rewrite Z.mod_add by lia. Qed.
Lemma i8_small z : - 2 ^ 7 <= z < 2 ^ 7 -> i8 z = z.
Proof. intros H. unfold i8. rewrite Z.mod_small by lia. lia. Qed.
Lemma i16_small z : - 2 ^ 15 <= z < 2 ^ 15 -> i16 z = z.
Proof. intros H. unfold i16. rewrite Z.mod_small by lia. lia. Qed.
Lemma u16_neg v : - 2 ^ 15 <= v < 0 -> u16 (- u32 v) = - v.
Proof.
  intros H. rewrite u32_neg by lia. unfold u16. symmetry. apply (Z.mod_unique _ _ (- 2 ^ 16)); lia.
Qed.
Lemma get_num_signed q t w : has_flag t SIGN = true -> get_num q t w = u32 (signed_value q w).
Proof.
  intros HS. unfold get_num, signed_value. rewrite HS. destruct (Z.eqb_spec q (ch "l")) as [->|_]; [exact (eq_sym (u32_i32 w))|].
  destruct (Z.eqb_spec q (ch "H")) as [->|_]; [rewrite i8_u32, i8_small by apply i8_range; done|].
  destruct (Z.eqb_spec q (ch "h")) as [->|_]; [by rewrite i16_u16|by rewrite u32_i32].
Qed.
Lemma get_num_unsigned q t w : has_flag t SIGN = false -> get_num q t w = unsigned_value q w.
Proof.
  intros HS. unfold get_num, unsigned_value. rewrite HS. destruct (Z.eqb_spec q (ch "l")) as [->|_]; [done|].
  by destruct (q =? ch "H"), (q =? ch "h").
Qed.
Lemma signed_value_range q w : - 2 ^ 31 <= signed_value q w < 2 ^ 31 /\ (q = ch "h" -> - 2 ^ 15 <= signed_value q w < 2 ^ 15).
Proof.
  unfold signed_value. pose proof (i8_range w). pose proof (i16_range w). pose proof (i32_range w).
  destruct (Z.eqb_spec q (ch "H")) as [->|_]; [split; [lia|done]|]. destruct (Z.eqb_spec q (ch "h")); split; (lia || done).
Qed.
Lemma get_sign_signed q t w : has_flag t SIGN = true ->
  get_sign (get_num q t w) q (pads t) = (sign_char t (signed_value q w), Z.abs (signed_value q w)).
Proof.
  intros HS. rewrite get_num_signed by done. destruct (signed_value_range q w) as [R1 R2]. set (v := signed_value q w) in *. clearbody v.
  destruct (pads_flags t) as (_ & _ & FS & FP & FC & _). unfold get_sign, sign_char. rewrite FS, FP, FC, HS.
  assert (E : (if q =? ch "h" then if i16 (u32 v) <? 0 then (ch "-", u16 (- u32 v)) else (0, u32 v)
               else if i32 (u32 v) <? 0 then (ch "-", u32 (- u32 v)) else (0, u32 v)) = if v <? 0 then (ch "-", - v) else (0, v)).
  { destruct (Z.eqb_spec q (ch "h")) as [Hq|_].
    - rewrite i16_u32, i16_small by auto. specialize (R2 Hq). destruct (Z.ltb_spec v 0); [by rewrite u16_neg by lia|by rewrite u32_small by lia].
    - rewrite i32_u32 by lia. destruct (Z.ltb_spec v 0); [|by rewrite u32_small by lia]. rewrite (u32_neg v) by lia.
      f_equal. unfold u32. symmetry. apply (Z.mod_unique _ _ (-1)); lia. }
  rewrite E. destruct (Z.ltb_spec v 0); cbn [negb].
  - change (ch "-" =? ch "-") with true. cbn. by rewrite Z.abs_neq by lia.
  - change (0 =? ch "-") with false. cbn [negb]. rewrite Z.abs_eq by lia. by destruct (has_flag t PLUS), (has_flag t SPACE).
Qed.
Lemma get_sign_unsigned n q t : has_flag t SIGN = false -> get_sign n q (pads t) = (0, n).
Proof. intros HS. destruct (pads_flags t) as (_ & _ & FS & _). unfold get_sign. by rewrite FS, HS. Qed.
Lemma unsigned_value_range q w : 0 <= unsigned_value q w < 2 ^ 32.
Proof.
  unfold unsigned_value. pose proof (u32_between (i8 w)). pose proof (u32_between w). unfold u16. pose proof (Z.mod_pos_bound w (2 ^ 16) ltac:(lia)).
  by repeat case_match; lia.
Qed.
