(* ===== verification/KStdioFmt.v ===== *)
(** * The format language

    A format is a list of pieces: characters and conversions.  [meaning] says which
    text a list of pieces stands for, given the arguments; [rt_vsnprintf] on the
    string that spells the pieces writes that text. *)
From Stdlib Require Import Ascii String.
From S2P Require Import Prelude Object KString KStdio KStdioProps.

(** ** Characters and strings in a field *)
Definition char_text (type width c : Z) : list Z :=
  if has_flag type LEFT then c :: spaces (width - 1) else spaces (width - 1) ++ [c].
(** A width of 0 or more cuts the string, too. *)
Definition string_text (type width precision : Z) (l : list Z) : list Z :=
  let l := if 0 <=? width then take (Z.to_nat width) l else l in
  let l := if 0 <? precision then take (Z.to_nat precision) l else l in
  if has_flag type LEFT then l ++ spaces (width - len l) else spaces (width - len l) ++ l.

Lemma print_c_eq end_ t w c o : -1 <= w < 2 ^ 30 -> print_c end_ t w c o = put_all end_ (char_text t w c) o.
Proof.
  intros Hw. unfold print_c, pad_pre, char_text, spaces. destruct (has_flag t LEFT); cbn [negb fst]; rewrite !put_n_eq.
  - done.
  - rewrite (i32_small (Z.min (w - 1) 0)) by lia. rewrite (rep0 (Z.min (w - 1) 0 - 1)) by lia. by rewrite put_all_app.
Qed.

(** The string an argument points to. *)
Record string_at (m : bmem) (s : Z) (l : list Z) : Prop := {
  sa_chars : forall i c, l !! i = Some c -> str_at m s (Z.of_nat i) = c /\ c <> 0;
  sa_end : str_at m s (len l) = 0;
}.
Lemma cstr_string_at m s l : s <> 0 -> cstr m s l -> string_at m s l.
Proof.
  intros Hs [Hc He]. constructor.
  - intros i c Hi. unfold str_at. destruct (Z.eqb_spec s 0); [done|]. by apply Hc.
  - unfold str_at. destruct (Z.eqb_spec s 0); [done|]. exact He.
Qed.
Lemma null_string_at m : string_at m 0 (codes "(NULL)").
Proof.
  constructor; [|done]. intros i c Hi. unfold str_at. cbn [Z.eqb]. 
  rewrite Nat2Z.id, nth_lookup, Hi. split; [done|]. apply list_elem_of_lookup_2 in Hi.
  change (c ∈ [40; 78; 85; 76; 76; 41]) in Hi. rewrite !elem_of_cons, elem_of_nil in Hi. lia.
Qed.
Lemma len_loop_ok m s l w fuel : string_at m s l -> forall i, (i <= length l)%nat -> (length l - i < fuel)%nat -> w < 0 \/ Z.of_nat i <= w ->
  len_loop fuel m s (Z.of_nat i) w = Some (if 0 <=? w then Z.min w (len l) else len l).
Proof.
  intros [Hc He]. induction fuel as [|f IH]; intros i Hi Hf Hw; [lia|]. cbn [len_loop]. unfold len in *.
  destruct (Z.eqb_spec (Z.of_nat i) w) as [<-|Hne]; cbn [negb andb].
  - destruct (Z.leb_spec 0 (Z.of_nat i)); [|lia]. f_equal. lia.
  - destruct (decide (i < length l)%nat) as [Hl|Hl].
    + destruct (lookup_lt_is_Some_2 l i Hl) as [c Hlc]. destruct (Hc i c Hlc) as [-> Hcz]. destruct (Z.eqb_spec c 0); [done|]. cbn [negb].
      replace (Z.of_nat i + 1) with (Z.of_nat (S i)) by lia. apply IH; lia.
    + assert (i = length l) as -> by lia. rewrite He. cbn. f_equal. destruct (Z.leb_spec 0 w); lia.
Qed.

(** Memory outside the buffer, from [lo] to [end_], keeps its contents. *)
Definition keeps (lo end_ : Z) (m m' : bmem) : Prop := forall q, q < lo \/ end_ <= q -> rd m' q = rd m q.
Definition safe (lo end_ p n : Z) : Prop := forall q, p <= q < p + n -> q < lo \/ end_ <= q.
Lemma put_all_keeps lo end_ l o : lo <= str o -> keeps lo end_ (omem o) (omem (put_all end_ l o)).
Proof. intros Hs q Hq. rewrite rd_put_all, decide_False by lia. done. Qed.
Lemma string_at_keeps lo end_ m m' s l : keeps lo end_ m m' -> s = 0 \/ safe lo end_ s (len l + 1) -> string_at m s l -> string_at m' s l.
Proof.
  intros Hk [-> | Hs] [Hc He]; [by constructor|].
  assert (E : forall i, 0 <= i <= len l -> str_at m' s i = str_at m s i).
  { intros i Hi. unfold str_at. destruct (s =? 0); [done|]. apply Hk, Hs. lia. }
  constructor; [|rewrite E by (unfold len; lia); done]. intros i c Hi. pose proof (lookup_lt_Some _ _ _ Hi).
  rewrite E by (unfold len; lia). by apply Hc.
Qed.
(** The characters are read while the text is written. *)
Lemma put_str_eq lo end_ s l n : s = 0 \/ safe lo end_ s (len l + 1) -> forall i o, string_at (omem o) s l -> lo <= str o -> (i + n <= length l)%nat ->
  put_str n end_ s (Z.of_nat i) o = put_all end_ (take n (drop i l)) o.
Proof.
  intros Hsafe. induction n as [|n IH]; intros i o Hs Ho Hn; [done|]. cbn [put_str].
  destruct (lookup_lt_is_Some_2 l i ltac:(lia)) as [c Hc]. destruct (sa_chars _ _ _ Hs i c Hc) as [-> _].
  rewrite (drop_S _ _ _ Hc). cbn [take]. replace (Z.of_nat i + 1) with (Z.of_nat (S i)) by lia. rewrite IH; [done| |cbn; lia|lia].
  eapply string_at_keeps; [|done|exact Hs]. exact (put_all_keeps lo end_ [c] o Ho).
Qed.
Lemma print_s_eq lo end_ s l fuel t w p o : string_at (omem o) s l -> s = 0 \/ safe lo end_ s (len l + 1) -> lo <= str o -> (length l < fuel)%nat ->
  -1 <= w < 2 ^ 30 -> len l < 2 ^ 30 -> print_s fuel end_ t w p s o = Some (put_all end_ (string_text t w p l) o).
Proof.
  intros Hs Hsafe Ho Hf Hw Hl. unfold print_s. pose proof (len_loop_ok _ _ _ w fuel Hs 0%nat) as El. change (Z.of_nat 0) with 0 in El. rewrite El by lia. clear El. cbn [mbind option_bind]. cbn zeta.
  unfold string_text. set (l1 := if 0 <=? w then take _ l else l).
  assert (E1 : (if 0 <=? w then Z.min w (len l) else len l) = len l1).
  { unfold l1, len. destruct (Z.leb_spec 0 w); [rewrite length_take; lia|done]. }
  rewrite E1. set (l2 := if 0 <? p then take _ l1 else l1).
  assert (E2 : (if (0 <? p) && (p <? len l1) then p else len l1) = len l2).
  { unfold l2, len. destruct (Z.ltb_spec 0 p); [|done]. cbn [andb]. rewrite length_take. destruct (Z.ltb_spec p (Z.of_nat (length l1))); lia. }
  rewrite E2. assert (Epre : exists k, l2 = take k l /\ (k <= length l)%nat).
  { assert (H1 : exists k, l1 = take k l) by (unfold l1; destruct (0 <=? w); [by eexists|exists (length l); by rewrite take_ge]).
    assert (H2 : exists k, l2 = take k l).
    { destruct H1 as [k H1]. unfold l2. destruct (0 <? p); [|by exists k]. rewrite H1, take_take. by eexists. }
    destruct H2 as [k Hk]. exists (Nat.min k (length l)). split; [|lia]. rewrite Hk. destruct (decide (k <= length l)%nat).
    - by rewrite Nat.min_l by lia.
    - rewrite Nat.min_r, !take_ge by lia. done. }
  destruct Epre as (k & Hk & Hkl). clearbody l2. clear E1 E2 l1. assert (Hl2 : length l2 = k) by (rewrite Hk, length_take; lia).
  assert (Hput : forall o', keeps lo end_ (omem o) (omem o') -> lo <= str o' -> put_str (Z.to_nat (len l2)) end_ s 0 o' = put_all end_ l2 o').
  { intros o' Hkeep Ho'. unfold len. rewrite Nat2Z.id.
    pose proof (put_str_eq lo end_ s l (length l2) Hsafe 0%nat o') as Ep. change (Z.of_nat 0) with 0 in Ep. rewrite Ep by (done || lia || by eapply string_at_keeps). by rewrite drop_0, Hl2, <- Hk. }
  unfold pad_to, spaces. f_equal. destruct (has_flag t LEFT); cbn [negb fst]; rewrite !put_n_eq.
  - rewrite Hput by (done || intros q ?; done). by rewrite put_all_app.
  - rewrite (i32_small (Z.min w (len l2) - 1)) by (unfold len in *; lia). rewrite (rep0 (_ - 1 - _)) by lia. cbn [put_all foldl].
    rewrite Hput; [by rewrite put_all_app|by apply put_all_keeps|rewrite str_put_all; lia].
Qed.

(** ** Pieces *)
Inductive qual := QNone | Qh | Qhh | Ql | Qz.
(** A number in a format: left out, in digits, or the next argument. *)
Inductive field := FNone | FNum (n : Z) | FStar.
Record conv := { cflags : list Z; cwidth : field; cprec : option field; cqual : qual; cchar : Z }.
Inductive piece := Lit (c : Z) | Conv (cv : conv).

Definition qual_text (q : qual) : list Z :=
  match q with QNone => [] | Qh => codes "h" | Qhh => codes "hh" | Ql => codes "l" | Qz => codes "z" end.
Definition qual_code (q : qual) : Z :=
  match q with QNone => 0 | Qh => ch "h" | Qhh => ch "H" | Ql => ch "l" | Qz => ch "z" end.
Definition field_text (f : field) : list Z :=
  match f with FNone => [] | FNum n => numeral false 10 n | FStar => codes "*" end.
Definition prec_text (p : option field) : list Z :=
  match p with None => [] | Some f => ch "." :: field_text f end.
Definition conv_text (cv : conv) : list Z :=
  ch "%" :: cflags cv ++ field_text (cwidth cv) ++ prec_text (cprec cv) ++ qual_text (cqual cv) ++ [cchar cv].
Definition format_text (ps : list piece) : list Z :=
  concat ((fun p => match p with Lit c => [c] | Conv cv => conv_text cv end) <$> ps).

Definition flag_of (c : Z) : Z :=
  if c =? ch "-" then LEFT else if c =? ch "+" then PLUS else if c =? ch " " then SPACE else if c =? ch "#" then SPECIAL else ZEROPAD.
Definition flags_of (l : list Z) : Z := foldl (fun f c => Z.lor f (flag_of c)) 0 l.
Definition is_flag (c : Z) : bool := existsb (Z.eqb c) (codes "-+ #0").
(** A character that ends a conversion. *)
Definition is_conv (c : Z) : bool := negb (existsb (Z.eqb c) (codes "-+ #0123456789.*hlz")) && (0 <? c) && (c <? 256).
Record conv_ok (cv : conv) : Prop := {
  co_flags : Forall (fun c => is_flag c = true) (cflags cv);
  co_width : match cwidth cv with FNum n => 0 < n < 2 ^ 30 | _ => True end;
  co_prec : match cprec cv with Some (FNum n) => 0 <= n < 2 ^ 30 | _ => True end;
  co_char : is_conv (cchar cv) = true;
}.
Definition piece_ok (p : piece) : Prop :=
  match p with Lit c => c <> 0 /\ c <> ch "%" | Conv cv => conv_ok cv end.

(** ** Reading the pieces back *)
Definition at_text (m : bmem) (p : Z) (l : list Z) : Prop := forall i c, l !! i = Some c -> rd m (p + Z.of_nat i) = c.
Lemma at_text_cons m p c l : at_text m p (c :: l) <-> rd m p = c /\ at_text m (p + 1) l.
Proof.
  split.
  - intros H. split; [specialize (H 0%nat c eq_refl); by rewrite Z.add_0_r in H|]. intros i d Hi. specialize (H (S i) d Hi). rewrite <- H. f_equal. lia.
  - intros [H1 H2] [|i] d Hi; cbn in Hi; [injection Hi as <-; by rewrite Z.add_0_r|]. rewrite <- (H2 i d Hi). f_equal. lia.
Qed.
Lemma at_text_app m l k : forall p, at_text m p (l ++ k) <-> at_text m p l /\ at_text m (p + len l) k.
Proof.
  unfold len. induction l as [|c l IH]; intros p; cbn [app length].
  - rewrite Z.add_0_r. split; [by intros H|by intros []].
  - rewrite !at_text_cons, IH. replace (p + 1 + Z.of_nat (length l)) with (p + Z.of_nat (S (length l))) by lia. tauto.
Qed.
Lemma at_text_keeps lo end_ m m' p l : keeps lo end_ m m' -> safe lo end_ p (len l) -> at_text m p l -> at_text m' p l.
Proof. intros Hk Hs H i c Hi. pose proof (lookup_lt_Some _ _ _ Hi). rewrite Hk by (apply Hs; unfold len; lia). by apply H. Qed.
Definition is_digit (c : Z) : bool := existsb (Z.eqb c) (codes "0123456789").
Lemma isdigit_eq c : 0 <= c < 2 ^ 32 -> _ISDIGIT c = is_digit c.
Proof.
  intros Hc. assert (E : is_digit c = bool_decide (48 <= c <= 57)).
  { apply eq_true_iff_eq. rewrite bool_decide_eq_true. unfold is_digit. rewrite existsb_exists. setoid_rewrite Z.eqb_eq. split.
    - intros (x & Hx & ->). vm_compute in Hx. lia.
    - intros H. exists c. split; [|done]. change (In c [48; 49; 50; 51; 52; 53; 54; 55; 56; 57]). cbn. lia. }
  rewrite E. unfold _ISDIGIT. change (ch "0") with 48. apply eq_true_iff_eq. rewrite bool_decide_eq_true, Z.ltb_lt. unfold u32.
  destruct (decide (48 <= c)); [rewrite Z.mod_small by lia; lia|]. rewrite <- (Z.mod_add _ 1), Z.mod_small by lia. lia.
Qed.

(** The classes of characters the reader distinguishes. *)
Definition byte (c : Z) : Prop := 0 <= c < 256.
Lemma conv_class c : is_conv c = true ->
  0 < c < 256 /\ is_flag c = false /\ is_digit c = false /\ (c =? ch ".") = false /\ (c =? ch "*") = false /\
  (c =? ch "h") = false /\ (c =? ch "l") = false /\ (c =? ch "z") = false.
Proof.
  unfold is_conv. rewrite !andb_true_iff, negb_true_iff, Z.ltb_lt, Z.ltb_lt. intros [[H H1] H2].
  assert (Hall : forall x, In x (codes "-+ #0123456789.*hlz") -> c <> x).
  { intros x Hx ->. assert (E : existsb (Z.eqb x) (codes "-+ #0123456789.*hlz") = true) by (apply existsb_exists; exists x; split; [done|apply Z.eqb_refl]). congruence. }
  assert (Hsub : forall l, (forall x, In x l -> In x (codes "-+ #0123456789.*hlz")) -> existsb (Z.eqb c) l = false).
  { intros l Hl. apply not_true_iff_false. rewrite existsb_exists. intros (x & Hx & E%Z.eqb_eq). by apply (Hall x (Hl x Hx)). }
  split; [lia|]. split; [apply Hsub; intros x Hx; vm_compute in Hx |- *; tauto|]. split; [apply Hsub; intros x Hx; vm_compute in Hx |- *; tauto|].
  repeat split; apply Z.eqb_neq, Hall; vm_compute; tauto.
Qed.
Lemma flags_loop_ok m fl c fuel : forall fmt flags, Forall (fun c => is_flag c = true) fl -> at_text m (fmt + 1) (fl ++ [c]) -> is_flag c = false -> (length fl < fuel)%nat ->
  flags_loop fuel m fmt flags = Some (fmt + 1 + len fl, foldl (fun f c => Z.lor f (flag_of c)) flags fl).
Proof.
  unfold len. revert fuel. induction fl as [|d fl IH]; intros [|f] fmt flags Hfl Hat Hc Hf; cbn [length] in *; try lia; cbn [app] in Hat; apply at_text_cons in Hat as [Hd Hat]; cbn [flags_loop]; rewrite Hd.
  - unfold is_flag in Hc. cbn [codes map existsb list_ascii_of_string] in Hc. rewrite !orb_false_iff in Hc. destruct Hc as (-> & -> & -> & -> & -> & _). f_equal. f_equal. lia.
  - apply Forall_cons in Hfl as [Hfd Hfl]. pose proof (fun flags => IH f (fmt + 1) flags Hfl Hat Hc ltac:(lia)) as IH'.
    replace (fmt + 1 + Z.of_nat (S (length fl))) with (fmt + 1 + 1 + Z.of_nat (length fl)) by lia. cbn [foldl]. rewrite <- IH'. unfold flag_of.
    unfold is_flag in Hfd. cbn [codes map existsb list_ascii_of_string] in Hfd.
    destruct (d =? ch "-"); [done|]. destruct (d =? ch "+"); [done|]. destruct (d =? ch " "); [done|]. destruct (d =? ch "#"); [done|]. destruct (d =? ch "0"); [done|]. done.
Qed.

Lemma digit_char d : 0 <= d < 10 -> nth (Z.to_nat d) small_digits 0 = d + 48 /\ is_digit (d + 48) = true.
Proof.
  intros Hd. assert (Ex : exists k, (k <= 9)%nat /\ d = Z.of_nat k) by (exists (Z.to_nat d); lia). destruct Ex as (k & Hk & ->). rewrite Nat2Z.id. clear Hd.
  do 10 (destruct k as [|k]; [vm_compute; done|]). lia.
Qed.
(** Decimal digits are read back as their value. *)
Lemma skip_atoi_loop_ok m l c fuel : forall s i, Forall (fun c => exists d, 0 <= d < 10 /\ c = nth (Z.to_nat d) small_digits 0) l ->
  at_text m s (l ++ [c]) -> 0 <= c < 256 -> is_digit c = false -> (length l < fuel)%nat ->
  0 <= i -> foldl (fun a c => a * 10 + digit_val c) i l < 2 ^ 31 ->
  skip_atoi_loop fuel m s i = Some (s + len l, foldl (fun a c => a * 10 + digit_val c) i l).
Proof.
  unfold len. revert fuel. induction l as [|d l IH]; intros [|f] s i Hl Hat Hb Hc Hf Hi Hv; cbn [length] in *; try lia; cbn [app] in Hat; apply at_text_cons in Hat as [Hd Hat]; cbn [skip_atoi_loop]; rewrite Hd.
  - rewrite isdigit_eq, Hc by lia. cbn [foldl]. do 2 f_equal. lia.
  - apply Forall_cons in Hl as [(x & Hx & ->) Hl]. destruct (digit_val_nth false x ltac:(lia)) as [Hval _]. cbn [foldl] in *. unfold digits_of in Hval. rewrite Hval in Hv |- *.
    destruct (digit_char x Hx) as [E Ed]. rewrite E.
    rewrite isdigit_eq, Ed by lia. change (ch "0") with 48.
    assert (Hge : i * 10 + x <= foldl (fun a c => a * 10 + digit_val c) (i * 10 + x) l).
    { assert (Hpos : 0 <= i * 10 + x) by lia. revert Hpos Hl. generalize (i * 10 + x). clear. induction l as [|e l IH]; intros a Ha Hl; [cbn; lia|]. cbn [foldl].
      apply Forall_cons in Hl as [(y & Hy & ->) Hl]. destruct (digit_val_nth false y ltac:(lia)) as [Hval _]. unfold digits_of in Hval. rewrite Hval. specialize (IH (a * 10 + y) ltac:(lia) Hl). lia. }
    replace (i * 10 + (x + 48) - 48) with (i * 10 + x) by lia. rewrite i32_small by lia.
    rewrite (IH f (s + 1) (i * 10 + x)) by (done || lia). do 2 f_equal. lia.
Qed.
Lemma skip_atoi_ok m n c fuel s : 0 <= n < 2 ^ 31 -> at_text m s (numeral false 10 n ++ [c]) -> 0 <= c < 256 -> is_digit c = false -> (length (numeral false 10 n) < fuel)%nat ->
  skip_atoi fuel m s = Some (s + len (numeral false 10 n), n).
Proof.
  intros Hn Hat Hb Hc Hf. destruct (numeral_ok false 10 n ltac:(lia) ltac:(lia)) as (Hv & _ & _ & Hd). unfold value in Hv.
  unfold skip_atoi. rewrite (skip_atoi_loop_ok m _ c) by (done || rewrite ?Hv; lia). by rewrite Hv.
Qed.

Lemma numeral_head m n fmt l : 0 <= n < 2 ^ 32 -> at_text m fmt (numeral false 10 n ++ l) -> _ISDIGIT (rd m fmt) = true.
Proof.
  intros Hn Hat. destruct (numeral_ok false 10 n ltac:(lia) Hn) as (_ & Hlen & _ & Hall). destruct (numeral false 10 n) as [|x k]; [cbn in Hlen; lia|].
  apply at_text_cons in Hat as [-> _]. apply Forall_cons in Hall as [(d & Hd & ->) _]. destruct (digit_char d Hd) as [E Ed]. unfold digits_of. by rewrite E, isdigit_eq by lia.
Qed.

(** ** What pieces mean *)
Inductive arg := AInt (w : Z) | AStr (l : list Z) | ANull | ADouble.
Definition int_arg (args : list arg) : option (Z * list arg) :=
  match args with AInt w :: args => Some (w, args) | _ => None end.
Definition small (v : Z) : bool := (- 2 ^ 30 <? v) && (v <? 2 ^ 30).
(** The number in a field, -1 when it is left out; from an argument it has to be
    small. *)
Definition field_value (f : field) (args : list arg) : option (Z * list arg) :=
  match f with
  | FNone => Some (-1, args)
  | FNum n => Some (n, args)
  | FStar => '(w, args) ← int_arg args; if small (i32 w) then Some (i32 w, args) else None
  end.
Definition width_value (cv : conv) (args : list arg) : option (Z * Z * list arg) :=
  '(v, args) ← field_value (cwidth cv) args;
  Some match cwidth cv with
       | FStar => if v <? 0 then (Z.lor (flags_of (cflags cv)) LEFT, - v, args) else (flags_of (cflags cv), v, args)
       | _ => (flags_of (cflags cv), v, args)
       end.
Definition prec_value (cv : conv) (args : list arg) : option (Z * list arg) :=
  match cprec cv with
  | None => Some (-1, args)
  | Some f => '(v, args) ← field_value f args; Some (Z.max 0 v, args)
  end.
Definition result (t w p q c : Z) (args : list arg) : option (list Z * list arg) :=
  if c =? ch "c" then '(x, args) ← int_arg args; Some (char_text t w (u8 x), args)
  else if c =? ch "s" then
    match args with
    | AStr l :: args => Some (string_text t w p l, args)
    | ANull :: args => Some (string_text t w p (codes "(NULL)"), args)
    | _ => None
    end
  else if c =? ch "p" then
    '(x, args) ← int_arg args;
    Some (if w =? -1 then number_text (Z.lor (Z.lor t SPECIAL) ZEROPAD) 10 p 16 0 (u32 x) else number_text t w p 16 0 (u32 x), args)
  else if c =? ch "%" then Some (codes "%", args)
  else
    match number_format c t with
    | Some (base, t) =>
        '(x, args) ← int_arg args;
        Some (if has_flag t SIGN
              then let v := signed_value q x in number_text t w p base (sign_char t v) (Z.abs v)
              else number_text t w p base 0 (unsigned_value q x), args)
    | None =>
        if is_float c then match args with ADouble :: args => Some ([ch "%"; c], args) | _ => None end
        else Some ([ch "%"; c], args)
    end.
Definition conv_meaning (cv : conv) (args : list arg) : option (list Z * list arg) :=
  '(t, w, args) ← width_value cv args;
  '(p, args) ← prec_value cv args;
  result t w p (qual_code (cqual cv)) (cchar cv) args.
Fixpoint meaning (ps : list piece) (args : list arg) : option (list Z) :=
  match ps with
  | [] => Some []
  | Lit c :: ps => cons c <$> meaning ps args
  | Conv cv :: ps => '(l, args) ← conv_meaning cv args; app l <$> meaning ps args
  end.

(** The arguments as the caller passes them; strings lie outside the buffer. *)
Section rep.
Context (lo end_ : Z) (fuel : nat).
Definition arg_rep (m : bmem) (a : arg) (v : va) : Prop :=
  match a, v with
  | AInt w, Word x => x = w
  | AStr l, Word s => s <> 0 /\ cstr m s l /\ (len l < 2 ^ 30 /\ (length l < fuel)%nat) /\ safe lo end_ s (len l + 1)
  | ANull, Word s => s = 0
  | ADouble, Double => True
  | _, _ => False
  end.
Definition args_rep (m : bmem) : list arg -> list va -> Prop := Forall2 (arg_rep m).
Lemma arg_rep_keeps m m' a v : keeps lo end_ m m' -> arg_rep m a v -> arg_rep m' a v.
Proof.
  intros Hk. destruct a as [w|l| |], v as [x|]; cbn; try done. intros (H1 & [H2 H3] & H4 & H5). split; [done|]. split; [|done].
  constructor.
  - intros i c Hi. pose proof (lookup_lt_Some _ _ _ Hi). rewrite Hk by (apply H5; unfold len; lia). by apply H2.
  - rewrite Hk by (apply H5; unfold len; lia). done.
Qed.
Lemma args_rep_keeps m m' args vs : keeps lo end_ m m' -> args_rep m args vs -> args_rep m' args vs.
Proof. intros Hk Hr. eapply Forall2_impl; [exact Hr|]. intros a v. by apply arg_rep_keeps. Qed.
Lemma int_arg_rep m args vs w args' : args_rep m args vs -> int_arg args = Some (w, args') ->
  exists vs', va_arg vs = Some (w, vs') /\ args_rep m args' vs'.
Proof.
  intros Hr E. destruct args as [|[x| | |] args]; try done. injection E as <- <-. apply Forall2_cons_inv_l in Hr as ([y|] & vs' & Hx & Hr & ->); [|done].
  cbn in Hx. subst y. by exists vs'.
Qed.
Lemma field_star_rep m args vs v args' : args_rep m args vs -> field_value FStar args = Some (v, args') ->
  exists w vs', va_arg vs = Some (w, vs') /\ v = i32 w /\ - 2 ^ 30 < v < 2 ^ 30 /\ args_rep m args' vs'.
Proof.
  intros Hr E. unfold field_value in E. apply bind_Some in E as ([w args1] & E1 & E). destruct (small (i32 w)) eqn:Es; [|done]. injection E as <- <-.
  destruct (int_arg_rep _ _ _ _ _ Hr E1) as (vs' & E2 & Hr'). exists w, vs'. split; [done|]. split; [done|]. split; [|done].
  apply andb_true_iff in Es as [?%Z.ltb_lt ?%Z.ltb_lt]. done.
Qed.

(** What follows a field starts with [c]. *)
Lemma get_width_ok m cv c fmt args vs t w args' : conv_ok cv -> args_rep m args vs -> width_value cv args = Some (t, w, args') ->
  at_text m fmt (field_text (cwidth cv) ++ [c]) -> 0 <= c < 256 -> is_digit c = false -> (c =? ch "*") = false -> (length (field_text (cwidth cv)) < fuel)%nat ->
  exists vs', get_width fuel m fmt (flags_of (cflags cv)) vs = Some (fmt + len (field_text (cwidth cv)), t, w, vs') /\ args_rep m args' vs' /\ -1 <= w < 2 ^ 30.
Proof.
  intros [_ Hw _ _] Hr E Hat Hb Hd Hs Hf. unfold width_value in E. unfold get_width. destruct (cwidth cv) as [|n|].
  - injection E as <- <- <-. apply at_text_cons in Hat as [Hc _]. rewrite Hc, isdigit_eq, Hd, Hs by lia. exists vs. cbn [field_text len length]. rewrite Z.add_0_r. split; [done|]. split; [done|lia].
  - injection E as <- <- <-. pose proof (skip_atoi_ok m n c fuel fmt ltac:(lia) Hat Hb Hd Hf) as Hsk.
    rewrite (numeral_head m n fmt [c]) by (done || lia). rewrite Hsk. exists vs. split; [done|]. split; [done|lia].
  - apply bind_Some in E as ([v args1] & E1 & E). destruct (field_star_rep _ _ _ _ _ Hr E1) as (x & vs' & Eva & -> & Hv & Hr').
    apply at_text_cons in Hat as [-> _]. change (_ISDIGIT (ch "*")) with false. change (ch "*" =? ch "*") with true. cbv iota. rewrite Eva. cbn [mbind option_bind]. exists vs'.
    destruct (Z.ltb_spec (i32 x) 0); injection E as <- <- <-; (split; [|split; [done|lia]]).
    + by rewrite (i32_small (- i32 x)) by lia.
    + done.
Qed.

Lemma get_precision_ok m cv c fmt args vs p args' : conv_ok cv -> args_rep m args vs -> prec_value cv args = Some (p, args') ->
  at_text m fmt (prec_text (cprec cv) ++ [c]) -> 0 <= c < 256 -> is_digit c = false -> (c =? ch "*") = false -> (c =? ch ".") = false -> (length (prec_text (cprec cv)) < fuel)%nat ->
  exists vs', get_precision fuel m fmt vs = Some (fmt + len (prec_text (cprec cv)), p, vs') /\ args_rep m args' vs' /\ -1 <= p < 2 ^ 30.
Proof.
  intros [_ _ Hp _] Hr E Hat Hb Hd Hs Hdot Hf. unfold prec_value in E. unfold get_precision. destruct (cprec cv) as [f|].
  2:{ injection E as <- <-. apply at_text_cons in Hat as [-> _]. rewrite Hdot. exists vs. cbn [prec_text len length]. rewrite Z.add_0_r. split; [done|]. split; [done|lia]. }
  cbn [prec_text app] in Hat. apply at_text_cons in Hat as [-> Hat]. change (ch "." =? ch ".") with true. cbv iota. cbn [prec_text length] in Hf.
  apply bind_Some in E as ([v args1] & E1 & E). injection E as <- <-. cbn [prec_text]. replace (fmt + len (ch "." :: field_text f)) with (fmt + 1 + len (field_text f)) by (unfold len; cbn [length]; lia).
  destruct f as [|n|].
  - injection E1 as <- <-. apply at_text_cons in Hat as [Hc _]. rewrite Hc, isdigit_eq, Hd, Hs by lia. exists vs. cbn. rewrite Z.add_0_r. split; [done|]. split; [done|lia].
  - injection E1 as <- <-. rewrite (numeral_head m n (fmt + 1) [c]) by (done || lia). cbn [field_text] in Hat, Hf.
    rewrite (skip_atoi_ok m n c fuel (fmt + 1)) by (done || lia). cbn [mbind option_bind]. exists vs. destruct (Z.ltb_spec n 0); [lia|]. rewrite Z.max_r by lia. split; [done|]. split; [done|lia].
  - destruct (field_star_rep _ _ _ _ _ Hr E1) as (x & vs' & Eva & -> & Hv & Hr'). apply at_text_cons in Hat as [-> _].
    change (_ISDIGIT (ch "*")) with false. change (ch "*" =? ch "*") with true. cbv iota. rewrite Eva. cbn [mbind option_bind]. exists vs'.
    split; [|split; [done|lia]]. destruct (Z.ltb_spec (i32 x) 0); [by rewrite Z.max_l by lia|by rewrite Z.max_r by lia].
Qed.
Lemma get_qualifier_ok m q c fmt : at_text m fmt (qual_text q ++ [c]) -> is_conv c = true ->
  get_qualifier m fmt = (fmt + len (qual_text q), qual_code q).
Proof.
  intros Hat (_ & _ & _ & _ & _ & Hh & Hl & Hz)%conv_class. unfold get_qualifier, len.
  destruct q; cbn [qual_text codes map list_ascii_of_string app length] in Hat |- *; repeat (apply at_text_cons in Hat as [-> Hat]).
  - rewrite Hh, Hl, Hz. cbn. by rewrite Z.add_0_r.
  - change (ch "h" =? ch "h") with true. cbn [orb andb]. by rewrite Hh.
  - change (ch "h" =? ch "h") with true. cbn [orb andb]. done.
  - change (ch "l" =? ch "h") with false. change (ch "l" =? ch "l") with true. done.
  - change (ch "z" =? ch "h") with false. change (ch "z" =? ch "l") with false. change (ch "z" =? ch "z") with true. done.
Qed.

Lemma number_format_cases c t base t' : number_format c t = Some (base, t') ->
  (base = 2 \/ base = 8 \/ base = 10 \/ base = 16).
Proof. unfold number_format. repeat case_match; intros; simplify_eq; lia. Qed.
(** What stands behind a field does not continue it. *)
Lemma qual_head q c : is_conv c = true -> exists d r, qual_text q ++ [c] = d :: r /\ 0 <= d < 256 /\ is_flag d = false /\ is_digit d = false /\ (d =? ch "*") = false /\ (d =? ch ".") = false.
Proof.
  intros (Hb & Hfl & Hdg & Hdot & Hst & _)%conv_class.
  destruct q; [exists c, []; split; [done|]; split; [lia|done]|..]; (eexists _, _; split; [reflexivity|by vm_compute]).
Qed.
Lemma prec_head p q c : is_conv c = true -> exists d r, prec_text p ++ qual_text q ++ [c] = d :: r /\ 0 <= d < 256 /\ is_flag d = false /\ is_digit d = false /\ (d =? ch "*") = false.
Proof.
  intros Hc. destruct p as [f|]; [eexists _, _; split; [reflexivity|by vm_compute]|].
  destruct (qual_head q c Hc) as (d & r & E & H1 & H2 & H3 & H4 & _). exists d, r. done.
Qed.
Lemma width_head cv : conv_ok cv -> exists d r, field_text (cwidth cv) ++ prec_text (cprec cv) ++ qual_text (cqual cv) ++ [cchar cv] = d :: r /\ is_flag d = false.
Proof.
  intros [_ Hw _ Hc]. destruct (cwidth cv) as [|n|].
  - destruct (prec_head (cprec cv) (cqual cv) _ Hc) as (d & r & E & _ & H & _). by exists d, r.
  - destruct (numeral_ok false 10 n ltac:(lia) ltac:(lia)) as (_ & Hlen & Hz & Hall). cbn [field_text]. destruct (numeral false 10 n) as [|x k]; [cbn in Hlen; lia|].
    eexists _, _. split; [reflexivity|]. apply Forall_cons in Hall as [(d & Hd & ->) _]. specialize (Hz ltac:(lia)). cbn [hd digits_of] in *.
    destruct (digit_char d Hd) as [E _]. rewrite E in *. clear E. change (ch "0") with 48 in Hz. apply not_true_iff_false. unfold is_flag. rewrite existsb_exists.
    intros (y & Hy & E%Z.eqb_eq). vm_compute in Hy. lia.
  - eexists _, _. split; [reflexivity|done].
Qed.
Lemma parse_ok cv m fmt args vs t w p args1 args2 : conv_ok cv -> args_rep m args vs -> width_value cv args = Some (t, w, args1) -> prec_value cv args1 = Some (p, args2) ->
  at_text m fmt (conv_text cv) -> (length (conv_text cv) < fuel)%nat ->
  exists vs1 vs2 fmt2 fmt3, flags_loop fuel m fmt 0 = Some (fmt + 1 + len (cflags cv), flags_of (cflags cv)) /\
    get_width fuel m (fmt + 1 + len (cflags cv)) (flags_of (cflags cv)) vs = Some (fmt2, t, w, vs1) /\
    get_precision fuel m fmt2 vs1 = Some (fmt3, p, vs2) /\
    get_qualifier m fmt3 = (fmt + len (conv_text cv) - 1, qual_code (cqual cv)) /\
    rd m (fmt + len (conv_text cv) - 1) = cchar cv /\ args_rep m args2 vs2 /\ -1 <= w < 2 ^ 30 /\ -1 <= p < 2 ^ 30.
Proof.
  intros Hok Hr E1 E2 Hat Hf. pose proof (co_char _ Hok) as Hc.
  assert (Elen : len (conv_text cv) = 1 + len (cflags cv) + len (field_text (cwidth cv)) + len (prec_text (cprec cv)) + len (qual_text (cqual cv)) + 1).
  { unfold conv_text, len. cbn [length]. rewrite !length_app. cbn [length]. lia. }
  unfold conv_text in Hat, Hf. cbn [length] in Hf. rewrite !length_app in Hf. apply at_text_cons in Hat as [_ Hat].
  destruct (width_head cv Hok) as (d1 & r1 & H1 & Hd1). destruct (prec_head (cprec cv) (cqual cv) _ Hc) as (d2 & r2 & H2 & B2 & _ & D2 & S2).
  destruct (qual_head (cqual cv) _ Hc) as (d3 & r3 & H3 & B3 & _ & D3 & S3 & P3).
  assert (A1 : at_text m (fmt + 1) (cflags cv ++ [d1])).
  { rewrite H1, (app_assoc _ [d1] r1) in Hat. by apply at_text_app in Hat as [? _]. }
  apply at_text_app in Hat as [_ Hat].
  assert (A2 : at_text m (fmt + 1 + len (cflags cv)) (field_text (cwidth cv) ++ [d2])).
  { rewrite H2, (app_assoc _ [d2] r2) in Hat. by apply at_text_app in Hat as [? _]. }
  apply at_text_app in Hat as [_ Hat].
  assert (A3 : at_text m (fmt + 1 + len (cflags cv) + len (field_text (cwidth cv))) (prec_text (cprec cv) ++ [d3])).
  { rewrite H3, (app_assoc _ [d3] r3) in Hat. by apply at_text_app in Hat as [? _]. }
  apply at_text_app in Hat as [_ Hat].
  destruct (get_width_ok m cv d2 _ args vs t w args1 Hok Hr E1 A2 B2 D2 S2 ltac:(lia)) as (vs1 & G1 & Hr1 & Hw).
  destruct (get_precision_ok m cv d3 _ args1 vs1 p args2 Hok Hr1 E2 A3 B3 D3 S3 P3 ltac:(lia)) as (vs2 & G2 & Hr2 & Hp).
  eexists vs1, vs2, _, _. split; [by apply (flags_loop_ok m (cflags cv) d1 fuel fmt 0 (co_flags _ Hok) A1 Hd1); lia|]. split; [exact G1|]. split; [exact G2|].
  split; [|split; [|done]].
  - rewrite (get_qualifier_ok _ _ _ _ Hat Hc). f_equal. lia.
  - apply at_text_app in Hat as [_ Hat]. apply at_text_cons in Hat as [Hat _]. rewrite <- Hat. f_equal. lia.
Qed.

Lemma flags_sign l : forall f, has_flag f SIGN = false -> has_flag (foldl (fun f c => Z.lor f (flag_of c)) f l) SIGN = false.
Proof.
  induction l as [|c l IH]; intros f Hf; [done|]. apply IH. change SIGN with (2 ^ 1) in *. unfold flag_of.
  assert (Hs : forall i, 0 <= i -> i <> 1 -> has_flag (Z.lor f (2 ^ i)) (2 ^ 1) = false).
  { intros i Hi Hne. rewrite has_flag_set, Hf by lia. cbn [orb]. by apply Z.eqb_neq. }
  repeat case_match; [by apply (Hs 4)|by apply (Hs 2)|by apply (Hs 3)|by apply (Hs 5)|by apply (Hs 0)].
Qed.
Lemma has_flag_sign_lor f i : has_flag f SIGN = false -> 0 <= i -> i <> 1 -> has_flag (Z.lor f (2 ^ i)) SIGN = false.
Proof. intros Hf Hi Hne. change SIGN with (2 ^ 1) in *. rewrite has_flag_set, Hf by lia. cbn [orb]. by apply Z.eqb_neq. Qed.
Lemma width_value_sign cv args t w args' : width_value cv args = Some (t, w, args') -> has_flag t SIGN = false.
Proof.
  unfold width_value. intros ([v args1] & _ & E)%bind_Some. pose proof (flags_sign (cflags cv) 0 eq_refl) as H. fold (flags_of (cflags cv)) in H.
  destruct (cwidth cv); [by injection E as <- _ _|by injection E as <- _ _|]. destruct (v <? 0); injection E as <- _ _; [|done]. by apply (has_flag_sign_lor _ 4).
Qed.
Lemma convert_ok c t w p q o fmt args vs l args' : rd (omem o) fmt = c -> c <> 0 -> has_flag t SIGN = false -> args_rep (omem o) args vs ->
  -1 <= w < 2 ^ 30 -> -1 <= p < 2 ^ 30 -> lo <= str o -> (8 <= fuel)%nat -> result t w p q c args = Some (l, args') ->
  exists vs', convert fuel end_ fmt t w p q vs o = Some (fmt + 1, vs', put_all end_ l o) /\ args_rep (omem o) args' vs'.
Proof.
  intros Hc Hc0 HS Hr Hw Hp Ho H8 E. unfold convert. rewrite Hc. unfold result in E. clear Hc.
  destruct (c =? ch "c").
  { apply bind_Some in E as ([x args1] & E1 & [= <- <-]). destruct (int_arg_rep _ _ _ _ _ Hr E1) as (vs' & -> & Hr'). exists vs'. cbn. by rewrite print_c_eq. }
  destruct (c =? ch "s").
  { destruct args as [|[|k| |] args]; try done; injection E as <- <-; apply Forall2_cons_inv_l in Hr as ([s|] & vs' & Hx & Hr & ->); try done; cbn in Hx; exists vs'; cbn [va_arg mbind option_bind].
    - destruct Hx as (H1 & H2 & [H3 H4] & H5). by rewrite (print_s_eq lo end_ s k) by first [lia|done|by apply cstr_string_at|by right].
    - subst s. by rewrite (print_s_eq lo end_ 0 (codes "(NULL)")) by first [lia|done|apply null_string_at|by left|cbn; lia]. }
  destruct (c =? ch "p").
  { apply bind_Some in E as ([x args1] & E1 & [= <- <-]). destruct (int_arg_rep _ _ _ _ _ Hr E1) as (vs' & Ev & Hr'). exists vs'. pose proof (u32_between x).
    destruct (w =? -1); rewrite Ev; cbn [mbind option_bind].
    - rewrite (print_number_eq _ _ _ _ _ _ _ _ 0 (u32 x)); [done|lia|lia|lia| |done]. apply get_sign_unsigned. apply (has_flag_sign_lor _ 0); [|lia|lia]. by apply (has_flag_sign_lor _ 5).
    - rewrite (print_number_eq _ _ _ _ _ _ _ _ 0 (u32 x)); [done|lia|lia|lia| |done]. by apply get_sign_unsigned. }
  destruct (c =? ch "%"); [injection E as <- <-; by exists vs|].
  destruct (number_format c t) as [[base t']|] eqn:En.
  - apply bind_Some in E as ([x args1] & E1 & [= <- <-]). destruct (int_arg_rep _ _ _ _ _ Hr E1) as (vs' & -> & Hr'). exists vs'. cbn [mbind option_bind]. split; [|done].
    apply number_format_cases in En. destruct (has_flag t' SIGN) eqn:Es.
    + destruct (signed_value_range q x). rewrite (print_number_eq _ _ _ _ _ _ _ _ _ _ En Hw Hp (get_sign_signed q t' x Es)); [done|lia].
    + rewrite get_num_unsigned by done. pose proof (unsigned_value_range q x) as Hu. by rewrite (print_number_eq _ _ _ _ _ _ _ _ _ _ En Hw Hp (get_sign_unsigned _ q t' Es) Hu).
  - destruct (Z.eqb_spec c 0); [done|]. cbn [negb]. destruct (is_float c).
    + destruct args as [|[| | |] args]; try done. injection E as <- <-. apply Forall2_cons_inv_l in Hr as ([|] & vs' & Hx & Hr & ->); [done|]. by exists vs'.
    + injection E as <- <-. by exists vs.
Qed.
Lemma directive_ok cv o fmt args vs l args' : conv_ok cv -> args_rep (omem o) args vs -> conv_meaning cv args = Some (l, args') ->
  at_text (omem o) fmt (conv_text cv) -> lo <= str o -> (length (conv_text cv) < fuel)%nat -> (8 <= fuel)%nat ->
  exists vs', directive fuel end_ fmt vs o = Some (fmt + len (conv_text cv), vs', put_all end_ l o) /\ args_rep (omem o) args' vs'.
Proof.
  intros Hok Hr E Hat Ho Hf H8. unfold conv_meaning in E. apply bind_Some in E as ([[t w] args1] & E1 & E). apply bind_Some in E as ([p args2] & E2 & E).
  destruct (parse_ok cv (omem o) fmt args vs t w p args1 args2 Hok Hr E1 E2 Hat Hf) as (vs1 & vs2 & fmt2 & fmt3 & G1 & G2 & G3 & G4 & Hc & Hr2 & Hw & Hp).
  unfold directive. rewrite G1. cbn [mbind option_bind]. rewrite G2. cbn [mbind option_bind]. rewrite G3. cbn [mbind option_bind]. rewrite G4.
  pose proof (conv_class _ (co_char _ Hok)) as (Hb & _).
  destruct (convert_ok (cchar cv) t w p (qual_code (cqual cv)) o _ args2 vs2 l args' Hc ltac:(lia) (width_value_sign _ _ _ _ _ E1) Hr2 Hw Hp Ho H8 E) as (vs' & -> & Hr').
  exists vs'. split; [|done]. do 3 f_equal. lia.
Qed.
Lemma format_loop_ok ps : forall n o fmt args vs l, Forall piece_ok ps -> args_rep (omem o) args vs -> meaning ps args = Some l ->
  at_text (omem o) fmt (format_text ps ++ [0]) -> safe lo end_ fmt (len (format_text ps) + 1) -> lo <= str o ->
  (length (format_text ps) < n)%nat -> (length (format_text ps) < fuel)%nat -> (8 <= fuel)%nat ->
  format_loop n fuel end_ fmt vs o = Some (put_all end_ l o).
Proof.
  induction ps as [|pc ps IH]; intros [|n] o fmt args vs l Hps Hr E Hat Hsafe Ho Hn Hf H8; try lia.
  - injection E as <-. apply at_text_cons in Hat as [Hc _]. cbn [format_loop]. rewrite Hc. done.
  - apply Forall_cons in Hps as [Hpc Hps]. unfold format_text in Hat, Hsafe, Hn, Hf. rewrite fmap_cons in Hat, Hsafe, Hn, Hf. cbn [concat] in Hat, Hsafe, Hn, Hf. fold (format_text ps) in Hat, Hsafe, Hn, Hf.
    unfold len in Hsafe. rewrite length_app in Hsafe, Hn, Hf. rewrite <- app_assoc in Hat. cbn [format_loop]. destruct pc as [c|cv]; cbn [meaning] in E.
    + apply fmap_Some in E as (k & E & ->). destruct Hpc as [Hc0 Hc1]. apply at_text_cons in Hat as [-> Hat]. destruct (Z.eqb_spec c 0); [done|]. destruct (Z.eqb_spec c (ch "%")); [done|]. cbn [negb length] in *.
      assert (Hk : keeps lo end_ (omem o) (omem (put_char end_ c o))) by exact (put_all_keeps lo end_ [c] o Ho).
      rewrite (IH n (put_char end_ c o) (fmt + 1) args vs k); [done|done|by eapply args_rep_keeps|done| |intros q Hq; apply Hsafe; unfold len in Hq; lia|cbn; lia|lia|lia|lia].
      eapply at_text_keeps; [exact Hk| |exact Hat]. intros q Hq. apply Hsafe. unfold len in Hq. rewrite length_app in Hq. cbn in Hq. lia.
    + apply bind_Some in E as ([l1 args1] & E1 & E). apply fmap_Some in E as (k & E & ->). apply at_text_app in Hat as [Hat1 Hat2].
      pose proof Hat1 as [Hpc' _]%at_text_cons. rewrite Hpc'. change (ch "%" =? 0) with false. change (ch "%" =? ch "%") with true. cbn [negb].
      assert (Hlen : (2 <= length (conv_text cv))%nat) by (unfold conv_text; cbn [length]; rewrite !length_app; cbn [length]; lia).
      destruct (directive_ok cv o fmt args vs l1 args1 Hpc Hr E1 Hat1 Ho ltac:(lia) H8) as (vs1 & -> & Hr1). cbn [mbind option_bind].
      assert (Hk : keeps lo end_ (omem o) (omem (put_all end_ l1 o))) by by apply put_all_keeps.
      rewrite (IH n (put_all end_ l1 o) _ args1 vs1 k); [by rewrite put_all_app|done|by eapply args_rep_keeps|done| |intros q Hq; apply Hsafe; unfold len in Hq; lia|rewrite str_put_all; lia|lia|lia|lia].
      eapply at_text_keeps; [exact Hk| |exact Hat2]. intros q Hq. apply Hsafe. unfold len in Hq. rewrite length_app in Hq. cbn [length] in Hq. lia.
Qed.
End rep.


(** ** Numbers are read back *)
Definition plain (c : Z) : conv := {| cflags := []; cwidth := FNone; cprec := None; cqual := QNone; cchar := c |}.
Lemma number_text_plain base n : 2 <= base <= 16 -> 0 <= n < 2 ^ 32 -> number_text 0 (-1) (-1) base 0 n = numeral false base n.
Proof.
  intros Hb Hn. unfold number_text. cbn [has_flag Z.land negb Z.eqb sign_text app prefix_text]. change (has_flag 0 LARGE) with false. change (has_flag 0 LEFT) with false.
  change (has_flag 0 ZEROPAD) with false. change (has_flag 0 SPECIAL) with false. cbv iota. destruct (numeral_ok false base n Hb Hn) as (_ & Hlen & _).
  unfold zeros, spaces, len. rewrite !rep0 by (rewrite ?length_app; cbn [length]; lia). done.
Qed.
Lemma stored_text m m' p l : stored m m' p l -> at_text m' p l.
Proof.
  intros Hs i c Hi. pose proof (lookup_lt_Some _ _ _ Hi). rewrite Hs, decide_True by lia.
  replace (Z.to_nat (p + Z.of_nat i - p)) with i by lia. by rewrite nth_lookup, Hi.
Qed.

(** A number printed with ["%u"] into a buffer of more than 32 bytes is read back
    by [skip_atoi], up to its last digit. *)
Theorem snprintf_skip_atoi (fuel : nat) (m : bmem) (buf size fmt w : Z) :
  0 <= buf < 2 ^ 32 -> 32 < size -> buf + size < 2 ^ 32 -> cstr m fmt (codes "%u") -> safe buf (buf + size) fmt 3 ->
  (34 <= fuel)%nat -> 0 <= w < 2 ^ 31 ->
  exists m' n, rt_snprintf fuel m buf size fmt [Word w] = Some (m', n) /\ skip_atoi fuel m' buf = Some (buf + n, w).
Proof.
  intros Hb Hs Hov Hc Hsafe Hf Hw. assert (Hok : conv_ok (plain (ch "u"))) by (by constructor).
  destruct (numeral_ok false 10 w ltac:(lia) ltac:(lia)) as (_ & Hlen & _).
  assert (Em : meaning [Conv (plain (ch "u"))] [AInt w] = Some (numeral false 10 w)).
  { assert (Er : conv_meaning (plain (ch "u")) [AInt w] = Some (number_text 0 (-1) (-1) 10 0 (u32 w), [])) by reflexivity.
    cbn [meaning]. rewrite Er, u32_small, number_text_plain by lia. cbn [mbind option_bind meaning fmap option_fmap option_map]. by rewrite app_nil_r. }
  set (text := numeral false 10 w) in *.
  assert (Hroom : room buf size = size) by (unfold room; lia).
  pose proof (vsnprintf_run fuel m buf size fmt [Word w] text (put_all (buf + room buf size) text {| omem := m; str := buf |}) ltac:(lia) ltac:(lia)) as H.
  rewrite Hroom in H. destruct H as (m' & E & Hst); [|done|].
  { eapply (format_loop_ok buf _ fuel [Conv (plain (ch "u"))] fuel _ fmt [AInt w]); try done; [by repeat constructor|by repeat constructor| |cbn; lia|cbn; lia|lia].
    apply at_text_app. destruct Hc as [Hc He]. split; [intros i c Hi; by apply Hc|]. apply at_text_cons. by split. }
  exists m', (len text). unfold len in *. rewrite i32_small in E by lia. split; [exact E|].
  apply stored_text in Hst. unfold cut in Hst. destruct (Z.ltb_spec 0 size); [|lia]. rewrite take_ge in Hst by lia.
  subst text. rewrite (skip_atoi_ok m' w 0 fuel buf) by (done || lia). done.
Qed.

(** ** A call *)
Definition place (p : Z) (l : list Z) (m : bmem) : bmem := foldl (fun m ib => wr m (p + Z.of_nat ib.1) ib.2) m (zip (seq 0 (length l)) l).
(** ["%-5d|%05d|%#x|%s"] at 1000 and ["hello"] at 3000. *)
Definition pieces1 : list piece :=
  [Conv {| cflags := codes "-"; cwidth := FNum 5; cprec := None; cqual := QNone; cchar := ch "d" |}; Lit (ch "|");
   Conv {| cflags := codes "0"; cwidth := FNum 5; cprec := None; cqual := QNone; cchar := ch "d" |}; Lit (ch "|");
   Conv {| cflags := codes "#"; cwidth := FNone; cprec := None; cqual := QNone; cchar := ch "x" |}; Lit (ch "|");
   Conv (plain (ch "s"))].
Definition mem1 : bmem := place 1000 (codes "%-5d|%05d|%#x|%s") (place 3000 (codes "hello") ∅).
Definition args1 : list arg := [AInt 42; AInt (2 ^ 32 - 42); AInt 255; AStr (codes "hello")].
Lemma pieces1_text : format_text pieces1 = codes "%-5d|%05d|%#x|%s" /\ meaning pieces1 args1 = Some (codes "42   |-0042|0xff|hello").
Proof. split; vm_compute; reflexivity. Qed.
Lemma pieces1_ok : Forall piece_ok pieces1.
Proof.
  assert (Hlit : ch "|" <> 0 /\ ch "|" <> ch "%") by by vm_compute.
  assert (Hc : forall fl w c, Forall (fun c => is_flag c = true) (codes fl) -> is_conv (ch c) = true -> match w with FNum n => 0 < n < 2 ^ 30 | _ => True end ->
    conv_ok {| cflags := codes fl; cwidth := w; cprec := None; cqual := QNone; cchar := ch c |}) by by constructor.
  repeat (apply Forall_cons; split; [first [exact Hlit | apply Hc; [by repeat constructor|by vm_compute|first [exact I|lia]] | by apply (Hc EmptyString FNone "s"%char)]|]). done.
Qed.
Definition cstrb (m : bmem) (p : Z) (l : list Z) : bool :=
  forallb (fun ic => (rd m (p + Z.of_nat ic.1) =? ic.2) && negb (ic.2 =? 0)) (zip (seq 0 (length l)) l) && (rd m (p + len l) =? 0).
Lemma cstrb_spec m p l : cstrb m p l = true -> cstr m p l.
Proof.
  intros [H1 H2]%andb_true_iff. constructor; [|by apply Z.eqb_eq]. intros i c Hi. rewrite forallb_forall in H1.
  assert (Hin : In (i, c) (zip (seq 0 (length l)) l)).
  { apply list_elem_of_In, (list_elem_of_lookup_2 _ i). rewrite lookup_zip_with, lookup_seq_lt, Hi by (by eapply lookup_lt_Some). done. }
  specialize (H1 _ Hin) as [E1%Z.eqb_eq E2%negb_true_iff%Z.eqb_neq]%andb_true_iff. done.
Qed.
Lemma snprintf_skip_atoi_witness :
  exists m' n, rt_snprintf 40 (place 1000 (codes "%u") ∅) 5000 64 1000 [Word 65535] = Some (m', n) /\ skip_atoi 40 m' 5000 = Some (5000 + n, 65535).
Proof.
  apply (snprintf_skip_atoi 40 (place 1000 (codes "%u") ∅) 5000 64 1000 65535); try lia; [apply cstrb_spec; vm_compute; reflexivity|]. intros q Hq. lia.
Defined.

(** ** Where the conversions differ from those of C *)
(** A precision of 0 prints no digits, whatever the number is. *)
Lemma zero_precision : meaning [Conv {| cflags := []; cwidth := FNone; cprec := Some (FNum 0); cqual := QNone; cchar := ch "d" |}] [AInt 5] = Some [].
Proof. vm_compute. reflexivity. Qed.
(** ["%hhu"] extends the sign. *)
Lemma unsigned_char_sign :
  meaning [Conv {| cflags := []; cwidth := FNone; cprec := None; cqual := Qhh; cchar := ch "u" |}] [AInt 200] = Some (codes "4294967240").
Proof. vm_compute. reflexivity. Qed.
(** The width cuts a string. *)
Lemma width_cuts :
  meaning [Conv {| cflags := []; cwidth := FNum 3; cprec := None; cqual := QNone; cchar := ch "s" |}] [AStr (codes "hello")] = Some (codes "hel").
Proof. vm_compute. reflexivity. Qed.
(** A precision of 0 prints all of a string. *)
Lemma string_zero_precision :
  meaning [Conv {| cflags := []; cwidth := FNone; cprec := Some FNone; cqual := QNone; cchar := ch "s" |}] [AStr (codes "hello")] = Some (codes "hello").
Proof. vm_compute. reflexivity. Qed.
