(* ===== verification/DfsPath.v ===== *)
(** * Path names ([dfs_normalize_path] and [dfs_subdir] of
    [src/rt-thread/components/dfs/dfs_v1/src/dfs.c])

    A string is the list of its bytes.  [dfs_normalize_path] works in place on the
    buffer [fullpath], a list of bytes with a terminator; [src] and [dst] are
    indices into it. *)
From Stdlib Require Import Ascii String.
From S2P Require Import Prelude KStdio.

Definition slash : Z := ch "/".
Definition dot : Z := ch ".".
Definition at_ (b : list Z) (i : Z) : Z := nth (Z.to_nat i) b 0.
Definition store (b : list Z) (i c : Z) : list Z := <[Z.to_nat i := c]> b.

(** Copying up to the next slash or the terminator, which is [c] then; [src] is
    behind it. *)
Fixpoint copy_loop (fuel : nat) (b : list Z) (src dst : Z) : option (list Z * Z * Z * Z) :=
  match fuel with
  | O => None
  | S f =>
      let c := at_ b src in
      if negb (c =? 0) && negb (c =? slash) then copy_loop f (store b dst c) (src + 1) (dst + 1)
      else Some (b, src + 1, dst, c)
  end.
(** The first index from [src] on without a slash. *)
Fixpoint skip_slashes (fuel : nat) (b : list Z) (src : Z) : option Z :=
  match fuel with
  | O => None
  | S f => if at_ b src =? slash then skip_slashes f b (src + 1) else Some src
  end.
(** Back to the slash before the last name, or to the start. *)
Fixpoint back_loop (fuel : nat) (b : list Z) (dst : Z) : option Z :=
  match fuel with
  | O => None
  | S f => if (0 <? dst) && negb (at_ b (dst - 1) =? slash) then back_loop f b (dst - 1) else Some dst
  end.
(** [up_one:]; the inner [None] is the return of [NULL]. *)
Definition up_one (fuel : nat) (b : list Z) (dst : Z) : option (option Z) :=
  if negb (dst =? 1) || negb (at_ b (dst - 1) =? slash) then
    let dst := dst - 1 in
    if dst <? 0 then Some None else Some <$> back_loop fuel b dst
  else Some <$> back_loop fuel b dst.
(** [while (1)]: the buffer and [dst] at its end. *)
Fixpoint norm_loop (n fuel : nat) (b : list Z) (src dst : Z) : option (option (list Z * Z)) :=
  match n with
  | O => None
  | S n =>
      let up src :=
        d ← up_one fuel b dst;
        match d with Some dst => norm_loop n fuel b src dst | None => Some None end in
      let copy src :=
        '(b, src, dst, c) ← copy_loop fuel b src dst;
        if c =? slash then
          let b := store b dst slash in
          src ← skip_slashes fuel b src;
          norm_loop n fuel b src (dst + 1)
        else Some (Some (b, dst)) in
      if at_ b src =? dot then
        if at_ b (src + 1) =? 0 then copy (src + 1)
        else if at_ b (src + 1) =? slash then
          src ← skip_slashes fuel b (src + 2);
          norm_loop n fuel b src dst
        else if at_ b (src + 1) =? dot then
          if at_ b (src + 2) =? 0 then up (src + 2)
          else if at_ b (src + 2) =? slash then src ← skip_slashes fuel b (src + 3); up src
          else copy src
        else copy src
      else copy src
  end.
(** The string in a buffer. *)
Fixpoint c_string (b : list Z) : list Z :=
  match b with [] => [] | c :: b => if c =? 0 then [] else c :: c_string b end.
(** The end of [dfs_normalize_path]. *)
Definition norm_end (b : list Z) (dst : Z) : list Z :=
  let b := store b dst 0 in
  let dst := dst - 1 in
  let b := if (0 <? dst) && (at_ b dst =? slash) then store b dst 0 else b in
  if at_ b 0 =? 0 then store (store b 0 slash) 1 0 else b.
(** [mem] is whether [rt_malloc] succeeds.  Every loop makes at most as many turns
    as the buffer has bytes. *)
Definition dfs_normalize_path (working_directory : list Z) (mem : bool) (directory : option (list Z)) (filename : list Z) : option (option (list Z)) :=
  let directory := default working_directory directory in
  if negb mem then Some None
  else
    let fullpath := (if negb (at_ filename 0 =? slash) then directory ++ slash :: filename else filename) ++ [0] in
    let n := S (length fullpath) in
    match norm_loop n n fullpath 0 0 with
    | Some (Some (b, dst)) => Some (Some (c_string (norm_end b dst)))
    | Some None => Some None
    | None => None
    end.

(** The path below a directory, for a [filename] that is no shorter than the
    directory (the read is behind the string otherwise). *)
Definition dfs_subdir (directory filename : list Z) : option (list Z) :=
  let n := length directory in
  if (n =? length filename)%nat then None
  else
    let dir := if negb (at_ filename (Z.of_nat n) =? slash) && negb (n =? 0)%nat then (n - 1)%nat else n in
    Some (drop dir filename).
