(* ===== verification/DfsPathProps.v ===== *)
(** * Normalised paths

    The specification splits a path at its slashes and takes the names one after the
    other: an empty name and ["."] change nothing, [".."] drops the last name, any
    other one is added. *)
From Stdlib Require Import Ascii String.
From S2P Require Import Prelude KStdio DfsPath.

Fixpoint segments (l : list Z) : list (list Z) :=
  match l with
  | [] => [[]]
  | c :: l => if c =? slash then [] :: segments l else match segments l with [] => [[c]] | s :: ss => (c :: s) :: ss end
  end.
Definition follow (names : list (list Z)) (s : list Z) : list (list Z) :=
  if bool_decide (s = [] \/ s = [dot]) then names
  else if bool_decide (s = [dot; dot]) then removelast names
  else names ++ [s].
Definition resolve (path : list Z) : list (list Z) := foldl follow [] (segments path).
(** The normal form of a list of names. *)
Definition canonical (names : list (list Z)) : list Z :=
  match names with [] => [slash] | _ => concat (cons slash <$> names) end.
Definition dirs (names : list (list Z)) : list Z := slash :: concat ((fun s => s ++ [slash]) <$> names).

(** ** Segments *)
Definition is_name (s : list Z) : Prop := s <> [] /\ Forall (fun c => c <> slash /\ c <> 0) s.
Definition clean (l : list Z) : Prop := Forall (fun c => c <> 0) l.
Lemma segments_ne l : segments l <> [].
Proof. destruct l as [|c l]; cbn; [done|]. destruct (c =? slash); [done|]. by destruct (segments l). Qed.
Lemma segments_name s l : Forall (fun c => c <> slash /\ c <> 0) s -> segments (s ++ slash :: l) = s :: segments l.
Proof.
  induction 1 as [|c s [Hc _] _ IH]; cbn [app segments]; [by rewrite Z.eqb_refl|]. destruct (Z.eqb_spec c slash); [done|]. by rewrite IH.
Qed.
Lemma segments_last s : Forall (fun c => c <> slash /\ c <> 0) s -> segments s = [s].
Proof. induction 1 as [|c s [Hc _] _ IH]; cbn [segments]; [done|]. destruct (Z.eqb_spec c slash); [done|]. by rewrite IH. Qed.
Fixpoint strip (l : list Z) : list Z :=
  match l with c :: k => if c =? slash then strip k else l | [] => [] end.
Lemma strip_eq l : exists n, l = replicate n slash ++ strip l.
Proof.
  induction l as [|c l [n IH]]; cbn [strip]; [by exists 0%nat|]. destruct (Z.eqb_spec c slash) as [->|]; [|by exists 0%nat].
  exists (S n). cbn. by rewrite <- IH.
Qed.
Lemma strip_head l : hd 0 (strip l) <> slash.
Proof. induction l as [|c l IH]; cbn; [done|]. destruct (Z.eqb_spec c slash); [done|]. by cbn. Qed.
Lemma follow_strip l names : foldl follow names (segments (strip l)) = foldl follow names (segments l).
Proof.
  destruct (strip_eq l) as [n E]. rewrite E at 2. clear E. induction n as [|n IH]; [done|]. rewrite replicate_S. cbn [app segments]. by rewrite Z.eqb_refl.
Qed.
(** A path without a leading slash starts with a name. *)
Lemma first_name l : clean l -> hd 0 l <> slash -> l = [] \/
  exists s tail, is_name s /\ l = s ++ tail /\ (tail = [] \/ exists more, tail = slash :: more).
Proof.
  induction l as [|c l IH]; [by left|]. intros [Hc Hl]%Forall_cons Hh. right. cbn in Hh. destruct (decide (hd 0 l = slash)) as [Hs|Hs].
  - destruct l as [|d l]; [done|]. cbn in Hs. subst d. exists [c], (slash :: l). split; [|split; [done|right; by exists l]]. split; [done|by constructor].
  - destruct (IH Hl Hs) as [->|(s & tail & [H1 H2] & -> & H3)].
    + exists [c], []. split; [split; [done|by constructor]|]. split; [done|by left].
    + exists (c :: s), tail. split; [split; [done|by constructor]|]. by split.
Qed.

(** ** The loops *)
Lemma at_drop b i x l : drop i b = x :: l -> at_ b (Z.of_nat i) = x.
Proof. intros E. unfold at_. rewrite Nat2Z.id, nth_lookup, <- (Nat.add_0_r i), <- lookup_drop, E. done. Qed.
Lemma at_drop_nth b i l k : drop i b = l -> at_ b (Z.of_nat i + Z.of_nat k) = nth k l 0.
Proof. intros E. unfold at_. rewrite <- Nat2Z.inj_add, Nat2Z.id, !nth_lookup, <- E, lookup_drop. done. Qed.
Lemma store_take b d c : (d < length b)%nat -> take (S d) (store b (Z.of_nat d) c) = take d b ++ [c] /\ forall i, (d < i)%nat -> drop i (store b (Z.of_nat d) c) = drop i b.
Proof.
  intros Hd. unfold store. rewrite Nat2Z.id. split.
  - rewrite (take_S_r _ _ c) by (by rewrite list_lookup_insert_eq). by rewrite take_insert_ge by lia.
  - intros i Hi. by rewrite drop_insert_lt by lia.
Qed.
Lemma length_store b i c : length (store b i c) = length b.
Proof. apply length_insert. Qed.
Lemma skip_ok l : forall b s fuel, drop s b = l ++ [0] -> clean l -> (length l < fuel)%nat ->
  exists s', skip_slashes fuel b (Z.of_nat s) = Some (Z.of_nat s') /\ (s <= s')%nat /\ drop s' b = strip l ++ [0].
Proof.
  induction l as [|c l IH]; intros b s [|f] Hd Hc Hf; cbn [length] in Hf; try lia; cbn [app] in Hd; cbn [skip_slashes]; rewrite (at_drop _ _ _ _ Hd).
  - exists s. done.
  - apply Forall_cons in Hc as [_ Hc]. cbn [strip]. destruct (Z.eqb_spec c slash) as [->|].
    + destruct (IH b (S s) f) as (s' & E & H1 & H2); [|done|lia|].
      * by rewrite <- Nat.add_1_r, <- drop_drop, Hd.
      * exists s'. rewrite <- E. split; [f_equal; lia|]. split; [lia|done].
    + exists s. done.
Qed.
Lemma copy_ok seg : forall b s d fuel tail, drop s b = seg ++ tail -> Forall (fun c => c <> slash /\ c <> 0) seg -> (hd 0 tail = 0 \/ hd 0 tail = slash) -> tail <> [] ->
  (d <= s)%nat -> (length seg < fuel)%nat ->
  exists b', copy_loop fuel b (Z.of_nat s) (Z.of_nat d) = Some (b', Z.of_nat (s + length seg + 1), Z.of_nat (d + length seg), hd 0 tail) /\
    take (d + length seg) b' = take d b ++ seg /\ drop (s + length seg) b' = tail /\ length b' = length b.
Proof.
  induction seg as [|c seg IH]; intros b s d [|f] tail Hd Hs Ht Hne Hle Hf; cbn [length] in Hf; try lia; cbn [copy_loop].
  - destruct tail as [|x tail]; [done|]. rewrite (at_drop _ _ _ _ Hd). cbn [hd] in *. exists b. cbn [length]. rewrite !Nat.add_0_r, app_nil_r.
    split; [|done]. replace (Z.of_nat (s + 1)) with (Z.of_nat s + 1) by lia. by destruct Ht as [-> | ->].
  - apply Forall_cons in Hs as [[Hc1 Hc2] Hs]. cbn [app] in Hd. rewrite (at_drop _ _ _ _ Hd). destruct (Z.eqb_spec c 0); [done|]. destruct (Z.eqb_spec c slash); [done|]. cbn [negb andb].
    assert (Hlen : (s < length b)%nat) by (apply (f_equal length) in Hd; rewrite length_drop in Hd; cbn in Hd; lia).
    destruct (store_take b d c ltac:(lia)) as [H1 H2].
    destruct (IH (store b (Z.of_nat d) c) (S s) (S d) f tail) as (b' & E & T1 & T2 & T3); [|done|done|done|lia|lia|].
    + rewrite H2 by lia. by rewrite <- Nat.add_1_r, <- drop_drop, Hd.
    + exists b'. replace (Z.of_nat s + 1) with (Z.of_nat (S s)) by lia. replace (Z.of_nat d + 1) with (Z.of_nat (S d)) by lia.
      rewrite E. cbn [length]. split; [do 4 f_equal; lia|]. rewrite length_store in T3. split; [|split; [|done]].
      * replace (d + S (length seg))%nat with (S d + length seg)%nat by lia. rewrite T1, H1, <- app_assoc. done.
      * replace (s + S (length seg))%nat with (S s + length seg)%nat by lia. done.
Qed.
(** ** Directories written so far *)
Lemma dirs_eq names : dirs names = concat (cons slash <$> names) ++ [slash].
Proof.
  unfold dirs. induction names as [|s names IH]; [done|]. rewrite !fmap_cons. cbn [concat app]. f_equal.
  by rewrite <- !app_assoc, <- IH.
Qed.
Lemma dirs_snoc names s : dirs (names ++ [s]) = dirs names ++ s ++ [slash].
Proof. rewrite !dirs_eq, fmap_app, concat_app. cbn. rewrite app_nil_r, <- !app_assoc. done. Qed.
Lemma canonical_snoc names s : canonical (names ++ [s]) = dirs names ++ s.
Proof.
  rewrite dirs_eq. unfold canonical. destruct (names ++ [s]) eqn:E; [by destruct names|]. rewrite <- E, fmap_app, concat_app. cbn. by rewrite app_nil_r, <- app_assoc.
Qed.
Lemma canonical_dirs names : names <> [] -> dirs names = canonical names ++ [slash].
Proof. intros Hn. rewrite dirs_eq. by destruct names. Qed.
Lemma name_clean s : is_name s -> clean s.
Proof. intros [_ H]. eapply Forall_impl; [exact H|]. by intros c []. Qed.
Lemma dirs_clean names : Forall is_name names -> clean (dirs names).
Proof.
  intros H. constructor; [done|]. induction H as [|s names Hs _ IH]; cbn; [constructor|]. apply Forall_app. split; [|done].
  apply Forall_app. split; [by apply name_clean|by constructor].
Qed.

Lemma c_string_take b l : take (length l) b = l -> clean l -> nth (length l) b 0 = 0 -> c_string b = l.
Proof.
  revert b. induction l as [|c l IH]; intros b Ht Hc H0; cbn [length take nth] in *.
  - destruct b as [|x b]; [done|]. cbn in H0 |- *. subst x. done.
  - destruct b as [|x b]; [done|]. apply Forall_cons in Hc as [Hx Hc]. cbn in Ht. injection Ht as -> Ht. cbn [c_string]. destruct (Z.eqb_spec c 0); [done|]. f_equal. by apply IH.
Qed.
Lemma store_zero b d : (d < length b)%nat -> take d (store b (Z.of_nat d) 0) = take d b /\ nth d (store b (Z.of_nat d) 0) 0 = 0 /\
  forall i, (i < d)%nat -> at_ (store b (Z.of_nat d) 0) (Z.of_nat i) = at_ b (Z.of_nat i).
Proof.
  intros Hd. unfold store, at_. rewrite Nat2Z.id. split; [by rewrite take_insert_ge by lia|]. split; [by rewrite nth_lookup, list_lookup_insert_eq|].
  intros i Hi. by rewrite !Nat2Z.id, !nth_lookup, list_lookup_insert_ne by lia.
Qed.
Lemma at_take b k i l : take k b = l -> (i < k)%nat -> at_ b (Z.of_nat i) = nth i l 0.
Proof. intros <- Hi. unfold at_. by rewrite Nat2Z.id, !nth_lookup, lookup_take_lt by lia. Qed.
Lemma nth_last (l : list Z) c : nth (length l) (l ++ [c]) 0 = c.
Proof. rewrite nth_lookup, lookup_app_r by lia. by rewrite Nat.sub_diag. Qed.
(** The buffer at the end of the loop. *)
Lemma norm_end_ok b names seg : Forall is_name names -> seg = [] \/ is_name seg ->
  let d := length (dirs names ++ seg) in
  take d b = dirs names ++ seg -> (d < length b)%nat ->
  c_string (norm_end b (Z.of_nat d)) = canonical (if bool_decide (seg = []) then names else names ++ [seg]).
Proof.
  intros Hn Hs d Ht Hd. unfold norm_end. destruct (store_zero b d Hd) as (S1 & S2 & S3). set (b1 := store b (Z.of_nat d) 0) in *.
  assert (Hd1 : (1 <= d)%nat) by (unfold d; rewrite length_app; cbn; lia).
  assert (Hclean : clean (dirs names ++ seg)) by (apply Forall_app; split; [by apply dirs_clean|destruct Hs as [-> |]; [done|by apply name_clean]]).
  assert (Hlen1 : length b1 = length b) by apply length_store.
  assert (Hfst : forall k, (1 <= k)%nat -> forall b', take k b' = take k (dirs names ++ seg) -> (at_ b' 0 =? 0) = false).
  { intros k Hk b' Hb'. apply Z.eqb_neq. assert (E : at_ b' (Z.of_nat 0) = nth 0 (take k (dirs names ++ seg)) 0) by (apply (at_take _ k); [done|lia]).
    change (Z.of_nat 0) with 0 in E. rewrite E. destruct k; [lia|]. done. }
  assert (Hlast : at_ b1 (Z.of_nat d - 1) = nth (d - 1) (dirs names ++ seg) 0).
  { replace (Z.of_nat d - 1) with (Z.of_nat (d - 1)) by lia. apply (at_take _ d); [by rewrite S1|lia]. }
  destruct Hs as [-> | [Hs1 Hs2]].
  - rewrite bool_decide_true by done. rewrite app_nil_r in *. destruct (decide (names = [])) as [-> |Hne].
    + change d with 1%nat in *. change (0 <? Z.of_nat 1 - 1) with false. cbn [andb]. rewrite (Hfst 1%nat (le_n 1) b1 (eq_trans S1 Ht)).
      apply (c_string_take _ [slash]); [exact (eq_trans S1 Ht)|done|done].
    + pose proof (canonical_dirs names Hne) as E. assert (Hd2 : d = S (length (canonical names))) by (unfold d; rewrite E, !length_app; cbn; lia).
      assert (Hc1 : (1 <= length (canonical names))%nat) by (clear - Hne; destruct names; [done|]; unfold canonical; rewrite fmap_cons; cbn; lia).
      rewrite Hlast, E, Hd2. replace (S (length (canonical names)) - 1)%nat with (length (canonical names)) by lia. rewrite nth_last, Z.eqb_refl.
      destruct (Z.ltb_spec 0 (Z.of_nat (S (length (canonical names))) - 1)); [|lia]. cbn [andb].
      replace (Z.of_nat (S (length (canonical names))) - 1) with (Z.of_nat (length (canonical names))) by lia.
      destruct (store_zero b1 (length (canonical names)) ltac:(lia)) as (T1 & T2 & _). set (b2 := store b1 _ 0) in *.
      assert (T3 : take (length (canonical names)) b2 = canonical names).
      { rewrite T1. transitivity (take (length (canonical names)) (take d b1)); [rewrite take_take; f_equal; lia|]. rewrite S1, Ht, E. by rewrite take_app_length. }
      rewrite (Hfst (length (canonical names))) by (lia || rewrite T3, E, take_app_length; done). apply c_string_take; [done| |done].
      rewrite E in Hclean. by apply Forall_app in Hclean as [? _].
  - rewrite bool_decide_false by done. rewrite canonical_snoc. destruct seg as [|c seg _] using rev_ind; [done|]. apply Forall_app in Hs2 as [_ [[Hc _] _]%Forall_cons].
    rewrite Hlast. unfold d. rewrite app_assoc, length_app. cbn [length]. replace (length (dirs names ++ seg) + 1 - 1)%nat with (length (dirs names ++ seg)) by lia. rewrite nth_last.
    destruct (Z.eqb_spec c slash); [done|]. rewrite andb_false_r. rewrite <- app_assoc. rewrite (Hfst d) by (rewrite ?S1, ?Ht, ?take_ge by (unfold d; lia); done || lia).
    apply c_string_take; [exact (eq_trans S1 Ht)|done|done].
Qed.

(** ** The loop *)
Lemma back_ok b pre seg fuel : take (length pre) b = pre -> last pre = Some slash -> Forall (fun c => c <> slash /\ c <> 0) seg ->
  take (length pre + length seg) b = pre ++ seg -> (length seg < fuel)%nat ->
  back_loop fuel b (Z.of_nat (length pre + length seg)) = Some (Z.of_nat (length pre)).
Proof.
  intros Hp Hl Hs. revert fuel. induction seg as [|c seg IH] using rev_ind; intros fuel Ht Hf; (destruct fuel as [|f]; [lia|]); cbn [back_loop].
  - rewrite Nat.add_0_r in *. apply last_Some in Hl as [k Hk]. assert (E : at_ b (Z.of_nat (length k)) = slash).
    { rewrite (at_take _ _ _ _ Hp) by (rewrite Hk, length_app; cbn; lia). by rewrite Hk, nth_last. }
    replace (Z.of_nat (length pre) - 1) with (Z.of_nat (length k)) by (rewrite Hk, length_app; cbn; lia). by rewrite E, Z.eqb_refl, andb_false_r.
  - apply Forall_app in Hs as [Hs [[Hc _] _]%Forall_cons]. rewrite length_app in *. cbn [length] in *.
    assert (E : at_ b (Z.of_nat (length pre + (length seg + 1)) - 1) = c).
    { replace (Z.of_nat (length pre + (length seg + 1)) - 1) with (Z.of_nat (length (pre ++ seg))) by (rewrite length_app; lia).
      rewrite (at_take _ _ _ _ Ht) by (rewrite length_app; lia). by rewrite app_assoc, nth_last. }
    rewrite E. destruct (Z.ltb_spec 0 (Z.of_nat (length pre + (length seg + 1)))); [|lia]. destruct (Z.eqb_spec c slash); [done|]. cbn [negb andb].
    replace (Z.of_nat (length pre + (length seg + 1)) - 1) with (Z.of_nat (length pre + length seg)) by lia. apply IH; [done| |lia].
    transitivity (take (length pre + length seg) (take (length pre + (length seg + 1)) b)); [rewrite take_take; f_equal; lia|].
    rewrite Ht, app_assoc, take_app_le by (rewrite length_app; lia). rewrite take_ge; [done|]. rewrite length_app. lia.
Qed.
Lemma last_dirs names : last (dirs names) = Some slash.
Proof. rewrite dirs_eq. by rewrite last_snoc. Qed.
Lemma up_one_ok b names fuel : Forall is_name names -> take (length (dirs names)) b = dirs names -> (length (dirs names) < fuel)%nat ->
  up_one fuel b (Z.of_nat (length (dirs names))) = Some (Some (Z.of_nat (length (dirs (removelast names))))) /\
  take (length (dirs (removelast names))) b = dirs (removelast names) /\ Forall is_name (removelast names) /\
  (length (dirs (removelast names)) <= length (dirs names))%nat.
Proof.
  intros Hn Ht Hf. unfold up_one. destruct names as [|s names _] using rev_ind.
  - change (Z.of_nat (length (dirs []))) with 1 in *. assert (E : at_ b 0 = slash) by (exact (at_take b 1 0 _ Ht (le_n 1))).
    change (1 - 1) with 0. rewrite E. cbn [Z.eqb Pos.eqb negb orb]. rewrite Z.eqb_refl. cbn [negb orb].
    change 1 with (Z.of_nat (length (dirs []) + length (@nil Z))). rewrite (back_ok b (dirs []) []) by (done || cbn; lia). done.
  - rewrite removelast_last. apply Forall_app in Hn as [Hn [[Hs1 Hs2] _]%Forall_cons]. rewrite dirs_snoc in *. rewrite !length_app in *. cbn [length] in *.
    assert (H1 : (1 <= length (dirs names))%nat) by (cbn; lia).
    destruct (Z.eqb_spec (Z.of_nat (length (dirs names) + (length s + 1))) 1); [lia|]. cbn [negb orb].
    destruct (Z.ltb_spec (Z.of_nat (length (dirs names) + (length s + 1)) - 1) 0); [lia|].
    assert (T1 : take (length (dirs names)) b = dirs names).
    { transitivity (take (length (dirs names)) (take (length (dirs names) + (length s + 1)) b)); [rewrite take_take; f_equal; lia|]. by rewrite Ht, take_app_length. }
    assert (T2 : take (length (dirs names) + length s) b = dirs names ++ s).
    { transitivity (take (length (dirs names) + length s) (take (length (dirs names) + (length s + 1)) b)); [rewrite take_take; f_equal; lia|].
      rewrite Ht, app_assoc, take_app_le by (rewrite length_app; lia). rewrite take_ge; [done|]. rewrite length_app. lia. }
    replace (Z.of_nat (length (dirs names) + (length s + 1)) - 1) with (Z.of_nat (length (dirs names) + length s)) by lia.
    rewrite (back_ok b (dirs names) s) by (done || apply last_dirs || lia). split; [done|]. split; [done|]. split; [done|lia].
Qed.
Lemma strip_length l : (length (strip l) <= length l)%nat.
Proof. induction l as [|c l IH]; cbn; [lia|]. destruct (c =? slash); cbn; lia. Qed.
Lemma strip_clean l : clean l -> clean (strip l).
Proof. induction 1 as [|c l Hc Hl IH]; cbn; [constructor|]. destruct (c =? slash); [done|by constructor]. Qed.
Lemma follow_names names s : Forall is_name names -> s = [] \/ is_name s -> Forall is_name (follow names s).
Proof.
  intros Hn Hs. unfold follow. case_bool_decide as E1; [done|]. case_bool_decide as E2.
  - destruct names as [|x names _] using rev_ind; [done|]. rewrite removelast_last. by apply Forall_app in Hn as [? _].
  - apply Forall_app. split; [done|]. constructor; [|done]. destruct Hs as [-> |]; [naive_solver|done].
Qed.
(** What the loop does with the name at [src]. *)
Lemma at_drop_Z b i k l : drop i b = l -> at_ b (Z.of_nat i + k) = nth (Z.to_nat k) l 0 \/ k < 0.
Proof. intros E. destruct (decide (k < 0)); [by right|left]. rewrite <- (Z2Nat.id k) at 1 by lia. by apply at_drop_nth. Qed.
Definition goes (n fuel : nat) (b : list Z) (s d : nat) (names : list (list Z)) : Prop :=
  exists b' d', norm_loop n fuel b (Z.of_nat s) (Z.of_nat d) = Some (Some (b', d')) /\ c_string (norm_end b' d') = canonical names.
Lemma norm_loop_ok fuel : forall n rest b s names, (length rest < n)%nat -> (length b < fuel)%nat ->
  take (length (dirs names)) b = dirs names -> (length (dirs names) <= s)%nat -> drop s b = rest ++ [0] -> clean rest -> hd 0 rest <> slash -> Forall is_name names ->
  goes n fuel b s (length (dirs names)) (foldl follow names (segments rest)).
Proof.
  induction n as [|n IH]; intros rest b s names Hn Hf Ht Hds Hd Hc Hh Hok; [lia|].
  assert (Hlen : length b = (s + length rest + 1)%nat).
  { assert (H := f_equal length Hd). rewrite length_drop, length_app in H. cbn in H. destruct (decide (s <= length b)%nat); lia. }
  assert (Hat : forall k, at_ b (Z.of_nat s + Z.of_nat k) = nth k (rest ++ [0]) 0) by (intros k; by apply at_drop_nth).
  pose proof (Hat 0%nat) as H0. rewrite Z.add_0_r in H0. pose proof (Hat 1%nat : at_ b (Z.of_nat s + 1) = _) as H1. pose proof (Hat 2%nat : at_ b (Z.of_nat s + 2) = _) as H2.
  (* copying the name [seg] and going on *)
  assert (Hcopy : forall seg tail, is_name seg -> rest = seg ++ tail -> (tail = [] \/ exists more, tail = slash :: more) -> seg <> [dot] -> seg <> [dot; dot] ->
    exists b' d', ('(b, src, dst, c) ← copy_loop fuel b (Z.of_nat s) (Z.of_nat (length (dirs names)));
      if c =? slash then
        let b := store b dst slash in src ← skip_slashes fuel b src; norm_loop n fuel b src (dst + 1)
      else Some (Some (b, dst))) = Some (Some (b', d')) /\ c_string (norm_end b' d') = canonical (foldl follow names (segments rest))).
  { intros seg tail [Hs1 Hs2] -> Htail Hn1 Hn2. rewrite <- app_assoc in Hd. rewrite length_app in *. 
    assert (Hfol : follow names seg = names ++ [seg]).
    { unfold follow. rewrite bool_decide_false by (intros [? | ?]; done). by rewrite bool_decide_false. }
    destruct (copy_ok seg b s (length (dirs names)) fuel (tail ++ [0]) Hd Hs2) as (b' & -> & T1 & T2 & T3); [destruct Htail as [-> | [m ->]]; [by left|by right]|by destruct tail|lia|lia|].
    rewrite Ht in T1. cbn [mbind option_bind]. destruct Htail as [-> | [more ->]]; cbn [app hd].
    - change (0 =? slash) with false. eexists _, _. split; [reflexivity|]. rewrite app_nil_r, (segments_last seg Hs2). cbn [foldl]. rewrite Hfol.
      rewrite <- length_app. rewrite (norm_end_ok b' names seg); [by rewrite bool_decide_false|done|by right|by rewrite length_app|]. rewrite length_app. lia.
    - rewrite Z.eqb_refl. assert (Hlt : (length (dirs names) + length seg < length b')%nat) by (rewrite T3, Hlen; lia).
      destruct (store_take b' (length (dirs names) + length seg) slash Hlt) as [U1 U2]. set (b2 := store b' _ slash) in *. cbn zeta.
      apply Forall_app in Hc as [_ [_ Hc]%Forall_cons]. cbn [length] in *.
      destruct (skip_ok more b2 (s + length seg + 1) fuel) as (s' & -> & V1 & V2); [|done|lia|].
      { rewrite U2 by lia. rewrite <- (drop_drop b' 1 (s + length seg)), T2. done. }
      cbn [mbind option_bind]. assert (Edirs : length (dirs (names ++ [seg])) = (length (dirs names) + length seg + 1)%nat) by (rewrite dirs_snoc, !length_app; cbn; lia).
      replace (Z.of_nat (length (dirs names) + length seg) + 1) with (Z.of_nat (length (dirs (names ++ [seg])))) by lia.
      rewrite segments_name by done. cbn [foldl]. rewrite Hfol, <- follow_strip. pose proof (strip_length more).
      apply (IH (strip more) b2 s' (names ++ [seg])).
      + lia.
      + unfold b2. rewrite length_store. lia.
      + rewrite Edirs, Nat.add_1_r, U1, T1, dirs_snoc, <- app_assoc. done.
      + lia.
      + done.
      + by apply strip_clean.
      + apply strip_head.
      + apply Forall_app. split; [done|]. by constructor. }
  unfold goes. cbn [norm_loop]. rewrite H0, H1, H2. destruct (first_name rest Hc Hh) as [-> | (seg & tail & Hseg & Hrest & Htail)].
  - cbn [app nth]. change (0 =? dot) with false. cbv iota.
    destruct (copy_ok [] b s (length (dirs names)) fuel [0] Hd) as (b' & E & T1 & T2 & T3); [done|by left|done|lia|cbn; lia|]. cbn [length] in E. rewrite !Nat.add_0_r in E, T1, T2. rewrite E. clear E.
    cbn [mbind option_bind hd]. change (0 =? slash) with false. eexists _, _. split; [reflexivity|]. cbn [segments foldl]. unfold follow at 1. rewrite bool_decide_true by (by left).
    rewrite Ht, app_nil_r in T1. pose proof (norm_end_ok b' names [] Hok (or_introl eq_refl)) as HE. rewrite app_nil_r in HE. cbn zeta in HE. rewrite Nat.add_0_r. rewrite HE; [done|done|lia].
  - assert (Hdrop : forall k l, drop k (rest ++ [0]) = l -> drop (s + k) b = l) by (intros k l <-; by rewrite <- Hd, drop_drop).
    assert (Hin : Forall (fun c => c <> slash /\ c <> 0) seg) by apply Hseg.
    destruct (decide (seg = [dot])) as [->|N1]; [|destruct (decide (seg = [dot; dot])) as [->|N2]].
    + (* "." *)
      subst rest. cbn [app nth] in *. change (dot =? dot) with true. cbv iota. destruct Htail as [-> | [more ->]]; cbn [app nth] in *.
      * change (0 =? 0) with true. cbv iota.
        destruct (copy_ok [] b (s + 1) (length (dirs names)) fuel [0] (Hdrop 1%nat _ eq_refl)) as (b' & E & T1 & T2 & T3); [done|by left|done|lia|cbn; lia|]. cbn [length] in E. rewrite !Nat.add_0_r in E, T1.
        replace (Z.of_nat s + 1) with (Z.of_nat (s + 1)) by lia. rewrite E. cbn [mbind option_bind hd]. change (0 =? slash) with false. eexists _, _. split; [reflexivity|].
        change (foldl follow names (segments [dot])) with names. rewrite Ht, app_nil_r in T1. pose proof (norm_end_ok b' names [] Hok (or_introl eq_refl)) as HE. rewrite app_nil_r in HE. cbn zeta in HE. rewrite Nat.add_0_r. rewrite HE; [done|done|lia].
      * change (slash =? 0) with false. change (slash =? slash) with true. cbv iota. apply Forall_cons in Hc as [_ [_ Hc]%Forall_cons]. cbn [length] in *.
        destruct (skip_ok more b (s + 2) fuel (Hdrop 2%nat _ eq_refl) Hc ltac:(lia)) as (s' & E & V1 & V2). replace (Z.of_nat s + 2) with (Z.of_nat (s + 2)) by lia. rewrite E. cbn [mbind option_bind].
        change (foldl follow names (segments (dot :: slash :: more))) with (foldl follow names (segments more)). rewrite <- follow_strip. pose proof (strip_length more).
        apply (IH (strip more) b s' names); first [done|lia|by apply strip_clean|apply strip_head].
    + (* ".." *)
      subst rest. cbn [app nth] in *. change (dot =? dot) with true. change (dot =? 0) with false. change (dot =? slash) with false. cbv iota.
      destruct (up_one_ok b names fuel Hok Ht ltac:(lia)) as (E & U1 & U2 & U3). destruct Htail as [-> | [more ->]]; cbn [app nth] in *.
      * change (0 =? 0) with true. cbv iota. rewrite E. cbn [mbind option_bind]. replace (Z.of_nat s + 2) with (Z.of_nat (s + 2)) by lia.
        change (foldl follow names (segments [dot; dot])) with (foldl follow (removelast names) (segments [])). cbn [length] in *.
        apply (IH [] b (s + 2)%nat (removelast names)); first [done|by constructor|cbn; lia|lia|by apply (Hdrop 2%nat)].
      * change (slash =? 0) with false. change (slash =? slash) with true. cbv iota. apply Forall_cons in Hc as [_ [_ [_ Hc]%Forall_cons]%Forall_cons]. cbn [length] in *.
        destruct (skip_ok more b (s + 3) fuel (Hdrop 3%nat _ eq_refl) Hc ltac:(lia)) as (s' & E' & V1 & V2). replace (Z.of_nat s + 3) with (Z.of_nat (s + 3)) by lia. rewrite E'. cbn [mbind option_bind]. rewrite E. cbn [mbind option_bind].
        change (foldl follow names (segments (dot :: dot :: slash :: more))) with (foldl follow (removelast names) (segments more)). rewrite <- follow_strip. pose proof (strip_length more).
        apply (IH (strip more) b s' (removelast names)); first [done|lia|by apply strip_clean|apply strip_head].
    + specialize (Hcopy seg tail Hseg Hrest Htail N1 N2). destruct seg as [|c0 seg]; [by destruct Hseg|]. apply Forall_cons in Hin as [[Hc0 _] Hin]. rewrite Hrest. cbn [app nth].
      rewrite Hrest in Hcopy. cbn [app] in Hcopy. destruct (Z.eqb_spec c0 dot) as [->|]; [|exact Hcopy].
      destruct seg as [|c1 seg]; [done|]. apply Forall_cons in Hin as [[Hc1 Hz1] Hin]. cbn [app nth]. destruct (Z.eqb_spec c1 0); [done|]. destruct (Z.eqb_spec c1 slash); [done|].
      destruct (Z.eqb_spec c1 dot) as [->|]; [|exact Hcopy]. destruct seg as [|c2 seg]; [done|]. apply Forall_cons in Hin as [[Hc2 Hz2] _]. cbn [app nth].
      destruct (Z.eqb_spec c2 0); [done|]. destruct (Z.eqb_spec c2 slash); [done|exact Hcopy].
Qed.

(** ** Whole paths *)
Definition full_path (directory filename : list Z) : list Z :=
  if hd 0 filename =? slash then filename else directory ++ slash :: filename.
Lemma normalize_full path : clean path -> hd 0 path = slash ->
  exists b d, norm_loop (S (length (path ++ [0]))) (S (length (path ++ [0]))) (path ++ [0]) 0 0 = Some (Some (b, d)) /\ c_string (norm_end b d) = canonical (resolve path).
Proof.
  intros Hc Hh. destruct path as [|c r]; [done|]. cbn in Hh. subst c. apply Forall_cons in Hc as [_ Hc]. set (b := (slash :: r) ++ [0]). set (f := S (length b)).
  assert (Hlen : length b = S (S (length r))) by (unfold b; rewrite length_app; cbn; lia).
  change (norm_loop f f b 0 0) with (norm_loop f f b (Z.of_nat 0) (Z.of_nat 0)). unfold f at 1. cbn [norm_loop]. change (at_ b (Z.of_nat 0)) with slash. change (slash =? dot) with false. cbv iota. unfold f. cbn [copy_loop].
  change (at_ b (Z.of_nat 0)) with slash. change (slash =? 0) with false. change (slash =? slash) with true. cbn [negb andb mbind option_bind]. cbv iota zeta.
  change (store b (Z.of_nat 0) slash) with b. destruct (skip_ok r b 1 (S (length b)) eq_refl Hc ltac:(lia)) as (s' & E & V1 & V2).
  change (Z.of_nat 0 + 1) with (Z.of_nat 1). rewrite E. cbn [mbind option_bind].
  unfold resolve. cbn [segments]. rewrite Z.eqb_refl. cbn [foldl]. change (follow [] []) with (@nil (list Z)). rewrite <- follow_strip. pose proof (strip_length r).
  apply (norm_loop_ok (S (length b)) (length b) (strip r) b s' []); first [done|lia|by apply strip_clean|apply strip_head|by constructor].
Qed.
Lemma normalize_eq wd directory filename : let full := full_path (default wd directory) filename in
  clean full -> hd 0 full = slash -> dfs_normalize_path wd true directory filename = Some (Some (canonical (resolve full))).
Proof.
  intros full Hc Hh. unfold dfs_normalize_path. cbn [negb].
  assert (E : (if negb (at_ filename 0 =? slash) then default wd directory ++ slash :: filename else filename) = full).
  { unfold full, full_path. assert (Ea : at_ filename 0 = hd 0 filename) by (by destruct filename). rewrite Ea. by destruct (hd 0 filename =? slash). }
  rewrite E. destruct (normalize_full full Hc Hh) as (b & d & -> & Ec). by rewrite Ec.
Qed.

(** The names of a normal form: neither ["."] nor [".."], no slash. *)
Definition proper (s : list Z) : Prop := is_name s /\ s <> [dot] /\ s <> [dot; dot].
Lemma segments_names path : clean path -> Forall (fun s => s = [] \/ is_name s) (segments path).
Proof.
  induction 1 as [|c l Hc _ IH]; cbn [segments]; [constructor; [by left|done]|]. destruct (Z.eqb_spec c slash); [constructor; [by left|done]|].
  destruct (segments l) as [|s ss]; [constructor; [|done]; right; split; [done|by constructor]|]. apply Forall_cons in IH as [Hs IH]. constructor; [|done]. right.
  split; [done|]. constructor; [done|]. by destruct Hs as [-> | [_ ?]].
Qed.
Lemma follow_proper names s : Forall proper names -> s = [] \/ is_name s -> Forall proper (follow names s).
Proof.
  intros Hn Hs. unfold follow. case_bool_decide as E1; [done|]. case_bool_decide as E2.
  - destruct names as [|x names _] using rev_ind; [done|]. rewrite removelast_last. by apply Forall_app in Hn as [? _].
  - apply Forall_app. split; [done|]. constructor; [|done]. destruct Hs as [-> |]; [naive_solver|]. split; [done|]. naive_solver.
Qed.
Lemma resolve_proper path : clean path -> Forall proper (resolve path).
Proof.
  intros Hc%segments_names. unfold resolve. assert (H0 : Forall proper []) by constructor. revert H0. generalize (@nil (list Z)).
  induction Hc as [|s ss Hs _ IH]; intros names Hn; [done|]. apply IH. by apply follow_proper.
Qed.
Lemma follow_proper_eq names s : proper s -> follow names s = names ++ [s].
Proof. intros ([H1 _] & H2 & H3). unfold follow. rewrite bool_decide_false by (intros [? | ?]; done). by rewrite bool_decide_false. Qed.
Lemma resolve_dirs names : Forall proper names -> forall acc, foldl follow acc (segments (concat (cons slash <$> names))) = acc ++ names.
Proof.
  induction 1 as [|s names Hs Hn IH]; intros acc; [cbn; by rewrite app_nil_r|]. rewrite fmap_cons. cbn [concat app segments]. rewrite Z.eqb_refl. cbn [foldl]. change (follow acc []) with acc.
  destruct names as [|s' names].
  - cbn. rewrite app_nil_r, segments_last by apply Hs. cbn [foldl]. by apply follow_proper_eq.
  - specialize (IH (acc ++ [s])). rewrite fmap_cons in IH |- *. cbn [concat app] in IH |- *. rewrite segments_name by apply Hs. cbn [foldl]. rewrite follow_proper_eq by done.
    cbn [segments] in IH. rewrite Z.eqb_refl in IH. cbn [foldl] in IH. change (follow (acc ++ [s]) []) with (acc ++ [s]) in IH. rewrite IH, <- app_assoc. done.
Qed.
Lemma resolve_canonical names : Forall proper names -> resolve (canonical names) = names.
Proof.
  intros Hn. unfold resolve, canonical. destruct names as [|s names]; [done|]. by rewrite (resolve_dirs _ Hn []).
Qed.
Lemma canonical_clean names : Forall proper names -> clean (canonical names).
Proof.
  intros Hn. unfold canonical. destruct names as [|x l]; [by constructor|]. induction Hn as [|s names [Hs _] _ IH]; [constructor|]. rewrite fmap_cons. cbn [concat].
  apply Forall_app. split; [|done]. constructor; [done|]. by apply name_clean.
Qed.
Lemma canonical_head names : hd 0 (canonical names) = slash.
Proof. by destruct names. Qed.

(** C34: with an absolute directory [dfs_normalize_path] always succeeds (when memory
    does): the result is the normal form of the names the path goes through, none of
    them ["."] or [".."], and is its own normal form. *)
Theorem normalize_path_spec (wd : list Z) (directory : option (list Z)) (filename : list Z) :
  let full := full_path (default wd directory) filename in
  clean full -> hd 0 full = slash ->
  dfs_normalize_path wd true directory filename = Some (Some (canonical (resolve full))) /\
  Forall proper (resolve full) /\
  forall wd' d', dfs_normalize_path wd' true d' (canonical (resolve full)) = Some (Some (canonical (resolve full))).
Proof.
  intros full Hc Hh. split; [by apply normalize_eq|]. pose proof (resolve_proper full Hc) as Hp. split; [done|]. intros wd' d'.
  assert (E : full_path (default wd' d') (canonical (resolve full)) = canonical (resolve full)) by (unfold full_path; rewrite canonical_head; by rewrite Z.eqb_refl).
  pose proof (normalize_eq wd' d' (canonical (resolve full))) as H. rewrite E in H. rewrite H; [by rewrite resolve_canonical|by apply canonical_clean|apply canonical_head].
Qed.
Lemma normalize_path_spec_witness :
  dfs_normalize_path (codes "/home") true None (codes ".././a//b/../c/") = Some (Some (codes "/a/c")).
Proof.
  destruct (normalize_path_spec (codes "/home") None (codes ".././a//b/../c/")) as (H & _); [by repeat constructor|done|]. rewrite H. vm_compute. reflexivity.
Defined.

(** The path below a directory: what is left behind it, from a slash on. *)
Lemma dfs_subdir_spec directory rest : dfs_subdir directory (directory ++ slash :: rest) = Some (slash :: rest).
Proof.
  unfold dfs_subdir. rewrite length_app. cbn [length]. destruct (Nat.eqb_spec (length directory) (length directory + S (length rest))); [lia|].
  assert (E : at_ (directory ++ slash :: rest) (Z.of_nat (length directory)) = slash).
  { unfold at_. rewrite Nat2Z.id, nth_lookup, lookup_app_r by lia. by rewrite Nat.sub_diag. }
  rewrite E, Z.eqb_refl. cbn [negb andb]. by rewrite drop_app_length.
Qed.
Lemma dfs_subdir_root c rest : c <> slash -> dfs_subdir [slash] (slash :: c :: rest) = Some (slash :: c :: rest).
Proof. intros Hc. unfold dfs_subdir. cbn [length Nat.eqb]. change (at_ (slash :: c :: rest) (Z.of_nat 1)) with c. by destruct (Z.eqb_spec c slash). Qed.
(** With a relative directory the path may leave it: there is no result, or ["/"]. *)
Lemma relative_directory :
  dfs_normalize_path [] true (Some (codes "x")) (codes "../..") = Some None /\ dfs_normalize_path [] true (Some (codes "x")) (codes "..") = Some (Some (codes "/")).
Proof. vm_compute. done. Qed.
