(* ===== verification/Dfs.v ===== *)
(** * The virtual file system: data and descriptor table
    ([src/rt-thread/components/dfs/dfs_v1/include/dfs_file.h], [dfs_fs.h] and
    [src/rt-thread/components/dfs/dfs_v1/src/dfs.c])

    The state [dfs] holds the descriptor table, the open files and vnodes on the
    heap, the hash of the vnodes, the tables of file systems, the working directory
    and the error number.  [W] is the rest of the system, what the file systems and
    devices work on, [D] the type of their private data.

    Operations run in a state monad.  A run is undefined ([None]) when freed memory
    or a null pointer is used or an assertion fails.  Addresses are taken from a
    counter and not used again, so that every use of freed memory shows.  [mem] says
    for each allocation to come whether it succeeds; when the list is used up
    allocations succeed.  The locks are left out: an operation is one step. *)
From Stdlib Require Import Ascii String.
From S2P Require Import Prelude KStdio DfsPath.

Definition DFS_FILESYSTEMS_MAX : Z := 4.
Definition DFS_FILESYSTEM_TYPES_MAX : Z := 4.
Definition DFS_FD_MAX : Z := 16.
Definition DFS_STDIO_OFFSET : Z := 3.
Definition DFS_PATH_MAX : Z := 256.
Definition DFS_FS_FLAG_DEFAULT : Z := 0.
Definition DFS_FS_FLAG_FULLPATH : Z := 1.
Definition DFS_FD_MAGIC : Z := 0xfdfd.
Definition DFS_VNODE_HASH_NR : Z := 128.
Definition FT_REGULAR : Z := 0.
Definition FT_SOCKET : Z := 1.
Definition FT_DIRECTORY : Z := 2.
Definition FT_USER : Z := 3.
Definition FT_DEVICE : Z := 4.
Definition DFS_F_OPEN : Z := 0x01000000.
Definition DFS_F_DIRECTORY : Z := 0x02000000.
Definition DFS_F_EOF : Z := 0x04000000.
Definition O_RDONLY : Z := 0.
Definition O_WRONLY : Z := 1.
Definition O_RDWR : Z := 2.
Definition O_CREAT : Z := 64.
Definition O_EXCL : Z := 128.
Definition O_TRUNC : Z := 512.
Definition O_APPEND : Z := 1024.
Definition O_NONBLOCK : Z := 2048.
Definition O_DIRECTORY : Z := 65536.
Definition F_GETFL : Z := 3.
Definition F_SETFL : Z := 4.
Definition RT_FIOFTRUNCATE : Z := 0x52540000.
Definition RT_FIOGETADDR : Z := 0x52540001.
Definition SEEK_SET : Z := 0.
Definition SEEK_CUR : Z := 1.
Definition SEEK_END : Z := 2.
Definition ENOENT : Z := 2.
Definition EIO : Z := 5.
Definition ENXIO : Z := 6.
Definition EBADF : Z := 9.
Definition ENOMEM : Z := 12.
Definition EBUSY : Z := 16.
Definition EEXIST : Z := 17.
Definition EXDEV : Z := 18.
Definition ENODEV : Z := 19.
Definition ENOTDIR : Z := 20.
Definition EINVAL : Z := 22.
Definition ENOSPC : Z := 28.
Definition ENOSYS : Z := 38.

(** [sizeof(struct dirent)] *)
Definition SIZEOF_DIRENT : Z := 260.
(** [struct dirent], [struct stat] and [struct statfs]. *)
Record dirent := { d_type : Z; d_namlen : Z; d_reclen : Z; d_name : list Z }.
Record stat_buf := { st_dev : Z; st_mode : Z; st_size : Z; st_mtime : Z }.
Record statfs_buf := { f_bsize : Z; f_blocks : Z; f_bfree : Z; f_bavail : Z }.

Notation loc := nat.

Section dfs.
Context {D W : Type}.

(** The fields of a vnode and of a file that a file system may change. *)
Record vattr := { v_type : Z; v_flags : Z; v_size : Z; v_data : option D }.
Record fattr := { f_flags : Z; f_pos : Z; f_data : option D }.
(** [fs->data]: the name of the type at first, then what the file system puts there. *)
Inductive fsdata := FsNull | FsType (name : list Z) | FsData (d : D).
(** What a file system reads of the other fields: its data, [path] and [ref_count]
    of the vnode. *)
Record fview := { cv_fs : fsdata; cv_path : option (list Z); cv_ref : Z }.

(** An operation on a file with an argument and what it gives back besides its
    result; [None] when it is undefined. *)
Definition fop (A B : Type) : Type := fview -> A -> vattr -> fattr -> W -> option (Z * B * vattr * fattr * W).
(** [struct dfs_file_ops] without [poll]; a field is [None] for [NULL].  [read] and
    [getdents] give what they leave in the buffer, [ioctl] what it stores at its
    argument. *)
Record dfs_file_ops := {
  fop_open : option (fop unit unit);
  fop_close : option (fop unit unit);
  fop_ioctl : option (fop (Z * Z) (option Z));
  fop_read : option (fop Z (list Z));
  fop_write : option (fop (list Z) unit);
  fop_flush : option (fop unit unit);
  fop_lseek : option (fop Z unit);
  fop_getdents : option (fop Z (list dirent)) }.
Record dfs_filesystem_ops := {
  o_name : list Z;
  o_flags : Z;
  o_fops : dfs_file_ops;
  o_mount : option (fsdata -> Z -> option D -> W -> option (Z * fsdata * W));
  o_unmount : option (fsdata -> W -> option (Z * fsdata * W));
  o_mkfs : option (Z -> list Z -> W -> option (Z * W));
  o_statfs : option (fsdata -> W -> option (Z * statfs_buf * W));
  o_unlink : option (fsdata -> list Z -> W -> option (Z * W));
  o_stat : option (fsdata -> list Z -> W -> option (Z * stat_buf * W));
  o_rename : option (fsdata -> option (list Z) -> option (list Z) -> W -> option (Z * W)) }.
Record dfs_filesystem := { fs_dev : option Z; fs_path : option (list Z); fs_ops : option dfs_filesystem_ops; fs_data : fsdata }.
Definition no_filesystem : dfs_filesystem := {| fs_dev := None; fs_path := None; fs_ops := None; fs_data := FsNull |}.

Record dfs_vnode := { v_path : option (list Z); v_fullpath : list Z; v_ref : Z; v_fs : option nat; v_fops : dfs_file_ops; v_attr : vattr }.
Record dfs_file := { f_magic : Z; f_ref : Z; f_vnode : option loc; f_attr : fattr }.

Record dfs := {
  fds : list (option loc);
  files : gmap loc dfs_file;
  vnodes : gmap loc dfs_vnode;
  head : list (list loc);
  filesystem_table : list dfs_filesystem;
  filesystem_operation_table : list (option dfs_filesystem_ops);
  working_directory : list Z;
  errno : Z;
  brk : loc;
  mem : list bool;
  world : W }.

Definition with_fds fds' s := {| fds := fds'; files := files s; vnodes := vnodes s; head := head s; filesystem_table := filesystem_table s; filesystem_operation_table := filesystem_operation_table s; working_directory := working_directory s; errno := errno s; brk := brk s; mem := mem s; world := world s |}.
Definition with_files m s := {| fds := fds s; files := m; vnodes := vnodes s; head := head s; filesystem_table := filesystem_table s; filesystem_operation_table := filesystem_operation_table s; working_directory := working_directory s; errno := errno s; brk := brk s; mem := mem s; world := world s |}.
Definition with_vnodes m s := {| fds := fds s; files := files s; vnodes := m; head := head s; filesystem_table := filesystem_table s; filesystem_operation_table := filesystem_operation_table s; working_directory := working_directory s; errno := errno s; brk := brk s; mem := mem s; world := world s |}.
Definition with_head h s := {| fds := fds s; files := files s; vnodes := vnodes s; head := h; filesystem_table := filesystem_table s; filesystem_operation_table := filesystem_operation_table s; working_directory := working_directory s; errno := errno s; brk := brk s; mem := mem s; world := world s |}.
Definition with_filesystem_table t s := {| fds := fds s; files := files s; vnodes := vnodes s; head := head s; filesystem_table := t; filesystem_operation_table := filesystem_operation_table s; working_directory := working_directory s; errno := errno s; brk := brk s; mem := mem s; world := world s |}.
Definition with_filesystem_operation_table t s := {| fds := fds s; files := files s; vnodes := vnodes s; head := head s; filesystem_table := filesystem_table s; filesystem_operation_table := t; working_directory := working_directory s; errno := errno s; brk := brk s; mem := mem s; world := world s |}.
Definition with_working_directory d s := {| fds := fds s; files := files s; vnodes := vnodes s; head := head s; filesystem_table := filesystem_table s; filesystem_operation_table := filesystem_operation_table s; working_directory := d; errno := errno s; brk := brk s; mem := mem s; world := world s |}.
Definition with_errno e s := {| fds := fds s; files := files s; vnodes := vnodes s; head := head s; filesystem_table := filesystem_table s; filesystem_operation_table := filesystem_operation_table s; working_directory := working_directory s; errno := e; brk := brk s; mem := mem s; world := world s |}.
Definition with_brk b s := {| fds := fds s; files := files s; vnodes := vnodes s; head := head s; filesystem_table := filesystem_table s; filesystem_operation_table := filesystem_operation_table s; working_directory := working_directory s; errno := errno s; brk := b; mem := mem s; world := world s |}.
Definition with_mem m s := {| fds := fds s; files := files s; vnodes := vnodes s; head := head s; filesystem_table := filesystem_table s; filesystem_operation_table := filesystem_operation_table s; working_directory := working_directory s; errno := errno s; brk := brk s; mem := m; world := world s |}.
Definition with_world w s := {| fds := fds s; files := files s; vnodes := vnodes s; head := head s; filesystem_table := filesystem_table s; filesystem_operation_table := filesystem_operation_table s; working_directory := working_directory s; errno := errno s; brk := brk s; mem := mem s; world := w |}.

(** ** The monad *)
Definition M (A : Type) : Type := dfs -> option (A * dfs).
#[global] Instance M_ret : MRet M := fun A a s => Some (a, s).
#[global] Instance M_bind : MBind M := fun A B k m s => match m s with Some (a, s') => k a s' | None => None end.
Definition undefined {A} : M A := fun _ => None.
Definition gets {A} (f : dfs -> A) : M A := fun s => Some (f s, s).
Definition modify (f : dfs -> dfs) : M unit := fun s => Some (tt, f s).
Definition run {A} (f : W -> option (A * W)) : M A := fun s =>
  match f (world s) with Some (a, w) => Some (a, with_world w s) | None => None end.
Definition deref {A} (o : option A) : M A := match o with Some a => mret a | None => undefined end.
Definition rt_set_errno (e : Z) : M unit := modify (with_errno e).
Definition rt_malloc : M bool := fun s => Some (default true (hd_error (mem s)), with_mem (tl (mem s)) s).

Definition get_file (l : loc) : M dfs_file := fun s => match files s !! l with Some f => Some (f, s) | None => None end.
Definition get_vnode (l : loc) : M dfs_vnode := fun s => match vnodes s !! l with Some v => Some (v, s) | None => None end.
Definition put_file (l : loc) (f : dfs_file) : M unit := modify (fun s => with_files (<[l := f]> (files s)) s).
Definition put_vnode (l : loc) (v : dfs_vnode) : M unit := modify (fun s => with_vnodes (<[l := v]> (vnodes s)) s).
Definition new_file (f : dfs_file) : M loc := fun s => Some (brk s, with_brk (S (brk s)) (with_files (<[brk s := f]> (files s)) s)).
Definition new_vnode (v : dfs_vnode) : M loc := fun s => Some (brk s, with_brk (S (brk s)) (with_vnodes (<[brk s := v]> (vnodes s)) s)).
(** [rt_free] of a file or a vnode that is not live is undefined. *)
Definition free_file (l : loc) : M unit := get_file l ≫= fun _ => modify (fun s => with_files (delete l (files s)) s).
Definition free_vnode (l : loc) : M unit := get_vnode l ≫= fun _ => modify (fun s => with_vnodes (delete l (vnodes s)) s).

Definition with_f_ref r (f : dfs_file) := {| f_magic := f_magic f; f_ref := r; f_vnode := f_vnode f; f_attr := f_attr f |}.
Definition with_f_vnode v (f : dfs_file) := {| f_magic := f_magic f; f_ref := f_ref f; f_vnode := v; f_attr := f_attr f |}.
Definition with_f_attr a (f : dfs_file) := {| f_magic := f_magic f; f_ref := f_ref f; f_vnode := f_vnode f; f_attr := a |}.
Definition with_f_pos p (f : dfs_file) := with_f_attr {| f_flags := f_flags (f_attr f); f_pos := p; f_data := f_data (f_attr f) |} f.
Definition with_f_flags x (f : dfs_file) := with_f_attr {| f_flags := x; f_pos := f_pos (f_attr f); f_data := f_data (f_attr f) |} f.
Definition with_v_ref r (v : dfs_vnode) := {| v_path := v_path v; v_fullpath := v_fullpath v; v_ref := r; v_fs := v_fs v; v_fops := v_fops v; v_attr := v_attr v |}.
Definition with_v_attr a (v : dfs_vnode) := {| v_path := v_path v; v_fullpath := v_fullpath v; v_ref := v_ref v; v_fs := v_fs v; v_fops := v_fops v; v_attr := a |}.
Definition with_v_type t (v : dfs_vnode) := with_v_attr {| v_type := t; v_flags := v_flags (v_attr v); v_size := v_size (v_attr v); v_data := v_data (v_attr v) |} v.
Definition with_v_size n (v : dfs_vnode) := with_v_attr {| v_type := v_type (v_attr v); v_flags := v_flags (v_attr v); v_size := n; v_data := v_data (v_attr v) |} v.
End dfs.
Arguments vattr : clear implicits.
Arguments fattr : clear implicits.
Arguments fsdata : clear implicits.
Arguments fview : clear implicits.
Arguments fop : clear implicits.
Arguments dfs_file_ops : clear implicits.
Arguments dfs_filesystem_ops : clear implicits.
Arguments dfs_filesystem : clear implicits.
Arguments dfs_vnode : clear implicits.
Arguments dfs_file : clear implicits.
Arguments dfs : clear implicits.
Arguments M : clear implicits.

(** ** The descriptor table *)
Section fd_table.
Context {D W : Type}.
Local Notation M := (M D W).

Definition zero_fattr : fattr D := {| f_flags := 0; f_pos := 0; f_data := None |}.
Definition maxfd (s : dfs D W) : Z := Z.of_nat (length (fds s)).
(** [fdt->fds[fd]] for an index in range. *)
Definition slot (s : dfs D W) (fd : Z) : option loc := default None (fds s !! Z.to_nat fd).
Definition set_slot (fd : Z) (o : option loc) : M unit := modify (fun s => with_fds (<[Z.to_nat fd := o]> (fds s)) s).

Definition fd_slot_expand (fd : Z) : M Z :=
  n ← gets maxfd;
  if fd <? n then mret fd
  else if DFS_FD_MAX <=? fd then mret (-1)
  else
    let nr := Z.land (fd + 4) (Z.lnot 3) in
    let nr := if DFS_FD_MAX <? nr then DFS_FD_MAX else nr in
    ok ← rt_malloc;
    if negb ok then mret (-1)
    else
      _ ← modify (fun s => with_fds (fds s ++ replicate (Z.to_nat (nr - n)) None) s);
      mret fd.
(** The first empty slot from [idx] on. *)
Fixpoint slot_loop (l : list (option loc)) (idx : Z) : option Z :=
  match l with
  | [] => None
  | None :: _ => Some idx
  | Some _ :: l => slot_loop l (idx + 1)
  end.
Definition fd_slot_alloc (startfd : Z) : M Z :=
  t ← gets fds;
  match slot_loop (drop (Z.to_nat startfd) t) startfd with
  | Some idx => mret idx
  | None =>
      idx ← gets maxfd;
      let idx := if idx <? startfd then startfd else idx in
      r ← fd_slot_expand idx;
      if r <? 0 then mret (-1) else mret idx
  end.
Definition fd_alloc (startfd : Z) : M Z :=
  idx ← fd_slot_alloc startfd;
  if idx <? 0 then mret (-1)
  else
    ok ← rt_malloc;
    if negb ok then mret (-1)
    else
      fd ← new_file {| f_magic := DFS_FD_MAGIC; f_ref := 1; f_vnode := None; f_attr := zero_fattr |};
      _ ← set_slot idx (Some fd);
      mret idx.
Definition fdt_fd_new : M Z := fd_alloc DFS_STDIO_OFFSET.
Definition fd_new : M Z := fdt_fd_new.
Definition fdt_fd_get (fd : Z) : M (option loc) :=
  n ← gets maxfd;
  if (fd <? 0) || (n <=? fd) then mret None
  else
    d ← gets (fun s => slot s fd);
    match d with
    | None => mret None
    | Some l => f ← get_file l; if negb (f_magic f =? DFS_FD_MAGIC) then mret None else mret (Some l)
    end.
Definition fd_get (fd : Z) : M (option loc) := fdt_fd_get fd.
Definition fdt_fd_release (fd : Z) : M unit :=
  n ← gets maxfd;
  if (fd <? 0) || (n <=? fd) then mret tt
  else
    d ← gets (fun s => slot s fd);
    match d with
    | None => mret tt
    | Some l =>
        _ ← set_slot fd None;
        f ← get_file l;
        if negb (f_magic f =? DFS_FD_MAGIC) then undefined
        else
          _ ← put_file l (with_f_ref (f_ref f - 1) f);
          if f_ref f - 1 =? 0 then
            _ ← match f_vnode f with
                | Some v =>
                    x ← get_vnode v;
                    _ ← put_vnode v (with_v_ref (v_ref x - 1) x);
                    if v_ref x - 1 =? 0 then free_vnode v else mret tt
                | None => mret tt
                end;
            free_file l
          else mret tt
    end.
Definition fd_release (fd : Z) : M unit := fdt_fd_release fd.
Definition sys_dup (oldfd : Z) : M Z :=
  n ← gets maxfd;
  if (oldfd <? 0) || (n <=? oldfd) then mret (-1)
  else
    d ← gets (fun s => slot s oldfd);
    match d with
    | None => mret (-1)
    | Some l =>
        newfd ← fd_slot_alloc DFS_STDIO_OFFSET;
        if 0 <=? newfd then
          _ ← set_slot newfd (Some l);
          f ← get_file l;
          _ ← put_file l (with_f_ref (f_ref f + 1) f);
          mret newfd
        else mret newfd
    end.
Fixpoint fd_index_loop (l : list (option loc)) (index : Z) (file : loc) : Z :=
  match l with
  | [] => -1
  | o :: l => if decide (o = Some file) then index else fd_index_loop l (index + 1) file
  end.
Definition fd_get_fd_index_form_fdt (file : option loc) : M Z :=
  match file with
  | None => mret (-1)
  | Some l => t ← gets fds; mret (fd_index_loop t 0 l)
  end.
Definition fd_get_fd_index (file : option loc) : M Z := fd_get_fd_index_form_fdt file.
Definition fd_associate (fd : Z) (file : option loc) : M Z :=
  match file with
  | None => mret (-1)
  | Some l =>
      n ← gets maxfd;
      if (fd <? 0) || (n <=? fd) then mret (-1)
      else
        d ← gets (fun s => slot s fd);
        match d with
        | Some _ => mret (-1)
        | None =>
            f ← get_file l;
            _ ← put_file l (with_f_ref (f_ref f + 1) f);
            _ ← set_slot fd (Some l);
            mret fd
        end
  end.
Definition fd_init (fd : dfs_file D) : dfs_file D :=
  {| f_magic := DFS_FD_MAGIC; f_ref := 1; f_vnode := None; f_attr := {| f_flags := f_flags (f_attr fd); f_pos := 0; f_data := None |} |}.
End fd_table.
