(* ===== verification/DfsFs.v ===== *)
(** * The virtual file system: file systems
    ([src/rt-thread/components/dfs/dfs_v1/src/dfs_fs.c])

    Registration, lookup by path, partitions, [unmount], [mkfs] and [statfs];
    [dfs_mount], which opens its mount point, is in DfsPosix.v.  A file system is
    its index in [filesystem_table].  The device framework is the interface
    [Devices]. *)
From Stdlib Require Import Ascii String.
From S2P Require Import Prelude KStdio DfsPath Dfs.

Class Devices (W : Type) := {
  rt_device_find : list Z -> W -> option Z;
  rt_device_open : Z -> Z -> W -> Z * W;
  rt_device_close : Z -> W -> Z * W }.

(** [strncmp(a, b, n) == 0] on strings. *)
Definition strncmp_eq (a b : list Z) (n : nat) : bool := bool_decide (take n a = take n b).

Section dfs_fs.
Context {D W : Type} `{!Devices W}.
Local Notation M := (M D W).
Local Notation filesystem_ops := (dfs_filesystem_ops D W).

(** The loop of [dfs_register]: the first empty entry, and whether the name is
    taken, which ends the loop. *)
Fixpoint register_loop (t : list (option filesystem_ops)) (i : nat) (empty : option nat) (name : list Z) : option nat * bool :=
  match t with
  | [] => (empty, false)
  | None :: t => register_loop t (S i) (match empty with None => Some i | _ => empty end) name
  | Some o :: t => if bool_decide (o_name o = name) then (empty, true) else register_loop t (S i) empty name
  end.
Definition dfs_register (ops : filesystem_ops) : M Z :=
  t ← gets filesystem_operation_table;
  let '(empty, taken) := register_loop t 0 None (o_name ops) in
  _ ← (if taken then rt_set_errno (- EEXIST) else mret tt);
  match empty with
  | None => _ ← rt_set_errno (- ENOSPC); mret (-1)
  | Some i =>
      if taken then mret (-1)
      else _ ← modify (fun s => with_filesystem_operation_table (<[i := Some ops]> (filesystem_operation_table s)) s); mret 0
  end.

(** The loop of [dfs_filesystem_lookup] with [fs] and [prefixlen]. *)
Fixpoint lookup_loop (t : list (dfs_filesystem D W)) (i : nat) (path : list Z) (fs : option nat) (prefixlen : nat) : option nat :=
  match t with
  | [] => fs
  | e :: t =>
      match fs_path e, fs_ops e with
      | Some p, Some _ =>
          let fspath := length p in
          if (fspath <? prefixlen)%nat || negb (strncmp_eq p path fspath) then lookup_loop t (S i) path fs prefixlen
          else if (1 <? fspath)%nat && (fspath <? length path)%nat && negb (at_ path (Z.of_nat fspath) =? slash) then lookup_loop t (S i) path fs prefixlen
          else lookup_loop t (S i) path (Some i) fspath
      | _, _ => lookup_loop t (S i) path fs prefixlen
      end
  end.
Definition dfs_filesystem_lookup (path : list Z) : M (option nat) :=
  t ← gets filesystem_table; mret (lookup_loop t 0 path None 0).
Fixpoint mounted_path_loop (t : list (dfs_filesystem D W)) (device : option Z) : option (list Z) :=
  match t with
  | [] => None
  | e :: t =>
      match fs_ops e with
      | None => mounted_path_loop t device
      | Some _ => if decide (fs_dev e = device) then fs_path e else mounted_path_loop t device
      end
  end.
Definition dfs_filesystem_get_mounted_path (device : option Z) : M (option (list Z)) :=
  t ← gets filesystem_table; mret (mounted_path_loop t device).

(** [struct dfs_partition] without its lock. *)
Record dfs_partition := { p_type : Z; p_offset : Z; p_size : Z }.
Definition DPT_ADDRESS : Z := 0x1be.
Definition DPT_ITEM_SIZE : Z := 16.
(** Four bytes from [i] on, the first the lowest. *)
Definition le32 (buf : list Z) (i : Z) : Z :=
  Z.lor (Z.lor (Z.lor (at_ buf i) (Z.shiftl (at_ buf (i + 1)) 8)) (Z.shiftl (at_ buf (i + 2)) 16)) (Z.shiftl (at_ buf (i + 3)) 24).
(** The partition, or [-EIO]. *)
Definition dfs_filesystem_get_partition (buf : list Z) (pindex : Z) : Z + dfs_partition :=
  let dpt := DPT_ADDRESS + u32 (pindex * DPT_ITEM_SIZE) in
  if negb (at_ buf dpt =? 0x80) && negb (at_ buf dpt =? 0) then inl (- EIO)
  else
    let type := at_ buf (dpt + 4) in
    if type =? 0 then inl (- EIO)
    else inr {| p_type := type; p_offset := i32 (le32 buf (dpt + 8)); p_size := u32 (le32 buf (dpt + 12)) |}.

(** The first operations whose name the type starts with: the search of
    [dfs_mount] and [dfs_mkfs]. *)
Fixpoint type_loop (t : list (option filesystem_ops)) (fs_name : list Z) : option filesystem_ops :=
  match t with
  | [] => None
  | Some o :: t => if strncmp_eq (o_name o) fs_name (length (o_name o)) then Some o else type_loop t fs_name
  | None :: t => type_loop t fs_name
  end.
Definition get_filesystem (i : nat) : M (dfs_filesystem D W) := t ← gets filesystem_table; deref (t !! i).
Definition set_filesystem (i : nat) (e : dfs_filesystem D W) : M unit :=
  modify (fun s => with_filesystem_table (<[i := e]> (filesystem_table s)) s).
Definition with_fs_data d (e : dfs_filesystem D W) : dfs_filesystem D W :=
  {| fs_dev := fs_dev e; fs_path := fs_path e; fs_ops := fs_ops e; fs_data := d |}.

(** The entry mounted at a path. *)
Fixpoint mounted_at (t : list (dfs_filesystem D W)) (i : nat) (path : list Z) : option nat :=
  match t with
  | [] => None
  | e :: t => if bool_decide (fs_path e = Some path) then Some i else mounted_at t (S i) path
  end.
(** [dfs_normalize_path(directory, filename)] in the state: reading the working
    directory is undefined when the array holds no terminator. *)
Definition normalize_path (directory : option (list Z)) (filename : list Z) : M (option (list Z)) :=
  wd ← gets working_directory;
  if (Z.of_nat (length wd) <? DFS_PATH_MAX) || bool_decide (directory <> None) || (at_ filename 0 =? slash) then
    ok ← rt_malloc; deref (dfs_normalize_path wd ok directory filename)
  else undefined.
Definition dfs_unmount (specialfile : list Z) : M Z :=
  fullpath ← normalize_path None specialfile;
  match fullpath with
  | None => _ ← rt_set_errno (- ENOTDIR); mret (-1)
  | Some fullpath =>
      t ← gets filesystem_table;
      match mounted_at t 0 fullpath with
      | None => mret (-1)
      | Some i =>
          fs ← get_filesystem i;
          ops ← deref (fs_ops fs);
          match o_unmount ops with
          | None => mret (-1)
          | Some unmount =>
              '(r, d) ← run (fun w => match unmount (fs_data fs) w with Some (r, d, w) => Some ((r, d), w) | None => None end);
              if r <? 0 then _ ← set_filesystem i (with_fs_data d fs); mret (-1)
              else
                _ ← match fs_dev fs with
                    | Some dev => run (fun w => Some (rt_device_close dev w))
                    | None => mret 0
                    end;
                _ ← set_filesystem i no_filesystem;
                mret 0
          end
      end
  end.
Definition dfs_mkfs (fs_name : list Z) (device_name : option (list Z)) : M Z :=
  w ← gets world;
  match (match device_name with Some n => rt_device_find n w | None => None end) with
  | None => _ ← rt_set_errno (- ENODEV); mret (-1)
  | Some dev_id =>
      t ← gets filesystem_operation_table;
      match type_loop t fs_name with
      | Some ops =>
          match o_mkfs ops with
          | None => _ ← rt_set_errno (- ENOSYS); mret (-1)
          | Some mkfs => run (mkfs dev_id fs_name)
          end
      | None => mret (-1)
      end
  end.
(** The result and what is written to the buffer. *)
Definition dfs_statfs (path : list Z) : M (Z * option statfs_buf) :=
  fs ← dfs_filesystem_lookup path;
  let fail := _ ← rt_set_errno (- ENOSYS); mret (-1, None) in
  match fs with
  | Some i =>
      fs ← get_filesystem i;
      ops ← deref (fs_ops fs);
      match o_statfs ops with
      | Some statfs => run (fun w => match statfs (fs_data fs) w with Some (r, b, w) => Some ((r, Some b), w) | None => None end)
      | None => fail
      end
  | None => fail
  end.
End dfs_fs.
