(* ===== verification/DfsFile.v ===== *)
(** * The virtual file system: vnodes and files
    ([src/rt-thread/components/dfs/dfs_v1/src/dfs_file.c])

    Every opened path has one vnode, found by the hash of its full path, which the
    files opened on it share.  A chain of the hash is the list of its vnodes, the
    last one opened first. *)
From Stdlib Require Import Ascii String.
From S2P Require Import Prelude KStdio DfsPath Dfs DfsFs.

(** The loop of [bkdr_hash]. *)
Definition bkdr_step (hash c : Z) : Z := u32 (hash * 131 + c).
Definition bkdr_hash (str : list Z) : Z := foldl bkdr_step 0 str mod DFS_VNODE_HASH_NR.

Section dfs_file.
Context {D W : Type}.
Local Notation M := (M D W).

Definition dfs_vnode_mgr_init : M unit := modify (with_head (replicate (Z.to_nat DFS_VNODE_HASH_NR) [])).
Definition dfs_vnode_init (type : Z) (fops : dfs_file_ops D W) : dfs_vnode D W :=
  {| v_path := None; v_fullpath := []; v_ref := 1; v_fs := None; v_fops := fops;
     v_attr := {| v_type := type; v_flags := 0; v_size := 0; v_data := None |} |}.

Fixpoint find_loop (path : list Z) (hh : list loc) : M (option loc) :=
  match hh with
  | [] => mret None
  | v :: hh => x ← get_vnode v; if bool_decide (path = v_fullpath x) then mret (Some v) else find_loop path hh
  end.
Definition dfs_vnode_find (path : list Z) : M (option loc) :=
  h ← gets head;
  find_loop path (default [] (h !! Z.to_nat (bkdr_hash path))).
(** [rt_list_insert_after(hash_head, &vnode->list)] and
    [rt_list_remove(&vnode->list)]. *)
Definition hash_insert (path : list Z) (v : loc) : M unit :=
  modify (fun s => with_head (alter (cons v) (Z.to_nat (bkdr_hash path)) (head s)) s).
Definition hash_remove (v : loc) : M unit :=
  modify (fun s => with_head (filter (.≠ v) <$> head s) s).

(** Calling an operation of the file system on a file. *)
Definition call_fop {A B} (op : fop D W A B) (fd : loc) (arg : A) : M (Z * B) :=
  f ← get_file fd;
  v ← deref (f_vnode f);
  x ← get_vnode v;
  t ← gets filesystem_table;
  let data := default FsNull (i ← v_fs x; e ← t !! i; Some (fs_data e)) in
  '(r, b, va, fa) ← run (fun w =>
     match op {| cv_fs := data; cv_path := v_path x; cv_ref := v_ref x |} arg (v_attr x) (f_attr f) w with
     | Some (r, b, va, fa, w) => Some ((r, b, va, fa), w)
     | None => None
     end);
  _ ← put_vnode v (with_v_attr va x);
  _ ← put_file fd (with_f_attr fa f);
  mret (r, b).
(** [fd->vnode] *)
Definition vnode_of (fd : loc) : M (dfs_vnode D W) := f ← get_file fd; v ← deref (f_vnode f); get_vnode v.
Definition set_flags (fd : loc) (g : Z -> Z) : M unit := f ← get_file fd; put_file fd (with_f_flags (g (f_flags (f_attr f))) f).

Definition dfs_file_is_open (pathname : list Z) : M Z :=
  fullpath ← normalize_path None pathname;
  fullpath ← deref fullpath;
  vnode ← dfs_vnode_find fullpath;
  mret (match (vnode : option loc) with Some _ => 1 | None => 0 end).

(** [path] below the mount point: [rt_strdup] of [dfs_subdir], [NULL] without
    memory. *)
Definition subdir (mount fullpath : list Z) : list Z := default [slash] (dfs_subdir mount fullpath).
Definition vnode_path (ops : dfs_filesystem_ops D W) (mount : option (list Z)) (fullpath : list Z) : M (option (list Z)) :=
  if Z.land (o_flags ops) DFS_FS_FLAG_FULLPATH =? 0 then
    mount ← deref mount;
    ok ← rt_malloc;
    mret (if (ok : bool) then Some (subdir mount fullpath) else None)
  else mret (Some fullpath).
(** The part of [dfs_file_open] that finds or makes the vnode; [inl] is its return
    with an error. *)
Definition open_vnode (fd : loc) (fullpath : list Z) : M (Z + loc) :=
  vnode ← dfs_vnode_find fullpath;
  match vnode with
  | Some v =>
      x ← get_vnode v;
      _ ← put_vnode v (with_v_ref (v_ref x + 1) x);
      f ← get_file fd;
      _ ← put_file fd (with_f_vnode (Some v) (with_f_pos 0 f));
      mret (inr v)
  | None =>
      fs ← dfs_filesystem_lookup fullpath;
      match fs with
      | None => mret (inl (- ENOENT))
      | Some i =>
          ok ← rt_malloc;
          if negb ok then mret (inl (- ENOMEM))
          else
            e ← get_filesystem i;
            ops ← deref (fs_ops e);
            path ← vnode_path ops (fs_path e) fullpath;
            v ← new_vnode {| v_path := path; v_fullpath := fullpath; v_ref := 1; v_fs := Some i; v_fops := o_fops ops;
                             v_attr := {| v_type := FT_REGULAR; v_flags := 0; v_size := 0; v_data := None |} |};
            match fop_open (o_fops ops) with
            | None => _ ← free_vnode v; mret (inl (- ENOSYS))
            | Some _ =>
                f ← get_file fd;
                _ ← put_file fd (with_f_vnode (Some v) (with_f_pos 0 f));
                _ ← hash_insert fullpath v;
                mret (inr v)
            end
      end
  end.
Definition dfs_file_open (fd : option loc) (path : list Z) (flags : Z) : M Z :=
  match fd with
  | None => mret (- EINVAL)
  | Some fd =>
      fullpath ← normalize_path None path;
      match fullpath with
      | None => mret (- ENOMEM)
      | Some fullpath =>
          r ← open_vnode fd fullpath;
          match r with
          | inl e => mret e
          | inr v =>
              _ ← set_flags fd (fun _ => flags);
              x ← get_vnode v;
              op ← deref (fop_open (v_fops x));
              '(result, _) ← call_fop op fd tt;
              if result <? 0 then
                x ← get_vnode v;
                _ ← put_vnode v (with_v_ref (v_ref x - 1) x);
                _ ← (if v_ref x - 1 =? 0 then
                       _ ← hash_remove v;
                       f ← get_file fd;
                       _ ← put_file fd (with_f_vnode None f);
                       free_vnode v
                     else mret tt);
                mret result
              else
                _ ← set_flags fd (fun x => Z.lor x DFS_F_OPEN);
                if negb (Z.land flags O_DIRECTORY =? 0) then
                  f ← get_file fd;
                  v ← deref (f_vnode f);
                  x ← get_vnode v;
                  _ ← put_vnode v (with_v_type FT_DIRECTORY x);
                  _ ← set_flags fd (fun x => Z.lor x DFS_F_DIRECTORY);
                  mret 0
                else mret 0
          end
      end
  end.
Definition dfs_file_close (fd : option loc) : M Z :=
  match fd with
  | None => mret (- ENXIO)
  | Some fd =>
      f ← get_file fd;
      if f_ref f =? 1 then
        v ← deref (f_vnode f);
        x ← get_vnode v;
        if v_ref x <=? 0 then mret (- ENXIO)
        else
          result ← match fop_close (v_fops x) with
                   | Some op => '(r, _) ← call_fop op fd tt; mret r
                   | None => mret 0
                   end;
          _ ← (if v_ref x =? 1 then
                 _ ← hash_remove v;
                 f ← get_file fd;
                 _ ← put_file fd (with_f_vnode None f);
                 free_vnode v
               else mret tt);
          mret result
      else mret 0
  end.
Definition dfs_file_ioctl (fd : option loc) (cmd args : Z) : M (Z * option Z) :=
  match fd with
  | None => mret (- EINVAL, None)
  | Some fd =>
      x ← vnode_of fd;
      let regular := (v_type (v_attr x) =? FT_REGULAR) || (v_type (v_attr x) =? FT_DEVICE) in
      if regular && (cmd =? F_GETFL) then f ← get_file fd; mret (i32 (f_flags (f_attr f)), None)
      else if regular && (cmd =? F_SETFL) then
        let mask := Z.lor O_NONBLOCK O_APPEND in
        _ ← set_flags fd (fun fl => Z.lor (Z.land fl (u32 (Z.lnot mask))) (Z.land args mask));
        mret (0, None)
      else match fop_ioctl (v_fops x) with
           | Some op => call_fop op fd (cmd, args)
           | None => mret (- ENOSYS, None)
           end
  end.
Definition dfs_file_read (fd : option loc) (len : Z) : M (Z * list Z) :=
  match fd with
  | None => mret (- EINVAL, [])
  | Some fd =>
      x ← vnode_of fd;
      match fop_read (v_fops x) with
      | None => mret (- ENOSYS, [])
      | Some op =>
          '(result, buf) ← call_fop op fd len;
          _ ← (if result <? 0 then set_flags fd (fun x => Z.lor x DFS_F_EOF) else mret tt);
          mret (result, buf)
      end
  end.
Definition dfs_file_getdents (fd : option loc) (nbytes : Z) : M (Z * list dirent) :=
  match fd with
  | None => mret (- EINVAL, [])
  | Some fd =>
      x ← vnode_of fd;
      if negb (v_type (v_attr x) =? FT_DIRECTORY) then mret (- EINVAL, [])
      else match fop_getdents (v_fops x) with
           | Some op => call_fop op fd nbytes
           | None => mret (- ENOSYS, [])
           end
  end.
Definition dfs_file_write (fd : option loc) (buf : list Z) : M Z :=
  match fd with
  | None => mret (- EINVAL)
  | Some fd =>
      x ← vnode_of fd;
      match fop_write (v_fops x) with
      | None => mret (- ENOSYS)
      | Some op => '(r, _) ← call_fop op fd buf; mret r
      end
  end.
Definition dfs_file_flush (fd : option loc) : M Z :=
  match fd with
  | None => mret (- EINVAL)
  | Some fd =>
      x ← vnode_of fd;
      match fop_flush (v_fops x) with
      | None => mret (- ENOSYS)
      | Some op => '(r, _) ← call_fop op fd tt; mret r
      end
  end.
Definition dfs_file_lseek (fd : option loc) (offset : Z) : M Z :=
  match fd with
  | None => mret (- EINVAL)
  | Some fd =>
      x ← vnode_of fd;
      match fop_lseek (v_fops x) with
      | None => mret (- ENOSYS)
      | Some op =>
          '(result, _) ← call_fop op fd offset;
          _ ← (if 0 <=? result then f ← get_file fd; put_file fd (with_f_pos result f) else mret tt);
          mret result
      end
  end.
Definition dfs_file_ftruncate (fd : option loc) (length : Z) : M Z :=
  match fd with
  | None => mret (- EINVAL)
  | Some fd =>
      x ← vnode_of fd;
      if negb (v_type (v_attr x) =? FT_REGULAR) || (length <? 0) then mret (- EINVAL)
      else match fop_ioctl (v_fops x) with
           | None => mret (- ENOSYS)
           | Some op =>
               '(result, _) ← call_fop op fd (RT_FIOFTRUNCATE, length);
               _ ← (if result =? 0 then
                      f ← get_file fd;
                      v ← deref (f_vnode f);
                      x ← get_vnode v;
                      put_vnode v (with_v_size length x)
                    else mret tt);
               mret result
           end
  end.

(** ** Operations on paths *)
(** The path a file system is called with. *)
Definition fs_relative (ops : dfs_filesystem_ops D W) (mount : option (list Z)) (fullpath : list Z) : M (list Z) :=
  if Z.land (o_flags ops) DFS_FS_FLAG_FULLPATH =? 0 then mount ← deref mount; mret (subdir mount fullpath) else mret fullpath.
Definition dfs_file_unlink (path : list Z) : M Z :=
  fullpath ← normalize_path None path;
  match fullpath with
  | None => mret (- EINVAL)
  | Some fullpath =>
      b ← dfs_file_is_open fullpath;
      if negb (b =? 0) then mret (- EBUSY)
      else
        fs ← dfs_filesystem_lookup fullpath;
        match fs with
        | None => mret (- ENOENT)
        | Some i =>
            e ← get_filesystem i;
            ops ← deref (fs_ops e);
            match o_unlink ops with
            | Some unlink => p ← fs_relative ops (fs_path e) fullpath; run (unlink (fs_data e) p)
            | None => mret (- ENOSYS)
            end
        end
  end.
Definition dfs_file_stat (path : list Z) : M (Z * option stat_buf) :=
  fullpath ← normalize_path None path;
  match fullpath with
  | None => mret (-1, None)
  | Some fullpath =>
      fs ← dfs_filesystem_lookup fullpath;
      match fs with
      | None => mret (- ENOENT, None)
      | Some i =>
          e ← get_filesystem i;
          ops ← deref (fs_ops e);
          match o_stat ops with
          | None => mret (- ENOSYS, None)
          | Some stat =>
              p ← fs_relative ops (fs_path e) fullpath;
              run (fun w => match stat (fs_data e) p w with Some (r, b, w) => Some ((r, Some b), w) | None => None end)
          end
      end
  end.
Definition dfs_file_rename (oldpath newpath : list Z) : M Z :=
  oldfullpath ← normalize_path None oldpath;
  match oldfullpath with
  | None => mret (- ENOENT)
  | Some oldfullpath =>
      b ← dfs_file_is_open oldfullpath;
      if negb (b =? 0) then mret (- EBUSY)
      else
        newfullpath ← normalize_path None newpath;
        match newfullpath with
        | None => mret (- ENOENT)
        | Some newfullpath =>
            oldfs ← dfs_filesystem_lookup oldfullpath;
            newfs ← dfs_filesystem_lookup newfullpath;
            if bool_decide (oldfs = newfs) then
              i ← deref oldfs;
              e ← get_filesystem i;
              ops ← deref (fs_ops e);
              match o_rename ops with
              | None => mret (- ENOSYS)
              | Some rename =>
                  if Z.land (o_flags ops) DFS_FS_FLAG_FULLPATH =? 0 then
                    mount ← deref (fs_path e);
                    run (rename (fs_data e) (dfs_subdir mount oldfullpath) (dfs_subdir mount newfullpath))
                  else run (rename (fs_data e) (Some oldfullpath) (Some newfullpath))
              end
            else mret (- EXDEV)
        end
  end.
End dfs_file.
