(* ===== verification/DfsPosix.v ===== *)
(** * The virtual file system: mounting and the calls of applications
    ([dfs_mount] of [dfs_fs.c], the rest of [dfs.c], and
    [src/rt-thread/components/dfs/dfs_v1/src/dfs_posix.c])

    A [DIR] is a value that its operations return again. *)
From Stdlib Require Import Ascii String.
From S2P Require Import Prelude KStdio DfsPath Dfs DfsFs DfsFile.

Definition RT_DEVICE_OFLAG_RDWR : Z := 3.
(** [sizeof(DIR.buf)] *)
Definition SIZEOF_DIR_BUF : Z := 512.
Record DIR := { dir_fd : Z; dir_buf : list dirent; dir_num : Z; dir_cur : Z }.

Section dfs_posix.
Context {D W : Type} `{!Devices W}.
Local Notation M := (M D W).

(** ** The rest of dfs.c *)
Fixpoint is_open_loop (l : list (option loc)) (fs : nat) (mountpath : list Z) : M Z :=
  match l with
  | [] => mret (-1)
  | None :: l => is_open_loop l fs mountpath
  | Some fd :: l =>
      x ← vnode_of fd;
      match v_path x with
      | None => is_open_loop l fs mountpath
      | Some p => if bool_decide (v_fs x = Some fs) && bool_decide (p = mountpath) then mret 0 else is_open_loop l fs mountpath
      end
  end.
Definition fd_is_open (pathname : list Z) : M Z :=
  fullpath ← normalize_path None pathname;
  match fullpath with
  | None => mret (-1)
  | Some fullpath =>
      fs ← dfs_filesystem_lookup fullpath;
      match fs with
      | None => mret (-1)
      | Some i =>
          e ← get_filesystem i;
          p ← deref (fs_path e);
          let mountpath := if bool_decide (p = [slash]) then fullpath else drop (length p) fullpath in
          t ← gets fds;
          is_open_loop t i mountpath
      end
  end.
Definition sys_dup2 (oldfd newfd : Z) : M Z :=
  n ← gets maxfd;
  if (oldfd <? 0) || (n <=? oldfd) then mret (-1)
  else
    d ← gets (fun s => slot s oldfd);
    match d with
    | None => mret (-1)
    | Some l =>
        if newfd <? 0 then mret (-1)
        else
          newfd ← (if n <=? newfd then fd_slot_expand newfd else mret newfd);
          if newfd <? 0 then mret (-1)
          else
            e ← gets (fun s => slot s newfd);
            if decide (e = Some l) then mret newfd
            else
              let replace :=
                _ ← set_slot newfd (Some l);
                f ← get_file l;
                _ ← put_file l (with_f_ref (f_ref f + 1) f);
                mret newfd in
              match e with
              | Some _ =>
                  ret ← dfs_file_close e;
                  if ret <? 0 then mret (-1) else _ ← fd_release newfd; replace
              | None => replace
              end
    end.

(** ** dfs_mount *)
(** The mount point is opened and closed again through a file on the stack, whose
    fields are [junk] before. *)
Definition check_mount_point (junk : dfs_file D) (fullpath : list Z) : M bool :=
  fd ← new_file (fd_init junk);
  r ← dfs_file_open (Some fd) fullpath (Z.lor O_RDONLY O_DIRECTORY);
  if r <? 0 then _ ← free_file fd; mret false
  else _ ← dfs_file_close (Some fd); _ ← free_file fd; mret true.
(** The search for an empty entry: [true] when the path is mounted already;
    undefined when a used entry has no path. *)
Fixpoint mount_loop (t : list (dfs_filesystem D W)) (i : nat) (fs : option nat) (path : list Z) : option (bool * option nat) :=
  match t with
  | [] => Some (false, fs)
  | e :: t =>
      match fs_ops e with
      | None => mount_loop t (S i) (match fs with None => Some i | _ => fs end) path
      | Some _ => match fs_path e with
                  | None => None
                  | Some p => if bool_decide (p = path) then Some (true, fs) else mount_loop t (S i) fs path
                  end
      end
  end.
Definition dfs_mount (junk : dfs_file D) (device_name : option (list Z)) (path filesystemtype : list Z) (rwflag : Z) (data : option D) : M Z :=
  w ← gets world;
  let fail e := _ ← rt_set_errno (- e); mret (-1) in
  match (match device_name with None => Some None | Some n => Some <$> rt_device_find n w end) with
  | None => fail ENODEV
  | Some dev_id =>
      t ← gets filesystem_operation_table;
      match type_loop t filesystemtype with
      | None => fail ENODEV
      | Some ops =>
          match o_mount ops with
          | None => fail ENOSYS
          | Some mount =>
              fullpath ← normalize_path None path;
              match fullpath with
              | None => fail ENOTDIR
              | Some fullpath =>
                  exists_ ← (if negb (bool_decide (fullpath = codes "/")) && negb (bool_decide (fullpath = codes "/dev"))
                             then check_mount_point junk fullpath else mret true);
                  if negb exists_ then fail ENOTDIR
                  else
                    t ← gets filesystem_table;
                    r ← deref (mount_loop t 0 None path);
                    match r with
                    | (true, _) => fail EINVAL
                    | (false, None) => fail ENOSPC
                    | (false, Some i) =>
                        _ ← set_filesystem i {| fs_dev := dev_id; fs_path := Some fullpath; fs_ops := Some ops; fs_data := FsType filesystemtype |};
                        opened ← match dev_id with
                                 | Some dev => run (fun w => let '(r, w) := rt_device_open dev RT_DEVICE_OFLAG_RDWR w in Some (r =? 0, w))
                                 | None => mret true
                                 end;
                        if negb opened then _ ← set_filesystem i no_filesystem; mret (-1)
                        else
                          '(r, d) ← run (fun w => match mount (FsType filesystemtype) rwflag data w with Some (r, d, w) => Some ((r, d), w) | None => None end);
                          e ← get_filesystem i;
                          _ ← set_filesystem i (with_fs_data d e);
                          if r <? 0 then
                            _ ← match dev_id with
                                | Some dev => run (fun w => Some (rt_device_close dev w))
                                | None => mret 0
                                end;
                            _ ← set_filesystem i no_filesystem;
                            mret (-1)
                          else mret 0
                    end
              end
          end
      end
  end.
(** [devfs_init] registers the device file system.  The second result is the new
    value of [init_ok]. *)
Definition dfs_init (junk : dfs_file D) (init_ok : bool) (_device_fs : dfs_filesystem_ops D W) : M (Z * bool) :=
  if init_ok then mret (0, init_ok)
  else
    _ ← dfs_vnode_mgr_init;
    _ ← modify (fun s => with_filesystem_operation_table (replicate (Z.to_nat DFS_FILESYSTEM_TYPES_MAX) None)
                        (with_filesystem_table (replicate (Z.to_nat DFS_FILESYSTEMS_MAX) no_filesystem)
                        (with_fds [] (with_working_directory [slash] s))));
    _ ← dfs_register _device_fs;
    _ ← dfs_mount junk None (codes "/dev") (codes "devfs") 0 None;
    mret (0, true).

(** ** dfs_posix.c *)
Definition fail_with {A} (e : Z) (a : A) : M A := _ ← rt_set_errno e; mret a.
(** [-1] and the error number for a negative result. *)
Definition posix_result (r : Z) : M Z := if r <? 0 then fail_with r (-1) else mret r.

Definition open (file : list Z) (flags : Z) : M Z :=
  fd ← fd_new;
  if fd <? 0 then fail_with (- ENOMEM) (-1)
  else
    d ← fd_get fd;
    result ← dfs_file_open d file flags;
    if result <? 0 then _ ← fd_release fd; fail_with result (-1) else mret fd.
Definition AT_FDCWD : Z := -100.
Definition openat (dirfd : Z) (path : option (list Z)) (flag : Z) : M Z :=
  match path with
  | None => fail_with (- EBADF) (-1)
  | Some path =>
      if negb (at_ path 0 =? slash) && negb (dirfd =? AT_FDCWD) then
        d ← fd_get dirfd;
        match d with
        | None => fail_with (- EBADF) (-1)
        | Some l =>
            f ← get_file l;
            match f_vnode f with
            | None => fail_with (- EBADF) (-1)
            | Some v =>
                x ← get_vnode v;
                fullpath ← normalize_path (Some (v_fullpath x)) path;
                match fullpath with
                | None => fail_with (- ENOMEM) (-1)
                | Some fullpath => open fullpath flag
                end
            end
        end
      else open path flag
  end.
Definition creat (path : list Z) : M Z := open path (Z.lor (Z.lor O_WRONLY O_CREAT) O_TRUNC).
Definition close (fd : Z) : M Z :=
  d ← fd_get fd;
  match d with
  | None => fail_with (- EBADF) (-1)
  | Some _ =>
      result ← dfs_file_close d;
      _ ← fd_release fd;
      if result <? 0 then fail_with result (-1) else mret 0
  end.
Definition read (fd len : Z) : M (Z * list Z) :=
  d ← fd_get fd;
  match d with
  | None => fail_with (- EBADF) (-1, [])
  | Some _ =>
      '(result, buf) ← dfs_file_read d len;
      r ← posix_result result;
      mret (r, buf)
  end.
Definition write (fd : Z) (buf : list Z) : M Z :=
  d ← fd_get fd;
  match d with
  | None => fail_with (- EBADF) (-1)
  | Some _ => result ← dfs_file_write d buf; posix_result result
  end.
Definition lseek (fd offset whence : Z) : M Z :=
  d ← fd_get fd;
  match d with
  | None => fail_with (- EBADF) (-1)
  | Some l =>
      f ← get_file l;
      let go offset :=
        if offset <? 0 then fail_with (- EINVAL) (-1)
        else
          result ← dfs_file_lseek d offset;
          if result <? 0 then fail_with result (-1) else mret offset in
      if whence =? SEEK_SET then go offset
      else if whence =? SEEK_CUR then go (i32 (offset + f_pos (f_attr f)))
      else if whence =? SEEK_END then x ← vnode_of l; go (i32 (offset + v_size (v_attr x)))
      else fail_with (- EINVAL) (-1)
  end.
Definition rename (old_file new_file : list Z) : M Z :=
  result ← dfs_file_rename old_file new_file;
  if result <? 0 then fail_with result (-1) else mret 0.
Definition unlink (pathname : list Z) : M Z :=
  result ← dfs_file_unlink pathname;
  if result <? 0 then fail_with result (-1) else mret 0.
Definition stat (file : list Z) : M (Z * option stat_buf) :=
  '(result, buf) ← dfs_file_stat file;
  r ← posix_result result;
  mret (r, buf).
Definition fstat (fildes : Z) : M (Z * option stat_buf) :=
  d ← fd_get fildes;
  match d with
  | None => fail_with (- EBADF) (-1, None)
  | Some l => x ← vnode_of l; stat (v_fullpath x)
  end.
Definition fsync (fildes : Z) : M Z :=
  d ← fd_get fildes;
  match d with
  | None => fail_with (- EBADF) (-1)
  | Some _ => dfs_file_flush d
  end.
Definition fcntl (fildes cmd arg : Z) : M (Z * option Z) :=
  d ← fd_get fildes;
  '(ret, out) ← match d with
                | Some _ => dfs_file_ioctl d cmd arg
                | None => mret (- EBADF, None)
                end;
  if ret <? 0 then fail_with ret (-1, out) else mret (ret, out).
Definition ioctl (fildes cmd arg : Z) : M (Z * option Z) := fcntl fildes cmd arg.
Definition ftruncate (fd length : Z) : M Z :=
  d ← fd_get fd;
  match d with
  | None => fail_with (- EBADF) (-1)
  | Some _ =>
      if length <? 0 then fail_with (- EINVAL) (-1)
      else
        result ← dfs_file_ftruncate d length;
        if result <? 0 then fail_with result (-1) else mret 0
  end.
Definition statfs (path : list Z) : M (Z * option statfs_buf) :=
  '(result, buf) ← dfs_statfs path;
  r ← posix_result result;
  mret (r, buf).
Definition fstatfs (fildes : Z) : M (Z * option statfs_buf) :=
  d ← fd_get fildes;
  match d with
  | None => fail_with (- EBADF) (-1, None)
  | Some l => x ← vnode_of l; statfs (v_fullpath x)
  end.
Definition mkdir (path : list Z) : M Z :=
  fd ← fd_new;
  if fd =? -1 then fail_with (- ENOMEM) (-1)
  else
    d ← fd_get fd;
    result ← dfs_file_open d path (Z.lor O_DIRECTORY O_CREAT);
    if result <? 0 then _ ← fd_release fd; fail_with result (-1)
    else _ ← dfs_file_close d; _ ← fd_release fd; mret 0.
Definition rmdir (pathname : list Z) : M Z :=
  result ← dfs_file_unlink pathname;
  if result <? 0 then fail_with result (-1) else mret 0.

(** ** Directory streams *)
Definition opendir (name : list Z) : M (option DIR) :=
  fd ← fd_new;
  if fd =? -1 then fail_with (- ENOMEM) None
  else
    d ← fd_get fd;
    result ← dfs_file_open d name (Z.lor O_RDONLY O_DIRECTORY);
    if 0 <=? result then
      ok ← rt_malloc;
      if negb ok then _ ← dfs_file_close d; _ ← fd_release fd; mret None
      else mret (Some {| dir_fd := fd; dir_buf := []; dir_num := 0; dir_cur := 0 |})
    else _ ← fd_release fd; fail_with result None.
(** The entry of the buffer at a byte; undefined between two entries.  Behind the
    entries that were written the buffer is zero, as [opendir] left it: an entry
    there has length 0. *)
Definition entry_at (buf : list dirent) (cur : Z) : option dirent :=
  if cur mod SIZEOF_DIRENT =? 0 then buf !! Z.to_nat (cur / SIZEOF_DIRENT) else None.
Definition reclen_at (buf : list dirent) (cur : Z) : option Z :=
  if negb (cur mod SIZEOF_DIRENT =? 0) then None
  else match buf !! Z.to_nat (cur / SIZEOF_DIRENT) with
       | Some e => Some (d_reclen e)
       | None => if cur + 4 <=? SIZEOF_DIR_BUF then Some 0 else None
       end.
Definition readdir (d : DIR) : M (option dirent * DIR) :=
  fd ← fd_get (dir_fd d);
  match fd with
  | None => fail_with (- EBADF) (None, d)
  | Some _ =>
      cur ← (if negb (dir_num d =? 0) then n ← deref (reclen_at (dir_buf d) (dir_cur d)); mret (dir_cur d + n) else mret (dir_cur d));
      let d := {| dir_fd := dir_fd d; dir_buf := dir_buf d; dir_num := dir_num d; dir_cur := cur |} in
      if (dir_num d =? 0) || (dir_num d <=? dir_cur d) then
        '(result, buf) ← dfs_file_getdents fd (SIZEOF_DIR_BUF - 1);
        if result <=? 0 then fail_with result (None, d)
        else
          e ← deref (entry_at buf 0);
          mret (Some e, {| dir_fd := dir_fd d; dir_buf := buf; dir_num := result; dir_cur := 0 |})
      else e ← deref (entry_at (dir_buf d) cur); mret (Some e, d)
  end.
Definition telldir (d : DIR) : M Z :=
  fd ← fd_get (dir_fd d);
  match fd with
  | None => fail_with (- EBADF) 0
  | Some l => f ← get_file l; mret (f_pos (f_attr f) - dir_num d + dir_cur d)
  end.
Definition seekdir (d : DIR) (offset : Z) : M DIR :=
  fd ← fd_get (dir_fd d);
  match fd with
  | None => fail_with (- EBADF) d
  | Some _ =>
      r ← dfs_file_lseek fd offset;
      mret (if 0 <=? r then {| dir_fd := dir_fd d; dir_buf := dir_buf d; dir_num := 0; dir_cur := 0 |} else d)
  end.
Definition rewinddir (d : DIR) : M DIR := seekdir d 0.
Definition closedir (d : DIR) : M Z :=
  fd ← fd_get (dir_fd d);
  match fd with
  | None => fail_with (- EBADF) (-1)
  | Some _ =>
      result ← dfs_file_close fd;
      _ ← fd_release (dir_fd d);
      if result <? 0 then fail_with result (-1) else mret 0
  end.

(** ** The working directory *)
(** [rt_strncpy(working_directory, path, DFS_PATH_MAX)]: 256 bytes are left without
    a terminator. *)
Definition set_working_directory (path : list Z) : M unit := modify (with_working_directory (take (Z.to_nat DFS_PATH_MAX) path)).
Definition chdir (path : option (list Z)) : M Z :=
  match path with
  | None => mret 0
  | Some path =>
      if DFS_PATH_MAX <? Z.of_nat (length path) then fail_with (- ENOTDIR) (-1)
      else
        fullpath ← normalize_path None path;
        match fullpath with
        | None => fail_with (- ENOTDIR) (-1)
        | Some fullpath =>
            d ← opendir fullpath;
            match d with
            | None => mret (-1)
            | Some d => _ ← closedir d; _ ← set_working_directory fullpath; mret 0
            end
        end
  end.
Definition access (path : list Z) : M Z :=
  '(r, _) ← stat path;
  mret (if r <? 0 then -1 else 0).
Definition setcwd (buf : list Z) : M unit := set_working_directory buf.
(** The [size] bytes of the buffer. *)
Definition getcwd (size : nat) : M (list Z) :=
  wd ← gets working_directory; mret (take size (wd ++ replicate size 0)).
End dfs_posix.
