(* ===== verification/DfsRom.v ===== *)
(** * The read-only file system in memory
    ([src/rt-thread/components/dfs/dfs_v1/filesystems/romfs/dfs_romfs.c])

    An image is a tree of [romfs_dirent]s.  The data of an entry points to the bytes
    of a file or to the entries of a directory; reading one as the other, or behind
    their end, is undefined.  [junk] is what an uninitialised variable holds,
    [address] the address of the data of an entry. *)
From Stdlib Require Import Ascii String.
From S2P Require Import Prelude KStdio DfsPath Dfs.

Definition ROMFS_DIRENT_FILE : Z := 0.
Definition ROMFS_DIRENT_DIR : Z := 1.
Definition DT_DIR : Z := 4.
Definition DT_REG : Z := 8.
Definition DIRENT_NAME_MAX : Z := 256.
Definition S_IFDIR : Z := 16384.
Definition S_IFREG : Z := 32768.
(** [S_IRUSR | S_IRGRP | S_IROTH | S_IWUSR | S_IWGRP | S_IWOTH] and
    [S_IXUSR | S_IXGRP | S_IXOTH] *)
Definition S_RW : Z := 438.
Definition S_X : Z := 73.

Inductive romfs_dirent := Romfs (type : Z) (name : list Z) (data : option (list Z + list romfs_dirent)) (size : Z).
Definition r_type (d : romfs_dirent) : Z := let 'Romfs t _ _ _ := d in t.
Definition r_name (d : romfs_dirent) : list Z := let 'Romfs _ n _ _ := d in n.
Definition r_data (d : romfs_dirent) : option (list Z + list romfs_dirent) := let 'Romfs _ _ x _ := d in x.
Definition r_size (d : romfs_dirent) : Z := let 'Romfs _ _ _ n := d in n.

Definition check_dirent (d : romfs_dirent) : Z :=
  if (negb (r_type d =? ROMFS_DIRENT_FILE) && negb (r_type d =? ROMFS_DIRENT_DIR)) || (r_size d =? 2 ^ 32 - 1) then -1 else 0.

(** A loop that skips slashes, and the string up to the next slash with what
    follows it. *)
Fixpoint skip_sep (l : list Z) : list Z :=
  match l with c :: k => if c =? slash then skip_sep k else l | [] => [] end.
Fixpoint subpath (l : list Z) : list Z * list Z :=
  match l with
  | c :: k => if c =? slash then ([], l) else let '(a, b) := subpath k in (c :: a, b)
  | [] => ([], [])
  end.
(** The search in a folder of [n] entries: [None] behind the end of the array,
    [Some None] without the entry or behind an invalid one. *)
Fixpoint search (entries : list romfs_dirent) (n : nat) (name : list Z) : option (option romfs_dirent) :=
  match n with
  | O => Some None
  | S n =>
      match entries with
      | [] => None
      | d :: entries =>
          if negb (check_dirent d =? 0) then Some None
          else if bool_decide (r_name d = name) then Some (Some d)
          else search entries n name
      end
  end.
(** [while (dirent != NULL)]: the entry and [*size], which is not always set. *)
Fixpoint lookup_levels (fuel : nat) (data : option (list Z + list romfs_dirent)) (size : Z) (path : list Z) : option (option (romfs_dirent * option Z)) :=
  match fuel with
  | O => None
  | S fuel =>
      match data with
      | None => Some None
      | Some (inl _) => None
      | Some (inr entries) =>
          let '(name, rest) := subpath path in
          match search entries (Z.to_nat size) name with
          | None => None
          | Some None => Some None
          | Some (Some d) =>
              match skip_sep rest with
              | [] => Some (Some (d, Some (r_size d)))
              | path => if r_type d =? ROMFS_DIRENT_DIR then lookup_levels fuel (r_data d) (r_size d) path else Some (Some (d, None))
              end
          end
      end
  end.
(** Every level takes a name off the path. *)
Definition dfs_romfs_lookup (root_dirent : romfs_dirent) (path : list Z) : option (option (romfs_dirent * option Z)) :=
  if negb (check_dirent root_dirent =? 0) then Some None
  else if bool_decide (path = [slash]) then Some (Some (root_dirent, Some (r_size root_dirent)))
  else lookup_levels (S (length path)) (r_data root_dirent) (r_size root_dirent) (skip_sep path).

Section romfs.
Context {W : Type} (junk : Z) (address : romfs_dirent -> Z).
Local Notation D := romfs_dirent.

Definition dfs_romfs_mount (fs : fsdata D) (rwflag : Z) (data : option D) (w : W) : option (Z * fsdata D * W) :=
  match data with
  | None => Some (- EIO, fs, w)
  | Some root_dirent => Some (0, FsData root_dirent, w)
  end.
Definition dfs_romfs_unmount (fs : fsdata D) (w : W) : option (Z * fsdata D * W) := Some (0, fs, w).
Definition dfs_romfs_ioctl : fop D W (Z * Z) (option Z) := fun _ '(cmd, args) v f w =>
  dirent ← v_data v;
  if cmd =? RT_FIOGETADDR then Some (0, Some (address dirent), v, f, w)
  else if cmd =? RT_FIOFTRUNCATE then Some (0, None, v, f, w)
  else Some (- EINVAL, None, v, f, w).
Definition set_pos (p : Z) (f : fattr D) : fattr D := {| f_flags := f_flags f; f_pos := p; f_data := f_data f |}.
Definition dfs_romfs_read : fop D W Z (list Z) := fun _ count v f w =>
  dirent ← v_data v;
  if negb (check_dirent dirent =? 0) then Some (- EIO, [], v, f, w)
  else
    let left := u32 (v_size v - f_pos f) in
    let length := if count <? left then count else left in
    buf ← (if 0 <? length then
             match r_data dirent with
             | Some (inl bytes) =>
                 if (0 <=? f_pos f) && (f_pos f + length <=? Z.of_nat (List.length bytes))
                 then Some (take (Z.to_nat length) (drop (Z.to_nat (f_pos f)) bytes)) else None
             | _ => None
             end
           else Some []);
    Some (length, buf, v, set_pos (f_pos f + length) f, w).
Definition dfs_romfs_lseek : fop D W Z unit := fun _ offset v f w =>
  if u32 offset <=? v_size v then Some (offset, tt, v, set_pos offset f, w) else Some (- EIO, tt, v, f, w).
Definition dfs_romfs_close : fop D W unit unit := fun c _ v f w =>
  if negb (0 <? cv_ref c) then None
  else if 1 <? cv_ref c then Some (0, tt, v, f, w)
  else Some (0, tt, {| v_type := v_type v; v_flags := v_flags v; v_size := v_size v; v_data := None |}, f, w).
Definition WRITE_FLAGS : Z := Z.lor (Z.lor (Z.lor (Z.lor O_CREAT O_WRONLY) O_APPEND) O_TRUNC) O_RDWR.
Definition dfs_romfs_open : fop D W unit unit := fun c _ v f w =>
  let directory := negb (Z.land (f_flags f) O_DIRECTORY =? 0) in
  let fail e := Some (- e, tt, v, f, w) in
  if negb (Z.land (f_flags f) WRITE_FLAGS =? 0) then fail EINVAL
  else if negb (0 <? cv_ref c) then None
  else if 1 <? cv_ref c then
    if (v_type v =? FT_DIRECTORY) && negb directory then fail ENOENT else Some (0, tt, v, set_pos 0 f, w)
  else
    match cv_fs c with
    | FsData root_dirent =>
        if negb (check_dirent root_dirent =? 0) then fail EIO
        else
          path ← cv_path c;
          r ← dfs_romfs_lookup root_dirent path;
          match r with
          | None => fail ENOENT
          | Some (dirent, size) =>
              let found type := Some (0, tt, {| v_type := type; v_flags := v_flags v; v_size := default junk size; v_data := Some dirent |}, set_pos 0 f, w) in
              if r_type dirent =? ROMFS_DIRENT_DIR then
                if directory then found FT_DIRECTORY else fail ENOENT
              else if directory then fail ENOENT
              else found FT_REGULAR
          end
    | _ => None
    end.
Definition dfs_romfs_stat (fs : fsdata D) (path : list Z) (w : W) : option (Z * stat_buf * W) :=
  match fs with
  | FsData root_dirent =>
      r ← dfs_romfs_lookup root_dirent path;
      match r with
      | None => Some (- ENOENT, {| st_dev := junk; st_mode := junk; st_size := junk; st_mtime := junk |}, w)
      | Some (dirent, _) =>
          let mode := if r_type dirent =? ROMFS_DIRENT_DIR then Z.lor S_RW (Z.lor S_IFDIR S_X) else Z.lor S_IFREG S_RW in
          Some (0, {| st_dev := 0; st_mode := mode; st_size := r_size dirent; st_mtime := 0 |}, w)
      end
  | _ => None
  end.
(** At most [count] entries from [pos] on, and [pos] behind them; undefined when a
    name has more than 255 characters. *)
Fixpoint getdents_loop (count : nat) (entries : list D) (pos size : Z) : option (list dirent * Z) :=
  match count with
  | O => Some ([], pos)
  | S count =>
      if u32 pos <? size then
        sub ← entries !! Z.to_nat pos;
        if 255 <? Z.of_nat (List.length (r_name sub)) then None
        else
          '(l, pos') ← getdents_loop count entries (pos + 1) size;
          Some ({| d_type := if r_type sub =? ROMFS_DIRENT_DIR then DT_DIR else DT_REG; d_namlen := Z.of_nat (List.length (r_name sub));
                   d_reclen := SIZEOF_DIRENT; d_name := take (Z.to_nat DIRENT_NAME_MAX) (r_name sub) |} :: l, pos')
      else Some ([], pos)
  end.
Definition dfs_romfs_getdents : fop D W Z (list dirent) := fun _ count v f w =>
  dirent ← v_data v;
  if negb (check_dirent dirent =? 0) then Some (- EIO, [], v, f, w)
  else if negb (r_type dirent =? ROMFS_DIRENT_DIR) then None
  else
    let count := count / SIZEOF_DIRENT in
    if count =? 0 then Some (- EINVAL, [], v, f, w)
    else
      match r_data dirent with
      | Some (inr entries) =>
          '(l, pos) ← getdents_loop (Z.to_nat count) entries (f_pos f) (v_size v);
          Some (Z.of_nat (List.length l) * SIZEOF_DIRENT, l, v, set_pos pos f, w)
      | Some (inl _) => None
      | None => if u32 (f_pos f) <? v_size v then None else Some (0, [], v, f, w)
      end.
Definition _rom_fops : dfs_file_ops D W :=
  {| fop_open := Some dfs_romfs_open; fop_close := Some dfs_romfs_close; fop_ioctl := Some dfs_romfs_ioctl; fop_read := Some dfs_romfs_read;
     fop_write := None; fop_flush := None; fop_lseek := Some dfs_romfs_lseek; fop_getdents := Some dfs_romfs_getdents |}.
Definition _romfs : dfs_filesystem_ops D W :=
  {| o_name := codes "rom"; o_flags := DFS_FS_FLAG_DEFAULT; o_fops := _rom_fops; o_mount := Some dfs_romfs_mount; o_unmount := Some dfs_romfs_unmount;
     o_mkfs := None; o_statfs := None; o_unlink := None; o_stat := Some dfs_romfs_stat; o_rename := None |}.
End romfs.

(** The image of [dfs_romfs.c], which is used when no other one is configured. *)
Definition _dummy_txt : list Z := [0x74; 0x68; 0x69; 0x73; 0x20; 0x69; 0x73; 0x20; 0x61; 0x20; 0x66; 0x69; 0x6c; 0x65; 0x21; 0x0d; 0x0a].
Definition _dummy : list romfs_dirent := [Romfs ROMFS_DIRENT_FILE (codes "dummy.txt") (Some (inl _dummy_txt)) 17].
Definition _root_dirent : list romfs_dirent :=
  [Romfs ROMFS_DIRENT_DIR (codes "dummy") (Some (inr _dummy)) 1; Romfs ROMFS_DIRENT_FILE (codes "dummy.txt") (Some (inl _dummy_txt)) 17].
Definition romfs_root : romfs_dirent := Romfs ROMFS_DIRENT_DIR (codes "/") (Some (inr _root_dirent)) 2.
(** The image of the board ([src/board/ports/romfs.c]): a directory to mount on. *)
Definition _romfs_root : list romfs_dirent := [Romfs ROMFS_DIRENT_DIR (codes "sda") None 0].
Definition board_romfs_root : romfs_dirent := Romfs ROMFS_DIRENT_DIR (codes "/") (Some (inr _romfs_root)) 1.
