(* ===== verification/DfsInv.v ===== *)
(** * The virtual file system: invariant of descriptors, files and vnodes

    A file is on the heap while a slot of the descriptor table points to it, and
    counts these slots; a vnode while a file points to it, and counts these files.
    The hash holds exactly the vnodes, each path at most once. *)
From Stdlib Require Import Ascii String.
From S2P Require Import Prelude KStdio DfsPath Dfs DfsFs DfsFile.

(** ** Counting *)
Definition mcount {A} (P : A -> Prop) `{!forall a, Decision (P a)} (m : gmap loc A) : nat :=
  length (filter (fun p => P p.2) (map_to_list m)).
Definition scount (l : loc) (t : list (option loc)) : nat := length (filter (fun o => o = Some l) t).
Definition bit (P : Prop) `{!Decision P} : nat := if decide P then 1%nat else 0%nat.
Lemma bit_true P `{!Decision P} : P -> bit P = 1%nat.
Proof. intros HP. unfold bit. by rewrite decide_True. Qed.
Lemma bit_false P `{!Decision P} : ~ P -> bit P = 0%nat.
Proof. intros HP. unfold bit. by rewrite decide_False. Qed.
Section mcount.
Context {A : Type} (P : A -> Prop) {Pdec : forall a, Decision (P a)}.
Lemma mcount_new m l a : m !! l = None -> mcount P (<[l := a]> m) = (bit (P a) + mcount P m)%nat.
Proof.
  intros H. unfold mcount. rewrite (Permutation_length (filter_Permutation _ _ _ (map_to_list_insert m l a H))). rewrite filter_cons. cbn. unfold bit. by destruct (decide (P a)).
Qed.
Lemma mcount_delete m l a : m !! l = Some a -> mcount P m = (bit (P a) + mcount P (delete l m))%nat.
Proof.
  intros H. rewrite <- (insert_delete_id m l a H) at 1. apply mcount_new. apply lookup_delete_eq.
Qed.
Lemma mcount_set m l a b : m !! l = Some a -> (mcount P (<[l := b]> m) + bit (P a) = mcount P m + bit (P b))%nat.
Proof.
  intros H. rewrite <- insert_delete_eq, mcount_new by apply lookup_delete_eq. rewrite (mcount_delete m l a H). lia.
Qed.
Lemma mcount_pos m l a : m !! l = Some a -> P a -> (0 < mcount P m)%nat.
Proof. intros H Ha. rewrite (mcount_delete m l a H), bit_true by done. lia. Qed.
Lemma mcount_exists m : (0 < mcount P m)%nat -> exists l a, m !! l = Some a /\ P a.
Proof.
  unfold mcount. destruct (filter _ (map_to_list m)) as [|[l a] k] eqn:E; cbn; [lia|]. intros _. assert (H : (l, a) ∈ filter (fun p => P p.2) (map_to_list m)) by (rewrite E; by left).
  apply list_elem_of_filter in H as [Ha Hl]. exists l, a. split; [by apply elem_of_map_to_list|done].
Qed.
Lemma mcount_two m l1 l2 a b : m !! l1 = Some a -> m !! l2 = Some b -> P a -> P b -> l1 <> l2 -> (2 <= mcount P m)%nat.
Proof.
  intros H1 H2 Ha Hb Hn. rewrite (mcount_delete m l1 a H1), bit_true by done.
  pose proof (mcount_pos (delete l1 m) l2 b) as H. rewrite lookup_delete_ne in H by done. specialize (H H2 Hb). lia.
Qed.
End mcount.
Lemma scount_set t i o o' l : t !! i = Some o -> (scount l (<[i := o']> t) + bit (o = Some l) = scount l t + bit (o' = Some l))%nat.
Proof.
  revert i. induction t as [|a t IH]; intros i H; [done|]. unfold scount in *. destruct i as [|i].
  - injection H as ->. change (<[0%nat := o']> (o :: t)) with (o' :: t). rewrite !filter_cons. unfold bit. repeat destruct decide; cbn; lia.
  - change (<[S i := o']> (a :: t)) with (a :: <[i := o']> t). rewrite !filter_cons. specialize (IH i H). destruct (decide (a = Some l)); cbn; lia.
Qed.
Lemma scount_in t i l : t !! i = Some (Some l) -> (0 < scount l t)%nat.
Proof. intros H. pose proof (scount_set t i (Some l) None l H) as E. rewrite (bit_true (Some l = Some l)), (bit_false (None = Some l)) in E by done. lia. Qed.
Lemma scount_none t n l : scount l (t ++ replicate n None) = scount l t.
Proof. unfold scount. rewrite filter_app, length_app. induction n as [|n IH]; [cbn; lia|]. by rewrite replicate_S, filter_cons, decide_False. Qed.

Section inv.
Context {D W : Type}.
Definition users (v : loc) (m : gmap loc (dfs_file D)) : nat := mcount (fun f => f_vnode f = Some v) m.
Definition chain (h : list (list loc)) (path : list Z) : list loc := default [] (h !! Z.to_nat (bkdr_hash path)).

(** [X] is the set of the files without a vnode. *)
Record core (X : gset loc) (t : list (option loc)) (fm : gmap loc (dfs_file D)) (vm : gmap loc (dfs_vnode D W)) (h : list (list loc)) (b : loc) : Prop := {
  c_slot : forall l, (0 < scount l t)%nat -> is_Some (fm !! l);
  c_file : forall l f, fm !! l = Some f -> f_magic f = DFS_FD_MAGIC /\ f_ref f = Z.of_nat (scount l t) /\ (0 < scount l t)%nat;
  c_pend : forall l f, fm !! l = Some f -> (f_vnode f = None <-> l ∈ X);
  c_dom : forall l, l ∈ X -> is_Some (fm !! l);
  c_user : forall v, (0 < users v fm)%nat -> is_Some (vm !! v);
  c_vnode : forall v x, vm !! v = Some x -> v_ref x = Z.of_nat (users v fm) /\ (0 < users v fm)%nat /\ v ∈ chain h (v_fullpath x);
  c_chain : forall i v, v ∈ default [] (h !! i) -> exists x, vm !! v = Some x /\ i = Z.to_nat (bkdr_hash (v_fullpath x));
  c_nodup : forall i, NoDup (default [] (h !! i));
  c_paths : forall v w x y, vm !! v = Some x -> vm !! w = Some y -> v_fullpath x = v_fullpath y -> v = w;
  c_heads : length h = 128%nat;
  c_maxfd : (length t <= 16)%nat;
  c_brk_f : forall l, is_Some (fm !! l) -> (l < b)%nat;
  c_brk_v : forall v, is_Some (vm !! v) -> (v < b)%nat }.

Lemma users_attr v m l f a : m !! l = Some f -> users v (<[l := with_f_attr a f]> m) = users v m.
Proof. intros H. pose proof (mcount_set (fun f => f_vnode f = Some v) m l f (with_f_attr a f) H) as E. unfold users. cbn in E. unfold bit in E. destruct decide; lia. Qed.
Lemma users_ref v m l f r : m !! l = Some f -> users v (<[l := with_f_ref r f]> m) = users v m.
Proof. intros H. pose proof (mcount_set (fun f => f_vnode f = Some v) m l f (with_f_ref r f) H) as E. unfold users. cbn in E. unfold bit in E. destruct decide; lia. Qed.

(** ** Descriptors *)
Lemma core_expand X t n fm vm h b : core X t fm vm h b -> (length t + n <= 16)%nat -> core X (t ++ replicate n None) fm vm h b.
Proof.
  intros [] Hn. split; try done.
  - intros l. rewrite scount_none. auto.
  - intros l f. rewrite scount_none. auto.
  - rewrite length_app, length_replicate. lia.
Qed.
Lemma core_new_file X t fm vm h b i f : core X t fm vm h b -> t !! i = Some None -> f_magic f = DFS_FD_MAGIC -> f_ref f = 1 -> f_vnode f = None ->
  core ({[b]} ∪ X) (<[i := Some b]> t) (<[b := f]> fm) vm h (S b).
Proof.
  intros [] Hi Hm Hr Hv. assert (Hb : fm !! b = None) by (destruct (fm !! b) eqn:E; [|done]; specialize (c_brk_f0 b (mk_is_Some _ _ E)); lia).
  assert (H0 : scount b t = 0%nat) by (destruct (scount b t) eqn:E; [done|]; destruct (c_slot0 b); [lia|congruence]).
  assert (Hs : forall l, scount l (<[i := Some b]> t) = (scount l t + bit (b = l))%nat).
  { intros l. pose proof (scount_set t i None (Some b) l Hi) as E. rewrite (bit_false (None = Some l)) in E by done.
    assert (bit (Some b = Some l) = bit (b = l)) by (unfold bit; repeat destruct decide; congruence). lia. }
  assert (Hu : forall v, users v (<[b := f]> fm) = users v fm) by (intros v; unfold users; rewrite mcount_new, bit_false; [done|congruence|done]).
  split; try done.
  - intros l. rewrite Hs. destruct (decide (b = l)) as [->|Hn]; [by rewrite lookup_insert_eq|]. rewrite bit_false, Nat.add_0_r, lookup_insert_ne by done. auto.
  - intros l g. rewrite Hs. destruct (decide (b = l)) as [<-|Hn].
    + rewrite lookup_insert_eq. intros [= <-]. rewrite H0, bit_true by done. split; [done|]. lia.
    + rewrite bit_false, Nat.add_0_r, lookup_insert_ne by done. auto.
  - intros l g. destruct (decide (b = l)) as [<-|Hn].
    + rewrite lookup_insert_eq. intros [= <-]. set_solver.
    + rewrite lookup_insert_ne by done. intros Hg. rewrite (c_pend0 l g Hg). set_solver.
  - intros l [->%elem_of_singleton|Hl]%elem_of_union; [by rewrite lookup_insert_eq|]. destruct (decide (b = l)) as [->|Hn]; [by rewrite lookup_insert_eq|]. rewrite lookup_insert_ne by done. auto.
  - intros v. rewrite Hu. auto.
  - intros v x. rewrite Hu. auto.
  - by rewrite length_insert.
  - intros l. destruct (decide (b = l)) as [->|Hn]; [lia|]. rewrite lookup_insert_ne by done. intros Hl%c_brk_f0. lia.
  - intros v Hl%c_brk_v0. lia.
Qed.
(** One more slot for a file. *)
Lemma core_share X t fm vm h b i l f : core X t fm vm h b -> t !! i = Some None -> fm !! l = Some f ->
  core X (<[i := Some l]> t) (<[l := with_f_ref (f_ref f + 1) f]> fm) vm h b.
Proof.
  intros [] Hi Hl.
  assert (Hs : forall k, scount k (<[i := Some l]> t) = (scount k t + bit (l = k))%nat).
  { intros k. pose proof (scount_set t i None (Some l) k Hi) as E. rewrite (bit_false (None = Some k)) in E by done.
    assert (bit (Some l = Some k) = bit (l = k)) by (unfold bit; repeat destruct decide; congruence). lia. }
  assert (Hu : forall v, users v (<[l := with_f_ref (f_ref f + 1) f]> fm) = users v fm) by (intros v; by apply users_ref).
  split; try done.
  - intros k. rewrite Hs. destruct (decide (l = k)) as [->|Hn]; [by rewrite lookup_insert_eq|]. rewrite bit_false, Nat.add_0_r, lookup_insert_ne by done. auto.
  - intros k g. rewrite Hs. destruct (decide (l = k)) as [<-|Hn].
    + rewrite lookup_insert_eq. intros [= <-]. cbn. destruct (c_file0 l f Hl) as (? & -> & ?). rewrite bit_true by done. split; [done|]. lia.
    + rewrite bit_false, Nat.add_0_r, lookup_insert_ne by done. auto.
  - intros k g. destruct (decide (l = k)) as [<-|Hn]; [|rewrite lookup_insert_ne by done; auto]. rewrite lookup_insert_eq. intros [= <-]. cbn. auto.
  - intros k Hk. destruct (decide (l = k)) as [->|Hn]; [by rewrite lookup_insert_eq|]. rewrite lookup_insert_ne by done. auto.
  - intros v. rewrite Hu. auto.
  - intros v x. rewrite Hu. auto.
  - by rewrite length_insert.
  - intros k. destruct (decide (l = k)) as [->|Hn]; [intros _; apply c_brk_f0; by eexists|]. rewrite lookup_insert_ne by done. auto.
Qed.
(** ** Files *)
(** The users of vnodes when a file changes its vnode. *)
Lemma users_set v m l f g : m !! l = Some f -> (users v (<[l := g]> m) + bit (f_vnode f = Some v) = users v m + bit (f_vnode g = Some v))%nat.
Proof. intros H. exact (mcount_set (fun f => f_vnode f = Some v) m l f g H). Qed.
Lemma bit_some (v w : loc) : bit (Some v = Some w) = bit (v = w).
Proof. unfold bit. repeat destruct decide; congruence. Qed.
(** The facts about files after the change of one, whose references stay. *)
Lemma core_file_part X (X' : gset loc) t fm vm h b l f g : core X t fm vm h b -> fm !! l = Some f -> f_magic g = f_magic f -> f_ref g = f_ref f ->
  (f_vnode g = None <-> l ∈ X') -> (forall k, k <> l -> k ∈ X <-> k ∈ X') ->
  (forall k, (0 < scount k t)%nat -> is_Some (<[l := g]> fm !! k)) /\
  (forall k q, <[l := g]> fm !! k = Some q -> f_magic q = DFS_FD_MAGIC /\ f_ref q = Z.of_nat (scount k t) /\ (0 < scount k t)%nat) /\
  (forall k q, <[l := g]> fm !! k = Some q -> (f_vnode q = None <-> k ∈ X')) /\
  (forall k, k ∈ X' -> is_Some (<[l := g]> fm !! k)) /\
  (forall k, is_Some (<[l := g]> fm !! k) -> (k < b)%nat).
Proof.
  intros [] Hl Hm Hr Hv HX. split; [|split; [|split; [|split]]].
  - intros k Hk. destruct (decide (l = k)) as [->|Hn]; [by rewrite lookup_insert_eq|]. rewrite lookup_insert_ne by done. auto.
  - intros k q. destruct (decide (l = k)) as [<-|Hn]; [|rewrite lookup_insert_ne by done; auto]. rewrite lookup_insert_eq. intros [= <-]. rewrite Hm, Hr. auto.
  - intros k q. destruct (decide (l = k)) as [<-|Hn]; [rewrite lookup_insert_eq; by intros [= <-]|]. rewrite lookup_insert_ne by done. intros Hq. rewrite (c_pend0 k q Hq). auto.
  - intros k Hk. destruct (decide (l = k)) as [->|Hn]; [by rewrite lookup_insert_eq|]. rewrite lookup_insert_ne by done. apply c_dom0. by apply HX.
  - intros k. destruct (decide (l = k)) as [->|Hn]; [intros _; apply c_brk_f0; by eexists|]. rewrite lookup_insert_ne by done. auto.
Qed.
Lemma core_file X t fm vm h b l f g : core X t fm vm h b -> fm !! l = Some f -> f_magic g = f_magic f -> f_ref g = f_ref f -> f_vnode g = f_vnode f ->
  core X t (<[l := g]> fm) vm h b.
Proof.
  intros Hc Hl Hm Hr Hv. destruct (core_file_part X X t fm vm h b l f g Hc Hl Hm Hr) as (P1 & P2 & P3 & P4 & P5); [|done|].
  { rewrite Hv. by apply (c_pend _ _ _ _ _ _ Hc). }
  destruct Hc. assert (Hu : forall v, users v (<[l := g]> fm) = users v fm) by (intros v; pose proof (users_set v fm l f g Hl) as E; rewrite Hv in E; lia).
  split; try done; intros v; setoid_rewrite Hu; auto.
Qed.
Lemma core_vnode X t fm vm h b v x y : core X t fm vm h b -> vm !! v = Some x -> v_ref y = v_ref x -> v_fullpath y = v_fullpath x ->
  core X t fm (<[v := y]> vm) h b.
Proof.
  intros [] Hv Hr Hp. assert (HL : forall w z, <[v := y]> vm !! w = Some z -> exists z', vm !! w = Some z' /\ v_ref z = v_ref z' /\ v_fullpath z = v_fullpath z').
  { intros w z. destruct (decide (v = w)) as [<-|Hn]; [rewrite lookup_insert_eq; intros [= <-]; eauto|]. rewrite lookup_insert_ne by done. eauto. }
  split; try done.
  - intros w Hw. destruct (decide (v = w)) as [->|Hn]; [by rewrite lookup_insert_eq|]. rewrite lookup_insert_ne by done. auto.
  - intros w z (z' & Hz & -> & ->)%HL. auto.
  - intros i w Hw. destruct (c_chain0 i w Hw) as (z & Hz & E). destruct (decide (v = w)) as [<-|Hn].
    + exists y. rewrite lookup_insert_eq, Hp. split; [done|]. congruence.
    + exists z. by rewrite lookup_insert_ne.
  - intros w w' z z' (z1 & Hz & _ & ->)%HL (z2 & Hz' & _ & ->)%HL. eauto.
  - intros w [z (z' & Hz & _)%HL]. eauto.
Qed.

(** ** Vnodes *)
(** A file gets a vnode that is there already. *)
Lemma core_attach X t fm vm h b l f g v x y : core X t fm vm h b -> fm !! l = Some f -> l ∈ X -> vm !! v = Some x ->
  f_magic g = f_magic f -> f_ref g = f_ref f -> f_vnode g = Some v -> v_ref y = v_ref x + 1 -> v_fullpath y = v_fullpath x ->
  core (X ∖ {[l]}) t (<[l := g]> fm) (<[v := y]> vm) h b.
Proof.
  intros Hc Hl HX Hx Hm Hr Hg Hy Hp. destruct (core_file_part X (X ∖ {[l]}) t fm vm h b l f g Hc Hl Hm Hr) as (P1 & P2 & P3 & P4 & P5); [rewrite Hg; set_solver|set_solver|].
  destruct Hc. assert (Hf : f_vnode f = None) by (by apply (c_pend0 l f Hl)).
  assert (Hu : forall w, users w (<[l := g]> fm) = (users w fm + bit (v = w))%nat).
  { intros w. pose proof (users_set w fm l f g Hl) as E. rewrite Hf, Hg, (bit_false (None = Some w)), bit_some in E by done. lia. }
  assert (HL : forall w z, <[v := y]> vm !! w = Some z -> exists z', vm !! w = Some z' /\ v_ref z = v_ref z' + Z.of_nat (bit (v = w)) /\ v_fullpath z = v_fullpath z').
  { intros w z. destruct (decide (v = w)) as [<-|Hn]; [rewrite lookup_insert_eq, bit_true by done; intros [= <-]; eauto|]. rewrite lookup_insert_ne, bit_false by done. intros Hz. exists z. split; [done|]. split; [lia|done]. }
  split; try done.
  - intros w. rewrite Hu. destruct (decide (v = w)) as [->|Hn]; [by rewrite lookup_insert_eq|]. rewrite lookup_insert_ne, bit_false, Nat.add_0_r by done. auto.
  - intros w z (z' & Hz & -> & ->)%HL. rewrite Hu. destruct (c_vnode0 w z' Hz) as (-> & ? & ?). split; [lia|]. split; [lia|done].
  - intros i w Hw. destruct (c_chain0 i w Hw) as (z & Hz & E). destruct (decide (v = w)) as [<-|Hn].
    + exists y. rewrite lookup_insert_eq, Hp. split; [done|]. congruence.
    + exists z. by rewrite lookup_insert_ne.
  - intros w w' z z' (z1 & Hz & _ & ->)%HL (z2 & Hz' & _ & ->)%HL. eauto.
  - intros w [z (z' & Hz & _)%HL]. eauto.
Qed.
(** A file loses a vnode that others use. *)
Lemma core_detach X t fm vm h b l f g v x y : core X t fm vm h b -> fm !! l = Some f -> f_vnode f = Some v -> vm !! v = Some x ->
  f_magic g = f_magic f -> f_ref g = f_ref f -> f_vnode g = None -> v_ref y = v_ref x - 1 -> 1 < v_ref x -> v_fullpath y = v_fullpath x ->
  core ({[l]} ∪ X) t (<[l := g]> fm) (<[v := y]> vm) h b.
Proof.
  intros Hc Hl Hf Hx Hm Hr Hg Hy H1 Hp. destruct (core_file_part X ({[l]} ∪ X) t fm vm h b l f g Hc Hl Hm Hr) as (P1 & P2 & P3 & P4 & P5); [rewrite Hg; set_solver|set_solver|].
  destruct Hc.
  assert (Hu : forall w, users w fm = (users w (<[l := g]> fm) + bit (v = w))%nat).
  { intros w. pose proof (users_set w fm l f g Hl) as E. rewrite Hf, Hg, (bit_false (None = Some w)), bit_some in E by done. lia. }
  assert (HL : forall w z, <[v := y]> vm !! w = Some z -> exists z', vm !! w = Some z' /\ v_ref z = v_ref z' - Z.of_nat (bit (v = w)) /\ v_fullpath z = v_fullpath z').
  { intros w z. destruct (decide (v = w)) as [<-|Hn]; [rewrite lookup_insert_eq, bit_true by done; intros [= <-]; eauto|]. rewrite lookup_insert_ne, bit_false by done. intros Hz. exists z. split; [done|]. split; [lia|done]. }
  split; try done.
  - intros w Hw. destruct (decide (v = w)) as [->|Hn]; [by rewrite lookup_insert_eq|]. rewrite lookup_insert_ne by done. apply c_user0. rewrite Hu. lia.
  - intros w z (z' & Hz & -> & ->)%HL. destruct (c_vnode0 w z' Hz) as (E & ? & ?). rewrite Hu in E. split; [lia|]. split; [|done].
    destruct (decide (v = w)) as [<-|Hn]; [|rewrite Hu, bit_false in H by done; lia]. rewrite bit_true in E by done. assert (z' = x) as -> by congruence. lia.
  - intros i w Hw. destruct (c_chain0 i w Hw) as (z & Hz & E). destruct (decide (v = w)) as [<-|Hn].
    + exists y. rewrite lookup_insert_eq, Hp. split; [done|]. congruence.
    + exists z. by rewrite lookup_insert_ne.
  - intros w w' z z' (z1 & Hz & _ & ->)%HL (z2 & Hz' & _ & ->)%HL. eauto.
  - intros w [z (z' & Hz & _)%HL]. eauto.
Qed.
(** ** The hash *)
Lemma hash_small path : (Z.to_nat (bkdr_hash path) < 128)%nat.
Proof. unfold bkdr_hash, DFS_VNODE_HASH_NR. pose proof (Z.mod_pos_bound (foldl bkdr_step 0 path) 128). lia. Qed.
Lemma chain_insert (h : list (list loc)) path v i : length h = 128%nat ->
  default [] (alter (cons v) (Z.to_nat (bkdr_hash path)) h !! i) = (if decide (i = Z.to_nat (bkdr_hash path)) then [v] else []) ++ default [] (h !! i).
Proof.
  intros Hh. destruct decide as [->|Hn].
  - rewrite list_lookup_alter_eq. pose proof (hash_small path) as H. rewrite <- Hh in H. apply lookup_lt_is_Some in H as [c ->]. done.
  - by rewrite list_lookup_alter_ne.
Qed.
Lemma chain_remove (h : list (list loc)) v i : default [] ((filter (.≠ v) <$> h) !! i) = filter (.≠ v) (default [] (h !! i)).
Proof. rewrite list_lookup_fmap. by destruct (h !! i). Qed.
Lemma core_brk X t fm vm h b : core X t fm vm h b -> core X t fm vm h (S b).
Proof. intros []. split; try done; intros l Hl; [apply c_brk_f0 in Hl|apply c_brk_v0 in Hl]; lia. Qed.
(** A file gets a new vnode. *)
Lemma core_new_vnode X t fm vm h b l f g x : core X t fm vm h b -> fm !! l = Some f -> l ∈ X ->
  f_magic g = f_magic f -> f_ref g = f_ref f -> f_vnode g = Some b -> v_ref x = 1 ->
  (forall w y, vm !! w = Some y -> v_fullpath y <> v_fullpath x) ->
  core (X ∖ {[l]}) t (<[l := g]> fm) (<[b := x]> vm) (alter (cons b) (Z.to_nat (bkdr_hash (v_fullpath x))) h) (S b).
Proof.
  intros Hc Hl HX Hm Hr Hg Hx Hp. destruct (core_file_part X (X ∖ {[l]}) t fm vm h b l f g Hc Hl Hm Hr) as (P1 & P2 & P3 & P4 & P5); [rewrite Hg; set_solver|set_solver|].
  destruct Hc. assert (Hf : f_vnode f = None) by (by apply (c_pend0 l f Hl)).
  assert (Hb : vm !! b = None) by (destruct (vm !! b) eqn:E; [|done]; specialize (c_brk_v0 b (mk_is_Some _ _ E)); lia).
  assert (H0 : users b fm = 0%nat) by (destruct (users b fm) eqn:E; [done|]; destruct (c_user0 b); [lia|congruence]).
  assert (Hu : forall w, users w (<[l := g]> fm) = (users w fm + bit (b = w))%nat).
  { intros w. pose proof (users_set w fm l f g Hl) as E. rewrite Hf, Hg, (bit_false (None = Some w)), bit_some in E by done. lia. }
  assert (Hch : forall i v, v ∈ default [] (h !! i) -> (v < b)%nat) by (intros i v Hv; destruct (c_chain0 i v Hv) as (z & Hz & _); apply c_brk_v0; by eexists).
  split; try done.
  - intros w. rewrite Hu. destruct (decide (b = w)) as [->|Hn]; [by rewrite lookup_insert_eq|]. rewrite lookup_insert_ne, bit_false, Nat.add_0_r by done. auto.
  - intros w z. rewrite Hu. unfold chain. destruct (decide (b = w)) as [<-|Hn].
    + rewrite lookup_insert_eq, bit_true by done. intros [= <-]. rewrite chain_insert, decide_True by done. split; [lia|]. split; [lia|]. by left.
    + rewrite lookup_insert_ne, bit_false, Nat.add_0_r by done. intros Hz. destruct (c_vnode0 w z Hz) as (? & ? & ?). rewrite chain_insert by done. split; [done|]. split; [done|]. apply elem_of_app. by right.
  - intros i w. rewrite chain_insert by done. intros [Hw|Hw]%elem_of_app.
    + destruct decide as [->|]; [|by apply not_elem_of_nil in Hw]. apply list_elem_of_singleton in Hw as ->. exists x. by rewrite lookup_insert_eq.
    + destruct (c_chain0 i w Hw) as (z & Hz & E). exists z. split; [|done]. rewrite lookup_insert_ne; [done|]. intros ->. congruence.
  - intros i. rewrite chain_insert by done. destruct decide; [|apply c_nodup0]. constructor; [|apply c_nodup0]. intros Hb'%Hch. lia.
  - intros w w' z z'. destruct (decide (b = w)) as [<-|Hn]; destruct (decide (b = w')) as [<-|Hn']; rewrite ?lookup_insert_eq, ?lookup_insert_ne by done; [done| | |eauto].
    + intros [= <-] Hz' E. by destruct (Hp w' z' Hz').
    + intros Hz [= <-] E. by destruct (Hp w z Hz).
  - by rewrite length_alter.
  - intros k Hk%P5. lia.
  - intros w. destruct (decide (b = w)) as [->|Hn]; [lia|]. rewrite lookup_insert_ne by done. intros Hw%c_brk_v0. lia.
Qed.
(** A file loses a vnode that no other uses. *)
Lemma core_detach_last X t fm vm h b l f g v x : core X t fm vm h b -> fm !! l = Some f -> f_vnode f = Some v -> vm !! v = Some x ->
  f_magic g = f_magic f -> f_ref g = f_ref f -> f_vnode g = None -> v_ref x = 1 ->
  core ({[l]} ∪ X) t (<[l := g]> fm) (delete v vm) (filter (.≠ v) <$> h) b.
Proof.
  intros Hc Hl Hf Hx Hm Hr Hg H1. destruct (core_file_part X ({[l]} ∪ X) t fm vm h b l f g Hc Hl Hm Hr) as (P1 & P2 & P3 & P4 & P5); [rewrite Hg; set_solver|set_solver|].
  destruct Hc.
  assert (Hu : forall w, users w fm = (users w (<[l := g]> fm) + bit (v = w))%nat).
  { intros w. pose proof (users_set w fm l f g Hl) as E. rewrite Hf, Hg, (bit_false (None = Some w)), bit_some in E by done. lia. }
  assert (H0 : users v (<[l := g]> fm) = 0%nat) by (destruct (c_vnode0 v x Hx) as (E & _); rewrite Hu, bit_true in E by done; lia).
  split; try done.
  - intros w Hw. destruct (decide (v = w)) as [->|Hn]; [lia|]. rewrite lookup_delete_ne by done. apply c_user0. rewrite Hu. lia.
  - intros w z. destruct (decide (v = w)) as [<-|Hn]; [by rewrite lookup_delete_eq|]. rewrite lookup_delete_ne by done. intros Hz.
    destruct (c_vnode0 w z Hz) as (? & ? & ?). rewrite Hu, bit_false, Nat.add_0_r in * by done. unfold chain. rewrite chain_remove. split; [done|]. split; [done|]. by apply list_elem_of_filter.
  - intros i w. rewrite chain_remove, list_elem_of_filter. intros [Hn Hw]. destruct (c_chain0 i w Hw) as (z & Hz & E). exists z. by rewrite lookup_delete_ne.
  - intros i. rewrite chain_remove. by apply NoDup_filter.
  - intros w w' z z'. rewrite !lookup_delete_Some. intros [_ ?] [_ ?]. eauto.
  - by rewrite length_fmap.
  - intros w [z [_ Hz]%lookup_delete_Some]. eauto.
Qed.

(** ** Dropping slots *)
Lemma scount_drop t i l k : t !! i = Some (Some l) -> scount k t = (scount k (<[i := None]> t) + bit (l = k))%nat.
Proof. intros Hi. pose proof (scount_set t i (Some l) None k Hi) as E. rewrite (bit_false (None = Some k)), bit_some in E by done. lia. Qed.
Lemma core_drop_slot X t fm vm h b i l f g : core X t fm vm h b -> t !! i = Some (Some l) -> fm !! l = Some f -> 1 < f_ref f ->
  f_magic g = f_magic f -> f_ref g = f_ref f - 1 -> f_vnode g = f_vnode f ->
  core X (<[i := None]> t) (<[l := g]> fm) vm h b.
Proof.
  intros [] Hi Hl H1 Hm Hr Hv. assert (Hs := fun k => scount_drop t i l k Hi).
  assert (Hu : forall v, users v (<[l := g]> fm) = users v fm) by (intros v; pose proof (users_set v fm l f g Hl) as E; rewrite Hv in E; lia).
  split; try done.
  - intros k Hk. destruct (decide (l = k)) as [->|Hn]; [by rewrite lookup_insert_eq|]. rewrite lookup_insert_ne by done. apply c_slot0. rewrite Hs. lia.
  - intros k q. destruct (decide (l = k)) as [<-|Hn].
    + rewrite lookup_insert_eq. intros [= <-]. destruct (c_file0 l f Hl) as (? & E & ?). rewrite Hs, bit_true in E by done. rewrite Hm, Hr. split; [done|]. lia.
    + rewrite lookup_insert_ne by done. intros Hq. destruct (c_file0 k q Hq) as (? & E & ?). rewrite Hs, bit_false, Nat.add_0_r in * by done. done.
  - intros k q. destruct (decide (l = k)) as [<-|Hn]; [|rewrite lookup_insert_ne by done; auto]. rewrite lookup_insert_eq. intros [= <-]. rewrite Hv. auto.
  - intros k Hk. destruct (decide (l = k)) as [->|Hn]; [by rewrite lookup_insert_eq|]. rewrite lookup_insert_ne by done. auto.
  - intros v. rewrite Hu. auto.
  - intros v x. rewrite Hu. auto.
  - by rewrite length_insert.
  - intros k. destruct (decide (l = k)) as [->|Hn]; [intros _; apply c_brk_f0; by eexists|]. rewrite lookup_insert_ne by done. auto.
Qed.
Lemma core_drop_file X t fm vm h b i l f : core X t fm vm h b -> t !! i = Some (Some l) -> fm !! l = Some f -> f_ref f = 1 -> l ∈ X ->
  core (X ∖ {[l]}) (<[i := None]> t) (delete l fm) vm h b.
Proof.
  intros [] Hi Hl H1 HX. assert (Hs := fun k => scount_drop t i l k Hi). assert (Hf : f_vnode f = None) by (by apply (c_pend0 l f Hl)).
  assert (H0 : scount l (<[i := None]> t) = 0%nat) by (destruct (c_file0 l f Hl) as (_ & E & _); rewrite Hs, bit_true in E by done; lia).
  assert (Hu : forall v, users v (delete l fm) = users v fm).
  { intros v. unfold users. rewrite (mcount_delete _ fm l f Hl), bit_false; [done|]. rewrite Hf. done. }
  split; try done.
  - intros k Hk. destruct (decide (l = k)) as [<-|Hn]; [lia|]. rewrite lookup_delete_ne by done. apply c_slot0. rewrite Hs. lia.
  - intros k q [Hn Hq]%lookup_delete_Some. destruct (c_file0 k q Hq) as (? & E & ?). rewrite Hs, bit_false, Nat.add_0_r in * by done. done.
  - intros k q [Hn Hq]%lookup_delete_Some. rewrite (c_pend0 k q Hq). set_solver.
  - intros k [Hk Hn]%elem_of_difference. rewrite lookup_delete_ne by set_solver. auto.
  - intros v. rewrite Hu. auto.
  - intros v x. rewrite Hu. auto.
  - by rewrite length_insert.
  - intros k [q [_ Hq]%lookup_delete_Some]. eauto.
Qed.
End inv.
