(* ===== verification/DfsLaws.v ===== *)
(** * The virtual file system: what it relies on and its state invariant

    [wp m Q s] says that [m] is defined in [s] and ends with [Q].  [FileLaws] is the
    interface to the file systems: what a file system promises about the
    operations on files it supplies. *)
From Stdlib Require Import Ascii String.
From S2P Require Import Prelude KStdio DfsPath DfsPathProps Dfs DfsFs DfsFile DfsInv.

(** ** Weakest preconditions *)
Section wp.
Context {D W : Type}.
Implicit Types s : dfs D W.
Definition wp {A} (m : M D W A) (Q : A -> dfs D W -> Prop) s : Prop :=
  match m s with Some (a, s') => Q a s' | None => False end.
Lemma wp_bind {A B} (m : M D W A) (k : A -> M D W B) Q s : wp m (fun a s' => wp (k a) Q s') s -> wp (m ≫= k) Q s.
Proof. unfold wp. unfold mbind at 1, M_bind. by destruct (m s) as [[a s']|]. Qed.
Lemma wp_mono {A} (m : M D W A) (P Q : A -> dfs D W -> Prop) s : wp m P s -> (forall a s', P a s' -> Q a s') -> wp m Q s.
Proof. unfold wp. destruct (m s) as [[a s']|]; auto. Qed.
Lemma wp_ret {A} (a : A) (Q : A -> dfs D W -> Prop) s : Q a s -> wp (mret a) Q s.
Proof. done. Qed.
Lemma wp_gets {A} (f : dfs D W -> A) (Q : A -> dfs D W -> Prop) s : Q (f s) s -> wp (gets f) Q s.
Proof. done. Qed.
Lemma wp_modify (f : dfs D W -> dfs D W) (Q : unit -> dfs D W -> Prop) s : Q tt (f s) -> wp (modify f) Q s.
Proof. done. Qed.
Lemma wp_deref {A} (o : option A) a (Q : A -> dfs D W -> Prop) s : o = Some a -> Q a s -> wp (deref o) Q s.
Proof. by intros ->. Qed.
Lemma wp_get_file l f (Q : dfs_file D -> dfs D W -> Prop) s : files s !! l = Some f -> Q f s -> wp (get_file l) Q s.
Proof. intros E. unfold wp, get_file. by rewrite E. Qed.
Lemma wp_get_vnode v x (Q : dfs_vnode D W -> dfs D W -> Prop) s : vnodes s !! v = Some x -> Q x s -> wp (get_vnode v) Q s.
Proof. intros E. unfold wp, get_vnode. by rewrite E. Qed.
Lemma wp_new_file f (Q : loc -> dfs D W -> Prop) s : Q (brk s) (with_brk (S (brk s)) (with_files (<[brk s := f]> (files s)) s)) -> wp (new_file f) Q s.
Proof. done. Qed.
Lemma wp_new_vnode v (Q : loc -> dfs D W -> Prop) s : Q (brk s) (with_brk (S (brk s)) (with_vnodes (<[brk s := v]> (vnodes s)) s)) -> wp (new_vnode v) Q s.
Proof. done. Qed.
Lemma wp_free_file l f (Q : unit -> dfs D W -> Prop) s : files s !! l = Some f -> Q tt (with_files (delete l (files s)) s) -> wp (free_file l) Q s.
Proof. intros E H. apply wp_bind. by apply (wp_get_file l f). Qed.
Lemma wp_free_vnode v x (Q : unit -> dfs D W -> Prop) s : vnodes s !! v = Some x -> Q tt (with_vnodes (delete v (vnodes s)) s) -> wp (free_vnode v) Q s.
Proof. intros E H. apply wp_bind. by apply (wp_get_vnode v x). Qed.
Lemma wp_vnode_of l f v x (Q : dfs_vnode D W -> dfs D W -> Prop) s : files s !! l = Some f -> f_vnode f = Some v -> vnodes s !! v = Some x -> Q x s -> wp (vnode_of l) Q s.
Proof. intros E1 E2 E3 H. apply wp_bind, (wp_get_file l f); [done|]. apply wp_bind. rewrite E2. by apply (wp_get_vnode v x). Qed.
(** The data of the file system of a vnode. *)
Definition data_of (t : list (dfs_filesystem D W)) (x : dfs_vnode D W) : fsdata D := default FsNull (i ← v_fs x; e ← t !! i; Some (fs_data e)).
Definition view_of (t : list (dfs_filesystem D W)) (x : dfs_vnode D W) : fview D := {| cv_fs := data_of t x; cv_path := v_path x; cv_ref := v_ref x |}.
Definition after_call l f v x va fa w s : dfs D W :=
  with_files (<[l := with_f_attr fa f]> (files s)) (with_vnodes (<[v := with_v_attr va x]> (vnodes s)) (with_world w s)).
Lemma wp_call_fop {A B} (op : fop D W A B) l arg f v x r b va fa w (Q : Z * B -> dfs D W -> Prop) s :
  files s !! l = Some f -> f_vnode f = Some v -> vnodes s !! v = Some x ->
  op (view_of (filesystem_table s) x) arg (v_attr x) (f_attr f) (world s) = Some (r, b, va, fa, w) ->
  Q (r, b) (after_call l f v x va fa w s) -> wp (call_fop op l arg) Q s.
Proof.
  intros E1 E2 E3 E4 H. apply wp_bind, (wp_get_file l f); [done|]. apply wp_bind. rewrite E2. apply wp_ret. apply wp_bind, (wp_get_vnode v x); [done|].
  apply wp_bind, wp_gets. apply wp_bind. unfold wp at 1, run. unfold view_of, data_of in E4. rewrite E4. exact H.
Qed.
End wp.

(** ** File systems *)
Section laws.
Context {D W : Type}.
(** [good] relates the path of a vnode, its attributes and those of a file opened on it,
    [fsok] holds of the data of a mounted file system; files are opened with flags
    in [allowed_flags], on paths below the mount point in [allowed_path]; a path in
    [present] can be opened. *)
Class FileParams := {
  good : option (list Z) -> vattr D -> fattr D -> Prop;
  fsok : fsdata D -> Prop;
  allowed_flags : Z -> Prop;
  allowed_path : fsdata D -> list Z -> Prop;
  present : fsdata D -> list Z -> Prop }.
Context {FP : FileParams}.
(** What every operation keeps, for the file and the others opened on the vnode. *)
Definition keeps_good (p : option (list Z)) (v v' : vattr D) (f' : fattr D) : Prop := good p v' f' /\ forall g, good p v g -> good p v' g.
Definition total {A B} (op : fop D W A B) (pre : A -> vattr D -> Prop) : Prop := forall c a v f w, 0 < cv_ref c -> good (cv_path c) v f -> pre a v ->
  exists r b v' f' w', op c a v f w = Some (r, b, v', f', w') /\ keeps_good (cv_path c) v v' f'.
Definition fresh_vattr : vattr D := {| v_type := FT_REGULAR; v_flags := 0; v_size := 0; v_data := None |}.
Record lawful (ops : dfs_file_ops D W) : Prop := {
  law_open : forall op c f w p, fop_open ops = Some op -> cv_ref c = 1 -> cv_path c = Some p -> fsok (cv_fs c) -> allowed_path (cv_fs c) p -> allowed_flags (f_flags f) ->
    exists r v' f' w', op c tt fresh_vattr f w = Some (r, tt, v', f', w') /\ (0 <= r -> good (cv_path c) v' f' /\ (f_pos f = 0 -> f_pos f' = 0)) /\
      (present (cv_fs c) p -> 0 <= r);
  law_reopen : forall op c v f g w, fop_open ops = Some op -> 1 < cv_ref c -> allowed_flags (f_flags f) -> good (cv_path c) v g ->
    exists r v' f' w', op c tt v f w = Some (r, tt, v', f', w') /\ 0 <= r /\ keeps_good (cv_path c) v v' f' /\ (f_pos f = 0 -> f_pos f' = 0);
  law_close : forall op c v f w, fop_close ops = Some op -> 0 < cv_ref c -> good (cv_path c) v f ->
    exists r v' f' w', op c tt v f w = Some (r, tt, v', f', w') /\ 0 <= r /\ (1 < cv_ref c -> keeps_good (cv_path c) v v' f');
  law_ioctl : forall op, fop_ioctl ops = Some op -> total op (fun _ _ => True);
  law_read : forall op, fop_read ops = Some op -> total op (fun n _ => 0 <= n);
  law_write : forall op, fop_write ops = Some op -> total op (fun _ _ => True);
  law_flush : forall op, fop_flush ops = Some op -> total op (fun _ _ => True);
  law_getdents : forall op, fop_getdents ops = Some op -> total op (fun _ v => v_type v = FT_DIRECTORY);
  law_lseek : forall op c a v f w, fop_lseek ops = Some op -> 0 < cv_ref c -> - 2 ^ 31 <= a < 2 ^ 31 -> good (cv_path c) v f ->
    exists r v' f' w', op c a v f w = Some (r, tt, v', f', w') /\ keeps_good (cv_path c) v v' f' /\
      (0 <= r -> good (cv_path c) v' {| f_flags := f_flags f'; f_pos := r; f_data := f_data f' |}) }.
(** What does not depend on the operations. *)
Class FileLaws : Prop := {
  good_flags : forall p v f x, good p v f -> good p v {| f_flags := x; f_pos := f_pos f; f_data := f_data f |};
  good_directory : forall p v f x, allowed_flags x -> Z.land x O_DIRECTORY <> 0 -> good p v f ->
    good p {| v_type := FT_DIRECTORY; v_flags := v_flags v; v_size := v_size v; v_data := v_data v |} f }.

Definition all_good (Y : gset loc) (fm : gmap loc (dfs_file D)) (vm : gmap loc (dfs_vnode D W)) : Prop :=
  forall l f v x, fm !! l = Some f -> l ∉ Y -> f_vnode f = Some v -> vm !! v = Some x -> good (v_path x) (v_attr x) (f_attr f).
Definition table_ok (t : list (dfs_filesystem D W)) : Prop :=
  forall i e ops, t !! i = Some e -> fs_ops e = Some ops -> lawful (o_fops ops) /\ fsok (fs_data e).
(** The path a file system sees. *)
Definition below (e : dfs_filesystem D W) (full : list Z) : option (list Z) :=
  ops ← fs_ops e; if Z.land (o_flags ops) DFS_FS_FLAG_FULLPATH =? 0 then p ← fs_path e; Some (subdir p full) else Some full.
(** A full path that is found on a file system, where it can be opened. *)
Definition present_at (t : list (dfs_filesystem D W)) (full : list Z) : Prop :=
  exists i e ops p, lookup_loop t 0 full None 0 = Some i /\ t !! i = Some e /\ fs_ops e = Some ops /\ below e full = Some p /\
    is_Some (fop_open (o_fops ops)) /\ present (fs_data e) p.
(** A vnode belongs to the file system its full path is found on. *)
Definition vnode_ok (t : list (dfs_filesystem D W)) (x : dfs_vnode D W) : Prop :=
  lawful (v_fops x) /\ is_Some (fop_open (v_fops x)) /\
  exists i e ops, lookup_loop t 0 (v_fullpath x) None 0 = Some i /\ t !! i = Some e /\ fs_ops e = Some ops /\
    v_fs x = Some i /\ v_fops x = o_fops ops /\ v_path x = below e (v_fullpath x) /\ is_Some (v_path x).
(** The state between two calls; inside one, the files in [X] have no vnode and
    the attributes of those in [Y] are being set. *)
Record ok (X Y : gset loc) (s : dfs D W) : Prop := {
  ok_core : core X (fds s) (files s) (vnodes s) (head s) (brk s);
  ok_good : all_good Y (files s) (vnodes s);
  ok_fops : forall v x, vnodes s !! v = Some x -> vnode_ok (filesystem_table s) x;
  ok_table : table_ok (filesystem_table s);
  ok_mem : Forall (eq true) (mem s);
  ok_wd : clean (working_directory s) /\ hd 0 (working_directory s) = slash /\ Z.of_nat (length (working_directory s)) < DFS_PATH_MAX }.
(** What the calls leave as it is. *)
Definition same_env (s s' : dfs D W) : Prop :=
  filesystem_table s' = filesystem_table s /\ filesystem_operation_table s' = filesystem_operation_table s /\ working_directory s' = working_directory s.
#[global] Instance same_env_preorder : PreOrder same_env.
Proof. split; [done|]. unfold same_env. intros s1 s2 s3 (? & ? & ?) (? & ? & ?). split_and!; congruence. Qed.

Lemma ok_errno X Y e s : ok X Y s -> ok X Y (with_errno e s).
Proof. intros []. by split. Qed.
Lemma malloc_ok X Y (Q : bool -> dfs D W -> Prop) s : ok X Y s -> Q true (with_mem (tl (mem s)) s) -> wp rt_malloc Q s.
Proof. intros [_ _ _ _ Hm _] H. unfold wp, rt_malloc. destruct Hm as [|b l Hb]; [exact H|]. cbn in *. by subst b. Qed.
Lemma ok_with_mem X Y s : ok X Y s -> ok X Y (with_mem (tl (mem s)) s).
Proof. intros []. split; try done. by destruct ok_mem0. Qed.
End laws.
Arguments FileParams : clear implicits.
Arguments FileLaws D {_}.
