(* ===== verification/DfsFdProps.v ===== *)
(** * The virtual file system: descriptors

    Allocation, lookup and release of descriptors keep the invariant; the lowest
    free descriptor is taken. *)
From Stdlib Require Import Ascii String.
From S2P Require Import Prelude KStdio DfsPath DfsPathProps Dfs DfsFs DfsFile DfsInv DfsLaws.

(** ** The lowest free slot *)
Lemma slot_loop_some l : forall i j, slot_loop l i = Some j ->
  i <= j < i + Z.of_nat (length l) /\ l !! Z.to_nat (j - i) = Some None /\ forall k, (k < Z.to_nat (j - i))%nat -> exists x, l !! k = Some (Some x).
Proof.
  induction l as [|[x|] l IH]; intros i j; cbn [slot_loop length]; [done| |].
  - intros (H1 & H2 & H3)%IH. split; [lia|]. replace (Z.to_nat (j - i)) with (S (Z.to_nat (j - (i + 1)))) by lia. split; [done|].
    intros [|k] Hk; [by exists x|]. apply H3. lia.
  - intros [= ->]. rewrite Z.sub_diag. split; [lia|]. split; [done|]. intros k Hk. cbn in Hk. lia.
Qed.
Lemma slot_loop_none l : forall i, slot_loop l i = None -> forall k, (k < length l)%nat -> exists x, l !! k = Some (Some x).
Proof.
  induction l as [|[x|] l IH]; intros i; cbn [slot_loop length]; [lia| |done]. intros H [|k] Hk; [by exists x|]. apply (IH _ H). lia.
Qed.
Lemma slots_size n fd : 0 <= n <= fd -> fd < DFS_FD_MAX ->
  let nr := Z.land (fd + 4) (Z.lnot 3) in fd < (if DFS_FD_MAX <? nr then DFS_FD_MAX else nr) <= DFS_FD_MAX.
Proof.
  unfold DFS_FD_MAX. intros Hn Hfd. cbn zeta. change (Z.land (fd + 4) (Z.lnot 3)) with (Z.land (fd + 4) (Z.lnot (Z.ones 2))).
  rewrite <- Z.ldiff_land, Z.ldiff_ones_r, Z.shiftl_mul_pow2, Z.shiftr_div_pow2 by lia. change (2 ^ 2) with 4.
  destruct (Z.ltb_spec 16 ((fd + 4) / 4 * 4)); [lia|]. pose proof (Z.div_mod (fd + 4) 4). pose proof (Z.mod_pos_bound (fd + 4) 4). lia.
Qed.

Section fd_props.
Context {D W : Type} {FP : FileParams D}.
Implicit Types s : dfs D W.

Lemma lookup_maxfd s i o : fds s !! i = Some o -> Z.of_nat i < maxfd s.
Proof. intros H%lookup_lt_Some. unfold maxfd. lia. Qed.
(** What an allocation of a slot changes: the table grows, a memory block is taken. *)
Definition grown s s' : Prop := exists n m, s' = with_mem m (with_fds (fds s ++ replicate n None) s) /\ (m = mem s \/ m = tl (mem s)).
Lemma grown_refl s : grown s s.
Proof. exists O, (mem s). split; [|by left]. cbn. rewrite app_nil_r. by destruct s. Qed.
Lemma grown_env s s' : grown s s' -> same_env s s'.
Proof. by intros (n & m & -> & _). Qed.
Lemma grown_ok X Y s s' : ok X Y s -> grown s s' -> maxfd s' <= DFS_FD_MAX -> ok X Y s'.
Proof.
  intros Hok (n & m & -> & Hm) Hx. destruct Hok. split; try done; cbn in *.
  - unfold maxfd in Hx. cbn in Hx. rewrite length_app, length_replicate in Hx. unfold DFS_FD_MAX in Hx. apply core_expand; [done|]. lia.
  - destruct Hm as [-> | ->]; [done|]. by destruct ok_mem.
Qed.
Lemma fd_slot_expand_spec X Y fd s : ok X Y s -> 0 <= fd ->
  wp (fd_slot_expand fd) (fun r s' => grown s s' /\ maxfd s' <= DFS_FD_MAX /\
    (r = -1 /\ s' = s /\ DFS_FD_MAX <= fd \/ r = fd /\ fd < maxfd s' /\ forall i, (length (fds s) <= i)%nat -> Z.of_nat i < maxfd s' -> fds s' !! i = Some None)) s.
Proof.
  intros Hok Hfd. pose proof (c_maxfd _ _ _ _ _ _ (ok_core _ _ _ Hok)) as Hmax.
  assert (Hm : maxfd s <= DFS_FD_MAX) by (unfold maxfd, DFS_FD_MAX; lia).
  apply wp_bind, wp_gets. destruct (Z.ltb_spec fd (maxfd s)).
  { apply wp_ret. split; [apply grown_refl|]. split; [done|]. right. split; [done|]. split; [done|]. intros i Hi Hi'. unfold maxfd in Hi'. lia. }
  destruct (Z.leb_spec DFS_FD_MAX fd); [apply wp_ret; split; [apply grown_refl|]; split; [done|]; left; done|].
  assert (Hn : 0 <= maxfd s <= fd) by (unfold maxfd in *; lia). pose proof (slots_size (maxfd s) fd Hn ltac:(done)) as Hnr. cbn zeta in Hnr |- *.
  set (nr := if DFS_FD_MAX <? Z.land (fd + 4) (Z.lnot 3) then _ else _) in *.
  apply wp_bind, (malloc_ok X Y); [done|]. cbn [negb]. apply wp_bind, wp_modify, wp_ret.
  assert (Hmax' : maxfd (with_fds (fds s ++ replicate (Z.to_nat (nr - maxfd s)) None) (with_mem (tl (mem s)) s)) = nr).
  { unfold maxfd in *. cbn [fds with_fds]. rewrite length_app, length_replicate. lia. }
  change (fds (with_mem (tl (mem s)) s)) with (fds s). split; [|rewrite Hmax'; split; [lia|]; right; split; [done|]; split; [lia|]].
  - exists (Z.to_nat (nr - maxfd s)), (tl (mem s)). split; [done|by right].
  - intros i Hi Hi'. cbn. rewrite lookup_app_r by done. apply lookup_replicate_2. unfold maxfd in *. lia.
Qed.
(** The slot taken is the lowest free one from [startfd] on. *)
Lemma fd_slot_alloc_spec X Y startfd s : ok X Y s -> 0 <= startfd < DFS_FD_MAX ->
  wp (fd_slot_alloc startfd) (fun r s' => grown s s' /\ maxfd s' <= DFS_FD_MAX /\
    (forall j, startfd <= j -> (r = -1 -> j < DFS_FD_MAX) -> (r <> -1 -> j < r) -> exists l, fds s !! Z.to_nat j = Some (Some l)) /\
    (r = -1 \/ startfd <= r < maxfd s' /\ fds s' !! Z.to_nat r = Some None)) s.
Proof.
  intros Hok Hst. pose proof (c_maxfd _ _ _ _ _ _ (ok_core _ _ _ Hok)) as Hmax. apply wp_bind, wp_gets.
  destruct (slot_loop (drop (Z.to_nat startfd) (fds s)) startfd) as [r|] eqn:E.
  - apply slot_loop_some in E as (H1 & H2 & H3). rewrite length_drop in H1. apply wp_ret. split; [apply grown_refl|]. split; [unfold maxfd, DFS_FD_MAX; lia|]. split.
    + intros j Hj _ Hr. specialize (H3 (Z.to_nat (j - startfd))). destruct H3 as [l Hl]; [lia|]. exists l. rewrite lookup_drop in Hl. rewrite <- Hl. f_equal. lia.
    + right. rewrite lookup_drop in H2. split; [unfold maxfd; lia|]. rewrite <- H2. f_equal. lia.
  - pose proof (slot_loop_none _ _ E) as H. rewrite length_drop in H.
    assert (Hfull : forall j, startfd <= j < maxfd s -> exists l, fds s !! Z.to_nat j = Some (Some l)).
    { intros j Hj. unfold maxfd in Hj. destruct (H (Z.to_nat (j - startfd))) as [l Hl]; [lia|]. exists l. rewrite lookup_drop in Hl. rewrite <- Hl. f_equal. lia. }
    apply wp_bind, wp_gets. set (idx := if maxfd s <? startfd then startfd else maxfd s).
    assert (Hidx : idx = Z.max startfd (maxfd s)) by (unfold idx; destruct (Z.ltb_spec (maxfd s) startfd); lia).
    apply wp_bind. eapply wp_mono; [apply (fd_slot_expand_spec X Y); [done|unfold maxfd in *; lia]|].
    intros r s' (G1 & G2 & [(-> & -> & G3)|(-> & G3 & G4)]).
    + apply wp_ret. split; [done|]. split; [done|]. split; [|by left]. intros j Hj1 Hj2 _. apply Hfull. specialize (Hj2 eq_refl). lia.
    + destruct (Z.ltb_spec idx 0); [unfold maxfd in *; lia|]. apply wp_ret. split; [done|]. split; [done|]. split.
      * intros j Hj1 _ Hj2. apply Hfull. unfold maxfd in *. destruct (decide (maxfd s < startfd)); unfold maxfd in *; lia.
      * right. split; [lia|]. apply G4; unfold maxfd in *; lia.
Qed.

(** The file at a place of the table, none behind its end. *)
Definition slot_at s (i : nat) : option loc := default None (fds s !! i).
Lemma grown_slot s s' i : grown s s' -> slot_at s' i = slot_at s i.
Proof.
  intros (n & m & -> & _). unfold slot_at. cbn. destruct (decide (i < length (fds s))%nat) as [H|H]; [by rewrite lookup_app_l|].
  rewrite lookup_app_r, (lookup_ge_None_2 (fds s)) by lia. destruct (replicate n None !! (i - length (fds s))%nat) as [o|] eqn:E; [|done].
  by apply lookup_replicate in E as [-> _].
Qed.
Lemma slot_at_set (t : list (option loc)) r o i : (r < length t)%nat -> default None (<[r := o]> t !! i) = if decide (i = r) then o else default None (t !! i).
Proof. intros H. destruct decide as [->|Hn]; [by rewrite list_lookup_insert_eq|by rewrite list_lookup_insert_ne]. Qed.

(** ** Lookup *)
Lemma fd_get_spec X Y fd s : ok X Y s ->
  wp (fd_get fd) (fun o s' => s' = s /\ match o with
    | Some l => 0 <= fd /\ fds s !! Z.to_nat fd = Some (Some l) /\ is_Some (files s !! l)
    | None => fd < 0 \/ maxfd s <= fd \/ fds s !! Z.to_nat fd = Some None end) s.
Proof.
  intros Hok. apply wp_bind, wp_gets. destruct (Z.ltb_spec fd 0); [by (apply wp_ret; auto)|]. destruct (Z.leb_spec (maxfd s) fd); [by (apply wp_ret; auto)|]. cbn [orb].
  apply wp_bind, wp_gets. unfold slot. destruct (lookup_lt_is_Some_2 (fds s) (Z.to_nat fd)) as [o Ho]; [unfold maxfd in *; lia|]. rewrite Ho. cbn [default].
  destruct o as [l|]; [|apply wp_ret; auto]. destruct (ok_core _ _ _ Hok) as [Hslot Hfile]. destruct (Hslot l (scount_in _ _ _ Ho)) as [f Hf].
  apply wp_bind, (wp_get_file l f); [done|]. destruct (Hfile l f Hf) as (-> & _). rewrite Z.eqb_refl. apply wp_ret. split; [done|]. split; [done|]. split; [done|]. by eexists.
Qed.

(** ** A new file *)
Lemma fd_new_spec s : ok ∅ ∅ s ->
  wp fd_new (fun r s' => same_env s s' /\ (r = -1 /\ ok ∅ ∅ s' /\ (forall i, slot_at s' i = slot_at s i) /\ (forall j, DFS_STDIO_OFFSET <= j < DFS_FD_MAX -> exists l, fds s !! Z.to_nat j = Some (Some l)) \/
    DFS_STDIO_OFFSET <= r < DFS_FD_MAX /\ (forall j, DFS_STDIO_OFFSET <= j < r -> exists l, fds s !! Z.to_nat j = Some (Some l)) /\
    slot_at s (Z.to_nat r) = None /\ exists l, (forall i, slot_at s' i = if decide (i = Z.to_nat r) then Some l else slot_at s i) /\ fds s' !! Z.to_nat r = Some (Some l) /\ ok {[l]} ∅ s' /\ exists f, files s' !! l = Some f /\ f_ref f = 1)) s.
Proof.
  intros Hok. apply wp_bind. eapply wp_mono; [apply (fd_slot_alloc_spec ∅ ∅); [done|unfold DFS_STDIO_OFFSET, DFS_FD_MAX; lia]|].
  intros r s' (G1 & G2 & G3 & Hr). pose proof (grown_ok _ _ _ _ Hok G1 G2) as Hok'. assert (G4 := fun i => grown_slot s s' i G1). apply grown_env in G1.
  destruct Hr as [-> |[Hr Hs]]; [apply wp_ret; split; [done|]; left; split; [done|]; split; [done|]; split; [done|]; intros j Hj; apply G3; lia|]. destruct (Z.ltb_spec r 0); [unfold DFS_STDIO_OFFSET in *; lia|].
  apply wp_bind, (malloc_ok ∅ ∅); [done|]. cbn [negb].
  set (s1 := with_mem (tl (mem s')) s'). set (f := {| f_magic := DFS_FD_MAGIC; f_ref := 1; f_vnode := None; f_attr := zero_fattr |}).
  apply wp_bind, wp_new_file, wp_bind, wp_modify, wp_ret.
  split; [done|]. right. split; [lia|]. split; [intros j Hj; apply G3; lia|]. split; [rewrite <- G4; unfold slot_at; by rewrite Hs|].
  exists (brk s1). cbn. destruct Hok'. pose proof (core_new_file _ _ _ _ _ _ (Z.to_nat r) f ok_core Hs eq_refl eq_refl eq_refl) as Hc. apply lookup_lt_Some in Hs as Hlt.
  split; [intros i; unfold slot_at at 1; cbn; rewrite slot_at_set by done; destruct decide; [done|apply G4]|].
  split; [by rewrite list_lookup_insert_eq|]. split; [|exists f; by rewrite lookup_insert_eq].
  split; try done; cbn.
  - by rewrite union_empty_r_L in Hc.
  - intros l g v x. destruct (decide (brk s' = l)) as [<-|Hn]; [rewrite lookup_insert_eq; by intros [= <-]|]. rewrite lookup_insert_ne by done. intros Hg Hn' Hv Hx. by apply (ok_good l g v x).
  - by destruct ok_mem.
Qed.
End fd_props.
