(* ===== verification/DfsFsProps.v ===== *)
(** * The virtual file system: finding the file system of a path *)
From Stdlib Require Import Ascii String.
From S2P Require Import Prelude KStdio DfsPath DfsPathProps Dfs DfsFs.

(** A mount point [p] covers [path]: it is the path or a directory above it. *)
Definition covers (p path : list Z) : Prop :=
  take (length p) path = p /\ ((1 < length p < length path)%nat -> at_ path (Z.of_nat (length p)) = slash).
Section fs_props.
Context {D W : Type}.
Definition mounted (e : dfs_filesystem D W) (p : list Z) : Prop := fs_path e = Some p /\ is_Some (fs_ops e).
(** The entry [i] of a table is the last of the longest ones that cover a path. *)
Definition best (t : list (dfs_filesystem D W)) (path : list Z) (i : nat) (p : list Z) : Prop :=
  (exists e, t !! i = Some e /\ mounted e p) /\ covers p path /\
  forall j e q, t !! j = Some e -> mounted e q -> covers q path -> (length q <= length p)%nat /\ (length q = length p -> (j <= i)%nat).

Lemma entry_covers p path : strncmp_eq p path (length p) = true ->
  (1 <? length p)%nat && (length p <? length path)%nat && negb (at_ path (Z.of_nat (length p)) =? slash) = false <-> covers p path.
Proof.
  unfold strncmp_eq, covers. intros E%bool_decide_eq_true. rewrite firstn_all in E. rewrite !andb_false_iff, negb_false_iff, Z.eqb_eq, !Nat.ltb_ge. split.
  - intros H. split; [done|]. intros H1. destruct H as [[H|H]|H]; [lia|lia|done].
  - intros [_ H]. destruct (decide (1 < length p < length path)%nat) as [Hd|Hd]; [right; by apply H|]. left. lia.
Qed.
(** The loop over the entries after the first [n], with the best of those before. *)
Lemma lookup_loop_best path t t0 fs k : match fs with
    | Some i => exists p, best t0 path i p /\ k = length p
    | None => k = O /\ forall j e q, t0 !! j = Some e -> mounted e q -> ~ covers q path end ->
  match lookup_loop t (length t0) path fs k with
  | Some i => exists p, best (t0 ++ t) path i p
  | None => forall j e q, (t0 ++ t) !! j = Some e -> mounted e q -> ~ covers q path end.
Proof.
  revert t0 fs k. induction t as [|e t IH]; intros t0 fs k Hfs; cbn [lookup_loop].
  { rewrite app_nil_r. destruct fs as [i|]; [|by destruct Hfs]. destruct Hfs as (p & Hb & _). by exists p. }
  assert (Hsnoc : forall j e' q, (t0 ++ [e]) !! j = Some e' -> mounted e' q -> t0 !! j = Some e' \/ j = length t0 /\ mounted e q).
  { intros j e' q [H|[H1 H2]]%lookup_app_Some Hm; [by left|]. right. apply list_lookup_singleton_Some in H2 as [H2 ->]. split; [lia|done]. }
  assert (Hskip : (forall q, mounted e q -> ~ covers q path \/ (length q < k)%nat) ->
    match lookup_loop t (S (length t0)) path fs k with
    | Some i => exists p, best (t0 ++ e :: t) path i p
    | None => forall j e' q, (t0 ++ e :: t) !! j = Some e' -> mounted e' q -> ~ covers q path end).
  { intros Hno. specialize (IH (t0 ++ [e]) fs k). rewrite length_app, Nat.add_1_r in IH. rewrite cons_middle, app_assoc. apply IH.
    destruct fs as [i|].
    - destruct Hfs as (p & (( ei & Hi & Hm) & Hc & Hmax) & ->). exists p. split; [|done]. split; [exists ei; split; [by apply lookup_app_l_Some|done]|]. split; [done|].
      intros j e' q Hj Hq Hcov. destruct (Hsnoc _ _ _ Hj Hq) as [Hj'|[-> He]]; [eauto|]. destruct (Hno q He); [done|]. lia.
    - destruct Hfs as [-> Hfs]. split; [done|]. intros j e' q Hj Hq. destruct (Hsnoc _ _ _ Hj Hq) as [Hj'|[-> He]]; [eauto|]. destruct (Hno q He); [done|]. lia. }
  destruct (fs_path e) as [p|] eqn:Ep; [|apply Hskip; intros q [Hq _]; congruence]. destruct (fs_ops e) as [ops|] eqn:Eo; [|apply Hskip; intros q [_ [? ?]]; congruence].
  destruct (Nat.ltb_spec (length p) k) as [Hlt|Hge].
  { cbn [orb]. apply Hskip. intros q [Hq _]. right. congruence. }
  cbn [orb]. destruct (strncmp_eq p path (length p)) eqn:Es; cbn [negb].
  2:{ apply Hskip. intros q [Hq _]. left. intros [Hc _]. replace q with p in Hc by congruence. unfold strncmp_eq in Es. apply bool_decide_eq_false in Es. apply Es. by rewrite firstn_all. }
  pose proof (entry_covers p path Es) as Hcov. destruct ((1 <? length p)%nat && _ && _).
  { apply Hskip. intros q [Hq _]. left. replace q with p by congruence. rewrite <- Hcov. done. }
  specialize (IH (t0 ++ [e]) (Some (length t0)) (length p)). rewrite length_app, Nat.add_1_r in IH. rewrite cons_middle, app_assoc. apply IH. exists p. split; [|done].
  split; [exists e; split; [by rewrite lookup_app_r, Nat.sub_diag|by split]|]. split; [by apply Hcov|].
  intros j e' q Hj Hq Hc. destruct (Hsnoc _ _ _ Hj Hq) as [Hj'|[-> [He _]]]; [|replace q with p by congruence; lia].
  apply lookup_lt_Some in Hj' as Hlt. split; [|lia]. destruct fs as [i|]; [|destruct Hfs as [_ Hfs]; by destruct (Hfs j e' q)].
  destruct Hfs as (p0 & (_ & _ & Hmax) & ->). destruct (Hmax j e' q Hj' Hq Hc). lia.
Qed.
(** C39: [dfs_filesystem_lookup] finds the mounted file system with the longest path
    that is the given one or a directory above it, the last such entry of the table,
    and none when no mount point covers the path; it changes nothing. *)
Theorem dfs_filesystem_lookup_spec (path : list Z) (s : dfs D W) :
  exists r, dfs_filesystem_lookup path s = Some (r, s) /\
    match r with
    | Some i => exists p, best (filesystem_table s) path i p
    | None => forall j e q, filesystem_table s !! j = Some e -> mounted e q -> ~ covers q path
    end.
Proof.
  eexists. split; [reflexivity|]. apply (lookup_loop_best path (filesystem_table s) [] None 0). done.
Qed.
Lemma lookup_loop_some path (t : list (dfs_filesystem D W)) i : lookup_loop t 0 path None 0 = Some i ->
  exists e p ops, t !! i = Some e /\ fs_path e = Some p /\ fs_ops e = Some ops.
Proof.
  intros E. pose proof (lookup_loop_best path t [] None 0) as H. cbn [length] in H. rewrite E in H. destruct H as (p & (e & He & Hp & [ops Ho]) & _); [by split|].
  exists e, p, ops. done.
Qed.
End fs_props.
