(* ===== verification/DfsFileProps.v ===== *)
(** * The virtual file system: opening and closing files keeps the invariant *)
From Stdlib Require Import Ascii String.
From S2P Require Import Prelude KStdio DfsPath DfsPathProps Dfs DfsFs DfsFile DfsInv DfsLaws DfsFdProps DfsFsProps.

Section file_props.
Context {D W : Type} {FP : FileParams D}.
Implicit Types s : dfs D W.

(** ** The attributes when files and vnodes change *)
Lemma good_weaken (Y Y' : gset loc) fm fm' (vm vm' : gmap loc (dfs_vnode D W)) : all_good Y fm vm ->
  (forall l f v, fm' !! l = Some f -> l ∉ Y' -> f_vnode f = Some v -> l ∉ Y /\ exists f0, fm !! l = Some f0 /\ f_attr f = f_attr f0 /\ f_vnode f0 = Some v) ->
  (forall v x, vm' !! v = Some x -> exists x0, vm !! v = Some x0 /\ v_attr x = v_attr x0 /\ v_path x = v_path x0) -> all_good Y' fm' vm'.
Proof.
  intros Hg Hf Hv l f v x Hl Hn Hfv Hx. destruct (Hf l f v Hl Hn Hfv) as (Hn' & f0 & Hl0 & -> & Hfv0). destruct (Hv v x Hx) as (x0 & Hx0 & -> & ->). by apply (Hg l f0 v).
Qed.
Lemma lookup_update {A} (m : gmap loc A) l a k b : <[l := a]> m !! k = Some b -> l = k /\ a = b \/ l <> k /\ m !! k = Some b.
Proof. rewrite lookup_insert_Some. naive_solver. Qed.

(** ** Release of a descriptor *)
Definition releasable (X : gset loc) s (l : loc) (f : dfs_file D) : Prop :=
  if decide (f_ref f = 1) then
    X = {[l]} /\ f_vnode f = None \/ X = ∅ /\ exists v x, f_vnode f = Some v /\ vnodes s !! v = Some x /\ 1 < v_ref x
  else X = ∅.
Lemma fd_release_spec X fd l f s : ok X ∅ s -> 0 <= fd -> fds s !! Z.to_nat fd = Some (Some l) -> files s !! l = Some f -> releasable X s l f ->
  wp (fd_release fd) (fun _ s' => ok ∅ ∅ s' /\ same_env s s' /\ fds s' = <[Z.to_nat fd := None]> (fds s)) s.
Proof.
  intros Hok Hfd Hs Hf Hr. pose proof (lookup_maxfd _ _ _ Hs) as Hmax. rewrite Z2Nat.id in Hmax by done.
  apply wp_bind, wp_gets. destruct (Z.ltb_spec fd 0); [lia|]. destruct (Z.leb_spec (maxfd s) fd); [lia|]. cbn [orb].
  apply wp_bind, wp_gets. unfold slot. rewrite Hs. cbn [default]. apply wp_bind, wp_modify, wp_bind, (wp_get_file l f); [done|].
  destruct Hok as [Hc Hg Hv Ht Hm Hw]. destruct (c_file _ _ _ _ _ _ Hc l f Hf) as (Hmagic & Href & Hpos). rewrite Hmagic, Z.eqb_refl. cbn [negb].
  apply wp_bind, wp_modify. unfold releasable in Hr. destruct (decide (f_ref f = 1)) as [E1|E1].
  - rewrite E1. change (1 - 1 =? 0) with true. cbv iota. destruct Hr as [[-> Hfv]|[-> (v & x & Hfv & Hx & H1)]]; rewrite Hfv.
    + apply wp_bind, wp_ret. eapply wp_free_file; [apply lookup_insert_eq|]. cbn. split; [|by split].
      pose proof (core_drop_file _ _ _ _ _ _ _ l f Hc Hs Hf E1 (proj2 (elem_of_singleton l l) eq_refl)) as Hc'. rewrite difference_diag_L in Hc'.
      split; try done; cbn; rewrite delete_insert_eq; [done|]. apply (good_weaken ∅ ∅ (files s) _ (vnodes s)); [done| |by eauto].
      intros k g w [_ Hk]%lookup_delete_Some Hn Hw'. split; [done|]. eauto.
    + apply wp_bind, wp_bind. apply (wp_get_vnode v x); [done|]. apply wp_bind, wp_modify. destruct (Z.eqb_spec (v_ref x - 1) 0); [lia|]. apply wp_ret.
      eapply wp_free_file; [apply lookup_insert_eq|]. cbn. split; [|by split].
      pose proof (core_detach ∅ _ _ _ _ _ l f (with_f_vnode None f) v x (with_v_ref (v_ref x - 1) x) Hc Hf Hfv Hx eq_refl eq_refl eq_refl eq_refl H1 eq_refl) as Hc'.
      pose proof (core_drop_file _ _ _ _ _ _ _ l (with_f_vnode None f) Hc' Hs (lookup_insert_eq _ _ _) E1 ltac:(set_solver)) as Hc''.
      rewrite delete_insert_eq in Hc''. replace (({[l]} ∪ ∅) ∖ {[l]} : gset loc) with (∅ : gset loc) in Hc'' by set_solver.
      split; try done; cbn; rewrite ?delete_insert_eq; [done| |].
      * apply (good_weaken ∅ ∅ (files s) _ (vnodes s)); [done| |].
        -- intros k g w [_ Hk]%lookup_delete_Some Hn Hw'. split; [done|]. eauto.
        -- intros w y [[<- <-]|[_ Hy]]%lookup_update; eauto.
      * intros w y [[<- <-]|[_ Hy]]%lookup_update; [apply (Hv v x Hx)|eauto].
  - destruct (Z.eqb_spec (f_ref f - 1) 0); [lia|]. subst X. apply wp_ret. cbn. split; [|by split].
    pose proof (core_drop_slot ∅ _ _ _ _ _ _ l f (with_f_ref (f_ref f - 1) f) Hc Hs Hf ltac:(lia) eq_refl eq_refl eq_refl) as Hc'.
    split; try done; cbn. apply (good_weaken ∅ ∅ (files s) _ (vnodes s)); [done| |by eauto].
    intros k g w [[<- <-]|[_ Hk]]%lookup_update Hn Hw'; split; [done| |done|]; eauto.
Qed.

(** ** The hash *)
Lemma find_loop_spec path s X t fm h b hh : core X t fm (vnodes s) h b -> (forall v, v ∈ hh -> v ∈ chain h path) ->
  wp (find_loop path hh) (fun o s' => s' = s /\ match o with
    | Some v => exists x, vnodes s !! v = Some x /\ v_fullpath x = path
    | None => forall v x, v ∈ hh -> vnodes s !! v = Some x -> v_fullpath x <> path end) s.
Proof.
  intros Hc. induction hh as [|v hh IH]; intros Hin; cbn [find_loop]; [apply wp_ret; split; [done|]; by intros v x ?%not_elem_of_nil|].
  destruct (c_chain _ _ _ _ _ _ Hc _ v (Hin v (list_elem_of_here _ _))) as (x & Hx & _). apply wp_bind, (wp_get_vnode v x); [done|].
  case_bool_decide as E; [apply wp_ret; split; [done|]; by exists x|]. eapply wp_mono; [apply IH; intros w Hw; apply Hin; by right|].
  intros [w|] s' (-> & H); split; try done. intros w y [->|Hw]%elem_of_cons Hy; [by replace y with x by congruence|]. eauto.
Qed.
Lemma dfs_vnode_find_spec path s X t fm b : core X t fm (vnodes s) (head s) b ->
  wp (dfs_vnode_find path) (fun o s' => s' = s /\ match o with
    | Some v => exists x, vnodes s !! v = Some x /\ v_fullpath x = path
    | None => forall v x, vnodes s !! v = Some x -> v_fullpath x <> path end) s.
Proof.
  intros Hc. apply wp_bind, wp_gets. eapply wp_mono; [by apply (find_loop_spec path s X t fm (head s) b)|].
  intros [w|] s' (-> & H); split; try done. intros v x Hx E. destruct (c_vnode _ _ _ _ _ _ Hc v x Hx) as (_ & _ & Hin). rewrite E in Hin. by apply (H v x).
Qed.
Lemma normalize_spec X Y directory path s : ok X Y s -> clean path -> directory = None \/ (exists d, directory = Some d /\ clean d /\ hd 0 d = slash) ->
  wp (normalize_path directory path) (fun o s' => ok X Y s' /\ same_env s s' /\ files s' = files s /\ fds s' = fds s /\ vnodes s' = vnodes s /\ head s' = head s /\ brk s' = brk s /\
    exists full, o = Some full /\ dfs_normalize_path (working_directory s) true directory path = Some (Some full) /\ clean full /\ hd 0 full = slash) s.
Proof.
  intros Hok Hp Hd. destruct (ok_wd _ _ _ Hok) as (W1 & W2 & W3). apply wp_bind, wp_gets. destruct (Z.ltb_spec (Z.of_nat (length (working_directory s))) DFS_PATH_MAX); [|lia]. cbn [orb].
  apply wp_bind, (malloc_ok X Y); [done|].
  set (full := full_path (default (working_directory s) directory) path).
  assert (Hfull : clean full /\ hd 0 full = slash).
  { unfold full, full_path. destruct (Z.eqb_spec (hd 0 path) slash); [done|].
    assert (Hdir : clean (default (working_directory s) directory) /\ hd 0 (default (working_directory s) directory) = slash) by (destruct Hd as [-> |(d & -> & ? & ?)]; done).
    destruct Hdir as [C1 C2]. split; [apply Forall_app; split; [done|by constructor]|]. by destruct (default (working_directory s) directory). }
  destruct Hfull as [F1 F2]. pose proof (normalize_eq (working_directory s) directory path F1 F2) as E.
  eapply wp_deref; [exact E|]. split; [by apply ok_with_mem|]. split; [done|]. do 5 (split; [done|]). exists (canonical (resolve full)). split; [done|]. split; [done|].
  split; [by apply canonical_clean, resolve_proper|apply canonical_head].
Qed.

(** ** Opening *)
Definition path_ok (t : list (dfs_filesystem D W)) (full : list Z) : Prop :=
  forall i e p, lookup_loop t 0 full None 0 = Some i -> t !! i = Some e -> below e full = Some p -> allowed_path (fs_data e) p.
Definition open_ok (wd : list Z) (t : list (dfs_filesystem D W)) (path : list Z) (flags : Z) : Prop :=
  clean path /\ allowed_flags flags /\ forall full, dfs_normalize_path wd true None path = Some (Some full) -> path_ok t full.
(** A vnode whose open routine is about to be called. *)
Definition to_open (t : list (dfs_filesystem D W)) (x : dfs_vnode D W) : Prop :=
  v_ref x = 1 /\ v_attr x = fresh_vattr /\ (exists p, v_path x = Some p /\ fsok (data_of t x) /\ allowed_path (data_of t x) p /\ (present_at t (v_fullpath x) -> present (data_of t x) p)) \/
  1 < v_ref x /\ exists g, good (v_path x) (v_attr x) g.
Lemma open_vnode_spec l f full s : ok {[l]} ∅ s -> files s !! l = Some f -> path_ok (filesystem_table s) full ->
  wp (open_vnode l full) (fun r s' => same_env s s' /\ fds s' = fds s /\ match r with
    | inl e => e < 0 /\ ok {[l]} ∅ s' /\ files s' = files s /\ ~ present_at (filesystem_table s) full
    | inr v => ok ∅ {[l]} s' /\ exists f' x, files s' !! l = Some f' /\ f_vnode f' = Some v /\ f_ref f' = f_ref f /\ vnodes s' !! v = Some x /\ to_open (filesystem_table s') x /\ v_fullpath x = full /\ f_pos (f_attr f') = 0 end) s.
Proof.
  intros Hok Hf Hpath. destruct Hok as [Hc Hg Hv Ht Hm Hw] eqn:Eok. apply wp_bind. eapply wp_mono; [by apply (dfs_vnode_find_spec full s {[l]} (fds s) (files s) (brk s))|].
  assert (Hl : l ∈ ({[l]} : gset loc)) by set_solver. assert (HX : {[l]} ∖ {[l]} = (∅ : gset loc)) by set_solver.
  assert (Hfv : f_vnode f = None) by (by apply (c_pend _ _ _ _ _ _ Hc l f Hf)).
  intros [v|] s' (-> & Hfind).
  - destruct Hfind as (x & Hx & Hxfull). apply wp_bind, (wp_get_vnode v x); [done|]. apply wp_bind, wp_modify, wp_bind, (wp_get_file l f); [done|]. apply wp_bind, wp_modify, wp_ret.
    split; [done|]. split; [done|]. cbn.
    pose proof (core_attach _ _ _ _ _ _ l f (with_f_vnode (Some v) (with_f_pos 0 f)) v x (with_v_ref (v_ref x + 1) x) Hc Hf Hl Hx eq_refl eq_refl eq_refl eq_refl eq_refl) as Hc'. rewrite HX in Hc'.
    destruct (c_vnode _ _ _ _ _ _ Hc v x Hx) as (Href & Hpos & _).
    split; [split; try done; cbn|].
    + apply (good_weaken ∅ {[l]} (files s) _ (vnodes s)); [done| |].
      * intros k g w [[<- <-]|[_ Hk]]%lookup_update Hn Hw'; [set_solver|]. split; [set_solver|]. eauto.
      * intros w y [[<- <-]|[_ Hy]]%lookup_update; eauto.
    + intros w y [[<- <-]|[_ Hy]]%lookup_update; [apply (Hv v x Hx)|eauto].
    + eexists _, _. split; [apply lookup_insert_eq|]. split; [done|]. split; [done|]. split; [apply lookup_insert_eq|]. split; [|done]. right. cbn. split; [lia|].
      destruct (mcount_exists _ _ Hpos) as (k & g & Hk & Hkv). exists (f_attr g). by apply (Hg k g v x Hk).
  - apply wp_bind, wp_bind, wp_gets, wp_ret. destruct (lookup_loop (filesystem_table s) 0 full None 0) as [i|] eqn:Ei; [|apply wp_ret; repeat (split; [done|]); intros (i & ? & ? & ? & Hi & _); congruence].
    destruct (lookup_loop_some _ _ _ Ei) as (e & p & ops & He & Hp & Hops). apply wp_bind, (malloc_ok {[l]} ∅); [done|]. cbn [negb].
    apply wp_bind, wp_bind, wp_gets. eapply wp_deref; [exact He|]. apply wp_bind. eapply wp_deref; [exact Hops|].
    destruct (Ht i e ops He Hops) as [Hlaw Hfs]. apply wp_bind.
    assert (Hbelow : exists p', below e full = Some p' /\ forall Q s1, ok {[l]} ∅ s1 -> (forall s2, ok {[l]} ∅ s2 -> same_env s1 s2 -> files s2 = files s1 -> vnodes s2 = vnodes s1 -> head s2 = head s1 -> brk s2 = brk s1 -> fds s2 = fds s1 -> Q (Some p') s2) ->
      wp (vnode_path ops (fs_path e) full) Q s1).
    { unfold below, vnode_path. rewrite Hops. cbn [mbind option_bind]. destruct (Z.land (o_flags ops) DFS_FS_FLAG_FULLPATH =? 0).
      - rewrite Hp. cbn [mbind option_bind]. eexists. split; [done|]. intros Q s1 H1 HQ. apply wp_bind. eapply wp_deref; [done|]. apply wp_bind, (malloc_ok {[l]} ∅); [done|]. apply wp_ret, HQ; try done. by apply ok_with_mem.
      - exists full. split; [done|]. intros Q s1 H1 HQ. apply wp_ret, HQ; done. }
    destruct Hbelow as (p' & Hp' & Hvp). specialize (Hpath i e p' Ei He Hp'). apply Hvp; [by apply ok_with_mem|]. clear Hvp. intros s2 Hok2 Henv E1 E2 E3 E4 E5. cbn in E1, E2, E3, E4, E5.
    set (x := {| v_path := Some p'; v_fullpath := full; v_ref := 1; v_fs := Some i; v_fops := o_fops ops; v_attr := _ |}). apply wp_bind, wp_new_vnode.
    destruct Hok2 as [Hc2 Hg2 Hv2 Ht2 Hm2 Hw2]. destruct Henv as (En1 & En2 & En3). cbn in En1, En2, En3.
    destruct (fop_open (o_fops ops)) as [op|] eqn:Eop.
    + apply wp_bind, (wp_get_file l f); [cbn; by rewrite E1|]. apply wp_bind, wp_modify, wp_bind, wp_modify, wp_ret. split; [done|]. split; [done|]. cbn.
      assert (Hnew := core_new_vnode _ _ _ _ _ _ l f (with_f_vnode (Some (brk s2)) (with_f_pos 0 f)) x Hc2 ltac:(by rewrite E1) Hl eq_refl eq_refl eq_refl eq_refl ltac:(rewrite E2; exact Hfind)).
      rewrite HX in Hnew. split; [split; try done; cbn|].
      * intros k g w y [[<- <-]|[_ Hk]]%lookup_update Hn Hw'; [set_solver|]. intros [[<- <-]|[_ Hy]]%lookup_update; [|apply (Hg2 k g w); [done|set_solver|done|done]].
        exfalso. assert (H0 : (0 < users (brk s2) (files s2))%nat) by (by apply (mcount_pos _ _ k g)). apply (c_user _ _ _ _ _ _ Hc2), (c_brk_v _ _ _ _ _ _ Hc2) in H0. lia.
      * intros w y [[<- <-]|[_ Hy]]%lookup_update; [|eauto]. split; [done|]. split; [by eexists|]. exists i, e, ops. rewrite En1. cbn. rewrite Hp'. by repeat (split; [done|]).
      * eexists _, x. split; [apply lookup_insert_eq|]. split; [done|]. split; [done|]. split; [apply lookup_insert_eq|]. split; [|done]. left. split; [done|]. split; [done|]. exists p'. split; [done|].
        assert (Ed : data_of (filesystem_table s2) x = fs_data e) by (unfold data_of; cbn; rewrite En1, He; done). rewrite Ed. split; [done|]. split; [done|].
        rewrite En1. cbn. intros (i' & e' & ops' & q & Hi' & He' & _ & Hq & _ & Hpres). replace q with p' in Hpres by congruence. replace e' with e in Hpres by congruence. done.
    + apply wp_bind. eapply wp_free_vnode; [apply lookup_insert_eq|]. apply wp_ret. split; [done|]. split; [done|]. cbn.
      assert (Hb : vnodes s2 !! brk s2 = None) by (destruct (vnodes s2 !! brk s2) eqn:E; [|done]; assert (H0 := c_brk_v _ _ _ _ _ _ Hc2 _ (mk_is_Some _ _ E)); lia).
      rewrite (delete_insert_id _ _ _ Hb). split; [done|]. split; [split; try done; by apply core_brk|]. split; [done|].
      intros (i' & e' & ops' & q & Hi' & He' & Ho' & _ & [op' Hop'] & _). assert (e' = e) as -> by congruence. assert (ops' = ops) as -> by congruence. congruence.
Qed.

(** ** Calls of the file system *)
Lemma wp_set_flags l f g (Q : unit -> dfs D W -> Prop) s : files s !! l = Some f ->
  Q tt (with_files (<[l := with_f_flags (g (f_flags (f_attr f))) f]> (files s)) s) -> wp (set_flags l g) Q s.
Proof. intros Hf H. by apply wp_bind, (wp_get_file l f). Qed.
(** A file whose attributes change, with its vnode [x] to [y], is good again when
    the new attributes are and the other files of the vnode keep theirs. *)
Lemma ok_attrs Y l f g v x y s s' : ok ∅ Y s -> Y ⊆ {[l]} -> files s !! l = Some f -> f_vnode f = Some v -> vnodes s !! v = Some x ->
  s' = with_files (<[l := g]> (files s)) (with_vnodes (<[v := y]> (vnodes s)) (with_world (world s') s)) ->
  f_magic g = f_magic f -> f_ref g = f_ref f -> f_vnode g = f_vnode f -> v_ref y = v_ref x -> v_fullpath y = v_fullpath x -> v_fops y = v_fops x -> v_path y = v_path x -> v_fs y = v_fs x ->
  good (v_path x) (v_attr y) (f_attr g) -> (forall a, good (v_path x) (v_attr x) a -> good (v_path x) (v_attr y) a) -> ok ∅ ∅ s'.
Proof.
  intros [Hc Hg Hv Ht Hm Hw] HY Hf Hfv Hx -> Hg1 Hg2 Hg3 Hy1 Hy2 Hy3 Hy4 Hy5 H1 H2. split; try done; cbn.
  - eapply core_vnode; [|done..]. by eapply core_file.
  - intros k q w z [[<- <-]|[Hn Hk]]%lookup_update _ Hw'.
    + rewrite Hg3, Hfv in Hw'. injection Hw' as <-. rewrite lookup_insert_eq. intros [= <-]. by rewrite Hy4.
    + intros [[<- <-]|[_ Hz]]%lookup_update; [rewrite Hy4; apply H2|]; eapply Hg; try done; set_solver.
  - intros w z [[<- <-]|[_ Hz]]%lookup_update; [|eauto]. unfold vnode_ok. rewrite Hy2, Hy3, Hy4, Hy5. by apply (Hv v x).
Qed.
Lemma same_env_files s m vm w : same_env s (with_files m (with_vnodes vm (with_world w s))).
Proof. done. Qed.

Context {FL : FileLaws D}.
Lemma dfs_file_open_spec l f path flags s : ok {[l]} ∅ s -> files s !! l = Some f -> open_ok (working_directory s) (filesystem_table s) path flags ->
  wp (dfs_file_open (Some l) path flags) (fun r s' => same_env s s' /\ fds s' = fds s /\ (exists f', files s' !! l = Some f' /\ f_ref f' = f_ref f /\ (r < 0 -> f_vnode f' = None) /\
      (0 <= r -> exists v x, f_vnode f' = Some v /\ vnodes s' !! v = Some x /\ dfs_normalize_path (working_directory s) true None path = Some (Some (v_fullpath x)) /\ f_pos (f_attr f') = 0)) /\
    (r < 0 /\ ok {[l]} ∅ s' /\ (forall full, dfs_normalize_path (working_directory s) true None path = Some (Some full) -> ~ present_at (filesystem_table s) full) \/
     r = 0 /\ ok ∅ ∅ s')) s.
Proof.
  intros Hok Hf (Hclean & Hflags & Hpath). apply wp_bind. eapply wp_mono; [apply (normalize_spec {[l]} ∅); [done|done|by left]|].
  intros o s0 (Hok0 & Henv & Ef & Efd & _ & _ & _ & full & -> & Efull & _ & _). apply wp_bind. eapply wp_mono; [apply (open_vnode_spec l f)|]; [done|by rewrite Ef|destruct Henv as (-> & _); by apply Hpath|].
  intros [e|v] s1 (Henv1 & Efd1 & H).
  { destruct H as (He & Hok1 & Ef1 & Hno). apply wp_ret. split; [by transitivity s0|]. split; [congruence|].
    split; [|left; split; [done|]; split; [done|]; intros full' E'; destruct Henv as (T1 & _); rewrite <- T1; by replace full' with full by congruence]. exists f. rewrite Ef1, Ef. split; [done|]. split; [done|]. split; [|lia].
    intros _. apply (c_pend _ _ _ _ _ _ (ok_core _ _ _ Hok) l f Hf). set_solver. }
  destruct H as (Hok1 & f1 & x & Hf1 & Hfv1 & Href1 & Hx & Hto & Hxfull & Hpos0). assert (Henv' : same_env s s1) by (by transitivity s0). rewrite <- Hxfull in Efull.
  apply wp_bind, (wp_set_flags l f1); [done|]. apply wp_bind, (wp_get_vnode v x); [done|].
  destruct (ok_fops _ _ _ Hok1 v x Hx) as [Hlaw [[op Hop] _]]. apply wp_bind. eapply wp_deref; [exact Hop|]. apply wp_bind.
  set (f2 := with_f_flags flags f1).
  assert (Hcall : exists r va fa w, op (view_of (filesystem_table s1) x) tt (v_attr x) (f_attr f2) (world s1) = Some (r, tt, va, fa, w) /\
    (r < 0 /\ v_ref x = 1 /\ ~ present_at (filesystem_table s1) full \/ 0 <= r /\ good (v_path x) va fa /\ f_pos fa = 0 /\ (v_ref x = 1 \/ forall a, good (v_path x) (v_attr x) a -> good (v_path x) va a))).
  { destruct Hto as [(H1 & H2 & p & H3 & H4 & H5 & H6)|(H1 & g & Hg)].
    - destruct (law_open _ Hlaw op (view_of (filesystem_table s1) x) (f_attr f2) (world s1) p Hop H1 H3 H4 H5 Hflags) as (r & va & fa & w & E & Hr & Hpres).
      exists r, va, fa, w. rewrite H2. split; [done|]. destruct (decide (r < 0)); [left; split; [done|]; split; [done|]; rewrite <- Hxfull; intros ?%H6%Hpres; lia|]. right. split; [lia|]. destruct Hr as [Hr1 Hr2]; [lia|]. split; [done|]. split; [by apply Hr2|by left].
    - destruct (law_reopen _ Hlaw op (view_of (filesystem_table s1) x) (v_attr x) (f_attr f2) g (world s1) Hop H1 Hflags Hg) as (r & va & fa & w & E & Hr & [H2 H3] & H4).
      exists r, va, fa, w. split; [done|]. right. split; [done|]. split; [done|]. split; [by apply H4|by right]. }
  destruct Hcall as (r & va & fa & w & Ecall & Hres).
  eapply wp_call_fop; [apply lookup_insert_eq|exact Hfv1|exact Hx|exact Ecall|].
  set (s2 := with_files _ s1). set (s3 := after_call l f2 v x va fa w s2).
  assert (Hf3 : files s3 !! l = Some (with_f_attr fa f2)) by apply lookup_insert_eq. assert (Hx3 : vnodes s3 !! v = Some (with_v_attr va x)) by apply lookup_insert_eq.
  destruct (Z.ltb_spec r 0) as [Hr|Hr].
  - destruct Hres as [(_ & H1 & Hno)|[? _]]; [|lia]. apply wp_bind. eapply wp_get_vnode; [exact Hx3|]. apply wp_bind, wp_modify, wp_bind. cbn [v_ref with_v_attr]. rewrite H1. change (1 - 1 =? 0) with true. cbv iota.
    apply wp_bind, wp_modify, wp_bind. eapply wp_get_file; [exact Hf3|]. apply wp_bind, wp_modify. eapply wp_free_vnode; [apply lookup_insert_eq|]. apply wp_ret.
    split; [done|]. split; [cbn; congruence|]. split; [eexists; split; [apply lookup_insert_eq|]; split; [done|]; split; [done|lia]|]. left. split; [done|]. split; [|intros full' E'; replace full' with full by congruence; by destruct Henv' as (<- & _)].
    destruct Hok1 as [Hc Hg Hv Ht Hm Hw].
    assert (Hc3 : core ∅ (fds s1) (files s3) (vnodes s3) (head s1) (brk s1)).
    { cbn. eapply core_vnode; [|exact Hx|done..]. eapply core_file; [|apply lookup_insert_eq|done..]. by eapply core_file; [exact Hc|exact Hf1|..]. }
    pose proof (core_detach_last ∅ _ _ _ _ _ l _ (with_f_vnode None (with_f_attr fa f2)) v _ Hc3 Hf3 Hfv1 Hx3 eq_refl eq_refl eq_refl H1) as Hd. rewrite union_empty_r_L in Hd.
    split; try done; cbn; cbn in Hd; rewrite ?delete_insert_eq in Hd; rewrite ?delete_insert_eq; [done| |].
    + intros k q z y [[<- <-]|[Hn Hk]]%lookup_update _ Hz; [done|]. rewrite !lookup_insert_ne in Hk by done. intros [Hn' Hy]%lookup_delete_Some.
      apply (Hg k q z); [done|set_solver|done|done].
    + intros z y [Hn' Hy]%lookup_delete_Some. eauto.
  - destruct Hres as [[? _]|(_ & Hgood & Hfpos & Hothers)]; [lia|]. apply wp_bind. eapply wp_set_flags; [exact Hf3|].
    set (s4 := with_files _ s3). set (f4 := with_f_flags _ (with_f_attr fa f2)) in *. assert (Hf4 : files s4 !! l = Some f4) by apply lookup_insert_eq.
    assert (Hgen : forall a, (forall b, good (v_path x) va b -> good (v_path x) a b) -> forall g, f_magic g = f_magic f1 -> f_ref g = f_ref f1 -> f_vnode g = f_vnode f1 -> good (v_path x) a (f_attr g) ->
      ok ∅ ∅ (with_files (<[l := g]> (files s1)) (with_vnodes (<[v := with_v_attr a x]> (vnodes s1)) (with_world w s1)))).
    { intros a Ha g Hg1 Hg2 Hg3 Hg4. destruct Hothers as [H1|H1]; [|by eapply (ok_attrs {[l]} l f1 g v x (with_v_attr a x)); eauto].
      destruct Hok1 as [Hc Hg Hv Ht Hm Hw]. split; try done; cbn.
      - eapply core_vnode; [|exact Hx|done..]. by eapply core_file; [exact Hc|exact Hf1|..].
      - intros k q z y [[<- <-]|[Hn Hk]]%lookup_update _ Hz.
        + rewrite Hg3, Hfv1 in Hz. injection Hz as <-. rewrite lookup_insert_eq. by intros [= <-].
        + intros [[<- <-]|[_ Hy]]%lookup_update; [|apply (Hg k q z); [done|set_solver|done|done]].
          destruct (c_vnode _ _ _ _ _ _ Hc v x Hx) as (E & _). rewrite H1 in E. pose proof (mcount_two (fun f => f_vnode f = Some v) (files s1) l k f1 q Hf1 Hk Hfv1 Hz Hn) as H2.
          unfold users in E. lia.
      - intros z y [[<- <-]|[_ Hy]]%lookup_update; [exact (Hv v x Hx)|eauto]. }
    destruct (Z.eqb_spec (Z.land flags O_DIRECTORY) 0) as [Hd|Hd]; cbn [negb].
    + apply wp_ret. split; [done|]. split; [cbn; congruence|]. split; [exists f4; split; [done|]; split; [done|]; split; [lia|]; intros _; exists v; eexists; split; [done|]; split; [exact Hx3|]; by split|]. right. split; [done|].
      specialize (Hgen va (fun b H => H) f4 eq_refl eq_refl eq_refl (good_flags _ _ _ _ Hgood)). subst s4 s3 s2. unfold after_call in *. cbn [files with_files vnodes with_vnodes with_world] in *.
      rewrite !insert_insert_eq. exact Hgen.
    + apply wp_bind. eapply wp_get_file; [exact Hf4|]. apply wp_bind. eapply wp_deref; [exact Hfv1|]. apply wp_bind. eapply wp_get_vnode; [exact Hx3|]. apply wp_bind, wp_modify, wp_bind.
      eapply wp_set_flags; [exact Hf4|]. apply wp_ret. split; [done|]. split; [cbn; congruence|]. split; [eexists; split; [apply lookup_insert_eq|]; split; [done|]; split; [lia|]; intros _; exists v; eexists; split; [done|]; split; [apply lookup_insert_eq|]; by split|]. right. split; [done|].
      assert (Hdir := fun b => good_directory (v_path x) va b flags Hflags Hd). set (f5 := with_f_flags _ f4).
      specialize (Hgen _ Hdir f5 eq_refl eq_refl eq_refl (good_flags _ _ _ _ (good_flags _ _ _ _ (Hdir _ Hgood)))). subst s4 s3 s2. unfold after_call in *. cbn [files with_files vnodes with_vnodes with_world] in *.
      rewrite !insert_insert_eq. exact Hgen.
Qed.
End file_props.
