(* ===== verification/DfsCalls.v ===== *)
(** * The virtual file system: every call of an application keeps the invariant *)
From Stdlib Require Import Ascii String.
From S2P Require Import Prelude KStdio DfsPath DfsPathProps Dfs DfsFs DfsFile DfsPosix DfsInv DfsLaws DfsFdProps DfsFsProps DfsFileProps.

Section calls.
Context {D W : Type} {FP : FileParams D} {FL : FileLaws D}.
Implicit Types s : dfs D W.
(** What every operation leaves: the invariant, the environment and the slots. *)
Definition kept s s' : Prop := ok ∅ ∅ s' /\ same_env s s' /\ fds s' = fds s.
Lemma kept_trans s1 s2 s3 : kept s1 s2 -> kept s2 s3 -> kept s1 s3.
Proof. intros (_ & E1 & F1) (? & E2 & F2). split; [done|]. split; [by transitivity s2|congruence]. Qed.
Lemma file_vnode s l : ok ∅ ∅ s -> is_Some (files s !! l) -> exists f v x, files s !! l = Some f /\ f_vnode f = Some v /\ vnodes s !! v = Some x /\
  0 < v_ref x /\ good (v_path x) (v_attr x) (f_attr f) /\ lawful (v_fops x).
Proof.
  intros [Hc Hg Hv _ _ _] [f Hf]. destruct (f_vnode f) as [v|] eqn:Ev.
  - assert (Hu : (0 < users v (files s))%nat) by (by apply (mcount_pos _ _ l f)). destruct (c_user _ _ _ _ _ _ Hc v Hu) as [x Hx]. exists f, v, x.
    destruct (c_vnode _ _ _ _ _ _ Hc v x Hx) as (-> & _ & _). split; [done|]. split; [done|]. split; [done|]. split; [lia|]. split; [by apply (Hg l f v x)|apply (Hv v x Hx)].
  - apply (c_pend _ _ _ _ _ _ Hc l f Hf) in Ev. set_solver.
Qed.
Lemma total_call {A B} (op : fop D W A B) pre l f v x arg (Q : Z * B -> dfs D W -> Prop) s : ok ∅ ∅ s -> files s !! l = Some f -> f_vnode f = Some v -> vnodes s !! v = Some x ->
  total op pre -> pre arg (v_attr x) -> 0 < v_ref x ->
  (forall r b va fa w, keeps_good (v_path x) (v_attr x) va fa -> kept s (after_call l f v x va fa w s) -> op (view_of (filesystem_table s) x) arg (v_attr x) (f_attr f) (world s) = Some (r, b, va, fa, w) ->
    Q (r, b) (after_call l f v x va fa w s)) -> wp (call_fop op l arg) Q s.
Proof.
  intros Hok Hf Hv Hx Ht Hp Hr HQ. destruct (Ht (view_of (filesystem_table s) x) arg (v_attr x) (f_attr f) (world s) Hr (ok_good _ _ _ Hok l f v x Hf ltac:(set_solver) Hv Hx) Hp) as (r & b & va & fa & w & E & Hk).
  eapply wp_call_fop; [done..|]. apply HQ; [done| |done]. split; [|by split]. destruct Hk. by eapply (ok_attrs ∅ l f (with_f_attr fa f) v x (with_v_attr va x)).
Qed.
(** Changing the flags of a file. *)
Lemma set_flags_kept s s' l g f v x : kept s s' -> files s' !! l = Some f -> f_vnode f = Some v -> vnodes s' !! v = Some x ->
  wp (set_flags l g) (fun _ s'' => kept s s'') s'.
Proof.
  intros (Hok & E & F) Hf Hv Hx. eapply wp_set_flags; [done|]. split; [|done].
  assert (Hg := ok_good _ _ _ Hok l f v x Hf ltac:(set_solver) Hv Hx).
  assert (H := ok_attrs ∅ l f (with_f_flags (g (f_flags (f_attr f))) f) v x x s' (with_files (<[l := with_f_flags (g (f_flags (f_attr f))) f]> (files s')) s') Hok ltac:(set_solver) Hf Hv Hx).
  cbn in H. rewrite (insert_id (vnodes s') v x) in H by done. apply H; try done; by apply good_flags.
Qed.

(** ** Closing *)
Lemma dfs_file_close_spec l f s : ok ∅ ∅ s -> files s !! l = Some f ->
  wp (dfs_file_close (Some l)) (fun r s' => 0 <= r /\ same_env s s' /\ fds s' = fds s /\ exists X f', ok X ∅ s' /\ files s' !! l = Some f' /\ releasable X s' l f') s.
Proof.
  intros Hok Hf. apply wp_bind. eapply wp_get_file; [exact Hf|]. destruct (Z.eqb_spec (f_ref f) 1) as [E1|E1].
  2:{ apply wp_ret. split; [lia|]. split; [done|]. split; [done|]. exists ∅, f. split; [done|]. split; [done|]. unfold releasable. by rewrite decide_False. }
  destruct (file_vnode s l Hok (mk_is_Some _ _ Hf)) as (f0 & v & x & Hf0 & Hv & Hx & Hr & Hg & Hlaw). assert (f0 = f) as -> by congruence.
  apply wp_bind. eapply wp_deref; [exact Hv|]. apply wp_bind. eapply wp_get_vnode; [exact Hx|]. destruct (Z.leb_spec (v_ref x) 0); [lia|]. apply wp_bind.
  assert (Hcall : forall Q : Z -> dfs D W -> Prop, (forall r s' f' x', 0 <= r -> files s' = <[l := f']> (files s) -> vnodes s' = <[v := x']> (vnodes s) -> head s' = head s -> brk s' = brk s -> mem s' = mem s ->
      same_env s s' -> fds s' = fds s -> (1 < v_ref x -> ok ∅ ∅ s') -> f_magic f' = f_magic f -> f_ref f' = f_ref f -> f_vnode f' = f_vnode f -> v_ref x' = v_ref x -> v_fullpath x' = v_fullpath x -> Q r s') ->
    wp (match fop_close (v_fops x) with Some op => '(r, _) ← call_fop op l tt; mret r | None => mret 0 end) Q s).
  { intros Q HQ. destruct (fop_close (v_fops x)) as [op|] eqn:Eop.
    - destruct (law_close _ Hlaw op (view_of (filesystem_table s) x) (v_attr x) (f_attr f) (world s) Eop Hr Hg) as (r & va & fa & w & Ec & Hr0 & Hk).
      apply wp_bind. eapply wp_call_fop; [done..|]. apply wp_ret. eapply (HQ _ _ (with_f_attr fa f) (with_v_attr va x)); try done. intros H1. destruct (Hk H1).
      by eapply (ok_attrs ∅ l f (with_f_attr fa f) v x (with_v_attr va x)).
    - apply wp_ret. apply (HQ 0 s f x); try done; by rewrite insert_id. }
  apply Hcall. clear Hcall. intros r s' f' x' Hr0 Ef Ev Eh Eb Em Henv Efd Hk G1 G2 G3 G4 G5. apply wp_bind.
  assert (Hf' : files s' !! l = Some f') by (by rewrite Ef, lookup_insert_eq). assert (Hx' : vnodes s' !! v = Some x') by (by rewrite Ev, lookup_insert_eq).
  destruct (Z.eqb_spec (v_ref x) 1) as [E2|E2].
  - apply wp_bind, wp_modify, wp_bind. eapply wp_get_file; [exact Hf'|]. apply wp_bind, wp_modify. eapply wp_free_vnode; [exact Hx'|]. apply wp_ret.
    split; [done|]. split; [done|]. split; [done|]. destruct Hok as [Hc Hg0 Hv0 Ht Hm Hw].
    assert (Hc' : core ∅ (fds s') (files s') (vnodes s') (head s') (brk s')).
    { rewrite Efd, Ef, Ev, Eh, Eb. eapply core_vnode; [|done..]. by eapply core_file. }
    pose proof (core_detach_last ∅ _ _ _ _ _ l f' (with_f_vnode None f') v x' Hc' Hf' ltac:(by rewrite G3) Hx' eq_refl eq_refl eq_refl ltac:(by rewrite G4)) as Hd. rewrite union_empty_r_L in Hd.
    exists {[l]}, (with_f_vnode None f'). split; [|split; [apply lookup_insert_eq|]].
    + destruct Henv as (En1 & En2 & En3). split; cbn; [done| | |by rewrite En1|by rewrite Em|by rewrite En3].
      * rewrite Ef, Ev, delete_insert_eq. intros k q z y [[<- <-]|[Hn Hk']]%lookup_update _ Hz; [done|]. rewrite lookup_insert_ne in Hk' by done.
        intros [Hn' Hy]%lookup_delete_Some. by apply (Hg0 k q z).
      * rewrite Ev, delete_insert_eq. intros z y [Hn' Hy]%lookup_delete_Some. rewrite En1. by apply (Hv0 z y).
    + unfold releasable. cbn. rewrite decide_True by congruence. by left.
  - apply wp_ret, wp_ret. split; [done|]. split; [done|]. split; [done|]. exists ∅, f'. split; [apply Hk; lia|]. split; [done|]. unfold releasable. rewrite decide_True by congruence.
    right. split; [done|]. exists v, x'. rewrite G3, G4. split; [done|]. split; [done|lia].
Qed.

(** ** Transfers *)
Ltac start Hok Hl f v x Hf Hv Hx Hr Hg Hlaw :=
  destruct (file_vnode _ _ Hok Hl) as (f & v & x & Hf & Hv & Hx & Hr & Hg & Hlaw); apply wp_bind; eapply wp_vnode_of; [exact Hf|exact Hv|exact Hx|].
Lemma dfs_file_read_spec l len s : ok ∅ ∅ s -> 0 <= len -> is_Some (files s !! l) -> wp (dfs_file_read (Some l) len) (fun _ s' => kept s s') s.
Proof.
  intros Hok Hlen Hl. start Hok Hl f v x Hf Hv Hx Hr Hg Hlaw. destruct (fop_read (v_fops x)) as [op|] eqn:E; [|by apply wp_ret]. apply wp_bind.
  eapply total_call; [done..|exact (law_read _ Hlaw op E)|done|done|]. intros r b va fa w _ Hk _. apply wp_bind. destruct (r <? 0); [|by apply wp_ret].
  eapply wp_mono; [eapply set_flags_kept; [exact Hk|apply lookup_insert_eq|exact Hv|apply lookup_insert_eq]|]. intros [] s' H. by apply wp_ret.
Qed.
Lemma dfs_file_write_spec l buf s : ok ∅ ∅ s -> is_Some (files s !! l) -> wp (dfs_file_write (Some l) buf) (fun _ s' => kept s s') s.
Proof.
  intros Hok Hl. start Hok Hl f v x Hf Hv Hx Hr Hg Hlaw. destruct (fop_write (v_fops x)) as [op|] eqn:E; [|by apply wp_ret]. apply wp_bind.
  eapply total_call; [done..|exact (law_write _ Hlaw op E)|done|done|]. intros r b va fa w _ Hk _. by apply wp_ret.
Qed.
Lemma dfs_file_flush_spec l s : ok ∅ ∅ s -> is_Some (files s !! l) -> wp (dfs_file_flush (Some l)) (fun _ s' => kept s s') s.
Proof.
  intros Hok Hl. start Hok Hl f v x Hf Hv Hx Hr Hg Hlaw. destruct (fop_flush (v_fops x)) as [op|] eqn:E; [|by apply wp_ret]. apply wp_bind.
  eapply total_call; [done..|exact (law_flush _ Hlaw op E)|done|done|]. intros r b va fa w _ Hk _. by apply wp_ret.
Qed.
Lemma dfs_file_getdents_spec l n s : ok ∅ ∅ s -> is_Some (files s !! l) -> wp (dfs_file_getdents (Some l) n) (fun _ s' => kept s s') s.
Proof.
  intros Hok Hl. start Hok Hl f v x Hf Hv Hx Hr Hg Hlaw. destruct (Z.eqb_spec (v_type (v_attr x)) FT_DIRECTORY); cbn [negb]; [|by apply wp_ret].
  destruct (fop_getdents (v_fops x)) as [op|] eqn:E; [|by apply wp_ret].
  eapply total_call; [done..|exact (law_getdents _ Hlaw op E)|done|done|]. intros r b va fa w _ Hk _. done.
Qed.
Lemma dfs_file_ioctl_spec l cmd args s : ok ∅ ∅ s -> is_Some (files s !! l) -> wp (dfs_file_ioctl (Some l) cmd args) (fun _ s' => kept s s') s.
Proof.
  intros Hok Hl. start Hok Hl f v x Hf Hv Hx Hr Hg Hlaw. cbn zeta. destruct (_ && (cmd =? F_GETFL)); [by apply wp_bind, (wp_get_file l f)|].
  destruct (_ && (cmd =? F_SETFL)).
  - apply wp_bind. eapply wp_mono; [by eapply set_flags_kept|]. intros [] s' H. by apply wp_ret.
  - destruct (fop_ioctl (v_fops x)) as [op|] eqn:E; [|by apply wp_ret].
    eapply total_call; [done..|exact (law_ioctl _ Hlaw op E)|done|done|]. intros r b va fa w _ Hk _. done.
Qed.
Lemma dfs_file_lseek_spec l off s : ok ∅ ∅ s -> - 2 ^ 31 <= off < 2 ^ 31 -> is_Some (files s !! l) -> wp (dfs_file_lseek (Some l) off) (fun _ s' => kept s s') s.
Proof.
  intros Hok Hoff Hl. start Hok Hl f v x Hf Hv Hx Hr Hg Hlaw. destruct (fop_lseek (v_fops x)) as [op|] eqn:E; [|by apply wp_ret]. apply wp_bind.
  destruct (law_lseek _ Hlaw op (view_of (filesystem_table s) x) off (v_attr x) (f_attr f) (world s) E Hr Hoff Hg) as (r & va & fa & w & Ec & [K1 K2] & Hpos).
  eapply wp_call_fop; [done..|]. apply wp_bind. destruct (Z.leb_spec 0 r) as [Hr0|Hr0].
  - apply wp_bind. eapply wp_get_file; [apply lookup_insert_eq|]. apply wp_modify, wp_ret. split; [|done].
    eapply (ok_attrs ∅ l f (with_f_pos r (with_f_attr fa f)) v x (with_v_attr va x) s); try done; [cbn; by rewrite insert_insert_eq|]. by apply Hpos.
  - apply wp_ret, wp_ret. split; [|done]. by eapply (ok_attrs ∅ l f (with_f_attr fa f) v x (with_v_attr va x)).
Qed.
End calls.
