(* ===== verification/DfsProps.v ===== *)
(** * The virtual file system: properties of the calls

    [open], [close], [dup] and [dup2] on the table of descriptors, and the safety
    of every sequence of calls for file systems that keep their promises. *)
From Stdlib Require Import Ascii String.
From S2P Require Import Prelude KStdio DfsPath DfsPathProps KStdioProps Dfs DfsFs DfsFile DfsPosix DfsInv DfsLaws DfsFdProps DfsFsProps DfsFileProps DfsCalls.

Section props.
Context {D W : Type} {FP : FileParams D} {FL : FileLaws D}.
Implicit Types s : dfs D W.

Lemma ok_fail {A} X Y e (a : A) (Q : A -> dfs D W -> Prop) s : ok X Y s -> (ok X Y (with_errno e s) -> Q a (with_errno e s)) -> wp (fail_with e a) Q s.
Proof. intros Hok HQ. apply wp_bind, wp_modify, wp_ret, HQ. by apply ok_errno. Qed.
Lemma slot_at_nth s i l : slot_at s i = Some l -> fds s !! i = Some (Some l).
Proof. unfold slot_at. destruct (fds s !! i) as [o|]; cbn; congruence. Qed.
Lemma slot_live s i l : ok ∅ ∅ s -> slot_at s i = Some l -> is_Some (files s !! l).
Proof. intros Hok Hs%slot_at_nth. apply (c_slot _ _ _ _ _ _ (ok_core _ _ _ Hok)). by eapply scount_in. Qed.
(** After a release the slot is free and the others are as before. *)
Lemma release_slots s s' n : fds s' = <[n := None]> (fds s) -> (n < length (fds s))%nat -> forall i, slot_at s' i = if decide (i = n) then None else slot_at s i.
Proof. intros E Hn i. unfold slot_at. rewrite E. by apply slot_at_set. Qed.

Definition same_slots s s' : Prop := forall i, slot_at s' i = slot_at s i.
Lemma same_slots_fds s s' : fds s' = fds s -> same_slots s s'.
Proof. intros E i. unfold slot_at. by rewrite E. Qed.

(** A file is open on the vnode of a full path, at a position. *)
Definition refers s (l : loc) (full : list Z) (pos : Z) : Prop :=
  exists f v x, files s !! l = Some f /\ f_vnode f = Some v /\ vnodes s !! v = Some x /\ v_fullpath x = full /\ f_pos (f_attr f) = pos.
Definition opened s s' (l : loc) (path : list Z) : Prop :=
  exists full, dfs_normalize_path (working_directory s) true None path = Some (Some full) /\ refers s' l full 0.
(** No descriptor is free; no file system can open the path. *)
Definition slots_full s : Prop := forall j, DFS_STDIO_OFFSET <= j < DFS_FD_MAX -> is_Some (slot_at s (Z.to_nat j)).
Definition absent s (path : list Z) : Prop :=
  forall full, dfs_normalize_path (working_directory s) true None path = Some (Some full) -> ~ present_at (filesystem_table s) full.
(** Opening with given flags, then what is done with the new file or the failure. *)
Lemma open_with_spec {A} path flags (fail : Z -> M D W A) (k : Z -> option loc -> M D W A) (nofd : M D W A) (Q : A -> dfs D W -> Prop) s :
  ok ∅ ∅ s -> open_ok (working_directory s) (filesystem_table s) path flags ->
  (forall s', ok ∅ ∅ s' -> same_env s s' -> same_slots s s' -> slots_full s -> wp nofd Q s') ->
  (forall r s', r < 0 -> ok ∅ ∅ s' -> same_env s s' -> same_slots s s' -> absent s path -> wp (fail r) Q s') ->
  (forall fd l s', ok ∅ ∅ s' -> same_env s s' -> DFS_STDIO_OFFSET <= fd < DFS_FD_MAX -> (forall j, DFS_STDIO_OFFSET <= j < fd -> is_Some (slot_at s (Z.to_nat j))) -> slot_at s (Z.to_nat fd) = None ->
     (forall i, slot_at s' i = if decide (i = Z.to_nat fd) then Some l else slot_at s i) -> opened s s' l path -> wp (k fd (Some l)) Q s') ->
  wp (fd ← fd_new; if fd <? 0 then nofd else d ← fd_get fd; result ← dfs_file_open d path flags; if result <? 0 then _ ← fd_release fd; fail result else k fd d) Q s.
Proof.
  intros Hok Hopen Hnofd Hfail Hk. apply wp_bind. eapply wp_mono; [by apply fd_new_spec|]. intros fd s1 (Henv & H).
  destruct H as [(-> & Hok1 & Hs1 & Hall)|(Hfd & Hlow & Hfree & l & Hs1 & Hl & Hok1 & f & Hf & Hr1)]; [apply Hnofd; try done; intros j Hj; destruct (Hall j Hj) as [l Hl]; unfold slot_at; rewrite Hl; by eexists|].
  destruct (Z.ltb_spec fd 0); [unfold DFS_STDIO_OFFSET in *; lia|]. apply wp_bind. eapply wp_mono; [by eapply fd_get_spec|]. intros d s1' (-> & Hd).
  destruct d as [l'|]; [|exfalso; pose proof (lookup_maxfd _ _ _ Hl); rewrite Z2Nat.id in * by lia; destruct Hd as [?|[?|?]]; [lia|lia|congruence]].
  destruct Hd as (_ & Hl' & _). assert (l' = l) as -> by congruence. apply wp_bind. pose proof Henv as (En1 & En2 & En3).
  eapply wp_mono; [apply (dfs_file_open_spec l f); [done|done|by rewrite En1, En3]|]. intros r s2 (Henv2 & Hfds & (f' & Hf' & Hr' & Hnone & Hfull) & Hres).
  assert (Henv' : same_env s s2) by (by transitivity s1).
  destruct Hres as [(Hr & Hok2 & Hno)|[-> Hok2]].
  - destruct (Z.ltb_spec r 0); [|lia]. apply wp_bind. eapply wp_mono; [apply (fd_release_spec {[l]} fd l f'); [done|lia|by rewrite Hfds|done|]|].
    { unfold releasable. rewrite Hr', Hr1, decide_True by done. left. split; [done|by apply Hnone]. }
    intros [] s3 (Hok3 & Henv3 & Hfds3). apply Hfail; [done|done|by transitivity s2| |intros full Efull; rewrite <- En1; apply Hno; by rewrite En3]. intros i. rewrite (release_slots s2 s3 (Z.to_nat fd)); [|done|rewrite Hfds; by eapply lookup_lt_Some].
    destruct decide as [->|Hn]; [done|]. rewrite (same_slots_fds s1 s2 Hfds i), Hs1. by rewrite decide_False.
  - change (0 <? 0) with false. cbv iota. apply Hk; [done|done|done| |done| |].
    + intros j Hj. destruct (Hlow j Hj) as [k0 Hk0]. unfold slot_at. rewrite Hk0. by eexists.
    + intros i. by rewrite (same_slots_fds s1 s2 Hfds i).
    + destruct (Hfull ltac:(lia)) as (v & x & Hv & Hx & Ex & Hp). exists (v_fullpath x). rewrite <- En3. split; [done|]. exists f', v, x. done.
Qed.
Definition open_result s path (fd : Z) s' : Prop :=
  ok ∅ ∅ s' /\ same_env s s' /\
    (fd = -1 /\ same_slots s s' /\ (slots_full s \/ absent s path) \/
     DFS_STDIO_OFFSET <= fd < DFS_FD_MAX /\ (forall j, DFS_STDIO_OFFSET <= j < fd -> is_Some (slot_at s (Z.to_nat j))) /\ slot_at s (Z.to_nat fd) = None /\
     exists l, opened s s' l path /\ forall i, slot_at s' i = if decide (i = Z.to_nat fd) then Some l else slot_at s i).
Lemma open_wp path flags s : ok ∅ ∅ s -> open_ok (working_directory s) (filesystem_table s) path flags -> wp (open path flags) (open_result s path) s.
Proof.
  intros Hok Hopen. apply (open_with_spec path flags (fun r => fail_with r (-1)) (fun fd _ => mret fd)); [done|done| | |].
  - intros s' H1 H2 H3 H4. eapply ok_fail; [done|]. unfold open_result. auto 7.
  - intros r s' _ H1 H2 H3 H4. eapply ok_fail; [done|]. unfold open_result. auto 7.
  - intros fd l s' H1 H2 H3 H4 H5 H6 H7. apply wp_ret. split; [done|]. split; [done|]. right. eauto 8.
Qed.

(** ** Closing *)
Lemma close_file_spec fd l (k : Z -> M D W Z) (Q : Z -> dfs D W -> Prop) s : ok ∅ ∅ s -> 0 <= fd -> slot_at s (Z.to_nat fd) = Some l ->
  (forall r s', ok ∅ ∅ s' -> same_env s s' -> 0 <= r -> (forall i, slot_at s' i = if decide (i = Z.to_nat fd) then None else slot_at s i) -> wp (k r) Q s') ->
  wp (result ← dfs_file_close (Some l); _ ← fd_release fd; k result) Q s.
Proof.
  intros Hok Hfd Hs Hk. destruct (slot_live s _ l Hok Hs) as [f Hf]. apply slot_at_nth in Hs. apply wp_bind. eapply wp_mono; [by apply (dfs_file_close_spec l f)|].
  intros r s1 (Hr & Henv & Hfds & X & f' & Hok1 & Hf' & Hrel). apply wp_bind. eapply wp_mono; [apply (fd_release_spec X fd l f'); [done|done|by rewrite Hfds|done|done]|].
  intros [] s2 (Hok2 & Henv2 & Hfds2). apply Hk; [done|by transitivity s1|done|]. intros i.
  rewrite (release_slots s1 s2 (Z.to_nat fd)); [|done|rewrite Hfds; by eapply lookup_lt_Some]. destruct decide; [done|]. by apply same_slots_fds.
Qed.
Lemma close_wp fd s : ok ∅ ∅ s -> wp (close fd) (fun r s' => ok ∅ ∅ s' /\ same_env s s' /\
    (0 <= fd /\ is_Some (slot_at s (Z.to_nat fd)) /\ r = 0 /\ (forall i, slot_at s' i = if decide (i = Z.to_nat fd) then None else slot_at s i) \/
     (fd < 0 \/ slot_at s (Z.to_nat fd) = None) /\ r = -1 /\ errno s' = - EBADF /\ same_slots s s')) s.
Proof.
  intros Hok. apply wp_bind. eapply wp_mono; [by eapply fd_get_spec|]. intros d s1 (-> & Hd). destruct d as [l|].
  - destruct Hd as (Hfd & Hl & _). assert (Hs : slot_at s (Z.to_nat fd) = Some l) by (unfold slot_at; by rewrite Hl).
    apply (close_file_spec fd l (fun result => if result <? 0 then fail_with result (-1) else mret 0)); [done|done|done|].
    intros r s' H1 H2 H3 H4. destruct (Z.ltb_spec r 0); [lia|]. apply wp_ret. split; [done|]. split; [done|]. left. split; [done|]. split; [by eexists|]. done.
  - eapply ok_fail; [done|]. intros Hok'. split; [done|]. split; [done|]. right. split; [|done].
    destruct Hd as [?|[?|Hd]]; [by left| |]; right; unfold slot_at; [|by rewrite Hd]. rewrite lookup_ge_None_2; [done|]. unfold maxfd in *. lia.
Qed.

(** ** Duplicates *)
Lemma share_spec fd l s : ok ∅ ∅ s -> fds s !! Z.to_nat fd = Some None -> is_Some (files s !! l) ->
  wp (_ ← set_slot fd (Some l); f ← get_file l; _ ← put_file l (with_f_ref (f_ref f + 1) f); mret fd)
    (fun r s' => r = fd /\ ok ∅ ∅ s' /\ same_env s s' /\ forall i, slot_at s' i = if decide (i = Z.to_nat fd) then Some l else slot_at s i) s.
Proof.
  intros Hok Hs [f Hf]. apply wp_bind, wp_modify, wp_bind. eapply wp_get_file; [exact Hf|]. apply wp_bind, wp_modify, wp_ret. split; [done|]. destruct Hok as [Hc Hg Hv Ht Hm Hw].
  split; [split; try done; cbn|].
  - by apply core_share.
  - apply (good_weaken ∅ ∅ (files s) _ (vnodes s)); [done| |by eauto]. intros k q v [[<- <-]|[_ Hk]]%lookup_update _ Hq; (split; [done|]); eauto.
  - split; [done|]. intros i. unfold slot_at at 1. cbn. rewrite slot_at_set; [done|]. by eapply lookup_lt_Some.
Qed.
(** A descriptor that is in range and in use. *)
Lemma slot_range s fd l : slot_at s (Z.to_nat fd) = Some l -> 0 <= fd -> ((fd <? 0) || (maxfd s <=? fd)) = false /\ slot s fd = Some l.
Proof.
  intros H%slot_at_nth Hfd. pose proof (lookup_maxfd _ _ _ H). rewrite Z2Nat.id in * by done. destruct (Z.ltb_spec fd 0); [lia|]. destruct (Z.leb_spec (maxfd s) fd); [lia|].
  split; [done|]. unfold slot. by rewrite H.
Qed.
(** Nothing is done. *)
Ltac unchanged := apply wp_ret; split; [done|]; split; [done|]; by left.
Lemma sys_dup_wp oldfd s : ok ∅ ∅ s -> wp (sys_dup oldfd) (fun r s' => ok ∅ ∅ s' /\ same_env s s' /\
    (r = -1 /\ same_slots s s' \/ exists l, 0 <= oldfd /\ slot_at s (Z.to_nat oldfd) = Some l /\ DFS_STDIO_OFFSET <= r < DFS_FD_MAX /\
      (forall j, DFS_STDIO_OFFSET <= j < r -> is_Some (slot_at s (Z.to_nat j))) /\ slot_at s (Z.to_nat r) = None /\
      forall i, slot_at s' i = if decide (i = Z.to_nat r) then Some l else slot_at s i)) s.
Proof.
  intros Hok. apply wp_bind, wp_gets. destruct ((oldfd <? 0) || (maxfd s <=? oldfd)) eqn:Er; [unchanged|]. apply orb_false_iff in Er as [Er1 Er2]. apply Z.ltb_ge in Er1. apply Z.leb_gt in Er2.
  apply wp_bind, wp_gets. destruct (slot s oldfd) as [l|] eqn:Es; [|unchanged]. assert (Hs : slot_at s (Z.to_nat oldfd) = Some l) by done.
  pose proof (slot_live s _ l Hok Hs) as Hl. apply wp_bind. eapply wp_mono; [apply (fd_slot_alloc_spec ∅ ∅); [done|unfold DFS_STDIO_OFFSET, DFS_FD_MAX; lia]|].
  intros r s' (G1 & G2 & G3 & Hr). pose proof (grown_ok _ _ _ _ Hok G1 G2) as Hok'. assert (G4 := fun i => grown_slot s s' i G1). assert (Henv := grown_env _ _ G1).
  destruct Hr as [-> |[Hr Hsl]]; [change (0 <=? -1) with false; unchanged|]. destruct (Z.leb_spec 0 r); [|unfold DFS_STDIO_OFFSET in *; lia].
  eapply wp_mono; [apply (share_spec r l); [done|done|destruct G1 as (? & ? & -> & _); done]|]. intros r' s2 (-> & Hok2 & Henv2 & Hs2). split; [done|]. split; [by transitivity s'|]. right. exists l. split; [done|]. split; [done|]. split; [lia|]. split; [|split].
  - intros j Hj. destruct (G3 j) as [k Hk]; [lia|lia|lia|]. unfold slot_at. rewrite Hk. by eexists.
  - rewrite <- G4. unfold slot_at. by rewrite Hsl.
  - intros i. by rewrite Hs2, G4.
Qed.
Lemma sys_dup2_wp oldfd newfd s : ok ∅ ∅ s -> wp (sys_dup2 oldfd newfd) (fun r s' => ok ∅ ∅ s' /\ same_env s s' /\
    (r = -1 /\ same_slots s s' \/ r = newfd /\ exists l, 0 <= oldfd /\ slot_at s (Z.to_nat oldfd) = Some l /\ 0 <= newfd < DFS_FD_MAX /\
      forall i, slot_at s' i = if decide (i = Z.to_nat newfd) then Some l else slot_at s i)) s.
Proof.
  intros Hok. apply wp_bind, wp_gets. destruct ((oldfd <? 0) || (maxfd s <=? oldfd)) eqn:Er; [unchanged|]. apply orb_false_iff in Er as [Er1 Er2]. apply Z.ltb_ge in Er1. apply Z.leb_gt in Er2.
  apply wp_bind, wp_gets. destruct (slot s oldfd) as [l|] eqn:Es; [|unchanged]. assert (Hs : slot_at s (Z.to_nat oldfd) = Some l) by done.
  destruct (Z.ltb_spec newfd 0) as [|Hnew]; [unchanged|]. apply wp_bind.
  apply (wp_mono _ (fun r s' => grown s s' /\ maxfd s' <= DFS_FD_MAX /\ (r = -1 \/ r = newfd /\ newfd < maxfd s'))).
  { destruct (maxfd s <=? newfd) eqn:E.
    - eapply wp_mono; [by apply (fd_slot_expand_spec ∅ ∅)|]. intros r s' (? & ? & [(? & ? & ?)|(? & ? & ?)]); auto.
    - apply Z.leb_gt in E. apply wp_ret. split; [apply grown_refl|]. split; [|auto]. pose proof (c_maxfd _ _ _ _ _ _ (ok_core _ _ _ Hok)). unfold maxfd, DFS_FD_MAX. lia. }
  intros r s' (G1 & G2 & Hr). pose proof (grown_ok _ _ _ _ Hok G1 G2) as Hok'. assert (G4 := fun i => grown_slot s s' i G1). assert (Henv := grown_env _ _ G1).
  destruct Hr as [-> |[-> Hr]]; [change (-1 <? 0) with true; unchanged|]. destruct (Z.ltb_spec newfd 0); [lia|]. apply wp_bind, wp_gets. rewrite <- G4 in Hs.
  assert (Hlt : (Z.to_nat newfd < length (fds s'))%nat) by (unfold maxfd in Hr; lia). rewrite G4 in Hs.
  change (slot s' newfd) with (slot_at s' (Z.to_nat newfd)). destruct (decide (slot_at s' (Z.to_nat newfd) = Some l)) as [E|E].
  { apply wp_ret. split; [done|]. split; [done|]. right. split; [done|]. exists l. split; [done|]. split; [done|]. split; [lia|]. intros i. destruct decide as [->|]; [done|apply G4]. }
  assert (Hdone : forall s2, ok ∅ ∅ s2 -> same_env s' s2 -> fds s2 !! Z.to_nat newfd = Some None -> (forall i, i <> Z.to_nat newfd -> slot_at s2 i = slot_at s' i) ->
    wp (_ ← set_slot newfd (Some l); f ← get_file l; _ ← put_file l (with_f_ref (f_ref f + 1) f); mret newfd) (fun r s' => ok ∅ ∅ s' /\ same_env s s' /\
    (r = -1 /\ same_slots s s' \/ r = newfd /\ exists l, 0 <= oldfd /\ slot_at s (Z.to_nat oldfd) = Some l /\ 0 <= newfd < DFS_FD_MAX /\
      forall i, slot_at s' i = if decide (i = Z.to_nat newfd) then Some l else slot_at s i)) s2).
  { intros s2 H1 H2 H3 H4. assert (Hold : slot_at s2 (Z.to_nat oldfd) = Some l) by (rewrite H4; [by rewrite G4|]; intros Heq; apply E; by rewrite <- Heq, G4).
    eapply wp_mono; [apply (share_spec newfd l); [done|done|by eapply slot_live]|]. intros r s3 (-> & Hok3 & Henv3 & Hs3). split; [done|]. split; [transitivity s'; [done|by transitivity s2]|].
    right. split; [done|]. exists l. split; [done|]. split; [done|]. split; [lia|]. intros i. rewrite Hs3. destruct decide; [done|]. by rewrite H4, G4. }
  destruct (slot_at s' (Z.to_nat newfd)) as [l2|] eqn:E2.
  - destruct (slot_live s' _ l2 Hok' E2) as [f2 Hf2]. apply slot_at_nth in E2. apply wp_bind. eapply wp_mono; [by apply (dfs_file_close_spec l2 f2)|].
    intros ret s1 (Hret & Henv1 & Hfds & X & f' & Hok1 & Hf' & Hrel). destruct (Z.ltb_spec ret 0); [lia|]. apply wp_bind.
    eapply wp_mono; [apply (fd_release_spec X newfd l2 f'); [done|done|by rewrite Hfds|done|done]|]. intros [] s2 (Hok2 & Henv2 & Hfds2).
    apply Hdone; [done|by transitivity s1|by rewrite Hfds2, Hfds, list_lookup_insert_eq|]. intros i Hi. rewrite (release_slots s1 s2 (Z.to_nat newfd)); [|done|by rewrite Hfds].
    rewrite decide_False by done. by apply same_slots_fds.
  - apply Hdone; [done|done| |done]. destruct (lookup_lt_is_Some_2 _ _ Hlt) as [o Ho]. unfold slot_at in E2. rewrite Ho in E2. cbn in E2. congruence.
Qed.

(** ** Sequences of calls *)
Inductive call :=
  | COpen (path : list Z) (flags : Z)
  | CClose (fd : Z)
  | CDup (oldfd : Z)
  | CDup2 (oldfd newfd : Z)
  | CRead (fd len : Z)
  | CWrite (fd : Z) (buf : list Z)
  | CLseek (fd offset whence : Z)
  | CFcntl (fd cmd arg : Z)
  | CFsync (fd : Z).
Definition run_call (c : call) : M D W Z :=
  match c with
  | COpen path flags => open path flags
  | CClose fd => close fd
  | CDup oldfd => sys_dup oldfd
  | CDup2 oldfd newfd => sys_dup2 oldfd newfd
  | CRead fd len => '(r, _) ← read fd len; mret r
  | CWrite fd buf => write fd buf
  | CLseek fd offset whence => lseek fd offset whence
  | CFcntl fd cmd arg => '(r, _) ← fcntl fd cmd arg; mret r
  | CFsync fd => fsync fd
  end.
Fixpoint run_calls (l : list call) : M D W (list Z) :=
  match l with
  | [] => mret []
  | c :: l => r ← run_call c; rs ← run_calls l; mret (r :: rs)
  end.
(** The files opened are those the file systems are made for; lengths and offsets
    are of their types. *)
Definition call_ok (wd : list Z) (t : list (dfs_filesystem D W)) (c : call) : Prop :=
  match c with
  | COpen path flags => open_ok wd t path flags
  | CRead _ len => 0 <= len
  | CLseek _ offset _ => - 2 ^ 31 <= offset < 2 ^ 31
  | _ => True
  end.

Definition safe {A} (m : M D W A) s : Prop := wp m (fun _ s' => ok ∅ ∅ s' /\ same_env s s') s.
Lemma on_file_safe {A} fd e (a : A) (k : option loc -> loc -> M D W A) s : ok ∅ ∅ s -> (forall l, is_Some (files s !! l) -> safe (k (Some l) l) s) ->
  safe (d ← fd_get fd; match d with None => fail_with e a | Some l => k d l end) s.
Proof.
  intros Hok Hk. apply wp_bind. eapply wp_mono; [by eapply fd_get_spec|]. intros [l|] s' (-> & H); [apply Hk, H|]. by eapply ok_fail.
Qed.
Lemma kept_safe {A B} (m : M D W A) (k : A -> M D W B) s : wp m (fun _ s' => kept s s') s -> (forall a s', ok ∅ ∅ s' -> safe (k a) s') -> safe (m ≫= k) s.
Proof.
  intros Hm Hk. apply wp_bind. eapply wp_mono; [exact Hm|]. intros a s' (Hok & Henv & _). eapply wp_mono; [by apply Hk|]. intros b s'' (? & ?). split; [done|by transitivity s'].
Qed.
Lemma safe_ret {A} (a : A) s : ok ∅ ∅ s -> safe (mret a) s.
Proof. by intros Hok. Qed.
Lemma safe_fail {A} e (a : A) s : ok ∅ ∅ s -> safe (fail_with e a) s.
Proof. intros Hok. by eapply ok_fail. Qed.
Lemma safe_result r s : ok ∅ ∅ s -> safe (posix_result r) s.
Proof. intros Hok. unfold posix_result. destruct (r <? 0); [by apply safe_fail|by apply safe_ret]. Qed.
Lemma safe_bind {A B} (m : M D W A) (k : A -> M D W B) s : safe m s -> (forall a s', ok ∅ ∅ s' -> safe (k a) s') -> safe (m ≫= k) s.
Proof. intros Hm Hk. apply wp_bind. eapply wp_mono; [exact Hm|]. intros a s' (Hok & Henv). eapply wp_mono; [by apply Hk|]. intros b s'' (? & ?). split; [done|by transitivity s']. Qed.

Lemma read_safe fd len s : ok ∅ ∅ s -> 0 <= len -> safe (read fd len) s.
Proof.
  intros Hok Hlen. apply (on_file_safe fd _ _ (fun d _ => '(result, buf) ← dfs_file_read d len; r ← posix_result result; mret (r, buf))); [done|]. intros l Hl.
  apply kept_safe; [by apply dfs_file_read_spec|]. intros [r b] s' Hok'. apply safe_bind; [by apply safe_result|]. intros r' s'' Hok''. by apply safe_ret.
Qed.
Lemma write_safe fd buf s : ok ∅ ∅ s -> safe (write fd buf) s.
Proof.
  intros Hok. apply (on_file_safe fd _ _ (fun d _ => result ← dfs_file_write d buf; posix_result result)); [done|]. intros l Hl.
  apply kept_safe; [by apply dfs_file_write_spec|]. intros r s' Hok'. by apply safe_result.
Qed.
Lemma fsync_safe fd s : ok ∅ ∅ s -> safe (fsync fd) s.
Proof.
  intros Hok. apply (on_file_safe fd _ _ (fun d _ => dfs_file_flush d)); [done|]. intros l Hl. eapply wp_mono; [by apply dfs_file_flush_spec|]. by intros r s' (? & ? & _).
Qed.
Lemma fcntl_safe fd cmd arg s : ok ∅ ∅ s -> safe (fcntl fd cmd arg) s.
Proof.
  intros Hok. apply wp_bind. eapply wp_mono; [by eapply fd_get_spec|]. intros d s' (-> & Hd).
  apply (safe_bind (match d with Some _ => dfs_file_ioctl d cmd arg | None => mret (- EBADF, None) end) (fun '(ret, out) => if ret <? 0 then fail_with ret (-1, out) else mret (ret, out))).
  - destruct d as [l|]; [|by apply safe_ret]. eapply wp_mono; [apply dfs_file_ioctl_spec; [done|apply Hd]|]. by intros r s' (? & ? & _).
  - intros [r o] s' Hok'. destruct (r <? 0); [by apply safe_fail|by apply safe_ret].
Qed.
Lemma lseek_safe fd offset whence s : ok ∅ ∅ s -> - 2 ^ 31 <= offset < 2 ^ 31 -> safe (lseek fd offset whence) s.
Proof.
  intros Hok Hoff. set (go := fun (d : option loc) offset => if offset <? 0 then fail_with (- EINVAL) (-1) else
    result ← dfs_file_lseek d offset; if result <? 0 then fail_with result (-1) else mret offset : M D W Z).
  apply (on_file_safe fd _ _ (fun d l => f ← get_file l; if whence =? SEEK_SET then go d offset else if whence =? SEEK_CUR then go d (i32 (offset + f_pos (f_attr f)))
    else if whence =? SEEK_END then x ← vnode_of l; go d (i32 (offset + v_size (v_attr x))) else fail_with (- EINVAL) (-1))); [done|]. intros l Hl.
  destruct (file_vnode s l Hok Hl) as (f & v & x & Hf & Hv & Hx & _). apply wp_bind. eapply wp_get_file; [exact Hf|].
  assert (Hgo : forall o, - 2 ^ 31 <= o < 2 ^ 31 -> safe (go (Some l) o) s).
  { intros o Ho. unfold go. destruct (o <? 0); [by apply safe_fail|]. apply kept_safe; [by apply dfs_file_lseek_spec|]. intros r s' Hok'. destruct (r <? 0); [by apply safe_fail|by apply safe_ret]. }
  destruct (whence =? SEEK_SET); [by apply Hgo|]. destruct (whence =? SEEK_CUR); [apply Hgo, i32_range|]. destruct (whence =? SEEK_END); [|by apply safe_fail].
  apply wp_bind. eapply wp_vnode_of; [exact Hf|exact Hv|exact Hx|]. apply Hgo, i32_range.
Qed.
Lemma call_safe c s : ok ∅ ∅ s -> call_ok (working_directory s) (filesystem_table s) c -> safe (run_call c) s.
Proof.
  intros Hok Hc. destruct c as [path flags|fd|fd|a b|fd n|fd buf|fd off wh|fd cmd arg|fd]; cbn [run_call].
  - apply (open_with_spec path flags (fun r => fail_with r (-1)) (fun fd _ => mret fd)); [done|done| | |].
    + intros s' H1 H2 H3 H4. by eapply ok_fail.
    + intros r s' _ H1 H2 H3 H4. by eapply ok_fail.
    + intros. by apply wp_ret.
  - eapply wp_mono; [by apply close_wp|]. by intros r s' (? & ? & _).
  - eapply wp_mono; [by apply sys_dup_wp|]. by intros r s' (? & ? & _).
  - eapply wp_mono; [by apply sys_dup2_wp|]. by intros r s' (? & ? & _).
  - apply safe_bind; [by apply read_safe|]. intros [r o] s' Hok'. by apply safe_ret.
  - by apply write_safe.
  - by apply lseek_safe.
  - apply safe_bind; [by apply fcntl_safe|]. intros [r o] s' Hok'. by apply safe_ret.
  - by apply fsync_safe.
Qed.
End props.
