(* ===== verification/DfsRomProps.v ===== *)
(** * The read-only file system: lookup, its promises, and reading files

    The reference takes the names of a path and walks the tree of the image.  The
    file system keeps the promises of DfsLaws.v for files opened for reading; a
    file read through the virtual file system gives the bytes of the image. *)
From Stdlib Require Import Ascii String.
From S2P Require Import Prelude KStdio KStdioProps DfsPath DfsPathProps Dfs DfsFs DfsFile DfsPosix DfsRom DfsInv DfsLaws DfsFdProps DfsFsProps DfsFileProps DfsCalls DfsProps.

(** ** Images *)
(** Sizes are those of the data; a directory without data is empty. *)
Inductive image : romfs_dirent -> Prop :=
  | image_file name bytes : Z.of_nat (length bytes) < 2 ^ 31 -> image (Romfs ROMFS_DIRENT_FILE name (Some (inl bytes)) (Z.of_nat (length bytes)))
  | image_dir name entries : Z.of_nat (length entries) < 2 ^ 31 -> Forall image entries -> image (Romfs ROMFS_DIRENT_DIR name (Some (inr entries)) (Z.of_nat (length entries)))
  | image_empty name : image (Romfs ROMFS_DIRENT_DIR name None 0).
Definition entries_of (d : romfs_dirent) : list romfs_dirent := match r_data d with Some (inr l) => l | _ => [] end.
(** The first entry of a name. *)
Fixpoint child (l : list romfs_dirent) (name : list Z) : option romfs_dirent :=
  match l with
  | [] => None
  | d :: l => if bool_decide (r_name d = name) then Some d else child l name
  end.
(** The names are followed through directories; a file ends the walk, with names
    left over when the second part is [false]. *)
Fixpoint walk (names : list (list Z)) (d : romfs_dirent) : option (romfs_dirent * bool) :=
  match names with
  | [] => Some (d, true)
  | name :: names => if r_type d =? ROMFS_DIRENT_DIR then e ← child (entries_of d) name; walk names e else Some (d, false)
  end.
Definition path_names (path : list Z) : list (list Z) := filter (.≠ []) (segments path).

Lemma image_check d : image d -> check_dirent d = 0 /\ (r_type d = ROMFS_DIRENT_FILE \/ r_type d = ROMFS_DIRENT_DIR).
Proof.
  intros [n b H|n l H _|n]; unfold check_dirent; cbn [r_type r_size]; (split; [|auto]); try reflexivity.
  - destruct (Z.eqb_spec (Z.of_nat (length b)) (2 ^ 32 - 1)); [lia|done].
  - destruct (Z.eqb_spec (Z.of_nat (length l)) (2 ^ 32 - 1)); [lia|done].
Qed.
Lemma image_entries d : image d -> Forall image (entries_of d).
Proof. by intros [n b H|n l H Hl|n]. Qed.
Lemma child_image l name e : Forall image l -> child l name = Some e -> image e.
Proof. induction 1 as [|d l Hd _ IH]; cbn; [done|]. case_bool_decide; [by intros [= <-]|done]. Qed.
Lemma walk_image names : forall d e b, image d -> walk names d = Some (e, b) -> image e.
Proof.
  induction names as [|n names IH]; intros d e b Hd; cbn [walk]; [by intros [= <- _]|]. destruct (r_type d =? ROMFS_DIRENT_DIR); [|by intros [= <- _]].
  destruct (child (entries_of d) n) as [c|] eqn:E; [|done]. cbn. apply IH. by eapply child_image, E; apply image_entries.
Qed.
Lemma search_spec l name : Forall image l -> search l (length l) name = Some (child l name).
Proof. induction 1 as [|d l Hd _ IH]; cbn [search child length]; [done|]. destruct (image_check d Hd) as [-> _]. cbn [Z.eqb negb]. by case_bool_decide. Qed.

(** ** Names of a path *)
Lemma names_skip l : path_names (skip_sep l) = path_names l.
Proof.
  induction l as [|c l IH]; cbn [skip_sep]; [done|]. destruct (Z.eqb_spec c slash) as [->|]; [|done]. rewrite IH. unfold path_names. cbn [segments]. rewrite Z.eqb_refl. by rewrite filter_cons, decide_False by (by intros ?).
Qed.
Lemma skip_head l : hd 0 (skip_sep l) <> slash.
Proof. induction l as [|c l IH]; cbn [skip_sep]; [done|]. by destruct (Z.eqb_spec c slash). Qed.
Lemma skip_length l : (length (skip_sep l) <= length l)%nat.
Proof. induction l as [|c l IH]; cbn [skip_sep]; [done|]. destruct (c =? slash); cbn in *; lia. Qed.
Lemma subpath_names l : l <> [] -> hd 0 l <> slash -> let '(name, rest) := subpath l in
  path_names l = name :: path_names rest /\ (length rest < length l)%nat.
Proof.
  induction l as [|c l IH]; [done|]. intros _ Hc. cbn in Hc. cbn [subpath]. destruct (Z.eqb_spec c slash); [done|]. destruct (decide (l = [])) as [->|Hl].
  { cbn. unfold path_names. cbn. destruct (Z.eqb_spec c slash); [done|]. split; [done|lia]. }
  destruct (decide (hd 0 l = slash)) as [Hs|Hs].
  - destruct l as [|d l]; [done|]. cbn in Hs. subst d. cbn [subpath]. rewrite Z.eqb_refl. split; [|cbn; lia]. unfold path_names. cbn [segments]. destruct (Z.eqb_spec c slash); [done|]. rewrite Z.eqb_refl.
    by rewrite !filter_cons, decide_True, decide_False by (by intros ?).
  - specialize (IH Hl Hs). destruct (subpath l) as [name rest]. destruct IH as [E IH]. split; [|cbn; lia]. unfold path_names in *. cbn [segments]. destruct (Z.eqb_spec c slash); [done|].
    assert (Hne : exists x s ss, segments l = (x :: s) :: ss).
    { destruct l as [|d l]; [done|]. cbn in Hs. cbn [segments]. destruct (Z.eqb_spec d slash); [done|]. destruct (segments l) as [|s ss]; eauto. }
    destruct Hne as (x & s & ss & Es). rewrite Es in E |- *. rewrite filter_cons, decide_True in E by done. rewrite filter_cons, decide_True by done. by injection E as <- ->.
Qed.

(** ** Lookup *)
Lemma lookup_levels_spec fuel : forall d path, image d -> r_type d = ROMFS_DIRENT_DIR -> path <> [] -> hd 0 path <> slash -> (length path < fuel)%nat ->
  lookup_levels fuel (r_data d) (r_size d) path = Some (match walk (path_names path) d with
    | Some (e, true) => Some (e, Some (r_size e)) | Some (e, false) => Some (e, None) | None => None end).
Proof.
  induction fuel as [|fuel IH]; intros d path Hd Ht Hp Hh Hf; [lia|]. pose proof (subpath_names path Hp Hh) as H. cbn [lookup_levels]. destruct (subpath path) as [name rest]. destruct H as [-> Hr].
  cbn [walk]. rewrite Ht. change (ROMFS_DIRENT_DIR =? ROMFS_DIRENT_DIR) with true. cbv iota. destruct Hd as [n b H|n l H Hl|n]; [done| |done]. cbn [r_data r_size entries_of]. rewrite Nat2Z.id, search_spec by done.
  change (entries_of _) with l. destruct (child l name) as [e|] eqn:Ec; [|done]. cbn [mbind option_bind]. pose proof (child_image _ _ _ Hl Ec) as He. rewrite <- (names_skip rest).
  destruct (decide (skip_sep rest = [])) as [->|Hne]; [done|].
  pose proof (skip_head rest) as Hsh. pose proof (skip_length rest) as Hsl. pose proof (subpath_names _ Hne Hsh) as Hn. destruct (image_check e He) as [_ Hty].
  destruct (skip_sep rest) as [|c k] eqn:Es; [done|]. destruct (Z.eqb_spec (r_type e) ROMFS_DIRENT_DIR) as [E|E].
  - rewrite IH; [done|done|done|done|done|cbn in *; lia].
  - destruct (subpath (c :: k)) as [n2 r2]. destruct Hn as [-> _]. cbn [walk]. destruct (Z.eqb_spec (r_type e) ROMFS_DIRENT_DIR); done.
Qed.
Lemma romfs_root_image : image romfs_root.
Proof.
  assert (Hf : image (Romfs ROMFS_DIRENT_FILE (codes "dummy.txt") (Some (inl _dummy_txt)) 17)) by (apply (image_file _ _dummy_txt); reflexivity).
  apply (image_dir (codes "/") _root_dirent); [reflexivity|]. apply Forall_cons. split; [|by apply Forall_cons].
  apply (image_dir (codes "dummy") _dummy); [reflexivity|]. by apply Forall_cons.
Qed.
Lemma board_root_image : image board_romfs_root.
Proof. apply (image_dir (codes "/") _romfs_root); [reflexivity|]. apply Forall_cons. split; [apply image_empty|done]. Qed.
Lemma romfs_lookup_eq (root : romfs_dirent) (path : list Z) (Hroot : image root) (Hdir : r_type root = ROMFS_DIRENT_DIR)
  (Hpath : path = [slash] \/ path_names path <> []) :
  dfs_romfs_lookup root path = Some (match walk (path_names path) root with
    | Some (d, true) => Some (d, Some (r_size d))
    | Some (d, false) => Some (d, None)
    | None => None end).
Proof.
  unfold dfs_romfs_lookup. destruct (image_check root Hroot) as [-> _]. cbn [Z.eqb negb]. case_bool_decide as E; [by subst path|]. destruct Hpath as [?|Hp]; [done|].
  assert (Hne : skip_sep path <> []) by (intros Hs; apply Hp; rewrite <- names_skip, Hs; done). pose proof (skip_length path).
  rewrite lookup_levels_spec; [by rewrite names_skip|done|done|done|apply skip_head|lia].
Qed.
(** C38: on an image whose sizes are right the lookup of a path is the walk along its
    names; a path that goes on behind a file ends at the file, and the size is not
    set then. *)
Theorem dfs_romfs_lookup_spec (root : romfs_dirent) (path : list Z) (Hroot : image root) (Hdir : r_type root = ROMFS_DIRENT_DIR)
  (Hpath : path = [slash] \/ path_names path <> []) :
  dfs_romfs_lookup root path = Some (match walk (path_names path) root with
    | Some (d, true) => Some (d, Some (r_size d))
    | Some (d, false) => Some (d, None)
    | None => None end).
Proof. by apply romfs_lookup_eq. Qed.
Lemma dfs_romfs_lookup_spec_witness :
  dfs_romfs_lookup romfs_root (codes "/dummy//dummy.txt") = Some (Some (Romfs ROMFS_DIRENT_FILE (codes "dummy.txt") (Some (inl _dummy_txt)) 17, Some 17)).
Proof.
  rewrite dfs_romfs_lookup_spec; [reflexivity| |reflexivity|right; vm_compute; discriminate].
  exact romfs_root_image.
Defined.

(** ** The promises of the file system *)
Section rom.
Context {W : Type} (junk : Z) (address : romfs_dirent -> Z) (root : romfs_dirent).
Implicit Types s : dfs romfs_dirent W.

(** The bytes of the file at a path of the image. *)
Definition file_at (path bytes : list Z) : Prop :=
  exists name, walk (path_names path) root = Some (Romfs ROMFS_DIRENT_FILE name (Some (inl bytes)) (Z.of_nat (length bytes)), true) /\ Z.of_nat (length bytes) < 2 ^ 31.
Definition rom_good (p : option (list Z)) (v : vattr romfs_dirent) (f : fattr romfs_dirent) : Prop :=
  exists path name bytes, p = Some path /\ walk (path_names path) root = Some (Romfs ROMFS_DIRENT_FILE name (Some (inl bytes)) (Z.of_nat (length bytes)), true) /\
    Z.of_nat (length bytes) < 2 ^ 31 /\ v_type v = FT_REGULAR /\ v_size v = Z.of_nat (length bytes) /\
    v_data v = Some (Romfs ROMFS_DIRENT_FILE name (Some (inl bytes)) (Z.of_nat (length bytes))) /\ 0 <= f_pos f <= Z.of_nat (length bytes).
#[local] Instance rom_params : FileParams romfs_dirent := {|
  good := rom_good;
  fsok := fun d => d = FsData root;
  allowed_flags := fun x => Z.land x WRITE_FLAGS = 0 /\ Z.land x O_DIRECTORY = 0;
  allowed_path := fun _ p => (p = [slash] \/ path_names p <> []) /\ forall d, walk (path_names p) root <> Some (d, false);
  present := fun _ p => exists bytes, file_at p bytes |}.
#[local] Instance rom_laws : FileLaws romfs_dirent.
Proof. split; [done|]. intros p v f x [_ Hx] Hn. done. Qed.
Context (Hroot : image root) (Hdir : r_type root = ROMFS_DIRENT_DIR).

Lemma good_pos p v f q : rom_good p v f -> 0 <= q <= v_size v -> rom_good p v (set_pos q f).
Proof. intros (path & name & bytes & H1 & H2 & H3 & H4 & H5 & H6 & _) Hq. rewrite H5 in Hq. exists path, name, bytes. done. Qed.
Lemma rom_read_eq c count v f (w : W) name bytes : v_data v = Some (Romfs ROMFS_DIRENT_FILE name (Some (inl bytes)) (Z.of_nat (length bytes))) -> v_size v = Z.of_nat (length bytes) ->
  Z.of_nat (length bytes) < 2 ^ 31 -> 0 <= f_pos f <= Z.of_nat (length bytes) -> 0 <= count ->
  let n := Z.min count (Z.of_nat (length bytes) - f_pos f) in
  dfs_romfs_read c count v f w = Some (n, take (Z.to_nat n) (drop (Z.to_nat (f_pos f)) bytes), v, set_pos (f_pos f + n) f, w).
Proof.
  intros Hd Hs Hl Hp Hc n. unfold dfs_romfs_read. rewrite Hd. cbn [mbind option_bind].
  assert (Hcheck : check_dirent (Romfs ROMFS_DIRENT_FILE name (Some (inl bytes)) (Z.of_nat (length bytes))) = 0) by (by apply image_check, image_file). rewrite Hcheck. cbn [Z.eqb negb]. cbn zeta.
  rewrite Hs. unfold u32. rewrite Z.mod_small by lia.
  assert (En : (if count <? Z.of_nat (length bytes) - f_pos f then count else Z.of_nat (length bytes) - f_pos f) = n) by (unfold n; destruct (Z.ltb_spec count (Z.of_nat (length bytes) - f_pos f)); lia).
  rewrite En. cbn [r_data]. destruct (Z.ltb_spec 0 n) as [Hn|Hn].
  - destruct (Z.leb_spec 0 (f_pos f)); [|lia]. destruct (Z.leb_spec (f_pos f + n) (Z.of_nat (length bytes))); [|unfold n in *; lia]. done.
  - replace n with 0 by (unfold n in *; lia). done.
Qed.
Lemma rom_lawful : lawful (_rom_fops (W := W) junk address).
Proof.
  split; cbn [_rom_fops fop_open fop_close fop_ioctl fop_read fop_write fop_flush fop_getdents fop_lseek]; try done.
  - intros op c f w p [= <-] Hr Hp Hfs [Hp1 Hp2] [Hf1 Hf2].
    cbn in Hfs. unfold dfs_romfs_open. rewrite Hf1, Hf2, Hr, Hp, Hfs. cbn [Z.eqb negb Z.ltb Z.compare Pos.compare Pos.compare_cont]. destruct (image_check root Hroot) as [-> _]. cbn [Z.eqb negb mbind option_bind].
    rewrite romfs_lookup_eq by done. cbn [mbind option_bind]. destruct (walk (path_names p) root) as [[d [|]]|] eqn:Ew; [| |].
    + pose proof (walk_image _ _ _ _ Hroot Ew) as Hd. destruct Hd as [name bytes Hl|name l Hl Hl'|name]; cbn [r_type r_size Z.eqb].
      * eexists _, _, _, _. split; [reflexivity|]. split; [|by intros _]. intros _. split; [|done]. exists p, name, bytes. cbn. by repeat (split; [done|]); lia.
      * eexists _, _, _, _. split; [reflexivity|]. split; [unfold ENOENT; lia|]. intros (b & n & E & _). congruence.
      * eexists _, _, _, _. split; [reflexivity|]. split; [unfold ENOENT; lia|]. intros (b & n & E & _). congruence.
    + by destruct (Hp2 d).
    + eexists _, _, _, _. split; [reflexivity|]. split; [unfold ENOENT; lia|]. intros (b & n & E & _). congruence.
  - intros op c v f g w [= <-] Hr [Hf1 Hf2] Hg. unfold dfs_romfs_open. rewrite Hf1, Hf2. cbn [Z.eqb negb]. destruct (Z.ltb_spec 0 (cv_ref c)); [|lia]. destruct (Z.ltb_spec 1 (cv_ref c)); [|lia]. cbn [negb].
    assert (Ht : v_type v = FT_REGULAR) by (by destruct Hg as (? & ? & ? & _ & _ & _ & ? & _)). rewrite Ht. cbn.
    eexists _, _, _, _. split; [reflexivity|]. split; [done|]. split; [|done]. split; [|done]. destruct Hg as (path & name & bytes & H1 & H2 & H3 & H4 & H5 & H6 & _). exists path, name, bytes. by repeat (split; [done|]); cbn; lia.
  - intros op c v f w [= <-] Hr Hg. unfold dfs_romfs_close. destruct (Z.ltb_spec 0 (cv_ref c)); [|lia]. cbn [negb]. destruct (Z.ltb_spec 1 (cv_ref c)).
    + eexists _, _, _, _. split; [reflexivity|]. split; [done|]. by split.
    + eexists _, _, _, _. split; [reflexivity|]. split; [done|]. lia.
  - intros op [= <-] c [cmd args] v f w Hr Hg _. assert (Hd : exists d, v_data v = Some d) by (destruct Hg as (? & ? & ? & _ & _ & _ & _ & _ & ? & _); eauto). destruct Hd as [d Hd].
    unfold dfs_romfs_ioctl. rewrite Hd. cbn [mbind option_bind]. destruct (cmd =? RT_FIOGETADDR); [|destruct (cmd =? RT_FIOFTRUNCATE)]; (eexists _, _, _, _, _; split; [reflexivity|by split]).
  - intros op [= <-] c n v f w Hr Hg Hn. pose proof Hg as (path & name & bytes & H1 & H2 & H3 & H4 & H5 & H6 & H7).
    eexists _, _, _, _, _. split; [by apply (rom_read_eq c n v f w name bytes)|]. split; [|done]. apply good_pos; [done|]. rewrite H5. lia.
  - intros op [= <-] c n v f w Hr (path & name & bytes & _ & _ & _ & Ht & _) Hv. by rewrite Ht in Hv.
  - intros op c a v f w [= <-] Hr Ha Hg. pose proof Hg as (path & name & bytes & H1 & H2 & H3 & H4 & H5 & H6 & H7). unfold dfs_romfs_lseek. destruct (Z.leb_spec (u32 a) (v_size v)) as [Hle|Hle].
    + assert (Ha' : 0 <= a <= Z.of_nat (length bytes)).
      { rewrite H5 in Hle. unfold u32 in Hle. destruct (decide (0 <= a)); [rewrite Z.mod_small in Hle by lia; lia|]. rewrite <- (Z.mod_unique_pos a (2 ^ 32) (-1) (a + 2 ^ 32)) in Hle by lia. lia. }
      assert (Hg' : rom_good (cv_path c) v (set_pos a f)) by (apply good_pos; [done|lia]).
      eexists _, _, _, _. split; [reflexivity|]. split; [by split|]. by intros _.
    + eexists _, _, _, _. split; [reflexivity|]. split; [by split|]. unfold EIO. lia.
Qed.

(** ** Reading files *)
(** Every mounted file system is the image. *)
Definition rom_table (t : list (dfs_filesystem romfs_dirent W)) : Prop :=
  forall i e ops, t !! i = Some e -> fs_ops e = Some ops -> ops = _romfs junk address /\ fs_data e = FsData root.
(** The bytes of the file at a full path. *)
Definition content (t : list (dfs_filesystem romfs_dirent W)) (full bytes : list Z) : Prop :=
  exists i e p, lookup_loop t 0 full None 0 = Some i /\ t !! i = Some e /\ below e full = Some p /\ file_at p bytes.
Fixpoint reads (fd : Z) (sizes : list Z) : M romfs_dirent W (list (list Z)) :=
  match sizes with
  | [] => mret []
  | n :: sizes => '(_, buf) ← read fd n; bufs ← reads fd sizes; mret (buf :: bufs)
  end.
Lemma content_unique t full b1 b2 : content t full b1 -> content t full b2 -> b1 = b2.
Proof. intros (i & e & p & H1 & H2 & H3 & n & H4 & _) (i' & e' & p' & H1' & H2' & H3' & n' & H4' & _). congruence. Qed.
(** An open file has the bytes of its path, and its position is within them. *)
Lemma refers_content s l full pos : ok ∅ ∅ s -> refers s l full pos -> exists f v x p name bytes, files s !! l = Some f /\ f_vnode f = Some v /\ vnodes s !! v = Some x /\
  v_path x = Some p /\ 0 < v_ref x /\ f_pos (f_attr f) = pos /\ v_fullpath x = full /\ content (filesystem_table s) full bytes /\ 0 <= pos <= Z.of_nat (length bytes) /\
  Z.of_nat (length bytes) < 2 ^ 31 /\ v_size (v_attr x) = Z.of_nat (length bytes) /\ v_data (v_attr x) = Some (Romfs ROMFS_DIRENT_FILE name (Some (inl bytes)) (Z.of_nat (length bytes))).
Proof.
  intros Hok (f & v & x & Hf & Hv & Hx & Hfull & Hpos). pose proof (ok_good _ _ _ Hok l f v x Hf ltac:(set_solver) Hv Hx) as (p & name & bytes & H1 & H2 & H3 & H4 & H5 & H6 & H7).
  destruct (ok_fops _ _ _ Hok v x Hx) as (_ & _ & i & e & ops & L1 & L2 & L3 & L4 & L5 & L6 & _). destruct (c_vnode _ _ _ _ _ _ (ok_core _ _ _ Hok) v x Hx) as (E & Hu & _).
  exists f, v, x, p, name, bytes. repeat (split; [done || lia|]). split; [|by subst pos]. rewrite <- Hfull. exists i, e, p. split; [done|]. split; [done|]. split; [congruence|]. by exists name.
Qed.
Lemma read_spec fd n s l full pos bytes : ok ∅ ∅ s -> rom_table (filesystem_table s) -> 0 <= fd -> slot_at s (Z.to_nat fd) = Some l -> refers s l full pos -> content (filesystem_table s) full bytes -> 0 <= n ->
  let k := Z.min n (Z.of_nat (length bytes) - pos) in
  exists s', read fd n s = Some ((k, take (Z.to_nat k) (drop (Z.to_nat pos) bytes)), s') /\ kept s s' /\ refers s' l full (pos + k) /\ 0 <= pos <= Z.of_nat (length bytes).
Proof.
  intros Hok Ht Hfd Hs Href Hcont Hn k. destruct (refers_content s l full pos Hok Href) as (f & v & x & p & name & b' & Hf & Hv & Hx & Hp & Hr & Hfp & Hfull & Hc' & Hpos & Hlen & Hsize & Hdata).
  assert (b' = bytes) as -> by (by eapply content_unique). destruct (ok_fops _ _ _ Hok v x Hx) as (Hlaw & _ & i & e & ops & _ & L2 & L3 & _ & L5 & _). destruct (Ht i e ops L2 L3) as [-> _].
  assert (H : wp (read fd n) (fun r s' => r = (k, take (Z.to_nat k) (drop (Z.to_nat pos) bytes)) /\ kept s s' /\ refers s' l full (pos + k) /\ 0 <= pos <= Z.of_nat (length bytes)) s).
  { apply wp_bind. eapply wp_mono; [by eapply fd_get_spec|]. intros d s0 (-> & Hd). apply slot_at_nth in Hs as Hs'.
    destruct d as [l'|]; [|exfalso; pose proof (lookup_maxfd _ _ _ Hs'); rewrite Z2Nat.id in * by lia; destruct Hd as [?|[?|?]]; [lia|lia|congruence]].
    destruct Hd as (_ & Hl' & _). assert (l' = l) as -> by congruence. apply wp_bind. apply wp_bind. eapply wp_vnode_of; [exact Hf|exact Hv|exact Hx|]. rewrite L5. cbn [o_fops _romfs _rom_fops fop_read].
    apply wp_bind. pose proof (rom_read_eq (view_of (filesystem_table s) x) n (v_attr x) (f_attr f) (world s) name bytes Hdata Hsize Hlen ltac:(by rewrite Hfp) Hn) as E. cbn zeta in E. rewrite Hfp in E. fold k in E.
    assert (Hlr : fop_read (v_fops x) = Some dfs_romfs_read) by (by rewrite L5).
    eapply (total_call dfs_romfs_read _ l f v x n); [exact Hok|exact Hf|exact Hv|exact Hx|exact (law_read _ Hlaw _ Hlr)|exact Hn|exact Hr|]. intros r b va fa w _ Hk E'. rewrite E' in E. injection E as -> -> -> -> ->.
    destruct (Z.ltb_spec k 0); [lia|]. apply wp_bind, wp_ret, wp_ret. apply wp_bind. unfold posix_result. destruct (Z.ltb_spec k 0); [lia|]. apply wp_ret, wp_ret. split; [done|]. split; [done|]. split; [|done].
    eexists _, v, _. split; [apply lookup_insert_eq|]. split; [done|]. split; [apply lookup_insert_eq|]. split; [done|]. done. }
  unfold wp in H. destruct (read fd n s) as [[r s']|]; [|done]. destruct H as (-> & H). by exists s'.
Qed.
(** The bytes of a read and of those after it. *)
Lemma chunk_next (bytes : list Z) pos n m k : k = Z.min n (Z.of_nat (length (drop (Z.to_nat pos) bytes))) -> 0 <= pos /\ 0 <= n /\ 0 <= m ->
  take (Z.to_nat k) (drop (Z.to_nat pos) bytes) ++ take (Z.to_nat m) (drop (Z.to_nat (pos + k)) bytes) = take (Z.to_nat (n + m)) (drop (Z.to_nat pos) bytes).
Proof.
  intros Hk (Hp & Hn & Hm). replace (Z.to_nat (pos + k)) with (Z.to_nat pos + Z.to_nat k)%nat by lia. rewrite <- (drop_drop bytes). set (r := drop (Z.to_nat pos) bytes) in *.
  destruct (decide (n <= Z.of_nat (length r))).
  - replace k with n by lia. rewrite take_take_drop. f_equal. lia.
  - rewrite (take_ge r (Z.to_nat k)), (drop_ge r) by lia. rewrite take_nil, app_nil_r, take_ge by lia. done.
Qed.
Lemma reads_spec fd sizes : forall s l full pos bytes, ok ∅ ∅ s -> rom_table (filesystem_table s) -> 0 <= fd -> slot_at s (Z.to_nat fd) = Some l -> refers s l full pos -> content (filesystem_table s) full bytes -> Forall (fun n => 0 <= n) sizes ->
  exists bufs s', reads fd sizes s = Some (bufs, s') /\ concat bufs = take (Z.to_nat (foldr Z.add 0 sizes)) (drop (Z.to_nat pos) bytes).
Proof.
  induction sizes as [|n sizes IH]; intros s l full pos bytes Hok Ht Hfd Hs Href Hcont Hall; [by exists [], s|]. apply Forall_cons in Hall as [Hn Hall].
  destruct (read_spec fd n s l full pos bytes Hok Ht Hfd Hs Href Hcont Hn) as (s1 & E & (Hok1 & Henv & Hfds) & Href1 & Hpos). set (k := Z.min n (Z.of_nat (length bytes) - pos)) in *.
  pose proof Henv as (En & _ & _). destruct (IH s1 l full (pos + k) bytes Hok1) as (bufs & s2 & E2 & Hb); [by rewrite En|done|by unfold slot_at; rewrite Hfds|done|by rewrite En|done|].
  exists (take (Z.to_nat k) (drop (Z.to_nat pos) bytes) :: bufs), s2. cbn [reads foldr]. unfold mbind at 1, M_bind at 1. rewrite E. unfold mbind, M_bind. rewrite E2. split; [done|]. cbn [concat]. rewrite Hb.
  assert (Hsum : 0 <= foldr Z.add 0 sizes) by (clear -Hall; induction Hall; cbn; lia). apply chunk_next; [|lia].
  unfold k. rewrite length_drop. lia.
Qed.
(** C37: a file of the image read through the virtual file system: [open] gives a
    descriptor unless none is free or the path is not a file of the image, and
    reads of any sizes give the bytes of the file one after the other, as many as
    asked for and there are. *)
Theorem romfs_contents (path : list Z) (flags : Z) (sizes : list Z) s (Hok : ok ∅ ∅ s) (Htable : rom_table (filesystem_table s))
  (Hopen : open_ok (working_directory s) (filesystem_table s) path flags) (Hsizes : Forall (fun n => 0 <= n) sizes) :
  exists fd s1, open path flags s = Some (fd, s1) /\
    (fd = -1 /\ (slots_full s \/ forall full bytes, dfs_normalize_path (working_directory s) true None path = Some (Some full) -> ~ content (filesystem_table s) full bytes) \/
     exists full bytes, dfs_normalize_path (working_directory s) true None path = Some (Some full) /\ content (filesystem_table s) full bytes /\
       exists bufs s2, reads fd sizes s1 = Some (bufs, s2) /\ concat bufs = take (Z.to_nat (foldr Z.add 0 sizes)) bytes).
Proof.
  pose proof (open_wp path flags s Hok Hopen) as H. unfold wp in H. destruct (open path flags s) as [[fd s1]|]; [|done]. exists fd, s1. split; [done|].
  destruct H as (Hok1 & (En1 & En2 & En3) & [(-> & _ & Hno)|(Hfd & _ & _ & l & (full & Efull & Href) & Hs1)]).
  - left. split; [done|]. destruct Hno as [Hno|Hno]; [by left|]. right. intros full bytes Efull (i & e & p & H1 & H2 & H3 & H4). specialize (Hno full Efull). apply Hno.
    destruct (lookup_loop_some _ _ _ H1) as (e' & q & ops & H2' & Hq & Hops). assert (e' = e) as -> by congruence. destruct (Htable i e ops H2 Hops) as [-> _].
    exists i, e, (_romfs junk address), p. split; [done|]. split; [done|]. split; [done|]. split; [done|]. split; [exists (dfs_romfs_open junk); reflexivity|]. exists bytes. exact H4.
  - right. destruct (refers_content s1 l full 0 Hok1 Href) as (f & v & x & p & name & bytes & _ & _ & _ & _ & _ & _ & _ & Hc & _). exists full, bytes. split; [done|]. split; [by rewrite <- En1|].
    destruct (reads_spec fd sizes s1 l full 0 bytes Hok1) as (bufs & s2 & E & Hb); [by rewrite En1|unfold DFS_STDIO_OFFSET in Hfd; lia|rewrite Hs1; by rewrite decide_True|done|done|done|].
    exists bufs, s2. done.
Qed.
End rom.
