(* ===== verification/DfsDemo.v ===== *)
(** * The virtual file system: a system with the image of the source at its root

    Witnesses of the properties, and runs that show where they need their
    hypotheses. *)
From Stdlib Require Import Ascii String.
From S2P Require Import Prelude KStdio DfsPath DfsPathProps Dfs DfsFs DfsFile DfsPosix DfsRom DfsInv DfsLaws DfsFdProps DfsFsProps DfsFileProps DfsCalls DfsProps DfsRomProps.

(** Without devices; the uninitialised variable holds 99. *)
#[local] Instance no_devices : Devices unit := {| rt_device_find _ _ := None; rt_device_open _ _ w := (0, w); rt_device_close _ w := (0, w) |}.
Definition rom : dfs_filesystem_ops romfs_dirent unit := _romfs 99 (fun _ => 0).
Definition empty_state : dfs romfs_dirent unit :=
  {| fds := []; files := ∅; vnodes := ∅; head := replicate 128 []; filesystem_table := replicate 4 no_filesystem; filesystem_operation_table := replicate 4 None;
     working_directory := codes "/"; errno := 0; brk := O; mem := []; world := tt |}.
Definition junk_file : dfs_file romfs_dirent := {| f_magic := 7; f_ref := 9; f_vnode := None; f_attr := zero_fattr |}.
Definition mount_rom (path : string) : M romfs_dirent unit Z := dfs_mount junk_file None (codes path) (codes "rom") 0 (Some romfs_root).
Definition start : M romfs_dirent unit Z := _ ← dfs_register rom; mount_rom "/".
Definition rom_state : dfs romfs_dirent unit :=
  with_filesystem_table ({| fs_dev := None; fs_path := Some (codes "/"); fs_ops := Some rom; fs_data := FsData romfs_root |} :: replicate 3 no_filesystem)
    (with_filesystem_operation_table (Some rom :: replicate 3 None) empty_state).
Lemma start_state : start empty_state = Some (0, rom_state).
Proof. reflexivity. Qed.

#[local] Instance demo_params : FileParams romfs_dirent := rom_params romfs_root.
#[local] Instance demo_laws : FileLaws romfs_dirent := rom_laws romfs_root.
Lemma core_empty : core (D := romfs_dirent) (W := unit) ∅ [] ∅ ∅ (replicate 128 []) O.
Proof.
  assert (H : forall i, default [] (replicate 128 (@nil loc) !! i) = []).
  { intros i. destruct (replicate 128 (@nil loc) !! i) as [l|] eqn:E; [|done]. by apply lookup_replicate in E as [-> _]. }
  split.
  - intros l Hl. cbn in Hl. lia.
  - intros l f. by rewrite lookup_empty.
  - intros l f. by rewrite lookup_empty.
  - intros l Hl. by apply not_elem_of_empty in Hl.
  - intros v Hv. unfold users, mcount in Hv. rewrite map_to_list_empty in Hv. cbn in Hv. lia.
  - intros v x. by rewrite lookup_empty.
  - intros i v. rewrite H. by intros ?%not_elem_of_nil.
  - intros i. rewrite H. constructor.
  - intros v w x y. by rewrite lookup_empty.
  - done.
  - cbn. lia.
  - intros l [? E]. by rewrite lookup_empty in E.
  - intros l [? E]. by rewrite lookup_empty in E.
Qed.
Lemma rom_state_table : rom_table 99 (fun _ => 0) romfs_root (filesystem_table rom_state).
Proof. intros [|[|[|[|i]]]] e ops; cbn; intros [= <-]; cbn; try done. by intros [= <-]. Qed.
Lemma rom_state_ok : ok ∅ ∅ rom_state.
Proof.
  split; [exact core_empty|done|done| |by constructor|].
  - intros i e ops He Ho. destruct (rom_state_table i e ops He Ho) as [-> ->]. split; [|done]. apply (rom_lawful 99 (fun _ => 0) romfs_root); [apply romfs_root_image|done].
  - split; [by repeat constructor|]. split; [done|]. vm_compute. done.
Qed.
(** The files of the image may be opened for reading. *)
Lemma rom_open_ok : open_ok (working_directory rom_state) (filesystem_table rom_state) (codes "dummy.txt") O_RDONLY.
Proof.
  split; [by repeat constructor|]. split; [by split|]. intros full E. assert (full = codes "/dummy.txt") as -> by (vm_compute in E; by injection E as <-).
  intros i e p Hi He Hp. assert (i = O) as -> by (vm_compute in Hi; by injection Hi as <-). cbn in He. injection He as <-. vm_compute in Hp. injection Hp as <-.
  split; [right; vm_compute; discriminate|]. intros d. vm_compute. discriminate.
Qed.

Definition demo_calls : list (call) := [COpen (codes "dummy.txt") O_RDONLY; CDup2 3 9; CClose 3; CRead 9 5; CDup 9; CLseek 3 (-2) SEEK_END; CRead 3 100; CClose 9; CClose 3].
Lemma romfs_contents_witness : exists fd s, open (codes "dummy.txt") O_RDONLY rom_state = Some (fd, s) /\ exists bufs s2, reads fd [4; 0; 100] s = Some (bufs, s2) /\ concat bufs = _dummy_txt.
Proof.
  destruct (romfs_contents 99 (fun _ => 0) romfs_root romfs_root_image eq_refl (codes "dummy.txt") O_RDONLY [4; 0; 100] rom_state rom_state_ok rom_state_table rom_open_ok) as (fd & s & E & H); [by repeat constructor|].
  exists fd, s. split; [done|]. destruct H as [[-> _]|(full & bytes & Ef & Hc & bufs & s2 & E2 & Hb)].
  - assert (H : fst <$> open (codes "dummy.txt") O_RDONLY rom_state = Some (-1)) by (by rewrite E). vm_compute in H. discriminate.
  - exists bufs, s2. split; [done|]. rewrite Hb. assert (full = codes "/dummy.txt") as -> by (vm_compute in Ef; by injection Ef as <-).
    destruct Hc as (i & e & p & Hi & He & Hp & n & Hw & _). assert (i = O) as -> by (vm_compute in Hi; by injection Hi as <-). cbn in He. injection He as <-. vm_compute in Hp. injection Hp as <-.
    vm_compute in Hw. by injection Hw as <- <-.
Defined.

(** ** Where the promises do not hold *)
Definition result {A} (m : M romfs_dirent unit A) : option A := fst <$> m rom_state.
(** A file is opened for reading; a second open, for writing, fails and takes away
    the vnode of the first: reading is a use after free. *)
Lemma failed_reopen_frees :
  result (a ← open (codes "dummy.txt") O_RDONLY; b ← open (codes "dummy.txt") O_RDWR; mret (a, b)) = Some (3, -1) /\
  result (a ← open (codes "dummy.txt") O_RDONLY; b ← open (codes "dummy.txt") O_RDWR; read a 1) = None.
Proof. split; vm_compute; reflexivity. Qed.
(** A path that goes on behind a file opens the file, with a size that was not set. *)
Lemma path_behind_file :
  result (a ← open (codes "dummy.txt/x") O_RDONLY; l ← gets (fun s => (fun p => v_size (v_attr p.2)) <$> map_to_list (vnodes s)); mret (a, l)) = Some (3, [99]).
Proof. vm_compute. reflexivity. Qed.
(** The size set by [ftruncate] is believed: a read goes beyond the image. *)
Lemma truncated_image :
  result (a ← open (codes "dummy.txt") O_RDONLY; r ← ftruncate a 100; mret (a, r)) = Some (3, 0) /\
  result (a ← open (codes "dummy.txt") O_RDONLY; r ← ftruncate a 100; read a 100) = None.
Proof. split; vm_compute; reflexivity. Qed.
(** An open file can be opened as a directory; its entries cannot be read. *)
Lemma file_as_directory :
  result (a ← open (codes "dummy.txt") O_RDONLY; d ← opendir (codes "dummy.txt"); mret (match d with Some d => dir_fd d | None => -1 end)) = Some 4 /\
  result (a ← open (codes "dummy.txt") O_RDONLY; d ← opendir (codes "dummy.txt"); match d with Some d => readdir d | None => undefined end) = None.
Proof. split; vm_compute; reflexivity. Qed.
(** Mounting on a directory that is open keeps a reference to it for ever: no file
    is left and the vnode is still there. *)
Lemma mount_keeps_vnode :
  result (d ← opendir (codes "/dummy"); match d with
          | Some d => r ← mount_rom "/dummy"; c ← closedir d; n ← gets (fun s => (size (files s), size (vnodes s))); mret (r, c, n)
          | None => undefined end) = Some (0, 0, (0%nat, 1%nat)).
Proof. vm_compute. reflexivity. Qed.
(** The path that is compared with the mount points is not the normalised one. *)
Lemma mounted_twice : result (a ← mount_rom "/dummy"; b ← mount_rom "/./"; t ← gets (fun s => fs_path <$> filesystem_table s); mret (a, b, t)) =
  Some (0, 0, [Some (codes "/"); Some (codes "/dummy"); Some (codes "/"); None]).
Proof. vm_compute. reflexivity. Qed.
(** [rename] without a file system on the paths uses a null pointer. *)
Lemma rename_unmounted : fst <$> rename (codes "/a") (codes "/b") empty_state = None.
Proof. vm_compute. reflexivity. Qed.

(** ** The image of the board *)
Definition start_board : M romfs_dirent unit Z := _ ← dfs_register rom; dfs_mount junk_file None (codes "/") (codes "rom") 0 (Some board_romfs_root).
(** Its directory [sda] can be opened and is empty; there is nothing else. *)
Lemma board_directory :
  fst <$> (r ← start_board; d ← opendir (codes "/sda"); x ← open (codes "/sda/x") O_RDONLY;
           match d with Some d => '(e, d) ← readdir d; c ← closedir d; mret (r, x, e, c) | None => undefined end) empty_state = Some (0, -1, None, 0).
Proof. vm_compute. reflexivity. Qed.
(** The entries of a directory one after the other; at the end the stream stays. *)
Lemma directory_listing :
  result (d ← opendir (codes "/"); match d with
          | Some d => '(a, d) ← readdir d; '(b, d) ← readdir d; '(c, d) ← readdir d; '(e, d) ← readdir d; r ← closedir d; mret (d_name <$> a, d_name <$> b, c, e, r)
          | None => undefined end) = Some (Some (codes "dummy"), Some (codes "dummy.txt"), None, None, 0).
Proof. vm_compute. reflexivity. Qed.
