(* ===== verification/UsbCore.v ===== *)
(** * The USB device core ([src/packages/CherryUSB-v1.4.0/core/usbd_core.c])

    One device on one bus, in the configuration of
    [src/board/ports/CherryUSB/usb_config.h]: full speed, one registered
    descriptor table.  Pointers are addresses of the memory [bmem].  A call of the
    port driver is recorded; what the calls answer is the interface [UsbPort].
    The class drivers and the application are the functions registered with the
    core: they act on the memory, on their own state [W] and call the port. *)
From S2P Require Import Prelude KString.

Definition CONFIG_USBDEV_REQUEST_BUFFER_LEN : Z := 512.
Definition CONFIG_USBDEV_EP_NUM : nat := 6.
Definition USB_CTRL_EP_MPS : Z := 64.
Definition USB_CONTROL_OUT_EP0 : Z := 0.
Definition USB_CONTROL_IN_EP0 : Z := 0x80.

(** ** The port driver *)
Inductive port_call :=
| PInit
| PDeinit
| PSetAddress (addr : Z)
| PRemoteWakeup
| PEpOpen (ep_addr attributes wMaxPacketSize : Z)
| PEpClose (ep_addr : Z)
| PSetStall (ep_addr : Z)
| PClearStall (ep_addr : Z)
| PStartWrite (ep_addr data len : Z)
| PStartRead (ep_addr data len : Z).
(** What a call returns, given the calls so far. *)
Class UsbPort := {
  usb_dc_init_ret : list port_call -> Z;
  usbd_ep_open_ret : list port_call -> Z -> Z -> Z -> Z;
  usbd_ep_close_ret : list port_call -> Z -> Z;
  usbd_ep_stalled : list port_call -> Z -> bool;
  usbd_set_remote_wakeup_ret : list port_call -> Z;
}.

(** [src/packages/CherryUSB-v1.4.0/common/usb_util.h] and [usb_def.h] *)
Definition LO_BYTE (x : Z) : Z := Z.land x 0xFF.
Definition HI_BYTE (x : Z) : Z := Z.land (Z.shiftr x 8) 0xFF.
Definition USB_GET_MAXPACKETSIZE (x : Z) : Z := Z.land x 0x7FF.
Definition USB_GET_MULT (x : Z) : Z := Z.shiftr (Z.land x 0x1800) 11.
(** A byte is read and stored as [uint8_t]. *)
Definition ld8 (m : bmem) (p : Z) : Z := u8 (rd m p).
(** A 16-bit field, low byte first, and a 32-bit one. *)
Definition rd16 (m : bmem) (p : Z) : Z := Z.lor (ld8 m p) (Z.shiftl (ld8 m (p + 1)) 8).
Definition rd32 (m : bmem) (p : Z) : Z :=
  u32 (ld8 m p + Z.shiftl (ld8 m (p + 1)) 8 + Z.shiftl (ld8 m (p + 2)) 16 + Z.shiftl (ld8 m (p + 3)) 24).

Inductive usbd_event_type :=
| USBD_EVENT_ERROR
| USBD_EVENT_RESET
| USBD_EVENT_SOF
| USBD_EVENT_CONNECTED
| USBD_EVENT_DISCONNECTED
| USBD_EVENT_SUSPEND
| USBD_EVENT_RESUME
| USBD_EVENT_CONFIGURED
| USBD_EVENT_SET_INTERFACE
| USBD_EVENT_SET_REMOTE_WAKEUP
| USBD_EVENT_CLR_REMOTE_WAKEUP
| USBD_EVENT_INIT
| USBD_EVENT_DEINIT
| USBD_EVENT_UNKNOWN.

Record usb_setup_packet := {
  bmRequestType : Z;
  bRequest : Z;
  wValue : Z;
  wIndex : Z;
  wLength : Z;
}.
(** The request types and codes of [usb_def.h]. *)
Definition req_in (s : usb_setup_packet) : bool := Z.land (bmRequestType s) 0x80 =? 0x80.
Definition req_out (s : usb_setup_packet) : bool := Z.land (bmRequestType s) 0x80 =? 0.
Definition req_type (s : usb_setup_packet) : Z := Z.land (bmRequestType s) 0x60.
Definition req_recipient (s : usb_setup_packet) : Z := Z.land (bmRequestType s) 3.
(** [memcpy(setup, psetup, 8)] *)
Definition setup_at (m : bmem) (p : Z) : usb_setup_packet :=
  {| bmRequestType := ld8 m p; bRequest := ld8 m (p + 1); wValue := rd16 m (p + 2);
     wIndex := rd16 m (p + 4); wLength := rd16 m (p + 6) |}.

Record usb_msosv1_descriptor := { v1_string : Z; v1_vendor_code : Z; v1_compat_id : Z; v1_comp_id_property : Z }.
Record usb_msosv2_descriptor := { v2_compat_id : Z; v2_compat_id_len : Z; v2_vendor_code : Z }.
Record usb_bos_descriptor := { bos_string : Z; bos_string_len : Z }.
Record usb_webusb_descriptor := { web_vendor_code : Z; web_string : Z; web_string_len : Z }.

Section core.
Context {W : Type}.

(** What the class drivers and the application act on. *)
Record world := { um : bmem; uw : W; port : list port_call }.
Definition call_port (c : port_call) (w : world) : world := {| um := um w; uw := uw w; port := port w ++ [c] |}.
Definition with_um (m : bmem) (w : world) : world := {| um := m; uw := uw w; port := port w |}.
Definition with_uw (x : W) (w : world) : world := {| um := um w; uw := x; port := port w |}.
Definition poke (p v : Z) (w : world) : world := with_um (wr (um w) p (u8 v)) w.

(** [usbd_request_handler]: the setup packet, [*data] and [*len]; the result with
    the new [*data] and [*len]. *)
Record handled := { h_ret : Z; h_data : Z; h_len : Z; h_world : world }.
Definition usbd_request_handler : Type := usb_setup_packet -> Z -> Z -> world -> handled.
Definition usbd_notify_handler : Type := usbd_event_type -> Z -> world -> world.
Inductive usbd_endpoint_callback :=
| usbd_event_ep0_in_complete
| usbd_event_ep0_out_complete
| class_callback (f : Z -> Z -> world -> world).

(** The member [nbytes] of the structure is never used. *)
Record usbd_tx_rx_msg := { ep : Z; ep_mult : Z; ep_mps : Z; cb : option usbd_endpoint_callback }.
Record usbd_interface := {
  class_interface_handler : option usbd_request_handler;
  class_endpoint_handler : option usbd_request_handler;
  vendor_handler : option usbd_request_handler;
  notify_handler : option usbd_notify_handler;
  hid_report_descriptor : Z;
  hid_report_descriptor_len : Z;
  intf_num : Z;
}.
Record usbd_endpoint := { ep_addr : Z; ep_cb : option usbd_endpoint_callback }.

(** ** [struct usbd_core_priv], its members in groups

    [req_data] is the address of the member of that name.  The interfaces are
    registered by reference: [intf] holds keys of [interfaces]. *)
Record ep0_state := {
  setup : usb_setup_packet;
  ep0_data_buf : Z;
  ep0_data_buf_residue : Z;
  ep0_data_buf_len : Z;
  zlp_flag : bool;
}.
Record desc_state := {
  descriptors : Z;
  msosv1_desc : option usb_msosv1_descriptor;
  msosv2_desc : option usb_msosv2_descriptor;
  bos_desc : option usb_bos_descriptor;
  webusb_url_desc : option usb_webusb_descriptor;
}.
Record dev_state := {
  configuration : Z;
  device_address : Z;
  self_powered : bool;
  remote_wakeup_support : bool;
  remote_wakeup_enabled : bool;
  is_suspend : bool;
}.
Record usbd_core_priv := {
  ep0 : ep0_state;
  desc : desc_state;
  dev : dev_state;
  req_data : Z;
  intf : list (option nat);
  intf_offset : Z;
  tx_msg : list usbd_tx_rx_msg;
  rx_msg : list usbd_tx_rx_msg;
  event_handler : option (usbd_event_type -> world -> world);
}.
Record ustate := { core : usbd_core_priv; interfaces : gmap nat usbd_interface; wd : world }.

Definition with_core (c : usbd_core_priv) (s : ustate) : ustate := {| core := c; interfaces := interfaces s; wd := wd s |}.
Definition on_wd (f : world -> world) (s : ustate) : ustate := {| core := core s; interfaces := interfaces s; wd := f (wd s) |}.
Definition on_core (f : usbd_core_priv -> usbd_core_priv) (s : ustate) : ustate := with_core (f (core s)) s.
Definition with_ep0 (e : ep0_state) (c : usbd_core_priv) : usbd_core_priv :=
  {| ep0 := e; desc := desc c; dev := dev c; req_data := req_data c; intf := intf c; intf_offset := intf_offset c;
     tx_msg := tx_msg c; rx_msg := rx_msg c; event_handler := event_handler c |}.
Definition with_desc (d : desc_state) (c : usbd_core_priv) : usbd_core_priv :=
  {| ep0 := ep0 c; desc := d; dev := dev c; req_data := req_data c; intf := intf c; intf_offset := intf_offset c;
     tx_msg := tx_msg c; rx_msg := rx_msg c; event_handler := event_handler c |}.
Definition with_dev (d : dev_state) (c : usbd_core_priv) : usbd_core_priv :=
  {| ep0 := ep0 c; desc := desc c; dev := d; req_data := req_data c; intf := intf c; intf_offset := intf_offset c;
     tx_msg := tx_msg c; rx_msg := rx_msg c; event_handler := event_handler c |}.
Definition with_intf (i : list (option nat)) (n : Z) (c : usbd_core_priv) : usbd_core_priv :=
  {| ep0 := ep0 c; desc := desc c; dev := dev c; req_data := req_data c; intf := i; intf_offset := n;
     tx_msg := tx_msg c; rx_msg := rx_msg c; event_handler := event_handler c |}.
Definition with_msgs (t r : list usbd_tx_rx_msg) (c : usbd_core_priv) : usbd_core_priv :=
  {| ep0 := ep0 c; desc := desc c; dev := dev c; req_data := req_data c; intf := intf c; intf_offset := intf_offset c;
     tx_msg := t; rx_msg := r; event_handler := event_handler c |}.
Definition with_event_handler (h : option (usbd_event_type -> world -> world)) (c : usbd_core_priv) : usbd_core_priv :=
  {| ep0 := ep0 c; desc := desc c; dev := dev c; req_data := req_data c; intf := intf c; intf_offset := intf_offset c;
     tx_msg := tx_msg c; rx_msg := rx_msg c; event_handler := h |}.
Definition on_ep0 (f : ep0_state -> ep0_state) : ustate -> ustate := on_core (fun c => with_ep0 (f (ep0 c)) c).
Definition on_dev (f : dev_state -> dev_state) : ustate -> ustate := on_core (fun c => with_dev (f (dev c)) c).
Definition set_buf (p n : Z) (e : ep0_state) : ep0_state :=
  {| setup := setup e; ep0_data_buf := p; ep0_data_buf_residue := n; ep0_data_buf_len := ep0_data_buf_len e; zlp_flag := zlp_flag e |}.
Definition set_buf_len (n : Z) (e : ep0_state) : ep0_state :=
  {| setup := setup e; ep0_data_buf := ep0_data_buf e; ep0_data_buf_residue := ep0_data_buf_residue e; ep0_data_buf_len := n; zlp_flag := zlp_flag e |}.
Definition set_zlp (b : bool) (e : ep0_state) : ep0_state :=
  {| setup := setup e; ep0_data_buf := ep0_data_buf e; ep0_data_buf_residue := ep0_data_buf_residue e; ep0_data_buf_len := ep0_data_buf_len e; zlp_flag := b |}.
Definition set_configured (v : Z) (susp : bool) (d : dev_state) : dev_state :=
  {| configuration := v; device_address := device_address d; self_powered := self_powered d; remote_wakeup_support := remote_wakeup_support d;
     remote_wakeup_enabled := remote_wakeup_enabled d; is_suspend := susp |}.
Definition set_device_address (a : Z) (d : dev_state) : dev_state :=
  {| configuration := configuration d; device_address := a; self_powered := self_powered d; remote_wakeup_support := remote_wakeup_support d;
     remote_wakeup_enabled := remote_wakeup_enabled d; is_suspend := is_suspend d |}.
Definition set_power (sp rw : bool) (d : dev_state) : dev_state :=
  {| configuration := configuration d; device_address := device_address d; self_powered := sp; remote_wakeup_support := rw;
     remote_wakeup_enabled := remote_wakeup_enabled d; is_suspend := is_suspend d |}.
Definition set_wakeup_enabled (b : bool) (d : dev_state) : dev_state :=
  {| configuration := configuration d; device_address := device_address d; self_powered := self_powered d; remote_wakeup_support := remote_wakeup_support d;
     remote_wakeup_enabled := b; is_suspend := is_suspend d |}.
Definition callp (c : port_call) : ustate -> ustate := on_wd (call_port c).
Definition mem (s : ustate) : bmem := um (wd s).

(** ** Notifications *)
Definition intf_at (s : ustate) (i : nat) : option usbd_interface :=
  match intf (core s) !! i with Some (Some key) => interfaces s !! key | _ => None end.
(** The loops over the interfaces, [i] from 0 to [intf_offset]. *)
Definition intf_indices (s : ustate) : list nat := seq 0 (Z.to_nat (intf_offset (core s))).
(** [arg] is 0 or the address of an interface descriptor. *)
Definition usbd_class_event_notify_handler (event : usbd_event_type) (arg : Z) (s : ustate) : ustate :=
  foldl (fun s i =>
    match intf_at s i with
    | Some itf =>
        match notify_handler itf with
        | Some notify =>
            if negb (arg =? 0) then
              if ld8 (mem s) (arg + 2) =? intf_num itf then on_wd (notify event arg) s else s
            else on_wd (notify event arg) s
        | None => s
        end
    | None => s
    end) s (intf_indices s).
Definition notify_app (event : usbd_event_type) (s : ustate) : ustate :=
  match event_handler (core s) with Some h => on_wd (h event) s | None => s end.

Definition is_device_configured (s : ustate) : bool := negb (configuration (dev (core s)) =? 0).

Section ops.
Context `{UsbPort}.
(** More than the number of descriptors of a table. *)
Context (fuel : nat).

(** ** Endpoints *)
(** [ep->bEndpointAddress], [bmAttributes] and [wMaxPacketSize]. *)
Definition usbd_ep_open (ep_addr attributes w : Z) (s : ustate) : ustate * Z :=
  (callp (PEpOpen ep_addr attributes w) s, usbd_ep_open_ret (port (wd s)) ep_addr attributes w).
Definition set_msg (mps mult : Z) (msg : usbd_tx_rx_msg) : usbd_tx_rx_msg :=
  {| ep := ep msg; ep_mult := mult; ep_mps := mps; cb := cb msg |}.
Definition usbd_set_endpoint (p : Z) (s : ustate) : ustate * bool :=
  let addr := ld8 (mem s) (p + 2) in
  let w := rd16 (mem s) (p + 4) in
  let i := Z.to_nat (Z.land addr 0x7f) in
  let msg := set_msg (USB_GET_MAXPACKETSIZE w) (USB_GET_MULT w) in
  let s := on_core (fun c =>
    if negb (Z.land addr 0x80 =? 0) then with_msgs (alter msg i (tx_msg c)) (rx_msg c) c
    else with_msgs (tx_msg c) (alter msg i (rx_msg c)) c) s in
  let '(s, ret) := usbd_ep_open addr (ld8 (mem s) (p + 3)) w s in
  (s, ret =? 0).
Definition usbd_reset_endpoint (p : Z) (s : ustate) : ustate * bool :=
  let addr := ld8 (mem s) (p + 2) in
  (callp (PEpClose addr) s, usbd_ep_close_ret (port (wd s)) addr =? 0).

(** ** Descriptors *)
(** The loop of [usbd_get_descriptor]: the [index]-th descriptor of a type. *)
Fixpoint find_descriptor (n : nat) (m : bmem) (p type index cur_index : Z) : option Z :=
  match n with
  | O => None
  | S n =>
      if ld8 m p =? 0 then None
      else if ld8 m (p + 1) =? type then
        if cur_index =? index then Some p
        else find_descriptor n m (p + ld8 m p) type index (u32 (cur_index + 1))
      else find_descriptor n m (p + ld8 m p) type index cur_index
  end.
(** The result, the descriptor and its length. *)
Definition usbd_get_descriptor (type_index : Z) (s : ustate) : ustate * option (Z * Z) :=
  let type := HI_BYTE type_index in
  let index := LO_BYTE type_index in
  let d := desc (core s) in
  let m := mem s in
  if (type =? 3) && (index =? 0xEE) then
    (s, v ← msosv1_desc d; Some (v1_string v, ld8 m (v1_string v)))
  else if type =? 0x0F then
    (s, b ← bos_desc d; Some (bos_string b, bos_string_len b))
  else if (type =? 4) || (type =? 5) || (5 <? type) then (s, None)
  else
    match find_descriptor fuel m (descriptors d) type index 0 with
    | Some p =>
        if (type =? 2) || (type =? 7) then
          (on_dev (set_power (negb (Z.land (ld8 m (p + 7)) 0x40 =? 0)) (negb (Z.land (ld8 m (p + 7)) 0x20 =? 0))) s,
           Some (p, rd16 m (p + 2)))
        else (s, Some (p, ld8 m p))
    | None => (s, None)
    end.

(** The end of a turn of the loops below: to the next descriptor; the loop ends
    behind the configuration. *)
Definition past_end (current_desc_len desc_len : Z) : bool := (desc_len <=? current_desc_len) && negb (desc_len =? 0).

Record cfg_walk := { w_alt : Z; w_config : Z; w_found : bool; w_desc_len : Z; w_current_len : Z }.
Fixpoint set_configuration_loop (n : nat) (config_index alt_setting p : Z) (w : cfg_walk) (s : ustate) : ustate * bool :=
  match n with
  | O => (s, w_found w)
  | S n =>
      let m := mem s in
      if ld8 m p =? 0 then (s, w_found w)
      else
        let '(s, w) :=
          if ld8 m (p + 1) =? 2 then
            let v := ld8 m (p + 5) in
            (s, if v =? config_index then {| w_alt := w_alt w; w_config := v; w_found := true; w_desc_len := rd16 m (p + 2); w_current_len := 0 |}
                else {| w_alt := w_alt w; w_config := v; w_found := w_found w; w_desc_len := w_desc_len w; w_current_len := w_current_len w |})
          else if ld8 m (p + 1) =? 4 then
            (s, {| w_alt := ld8 m (p + 3); w_config := w_config w; w_found := w_found w; w_desc_len := w_desc_len w; w_current_len := w_current_len w |})
          else if ld8 m (p + 1) =? 5 then
            if negb (w_config w =? config_index) || negb (w_alt w =? alt_setting) then (s, w)
            else
              let '(s, ok) := usbd_set_endpoint p s in
              (s, {| w_alt := w_alt w; w_config := w_config w; w_found := ok; w_desc_len := w_desc_len w; w_current_len := w_current_len w |})
          else (s, w) in
        let p := p + ld8 m p in
        let w := {| w_alt := w_alt w; w_config := w_config w; w_found := w_found w; w_desc_len := w_desc_len w;
                    w_current_len := u32 (w_current_len w + ld8 m p) |} in
        if past_end (w_current_len w) (w_desc_len w) then (s, w_found w)
        else set_configuration_loop n config_index alt_setting p w s
  end.
Definition usbd_set_configuration (config_index alt_setting : Z) (s : ustate) : ustate * bool :=
  set_configuration_loop fuel config_index alt_setting (descriptors (desc (core s)))
    {| w_alt := 0xFF; w_config := 0xFF; w_found := false; w_desc_len := 0; w_current_len := 0 |} s.

Record if_walk := { i_desc : Z; i_alt : Z; i_iface : Z; i_ret : bool; i_desc_len : Z; i_current_len : Z }.
Fixpoint set_interface_loop (n : nat) (iface alt_setting p : Z) (w : if_walk) (s : ustate) : ustate * if_walk :=
  match n with
  | O => (s, w)
  | S n =>
      let m := mem s in
      if ld8 m p =? 0 then (s, w)
      else
        let '(s, w) :=
          if ld8 m (p + 1) =? 2 then
            (s, {| i_desc := i_desc w; i_alt := i_alt w; i_iface := i_iface w; i_ret := i_ret w; i_desc_len := rd16 m (p + 2); i_current_len := 0 |})
          else if ld8 m (p + 1) =? 4 then
            let alt := ld8 m (p + 3) in
            let itf := ld8 m (p + 2) in
            (s, {| i_desc := if (itf =? iface) && (alt =? alt_setting) then p else i_desc w; i_alt := alt; i_iface := itf; i_ret := i_ret w;
                   i_desc_len := i_desc_len w; i_current_len := i_current_len w |})
          else if ld8 m (p + 1) =? 5 then
            if i_iface w =? iface then
              let '(s, ok) := if negb (i_alt w =? alt_setting) then usbd_reset_endpoint p s else usbd_set_endpoint p s in
              (s, {| i_desc := i_desc w; i_alt := i_alt w; i_iface := i_iface w; i_ret := ok; i_desc_len := i_desc_len w; i_current_len := i_current_len w |})
            else (s, w)
          else (s, w) in
        let p := p + ld8 m p in
        let w := {| i_desc := i_desc w; i_alt := i_alt w; i_iface := i_iface w; i_ret := i_ret w; i_desc_len := i_desc_len w;
                    i_current_len := u32 (i_current_len w + ld8 m p) |} in
        if past_end (i_current_len w) (i_desc_len w) then (s, w)
        else set_interface_loop n iface alt_setting p w s
  end.
(** [iface] and [alt_setting] are bytes. *)
Definition usbd_set_interface (iface alt_setting : Z) (s : ustate) : ustate * bool :=
  let '(s, w) := set_interface_loop fuel (u8 iface) (u8 alt_setting) (descriptors (desc (core s)))
    {| i_desc := 0; i_alt := 0xFF; i_iface := 0xFF; i_ret := false; i_desc_len := 0; i_current_len := 0 |} s in
  (usbd_class_event_notify_handler USBD_EVENT_SET_INTERFACE (i_desc w) s, i_ret w).

(** ** Standard requests

    The result, [*data], [*len] and the state. *)
Record reply := { r_ok : bool; r_data : Z; r_len : Z; r_state : ustate }.
Definition refuse (data len : Z) (s : ustate) : reply := {| r_ok := false; r_data := data; r_len := len; r_state := s |}.
Definition accept (data len : Z) (s : ustate) : reply := {| r_ok := true; r_data := data; r_len := len; r_state := s |}.
Definition pokes (p : Z) (l : list Z) (s : ustate) : ustate :=
  on_wd (fun w => foldl (fun w iv => poke (p + Z.of_nat iv.1) iv.2 w) w (zip (seq 0 (length l)) l)) s.

Definition usbd_std_device_req_handler (st : usb_setup_packet) (data len : Z) (s : ustate) : reply :=
  let value := wValue st in
  let d := dev (core s) in
  if bRequest st =? 0 then (* GET_STATUS *)
    accept data 2 (pokes data [(if self_powered d then 1 else 0) + (if remote_wakeup_enabled d then 2 else 0); 0] s)
  else if (bRequest st =? 1) || (bRequest st =? 3) then (* CLEAR_FEATURE, SET_FEATURE *)
    accept data 0
      (if value =? 1 then
         if bRequest st =? 3 then notify_app USBD_EVENT_SET_REMOTE_WAKEUP (on_dev (set_wakeup_enabled true) s)
         else notify_app USBD_EVENT_CLR_REMOTE_WAKEUP (on_dev (set_wakeup_enabled false) s)
       else s)
  else if bRequest st =? 5 then (* SET_ADDRESS *)
    accept data 0 (callp (PSetAddress (u8 value)) (on_dev (set_device_address (u8 value)) s))
  else if bRequest st =? 6 then (* GET_DESCRIPTOR *)
    match usbd_get_descriptor value s with
    | (s, Some (p, n)) => accept p n s
    | (s, None) => refuse data len s
    end
  else if bRequest st =? 8 then (* GET_CONFIGURATION *)
    accept data 1 (pokes data [configuration d] s)
  else if bRequest st =? 9 then (* SET_CONFIGURATION *)
    let value := Z.land value 0xFF in
    if value =? 0 then accept data 0 (on_dev (fun d => set_configured 0 (is_suspend d) d) s)
    else
      let '(s, ok) := usbd_set_configuration value 0 s in
      if negb ok then refuse data 0 s
      else
        let s := on_dev (set_configured value false) s in
        let s := usbd_class_event_notify_handler USBD_EVENT_CONFIGURED 0 s in
        accept data 0 (notify_app USBD_EVENT_CONFIGURED s)
  else refuse data len s.

(** The search of a HID descriptor in the table. *)
Fixpoint find_hid (n : nat) (m : bmem) (p intf_num cur_iface desc_len current_desc_len : Z) : option Z :=
  match n with
  | O => None
  | S n =>
      if ld8 m p =? 0 then None
      else
        let next cur_iface desc_len current_desc_len :=
          let p := p + ld8 m p in
          let current_desc_len := u32 (current_desc_len + ld8 m p) in
          if past_end current_desc_len desc_len then None else find_hid n m p intf_num cur_iface desc_len current_desc_len in
        if ld8 m (p + 1) =? 2 then next cur_iface (rd16 m (p + 2)) 0
        else if ld8 m (p + 1) =? 4 then next (ld8 m (p + 2)) desc_len current_desc_len
        else if ld8 m (p + 1) =? 0x21 then
          if cur_iface =? intf_num then Some p else next cur_iface desc_len current_desc_len
        else next cur_iface desc_len current_desc_len
  end.
(** The first registered interface with a number. *)
Definition find_intf (pred : usbd_interface -> bool) (s : ustate) : option usbd_interface :=
  head (omap (fun i => match intf_at s i with Some itf => if pred itf then Some itf else None | None => None end) (intf_indices s)).

Definition usbd_std_interface_req_handler (st : usb_setup_packet) (data len : Z) (s : ustate) : reply :=
  let type := HI_BYTE (wValue st) in
  let num := LO_BYTE (wIndex st) in
  if negb (is_device_configured s) then refuse data len s
  else if bRequest st =? 0 then accept data 2 (pokes data [0; 0] s)
  else if bRequest st =? 6 then
    if type =? 0x21 then
      match find_hid fuel (mem s) (descriptors (desc (core s))) num 0xFF 0 0 with
      | Some p => accept p (ld8 (mem s) p) s
      | None => refuse data len s
      end
    else if type =? 0x22 then
      match find_intf (fun itf => intf_num itf =? num) s with
      | Some itf => accept (hid_report_descriptor itf) (hid_report_descriptor_len itf) s
      | None => refuse data len s
      end
    else refuse data len s
  else if bRequest st =? 10 then accept data 1 (pokes data [0] s) (* GET_INTERFACE *)
  else if bRequest st =? 11 then (* SET_INTERFACE *)
    accept data 0 (usbd_set_interface (wIndex st) (wValue st) s).1
  else refuse data len s.

Definition usbd_std_endpoint_req_handler (st : usb_setup_packet) (data len : Z) (s : ustate) : reply :=
  let e := u8 (wIndex st) in
  if negb (is_device_configured s) then refuse data len s
  else if bRequest st =? 0 then
    accept data 2 (pokes data [if usbd_ep_stalled (port (wd s)) e then 1 else 0; 0] s)
  else if bRequest st =? 1 then
    if wValue st =? 0 then accept data len (callp (PClearStall e) s) else refuse data 0 s
  else if bRequest st =? 3 then
    if wValue st =? 0 then accept data 0 (callp (PSetStall e) s) else refuse data 0 s
  else refuse data len s.

Definition usbd_standard_request_handler (st : usb_setup_packet) (data len : Z) (s : ustate) : reply :=
  if req_recipient st =? 0 then usbd_std_device_req_handler st data len s
  else if req_recipient st =? 1 then usbd_std_interface_req_handler st data len s
  else if req_recipient st =? 2 then usbd_std_endpoint_req_handler st data len s
  else refuse data len s.

(** ** Class and vendor requests *)
Definition handle_with (h : usbd_request_handler) (st : usb_setup_packet) (data len : Z) (s : ustate) : reply :=
  let r := h st data len (wd s) in
  {| r_ok := 0 <=? h_ret r; r_data := h_data r; r_len := h_len r; r_state := on_wd (fun _ => h_world r) s |}.
Definition usbd_class_request_handler (st : usb_setup_packet) (data len : Z) (s : ustate) : reply :=
  let h :=
    if req_recipient st =? 1 then
      find_intf (fun itf => bool_decide (is_Some (class_interface_handler itf)) && (intf_num itf =? Z.land (wIndex st) 0xFF)) s ≫= class_interface_handler
    else if req_recipient st =? 2 then
      find_intf (fun itf => bool_decide (is_Some (class_endpoint_handler itf))) s ≫= class_endpoint_handler
    else None in
  match h with
  | Some h => handle_with h st data len s
  | None => refuse data len s
  end.

(** The vendor handlers in turn, to the first that returns 0. *)
Fixpoint vendor_loop (l : list nat) (st : usb_setup_packet) (data len : Z) (s : ustate) : reply :=
  match l with
  | [] => refuse data len s
  | i :: l =>
      match intf_at s i ≫= vendor_handler with
      | Some h =>
          let r := h st data len (wd s) in
          let s := on_wd (fun _ => h_world r) s in
          if h_ret r =? 0 then accept (h_data r) (h_len r) s
          else vendor_loop l st (h_data r) (h_len r) s
      | None => vendor_loop l st data len s
      end
  end.
(** The element of an array of pointers. *)
Definition ptr_at (m : bmem) (p i : Z) : Z := rd32 m (p + 4 * i).
(** The vendor requests of the registered Microsoft and WebUSB descriptors:
    [None] when the request is for none of them. *)
Definition usbd_os_request (st : usb_setup_packet) (data len : Z) (s : ustate) : option reply :=
  let d := desc (core s) in
  let m := mem s in
  let ms :=
    match msosv1_desc d, msosv2_desc d with
    | Some v1, _ =>
        if bRequest st =? v1_vendor_code v1 then
          Some (if wIndex st =? 4 then accept (v1_compat_id v1) (rd32 m (v1_compat_id v1)) s
                else if wIndex st =? 5 then
                  let p := ptr_at m (v1_comp_id_property v1) (wValue st) in accept p (rd32 m p) s
                else refuse data len s)
        else None
    | None, Some v2 =>
        if bRequest st =? v2_vendor_code v2 then
          Some (if wIndex st =? 7 then accept (v2_compat_id v2) (v2_compat_id_len v2) s else refuse data len s)
        else None
    | None, None => None
    end in
  match ms, webusb_url_desc d with
  | Some r, _ => Some r
  | None, Some w =>
      if bRequest st =? web_vendor_code w then
        Some (if wIndex st =? 2 then accept (web_string w) (web_string_len w) s else refuse data len s)
      else None
  | None, None => None
  end.
Definition usbd_vendor_request_handler (st : usb_setup_packet) (data len : Z) (s : ustate) : reply :=
  match usbd_os_request st data len s with
  | Some r => r
  | None => vendor_loop (intf_indices s) st data len s
  end.

Definition usbd_setup_request_handler (st : usb_setup_packet) (data len : Z) (s : ustate) : reply :=
  if req_type st =? 0 then usbd_standard_request_handler st data len s
  else if req_type st =? 0x20 then usbd_class_request_handler st data len s
  else if req_type st =? 0x40 then usbd_vendor_request_handler st data len s
  else refuse data len s.

(** ** Events of the port *)
Definition usbd_event_connect_handler (s : ustate) : ustate := notify_app USBD_EVENT_CONNECTED s.
Definition usbd_event_disconnect_handler (s : ustate) : ustate := notify_app USBD_EVENT_DISCONNECTED s.
Definition usbd_event_resume_handler (s : ustate) : ustate :=
  notify_app USBD_EVENT_RESUME (on_dev (fun d => set_configured (configuration d) false d) s).
Definition usbd_event_suspend_handler (s : ustate) : ustate :=
  if 0 <? device_address (dev (core s)) then
    notify_app USBD_EVENT_SUSPEND (on_dev (fun d => set_configured (configuration d) true d) s)
  else s.
Definition usbd_event_reset_handler (s : ustate) : ustate :=
  let s := callp (PSetAddress 0) s in
  let s := on_dev (fun d => set_configured 0 (is_suspend d) (set_device_address 0 d)) s in
  let s := (usbd_ep_open USB_CONTROL_IN_EP0 0 USB_CTRL_EP_MPS s).1 in
  let s := (usbd_ep_open USB_CONTROL_OUT_EP0 0 USB_CTRL_EP_MPS s).1 in
  let s := usbd_class_event_notify_handler USBD_EVENT_RESET 0 s in
  notify_app USBD_EVENT_RESET s.

Definition stall_ep0 : ustate -> ustate := callp (PSetStall USB_CONTROL_IN_EP0).
Definition ep0_write (data len : Z) : ustate -> ustate := callp (PStartWrite USB_CONTROL_IN_EP0 data len).
Definition ep0_read (data len : Z) : ustate -> ustate := callp (PStartRead USB_CONTROL_OUT_EP0 data len).

Definition usbd_event_ep0_setup_complete_handler (psetup : Z) (s : ustate) : ustate :=
  let st := setup_at (mem s) psetup in
  let s := on_ep0 (fun e => {| setup := st; ep0_data_buf := ep0_data_buf e; ep0_data_buf_residue := ep0_data_buf_residue e;
                               ep0_data_buf_len := ep0_data_buf_len e; zlp_flag := zlp_flag e |}) s in
  if (CONFIG_USBDEV_REQUEST_BUFFER_LEN <? wLength st) && req_out st then stall_ep0 s
  else
    let buf := req_data (core s) in
    let s := on_ep0 (fun e => {| setup := setup e; ep0_data_buf := buf; ep0_data_buf_residue := wLength st;
                                 ep0_data_buf_len := wLength st; zlp_flag := false |}) s in
    if negb (wLength st =? 0) && req_out st then ep0_read buf (wLength st) s
    else
      let r := usbd_setup_request_handler st buf (wLength st) s in
      let s := on_ep0 (set_buf_len (r_len r)) (r_state r) in
      if negb (r_ok r) then stall_ep0 s
      else
        let residue := Z.min (r_len r) (wLength st) in
        let s := on_ep0 (fun e => set_buf (ep0_data_buf e) residue e) s in
        if CONFIG_USBDEV_REQUEST_BUFFER_LEN <? residue then stall_ep0 s
        else
          let s :=
            if negb (r_data r =? buf) then
              on_wd (fun w => with_um (memcpy_bytes (Z.to_nat residue) buf (r_data r) (um w)) w) s
            else s in
          let s := ep0_write buf residue s in
          if (r_len r <? wLength st) && (r_len r mod USB_CTRL_EP_MPS =? 0) then on_ep0 (set_zlp true) s else s.

Definition usbd_event_ep0_in_complete_handler (nbytes : Z) (s : ustate) : ustate :=
  let s := on_ep0 (fun e => set_buf (u32 (ep0_data_buf e + nbytes)) (u32 (ep0_data_buf_residue e - nbytes)) e) s in
  let e := ep0 (core s) in
  if negb (ep0_data_buf_residue e =? 0) then ep0_write (ep0_data_buf e) (ep0_data_buf_residue e) s
  else if zlp_flag e then ep0_write 0 0 (on_ep0 (set_zlp false) s)
  else if negb (wLength (setup e) =? 0) && req_in (setup e) then ep0_read 0 0 s
  else s.

Definition usbd_event_ep0_out_complete_handler (nbytes : Z) (s : ustate) : ustate :=
  if 0 <? nbytes then
    let s := on_ep0 (fun e => set_buf (u32 (ep0_data_buf e + nbytes)) (u32 (ep0_data_buf_residue e - nbytes)) e) s in
    let e := ep0 (core s) in
    if ep0_data_buf_residue e =? 0 then
      let r := usbd_setup_request_handler (setup e) (req_data (core s)) (ep0_data_buf_len e) s in
      let s := on_ep0 (fun e => set_buf_len (r_len r) (set_buf (r_data r) (ep0_data_buf_residue e) e)) (r_state r) in
      if negb (r_ok r) then stall_ep0 s else ep0_write 0 0 s
    else ep0_read (ep0_data_buf e) (ep0_data_buf_residue e) s
  else s.

(** The callback registered for the endpoint. *)
Definition run_callback (msgs : list usbd_tx_rx_msg) (addr nbytes : Z) (s : ustate) : ustate :=
  match msgs !! Z.to_nat (Z.land addr 0x7f) ≫= cb with
  | Some usbd_event_ep0_in_complete => usbd_event_ep0_in_complete_handler nbytes s
  | Some usbd_event_ep0_out_complete => usbd_event_ep0_out_complete_handler nbytes s
  | Some (class_callback f) => on_wd (f addr nbytes) s
  | None => s
  end.
Definition usbd_event_ep_in_complete_handler (addr nbytes : Z) (s : ustate) : ustate := run_callback (tx_msg (core s)) addr nbytes s.
Definition usbd_event_ep_out_complete_handler (addr nbytes : Z) (s : ustate) : ustate := run_callback (rx_msg (core s)) addr nbytes s.

(** ** Registration *)
Definition no_msg : usbd_tx_rx_msg := {| ep := 0; ep_mult := 0; ep_mps := 0; cb := None |}.
Definition ep0_msg (addr : Z) (f : usbd_endpoint_callback) : usbd_tx_rx_msg := {| ep := addr; ep_mult := 0; ep_mps := 0; cb := Some f |}.
(** [memset(&g_usbd_core[busid], 0, ...)], the buffer of the member [req_data] included. *)
Definition usbd_desc_register (p : Z) (s : ustate) : ustate :=
  let rq := req_data (core s) in
  {| core :=
       {| ep0 := {| setup := {| bmRequestType := 0; bRequest := 0; wValue := 0; wIndex := 0; wLength := 0 |};
                    ep0_data_buf := 0; ep0_data_buf_residue := 0; ep0_data_buf_len := 0; zlp_flag := false |};
          desc := {| descriptors := p; msosv1_desc := None; msosv2_desc := None; bos_desc := None; webusb_url_desc := None |};
          dev := {| configuration := 0; device_address := 0; self_powered := false; remote_wakeup_support := false;
                    remote_wakeup_enabled := false; is_suspend := false |};
          req_data := rq;
          intf := replicate 16 None;
          intf_offset := 0;
          tx_msg := ep0_msg 0x80 usbd_event_ep0_in_complete :: replicate (CONFIG_USBDEV_EP_NUM - 1) no_msg;
          rx_msg := ep0_msg 0 usbd_event_ep0_out_complete :: replicate (CONFIG_USBDEV_EP_NUM - 1) no_msg;
          event_handler := None |};
     interfaces := interfaces s;
     wd := with_um (memset_bytes (Z.to_nat CONFIG_USBDEV_REQUEST_BUFFER_LEN) 0 rq (mem s)) (wd s) |}.
Definition on_desc (f : desc_state -> desc_state) : ustate -> ustate := on_core (fun c => with_desc (f (desc c)) c).
Definition usbd_msosv1_desc_register (v : usb_msosv1_descriptor) : ustate -> ustate :=
  on_desc (fun d => {| descriptors := descriptors d; msosv1_desc := Some v; msosv2_desc := msosv2_desc d; bos_desc := bos_desc d; webusb_url_desc := webusb_url_desc d |}).
Definition usbd_msosv2_desc_register (v : usb_msosv2_descriptor) : ustate -> ustate :=
  on_desc (fun d => {| descriptors := descriptors d; msosv1_desc := msosv1_desc d; msosv2_desc := Some v; bos_desc := bos_desc d; webusb_url_desc := webusb_url_desc d |}).
Definition usbd_bos_desc_register (v : usb_bos_descriptor) : ustate -> ustate :=
  on_desc (fun d => {| descriptors := descriptors d; msosv1_desc := msosv1_desc d; msosv2_desc := msosv2_desc d; bos_desc := Some v; webusb_url_desc := webusb_url_desc d |}).
Definition usbd_webusb_desc_register (v : usb_webusb_descriptor) : ustate -> ustate :=
  on_desc (fun d => {| descriptors := descriptors d; msosv1_desc := msosv1_desc d; msosv2_desc := msosv2_desc d; bos_desc := bos_desc d; webusb_url_desc := Some v |}).
Definition set_intf_num (n : Z) (i : usbd_interface) : usbd_interface :=
  {| class_interface_handler := class_interface_handler i; class_endpoint_handler := class_endpoint_handler i; vendor_handler := vendor_handler i;
     notify_handler := notify_handler i; hid_report_descriptor := hid_report_descriptor i; hid_report_descriptor_len := hid_report_descriptor_len i; intf_num := n |}.
(** The array has 16 elements; a further interface would be stored behind it. *)
Definition usbd_add_interface (key : nat) (s : ustate) : option ustate :=
  let n := intf_offset (core s) in
  if n <? 16 then
    Some {| core := with_intf (<[Z.to_nat n := Some key]> (intf (core s))) (u8 (n + 1)) (core s);
            interfaces := alter (set_intf_num n) key (interfaces s); wd := wd s |}
  else None.
Definition set_callback (e : usbd_endpoint) (msg : usbd_tx_rx_msg) : usbd_tx_rx_msg :=
  {| ep := ep_addr e; ep_mult := ep_mult msg; ep_mps := ep_mps msg; cb := ep_cb e |}.
Definition usbd_add_endpoint (e : usbd_endpoint) : ustate -> ustate :=
  let i := Z.to_nat (Z.land (ep_addr e) 0x7f) in
  on_core (fun c =>
    if negb (Z.land (ep_addr e) 0x80 =? 0) then with_msgs (alter (set_callback e) i (tx_msg c)) (rx_msg c) c
    else with_msgs (tx_msg c) (alter (set_callback e) i (rx_msg c)) c).
Definition ep_msg (addr : Z) (s : ustate) : usbd_tx_rx_msg :=
  default no_msg ((if negb (Z.land addr 0x80 =? 0) then tx_msg (core s) else rx_msg (core s)) !! Z.to_nat (Z.land addr 0x7f)).
Definition usbd_get_ep_mps (addr : Z) (s : ustate) : Z := ep_mps (ep_msg addr s).
Definition usbd_get_ep_mult (addr : Z) (s : ustate) : Z := ep_mult (ep_msg addr s).
Definition usb_device_is_configured (s : ustate) : bool := negb (configuration (dev (core s)) =? 0).
Definition usb_device_is_suspend (s : ustate) : bool := is_suspend (dev (core s)).
Definition usbd_send_remote_wakeup (s : ustate) : ustate * Z :=
  let d := dev (core s) in
  if remote_wakeup_support d && remote_wakeup_enabled d && is_suspend d then
    (callp PRemoteWakeup s, usbd_set_remote_wakeup_ret (port (wd s)))
  else (s, -1).
Definition usbd_initialize (h : usbd_event_type -> world -> world) (s : ustate) : ustate * Z :=
  let s := on_core (with_event_handler (Some h)) s in
  let ret := usb_dc_init_ret (port (wd s)) in
  let s := callp PInit s in
  let s := usbd_class_event_notify_handler USBD_EVENT_INIT 0 s in
  (notify_app USBD_EVENT_INIT s, ret).
Definition usbd_deinitialize (s : ustate) : ustate :=
  let s := notify_app USBD_EVENT_DEINIT s in
  let s := usbd_class_event_notify_handler USBD_EVENT_DEINIT 0 s in
  let s := callp PDeinit s in
  on_core (fun c => with_intf (intf c) 0 c) s.
End ops.
End core.
Arguments world : clear implicits.
Arguments handled : clear implicits.
Arguments usbd_interface : clear implicits.
Arguments usbd_endpoint_callback : clear implicits.
Arguments usbd_tx_rx_msg : clear implicits.
Arguments usbd_core_priv : clear implicits.
Arguments ustate : clear implicits.
Arguments reply : clear implicits.
