(* ===== verification/UsbFrame.v ===== *)
(** * What the requests of the USB device core leave alone

    [uframe]: a request handler neither touches the transfer on the control
    endpoint nor the registrations, calls the port for other endpoints only and
    writes only to the control buffer and to memory of the class drivers, provided
    the functions registered with the core do so ([funs_ok]). *)
From S2P Require Import Prelude KString UsbCore.

Lemma ld8_range m p : 0 <= ld8 m p < 256.
Proof. unfold ld8, u8. apply Z.mod_pos_bound. lia. Qed.
Lemma lor_bound a b n : 0 <= n -> 0 <= a < 2 ^ n -> 0 <= b < 2 ^ n -> 0 <= Z.lor a b < 2 ^ n.
Proof.
  intros Hn Ha Hb. assert (H0 : 0 <= Z.lor a b) by (apply Z.lor_nonneg; lia). split; [done|].
  destruct (decide (Z.lor a b = 0)) as [->|Hz]; [lia|]. apply Z.log2_lt_pow2; [lia|]. rewrite Z.log2_lor by lia.
  apply Z.max_lub_lt.
  - destruct (decide (a = 0)) as [->|]; [cbn|apply Z.log2_lt_pow2; lia].
    destruct (decide (n = 0)) as [->|]; [|lia]. assert (b = 0) as -> by lia. done.
  - destruct (decide (b = 0)) as [->|]; [cbn|apply Z.log2_lt_pow2; lia].
    destruct (decide (n = 0)) as [->|]; [|lia]. assert (a = 0) as -> by lia. done.
Qed.
Lemma rd16_range m p : 0 <= rd16 m p < 65536.
Proof.
  unfold rd16. change 65536 with (2 ^ 16). pose proof (ld8_range m p). pose proof (ld8_range m (p + 1)).
  rewrite Z.shiftl_mul_pow2 by lia. apply lor_bound; lia.
Qed.
Lemma rd32_range m p : 0 <= rd32 m p.
Proof. apply Z.mod_pos_bound. lia. Qed.

Section frame.
Context {W : Type} `{UsbPort} (fuel : nat).
(** The address of [req_data] and the memory of the class drivers. *)
Context (rq : Z) (own : Z -> Prop).

Definition mine (q : Z) : Prop := own q \/ rq <= q < rq + CONFIG_USBDEV_REQUEST_BUFFER_LEN.
Definition ep0_call (c : port_call) : bool :=
  match c with PStartWrite a _ _ | PStartRead a _ _ => Z.land a 0x7f =? 0 | _ => false end.
Record wframe (w w' : world W) : Prop := {
  wf_port : exists l, port w' = port w ++ l /\ Forall (fun c => ep0_call c = false) l;
  wf_mem : forall q, ~ mine q -> rd (um w') q = rd (um w) q;
}.
#[export] Instance wframe_pre : PreOrder wframe.
Proof.
  split.
  - intros w. constructor; [exists []; by rewrite app_nil_r|done].
  - intros a b c [(l1 & E1 & F1) M1] [(l2 & E2 & F2) M2]. constructor.
    + exists (l1 ++ l2). split; [by rewrite E2, E1, app_assoc|by apply Forall_app].
    + intros q Hq. by rewrite M2, M1.
Qed.
Lemma wframe_call c w : ep0_call c = false -> wframe w (call_port c w).
Proof. intros Hc. constructor; [exists [c]; split; [done|by constructor]|done]. Qed.

Definition handler_ok (h : usbd_request_handler) : Prop :=
  forall st len w, 0 <= len -> let r := h st rq len w in 0 <= h_len r /\ wframe w (h_world r).
(** A vendor handler may be called after another one has moved the pointer. *)
Definition vendor_ok (h : usbd_request_handler) : Prop :=
  forall st data len w, 0 <= len -> let r := h st data len w in 0 <= h_len r /\ wframe w (h_world r).
Record intf_ok (i : usbd_interface W) : Prop := {
  io_intf : forall h, class_interface_handler i = Some h -> handler_ok h;
  io_ep : forall h, class_endpoint_handler i = Some h -> handler_ok h;
  io_vendor : forall h, vendor_handler i = Some h -> vendor_ok h;
  io_notify : forall h, notify_handler i = Some h -> forall e a w, wframe w (h e a w);
  io_hid : 0 <= hid_report_descriptor_len i;
}.
Definition callback_ok (own_cb : usbd_endpoint_callback W) (i : nat) (c : usbd_endpoint_callback W) : Prop :=
  match c with
  | class_callback f => i <> 0%nat /\ forall a n w, wframe w (f a n w)
  | _ => i = 0%nat /\ c = own_cb
  end.
Definition cbs_ok (own_cb : usbd_endpoint_callback W) (l : list (usbd_tx_rx_msg W)) : Prop :=
  forall i msg c, l !! i = Some msg -> cb msg = Some c -> callback_ok own_cb i c.
Record desc_ok (d : desc_state) : Prop := {
  do_v2 : forall v, msosv2_desc d = Some v -> 0 <= v2_compat_id_len v;
  do_bos : forall v, bos_desc d = Some v -> 0 <= bos_string_len v;
  do_web : forall v, webusb_url_desc d = Some v -> 0 <= web_string_len v;
}.
Record funs_ok (s : ustate W) : Prop := {
  fo_rq : req_data (core s) = rq;
  fo_intf : forall k i, interfaces s !! k = Some i -> intf_ok i;
  fo_tx : cbs_ok usbd_event_ep0_in_complete (tx_msg (core s));
  fo_rx : cbs_ok usbd_event_ep0_out_complete (rx_msg (core s));
  fo_app : forall h, event_handler (core s) = Some h -> forall e w, wframe w (h e w);
  fo_desc : desc_ok (desc (core s));
}.
Record uframe (s s' : ustate W) : Prop := {
  uf_ep0 : ep0 (core s') = ep0 (core s);
  uf_rq : req_data (core s') = req_data (core s);
  uf_intf : interfaces s' = interfaces s;
  uf_tx : cb <$> tx_msg (core s') = cb <$> tx_msg (core s);
  uf_rx : cb <$> rx_msg (core s') = cb <$> rx_msg (core s);
  uf_app : event_handler (core s') = event_handler (core s);
  uf_desc : desc (core s') = desc (core s);
  uf_wd : wframe (wd s) (wd s');
}.
#[export] Instance uframe_pre : PreOrder uframe.
Proof.
  split.
  - intros s. by constructor.
  - intros a b c Hab Hbc. destruct Hab, Hbc. constructor; try congruence. by etransitivity.
Qed.
Lemma cbs_ok_map f l l' : cb <$> l' = cb <$> l -> cbs_ok f l -> cbs_ok f l'.
Proof.
  intros E Hl i msg c Hi Hc. assert (Hf : (cb <$> l) !! i = Some (Some c)) by (by rewrite <- E, list_lookup_fmap, Hi; cbn; rewrite Hc).
  rewrite list_lookup_fmap in Hf. destruct (l !! i) as [msg'|] eqn:Em; [|done]. injection Hf as Hf. by eapply Hl.
Qed.
Lemma funs_ok_frame s s' : funs_ok s -> uframe s s' -> funs_ok s'.
Proof.
  intros [Frq Fintf Ftx Frx Fapp] [Ue Urq Uintf Utx Urx Uapp Udesc Uwd]. constructor.
  - congruence.
  - rewrite Uintf. done.
  - by eapply cbs_ok_map.
  - by eapply cbs_ok_map.
  - rewrite Uapp. done.
  - by rewrite Udesc.
Qed.

Lemma funs_ok_wd f (s : ustate W) : funs_ok s -> funs_ok (on_wd f s).
Proof. by intros [? ? ? ? ? ?]. Qed.

(** ** The building blocks *)
Lemma uframe_wd f s : wframe (wd s) (f (wd s)) -> uframe s (on_wd f s).
Proof. intros Hf. by constructor. Qed.
Lemma uframe_callp c s : ep0_call c = false -> uframe s (callp c s).
Proof. intros Hc. apply uframe_wd. by apply wframe_call. Qed.
Lemma uframe_dev f s : uframe s (on_dev f s).
Proof. by constructor. Qed.
Lemma cb_alter mps mult i (l : list (usbd_tx_rx_msg W)) : cb <$> alter (set_msg mps mult) i l = cb <$> l.
Proof.
  apply list_eq. intros j. rewrite !list_lookup_fmap, list_lookup_alter. case_decide; [|done]. subst. by destruct (l !! j).
Qed.
Lemma uframe_msgs mps mult addr i s :
  uframe s (on_core (fun c =>
    if negb (Z.land addr 0x80 =? 0) then with_msgs (alter (set_msg mps mult) i (tx_msg c)) (rx_msg c) c
    else with_msgs (tx_msg c) (alter (set_msg mps mult) i (rx_msg c)) c) s).
Proof. unfold on_core. destruct (negb _); constructor; try done; apply cb_alter. Qed.
Lemma uframe_pokes l s : (length l <= 2)%nat -> uframe s (pokes rq l s).
Proof.
  intros Hl. apply uframe_wd.
  assert (Hgen : forall k l, Z.of_nat (k + length l) <= 2 ->
    forall w, wframe w (foldl (fun w iv => poke (rq + Z.of_nat iv.1) iv.2 w) w (zip (seq k (length l)) l))).
  { clear. intros k l. revert k. induction l as [|v l IH]; intros k Hk w; [done|]. cbn [length seq zip zip_with foldl fst snd] in *.
    etransitivity; [|apply IH; lia]. constructor; [exists []; by rewrite app_nil_r|].
    intros q Hq. cbn [um poke with_um]. rewrite rd_wr. rewrite decide_False; [done|]. intros <-. apply Hq. right.
    unfold CONFIG_USBDEV_REQUEST_BUFFER_LEN. lia. }
  apply Hgen. lia.
Qed.
Lemma uframe_notify_class e arg s : funs_ok s -> uframe s (usbd_class_event_notify_handler e arg s).
Proof.
  unfold usbd_class_event_notify_handler. generalize (intf_indices s) as l. intros l. revert s.
  induction l as [|i l IH]; intros s Hs; [done|]. cbn [foldl].
  match goal with |- uframe _ (foldl _ ?x _) => assert (Hx : uframe s x) end.
  { destruct (intf_at s i) as [itf|] eqn:Ei; [|done]. destruct (notify_handler itf) as [h|] eqn:Eh; [|done].
    assert (Hh : uframe s (on_wd (h e arg) s)).
    { apply uframe_wd. unfold intf_at in Ei. destruct (intf (core s) !! i) as [[key|]|]; try done.
      by apply (io_notify _ (fo_intf s Hs _ _ Ei)). }
    by repeat case_match. }
  etransitivity; [exact Hx|]. apply IH. by eapply funs_ok_frame.
Qed.
Lemma uframe_notify_app e s : funs_ok s -> uframe s (notify_app e s).
Proof. intros Hs. unfold notify_app. destruct (event_handler (core s)) as [h|] eqn:Eh; [|done]. apply uframe_wd. by apply (fo_app s Hs). Qed.
Lemma uframe_ep_open a b c s : uframe s (usbd_ep_open a b c s).1.
Proof. by apply uframe_callp. Qed.
Lemma uframe_set_endpoint p s : uframe s (usbd_set_endpoint p s).1.
Proof.
  unfold usbd_set_endpoint. match goal with |- context [usbd_ep_open _ _ _ ?x] => assert (Hx : uframe s x) by apply uframe_msgs end.
  etransitivity; [exact Hx|]. by apply uframe_callp.
Qed.
Lemma uframe_reset_endpoint p s : uframe s (usbd_reset_endpoint p s).1.
Proof. by apply uframe_callp. Qed.

Lemma uframe_get_descriptor ti s s' r : usbd_get_descriptor fuel ti s = (s', r) ->
  uframe s s' /\ (forall p n, r = Some (p, n) -> desc_ok (desc (core s)) -> 0 <= n).
Proof.
  unfold usbd_get_descriptor. destruct ((HI_BYTE ti =? 3) && _).
  { intros [= <- <-]. split; [done|]. intros p n E _. apply bind_Some in E as (v & _ & [= <- <-]). pose proof (ld8_range (mem s) (v1_string v)). lia. }
  destruct (HI_BYTE ti =? 0x0F).
  { intros [= <- <-]. split; [done|]. intros p n E Hd. apply bind_Some in E as (v & Ev & [= <- <-]). by eapply do_bos. }
  destruct (_ || _ || _); [intros [= <- <-]; split; [done|by intros]|].
  destruct (find_descriptor _ _ _ _ _ _) as [p|]; [|intros [= <- <-]; split; [done|by intros]].
  destruct (_ || _); intros [= <- <-]; (split; [first [apply uframe_dev|done]|]); intros p' n [= <- <-] _.
  - pose proof (rd16_range (mem s) (p + 2)). lia.
  - pose proof (ld8_range (mem s) p). lia.
Qed.
Lemma uframe_set_configuration_loop n ci alt p w s : uframe s (set_configuration_loop n ci alt p w s).1.
Proof.
  revert p w s. induction n as [|n IH]; intros p w s; cbn [set_configuration_loop]; [done|].
  destruct (ld8 (mem s) p =? 0); [done|].
  match goal with |- context [let '(s, w) := ?x in _] => assert (Hx : uframe s x.1); [|destruct x as [s1 w1]] end.
  { destruct (_ =? 2); [done|]. destruct (_ =? 4); [done|]. destruct (_ =? 5); [|done]. destruct (negb _ || negb _); [done|].
    pose proof (uframe_set_endpoint p s) as Hp. by destruct (usbd_set_endpoint p s). }
  cbn [fst] in Hx. destruct (past_end _ _); [done|]. etransitivity; [exact Hx|apply IH].
Qed.
Lemma uframe_set_configuration ci alt s : uframe s (usbd_set_configuration fuel ci alt s).1.
Proof. apply uframe_set_configuration_loop. Qed.
Lemma uframe_set_interface_loop n ifc alt p w s : uframe s (set_interface_loop n ifc alt p w s).1.
Proof.
  revert p w s. induction n as [|n IH]; intros p w s; cbn [set_interface_loop]; [done|].
  destruct (ld8 (mem s) p =? 0); [done|].
  match goal with |- context [let '(s, w) := ?x in _] => assert (Hx : uframe s x.1); [|destruct x as [s1 w1]] end.
  { destruct (_ =? 2); [done|]. destruct (_ =? 4); [done|]. destruct (_ =? 5); [|done]. destruct (i_iface w =? ifc); [|done].
    destruct (negb _).
    - pose proof (uframe_reset_endpoint p s) as Hp. by destruct (usbd_reset_endpoint p s).
    - pose proof (uframe_set_endpoint p s) as Hp. by destruct (usbd_set_endpoint p s). }
  cbn [fst] in Hx. destruct (past_end _ _); [done|]. etransitivity; [exact Hx|apply IH].
Qed.
Lemma uframe_set_interface ifc alt s : funs_ok s -> uframe s (usbd_set_interface fuel ifc alt s).1.
Proof.
  intros Hs. unfold usbd_set_interface. destruct (set_interface_loop _ _ _ _ _ _) as [s1 w1] eqn:E.
  assert (Hx : uframe s s1) by (change s1 with (s1, w1).1; rewrite <- E; apply uframe_set_interface_loop).
  cbn [fst]. etransitivity; [exact Hx|]. apply uframe_notify_class. by eapply funs_ok_frame.
Qed.

(** ** Requests *)
Record reply_ok (s : ustate W) (r : reply W) : Prop := {
  ro_frame : uframe s (r_state r);
  ro_len : 0 <= r_len r;
}.
Lemma reply_accept data len s s' : 0 <= len -> uframe s s' -> reply_ok s (accept data len s').
Proof. by constructor. Qed.
Lemma reply_refuse data len s s' : 0 <= len -> uframe s s' -> reply_ok s (refuse data len s').
Proof. by constructor. Qed.

Lemma std_device_ok st len s : funs_ok s -> 0 <= len -> reply_ok s (usbd_std_device_req_handler fuel st rq len s).
Proof.
  intros Hs Hl. unfold usbd_std_device_req_handler.
  destruct (_ =? 0); [apply reply_accept; [lia|by apply uframe_pokes; cbn; lia]|].
  destruct (_ || _).
  { apply reply_accept; [lia|]. destruct (_ =? 1); [|done].
    destruct (_ =? 3); (etransitivity; [apply uframe_dev|]); apply uframe_notify_app; (eapply funs_ok_frame; [exact Hs|apply uframe_dev]). }
  destruct (_ =? 5).
  { apply reply_accept; [lia|]. etransitivity; [apply uframe_dev|]. by apply uframe_callp. }
  destruct (_ =? 6).
  { destruct (usbd_get_descriptor fuel (wValue st) s) as [s1 r] eqn:E. apply uframe_get_descriptor in E as [E1 E2].
    destruct r as [[p n]|]; [|by apply reply_refuse]. apply reply_accept; [|done]. apply (E2 p); [done|apply Hs]. }
  destruct (_ =? 8); [apply reply_accept; [lia|by apply uframe_pokes; cbn; lia]|].
  destruct (bRequest st =? 9); [|by apply reply_refuse].
  destruct (_ =? 0); [apply reply_accept; [lia|apply uframe_dev]|].
  destruct (usbd_set_configuration fuel (Z.land (wValue st) 0xFF) 0 s) as [s1 ok] eqn:E.
  assert (H1 : uframe s s1) by (change s1 with (s1, ok).1; rewrite <- E; apply uframe_set_configuration).
  destruct ok; cbn [negb]; [|apply reply_refuse; [lia|done]]. apply reply_accept; [lia|].
  assert (H2 : uframe s (on_dev (set_configured (Z.land (wValue st) 0xFF) false) s1)) by (etransitivity; [exact H1|apply uframe_dev]).
  etransitivity; [exact H2|]. etransitivity; [apply uframe_notify_class; by eapply funs_ok_frame|].
  apply uframe_notify_app. eapply funs_ok_frame; [|apply uframe_notify_class]; by eapply funs_ok_frame.
Qed.
Lemma find_intf_in (pred : usbd_interface W -> bool) (s : ustate W) itf : find_intf pred s = Some itf -> (exists k, interfaces s !! k = Some itf) /\ pred itf = true.
Proof.
  unfold find_intf. intros Hh. assert (Hin : itf ∈ omap (fun i => match intf_at s i with Some itf => if pred itf then Some itf else None | None => None end) (intf_indices s)).
  { destruct (omap _ _); [done|]. injection Hh as ->. by left. }
  apply list_elem_of_omap in Hin as (i & _ & Hi). destruct (intf_at s i) as [itf'|] eqn:Ei; [|done].
  destruct (pred itf') eqn:Ep; [|done]. injection Hi as ->. split; [|done].
  unfold intf_at in Ei. destruct (intf (core s) !! i) as [[key|]|]; try done. by exists key.
Qed.
Lemma std_interface_ok st len s : funs_ok s -> 0 <= len -> reply_ok s (usbd_std_interface_req_handler fuel st rq len s).
Proof.
  intros Hs Hl. unfold usbd_std_interface_req_handler. destruct (negb _); [by apply reply_refuse|].
  destruct (_ =? 0); [apply reply_accept; [lia|by apply uframe_pokes; cbn; lia]|].
  destruct (bRequest st =? 6).
  { destruct (_ =? 0x21).
    { destruct (find_hid _ _ _ _ _ _ _) as [p|]; [|by apply reply_refuse]. apply reply_accept; [|done]. pose proof (ld8_range (mem s) p). lia. }
    destruct (_ =? 0x22); [|by apply reply_refuse].
    destruct (find_intf _ s) as [itf|] eqn:E; [|by apply reply_refuse]. apply find_intf_in in E as [[k Hk] _].
    apply reply_accept; [|done]. apply (io_hid _ (fo_intf s Hs k itf Hk)). }
  destruct (_ =? 10); [apply reply_accept; [lia|by apply uframe_pokes; cbn; lia]|].
  destruct (_ =? 11); [|by apply reply_refuse]. apply reply_accept; [lia|]. by apply uframe_set_interface.
Qed.
Lemma std_endpoint_ok st len s : funs_ok s -> 0 <= len -> reply_ok s (usbd_std_endpoint_req_handler st rq len s).
Proof.
  intros Hs Hl. unfold usbd_std_endpoint_req_handler. destruct (negb _); [by apply reply_refuse|].
  destruct (_ =? 0); [apply reply_accept; [lia|by apply uframe_pokes; cbn; lia]|].
  destruct (_ =? 1).
  { destruct (_ =? 0); [apply reply_accept; [done|by apply uframe_callp]|apply reply_refuse; [lia|done]]. }
  destruct (_ =? 3); [|by apply reply_refuse].
  destruct (_ =? 0); [apply reply_accept; [lia|by apply uframe_callp]|apply reply_refuse; [lia|done]].
Qed.
Lemma class_ok st len s : funs_ok s -> 0 <= len -> reply_ok s (usbd_class_request_handler st rq len s).
Proof.
  intros Hs Hl. unfold usbd_class_request_handler.
  match goal with |- context [match ?x with Some _ => _ | None => _ end] => destruct x as [h|] eqn:E end; [|by apply reply_refuse].
  assert (Hh : handler_ok h).
  { destruct (_ =? 1).
    - apply bind_Some in E as (itf & Ef & Eh). apply find_intf_in in Ef as [[k Hk] _]. by apply (io_intf _ (fo_intf s Hs k itf Hk)).
    - destruct (_ =? 2); [|done]. apply bind_Some in E as (itf & Ef & Eh). apply find_intf_in in Ef as [[k Hk] _].
      by apply (io_ep _ (fo_intf s Hs k itf Hk)). }
  destruct (Hh st len (wd s) Hl) as [Hlen Hw]. constructor; [by apply uframe_wd|done].
Qed.
Lemma os_request_ok st len s r : funs_ok s -> 0 <= len -> usbd_os_request st rq len s = Some r -> reply_ok s r.
Proof.
  intros Hs Hl. unfold usbd_os_request.
  match goal with |- context [match ?x with Some r => Some r | None => _ end] => destruct x as [r1|] eqn:E end.
  - intros [= <-]. destruct (msosv1_desc _) as [v1|].
    + destruct (_ =? _); [|done]. injection E as <-. destruct (_ =? 4); [apply reply_accept; [apply rd32_range|done]|].
      destruct (_ =? 5); [apply reply_accept; [apply rd32_range|done]|by apply reply_refuse].
    + destruct (msosv2_desc _) as [v2|] eqn:E2; [|done]. destruct (_ =? _); [|done]. injection E as <-.
      destruct (_ =? 7); [apply reply_accept; [|done]|by apply reply_refuse]. by apply (do_v2 _ (fo_desc s Hs)).
  - destruct (webusb_url_desc _) as [w|] eqn:Ew; [|done]. destruct (bRequest st =? web_vendor_code w); [|done]. intros [= <-].
    destruct (_ =? 2); [apply reply_accept; [|done]|by apply reply_refuse]. by apply (do_web _ (fo_desc s Hs)).
Qed.
Lemma vendor_loop_ok st l data len s : funs_ok s -> 0 <= len -> reply_ok s (vendor_loop l st data len s).
Proof.
  revert data len s. induction l as [|i l IH]; intros data len s Hs Hl; cbn [vendor_loop]; [by apply reply_refuse|].
  match goal with |- context [match ?x with Some _ => _ | None => _ end] => destruct x as [h|] eqn:E end; [|by apply IH].
  assert (Hh : vendor_ok h).
  { apply bind_Some in E as (itf & Ei & Eh). unfold intf_at in Ei. destruct (intf (core s) !! i) as [[key|]|]; try done.
    by apply (io_vendor _ (fo_intf s Hs _ _ Ei)). }
  destruct (Hh st data len (wd s) Hl) as [Hlen Hw].
  assert (Hf : uframe s (on_wd (fun _ => h_world (h st data len (wd s))) s)) by by apply uframe_wd.
  destruct (_ =? 0); [by apply reply_accept|].
  destruct (IH (h_data (h st data len (wd s))) (h_len (h st data len (wd s))) _ (funs_ok_frame _ _ Hs Hf) Hlen) as [Hr1 Hr2].
  constructor; [by etransitivity|done].
Qed.
(** Every request. *)
Lemma setup_request_ok st len s : funs_ok s -> 0 <= len -> reply_ok s (usbd_setup_request_handler fuel st rq len s).
Proof.
  intros Hs Hl. unfold usbd_setup_request_handler. destruct (_ =? 0).
  { unfold usbd_standard_request_handler. destruct (_ =? 0); [by apply std_device_ok|]. destruct (_ =? 1); [by apply std_interface_ok|].
    destruct (_ =? 2); [by apply std_endpoint_ok|by apply reply_refuse]. }
  destruct (_ =? 0x20); [by apply class_ok|]. destruct (_ =? 0x40); [|by apply reply_refuse].
  unfold usbd_vendor_request_handler. destruct (usbd_os_request st rq len s) as [r|] eqn:E; [by eapply os_request_ok|by apply vendor_loop_ok].
Qed.
End frame.
