(* ===== verification/UsbCtl.v ===== *)
(** * The control endpoint

    The transfers on endpoint 0 as a transition system: setup packets, completed
    IN and OUT transactions, bus events, and whatever the class drivers do.  The
    controller works on the transfer the driver has armed last; a setup packet
    and a bus reset end the transfer under way (USB 2.0, 8.5.3; the DWC2 core
    answers NAK until the driver arms the endpoint again).  The port splits a
    transfer on endpoint 0 into packets of at most 64 bytes and reports each
    ([usbd_ep_start_write] of [port/dwc2/usb_dc_dwc2.c]). *)
From S2P Require Import Prelude KString UsbCore UsbFrame.

Section ctl.
Context {W : Type} `{UsbPort} (fuel : nat).
(** The control buffer, the driver's copy of the setup packet, and the memory of
    the class drivers. *)
Context (rq ps : Z) (own : Z -> Prop).

(** The armed transfers, buffer and length. *)
Record ctl := { us : ustate W; pin : option (Z * Z); pout : option (Z * Z) }.
Definition arm_in (a : option (Z * Z)) (c : port_call) : option (Z * Z) :=
  match c with PStartWrite e d n => if e =? USB_CONTROL_IN_EP0 then Some (d, n) else a | _ => a end.
Definition arm_out (a : option (Z * Z)) (c : port_call) : option (Z * Z) :=
  match c with PStartRead e d n => if e =? USB_CONTROL_OUT_EP0 then Some (d, n) else a | _ => a end.
(** The state after a handler of the core. *)
Definition after (c : ctl) (s' : ustate W) : ctl :=
  let new := drop (length (port (wd (us c)))) (port (wd s')) in
  {| us := s'; pin := foldl arm_in (pin c) new; pout := foldl arm_out (pout c) new |}.
(** The controller writes received bytes. *)
Definition deliver (p : Z) (bytes : list Z) (s : ustate W) : ustate W :=
  on_wd (fun w => with_um (foldl (fun m iv => wr m (p + Z.of_nat iv.1) iv.2) (um w) (zip (seq 0 (length bytes)) bytes)) w) s.
Definition idle (c : ctl) : ctl := {| us := us c; pin := None; pout := None |}.
Definition with_us (s : ustate W) (c : ctl) : ctl := {| us := s; pin := pin c; pout := pout c |}.

Inductive ctl_step : ctl -> ctl -> Prop :=
| step_setup c bytes :
    length bytes = 8%nat ->
    let c1 := with_us (deliver ps bytes (us c)) (idle c) in
    ctl_step c (after c1 (usbd_event_ep0_setup_complete_handler fuel ps (us c1)))
| step_in c d l n :
    pin c = Some (d, l) -> 0 <= n <= l ->
    let c1 := {| us := us c; pin := None; pout := pout c |} in
    ctl_step c (after c1 (usbd_event_ep_in_complete_handler fuel USB_CONTROL_IN_EP0 n (us c1)))
| step_out c d l bytes :
    pout c = Some (d, l) -> Z.of_nat (length bytes) <= l ->
    let c1 := {| us := deliver d bytes (us c); pin := pin c; pout := None |} in
    ctl_step c (after c1 (usbd_event_ep_out_complete_handler fuel USB_CONTROL_OUT_EP0 (Z.of_nat (length bytes)) (us c1)))
| step_class_in c addr n :
    Z.land addr 0x7f <> 0 -> ctl_step c (after c (usbd_event_ep_in_complete_handler fuel addr n (us c)))
| step_class_out c addr n :
    Z.land addr 0x7f <> 0 -> ctl_step c (after c (usbd_event_ep_out_complete_handler fuel addr n (us c)))
| step_reset c : ctl_step c (after (idle c) (usbd_event_reset_handler (us c)))
| step_suspend c : ctl_step c (after c (usbd_event_suspend_handler (us c)))
| step_resume c : ctl_step c (after c (usbd_event_resume_handler (us c)))
| step_connect c : ctl_step c (after c (usbd_event_connect_handler (us c)))
| step_disconnect c : ctl_step c (after c (usbd_event_disconnect_handler (us c)))
| step_own c m :
    (forall q, ~ own q -> rd m q = rd (mem (us c)) q) -> ctl_step c (with_us (on_wd (with_um m) (us c)) c).

Definition in_buffer (d n : Z) : Prop := rq <= d /\ 0 <= n /\ d + n <= rq + CONFIG_USBDEV_REQUEST_BUFFER_LEN.
(** A transfer on endpoint 0 is empty or within the control buffer. *)
Definition call_safe (c : port_call) : Prop :=
  match c with
  | PStartWrite e d n | PStartRead e d n => Z.land e 0x7f = 0 -> n = 0 \/ in_buffer d n
  | _ => True
  end.
(** The memory that is neither the control buffer, nor the setup packet, nor of
    the class drivers. *)
Definition foreign (q : Z) : Prop := ~ mine rq own q /\ ~ ps <= q < ps + 8.

(** ** The invariant *)
Definition pending (e : ep0_state) (d n : Z) : Prop :=
  ep0_data_buf_residue e = n /\ (n = 0 \/ d = ep0_data_buf e /\ in_buffer d n).
Record ctl_inv (m0 : bmem) (c : ctl) : Prop := {
  ci_funs : funs_ok rq own (us c);
  ci_calls : Forall call_safe (port (wd (us c)));
  ci_in : forall d n, pin c = Some (d, n) -> pending (ep0 (core (us c))) d n;
  ci_out : forall d n, pout c = Some (d, n) -> pending (ep0 (core (us c))) d n;
  ci_len : 0 <= ep0_data_buf_len (ep0 (core (us c)));
  ci_one : pin c = None \/ pout c = None;
  ci_mem : forall q, foreign q -> rd (mem (us c)) q = rd m0 q;
}.

Lemma other_calls l : Forall (fun c => ep0_call c = false) l ->
  Forall call_safe l /\ (forall a, foldl arm_in a l = a) /\ (forall a, foldl arm_out a l = a).
Proof.
  induction 1 as [|c l Hc _ (IH1 & IH2 & IH3)]; [done|]. split; [|split].
  - constructor; [|done]. destruct c; try done; cbn in Hc |- *; apply Z.eqb_neq in Hc; done.
  - intros a. cbn [foldl]. rewrite IH2. destruct c; try done. cbn in Hc |- *. apply Z.eqb_neq in Hc.
    destruct (Z.eqb_spec ep_addr USB_CONTROL_IN_EP0) as [->|]; [by exfalso|done].
  - intros a. cbn [foldl]. rewrite IH3. destruct c; try done. cbn in Hc |- *. apply Z.eqb_neq in Hc.
    destruct (Z.eqb_spec ep_addr USB_CONTROL_OUT_EP0) as [->|]; [by exfalso|done].
Qed.
(** A handler that frames the control transfer. *)
Lemma after_frame m0 c s' : uframe rq own (us c) s' -> ctl_inv m0 c -> ctl_inv m0 (after c s').
Proof.
  intros Hf [Hfu Hca Hin Hout Hlen Hone Hmem]. pose proof (uf_wd _ _ _ _ Hf) as [(l & Ep & Fl) Hm].
  destruct (other_calls l Fl) as (Hs & Ha & Hb). unfold after. rewrite Ep, drop_app_length.
  constructor; cbn [us pin pout]; rewrite ?Ha, ?Hb; try done.
  - by eapply funs_ok_frame.
  - rewrite Ep. by apply Forall_app.
  - rewrite (uf_ep0 _ _ _ _ Hf). done.
  - rewrite (uf_ep0 _ _ _ _ Hf). done.
  - rewrite (uf_ep0 _ _ _ _ Hf). done.
  - intros q Hq. unfold mem. rewrite Hm by apply Hq. by apply Hmem.
Qed.

(** What a handler on endpoint 0 leaves behind: calls for other endpoints, then
    perhaps one armed transfer. *)
Record handled_ctl (s s' : ustate W) (t : list port_call) : Prop := {
  hc_funs : funs_ok rq own s';
  hc_port : exists l, port (wd s') = port (wd s) ++ l ++ t /\ Forall (fun c => ep0_call c = false) l;
  hc_mem : forall q, ~ mine rq own q -> rd (mem s') q = rd (mem s) q;
}.
Definition armed (e : ep0_state) (t : list port_call) : Prop :=
  0 <= ep0_data_buf_len e /\
  (t = [] \/ exists d n, pending e d n /\ (t = [PStartWrite USB_CONTROL_IN_EP0 d n] \/ t = [PStartRead USB_CONTROL_OUT_EP0 d n])).
Lemma after_handled m0 c s' t :
  pin c = None -> pout c = None -> Forall call_safe (port (wd (us c))) -> (forall q, foreign q -> rd (mem (us c)) q = rd m0 q) ->
  handled_ctl (us c) s' t -> armed (ep0 (core s')) t -> ctl_inv m0 (after c s').
Proof.
  intros Ei Eo Hca Hmem [Hfu (l & Ep & Fl) Hm] Ht. destruct (other_calls l Fl) as (Hs & Ha & Hb).
  unfold after. rewrite Ep, drop_app_length. rewrite !foldl_app, Ha, Hb, Ei, Eo.
  assert (Hm' : forall q, foreign q -> rd (mem s') q = rd m0 q) by (intros q Hq; rewrite Hm by apply Hq; by apply Hmem).
  assert (Hc' : Forall call_safe t -> Forall call_safe (port (wd s'))) by (intros; rewrite Ep; by repeat (apply Forall_app; split)).
  destruct Ht as [Hlen [->|(d & n & Hp & [->| ->])]].
  - constructor; cbn [foldl us pin pout]; try done; [by apply Hc'|by left].
  - constructor; cbn [foldl us pin pout arm_in arm_out Z.eqb USB_CONTROL_IN_EP0]; try done; [|by intros ? ? [= <- <-]|by right].
    apply Hc'. constructor; [|done]. intros _. destruct Hp as [_ [?|[_ ?]]]; auto.
  - constructor; cbn [foldl us pin pout arm_in arm_out Z.eqb USB_CONTROL_OUT_EP0]; try done; [|by intros ? ? [= <- <-]|by left].
    apply Hc'. constructor; [|done]. intros _. destruct Hp as [_ [?|[_ ?]]]; auto.
Qed.

Lemma handled_refl (s : ustate W) : funs_ok rq own s -> handled_ctl s s [].
Proof. intros Hs. constructor; [done| |done]. exists []. by rewrite !app_nil_r. Qed.
Lemma handled_frame s s1 s2 t : handled_ctl s s1 [] -> uframe rq own s1 s2 -> t = [] -> handled_ctl s s2 t.
Proof.
  intros [H1 (l & Ep & Fl) H3] Hf ->. pose proof (uf_wd _ _ _ _ Hf) as [(l' & Ep' & Fl') Hm]. constructor.
  - by eapply funs_ok_frame.
  - exists (l ++ l'). split; [|by apply Forall_app]. rewrite Ep', Ep, !app_nil_r. by rewrite app_assoc.
  - intros q Hq. unfold mem. rewrite Hm by done. by apply H3.
Qed.
Lemma funs_ok_ep0 f (s : ustate W) : funs_ok rq own s -> funs_ok rq own (on_ep0 f s).
Proof. by intros [? ? ? ? ? ?]. Qed.
Lemma handled_ep0 f s s1 t : handled_ctl s s1 t -> handled_ctl s (on_ep0 f s1) t.
Proof. intros [H1 H2 H3]. constructor; [by apply funs_ok_ep0|done|done]. Qed.
Lemma handled_call s s1 c : handled_ctl s s1 [] -> ep0_call c = true -> handled_ctl s (callp c s1) [c].
Proof.
  intros [H1 (l & Ep & Fl) H3] _. constructor; [by destruct H1|exists l; split; [|done]|done].
  cbn [callp on_wd wd call_port port]. by rewrite Ep, app_nil_r, app_assoc.
Qed.
Lemma memcpy_bytes_outside n d s m q : ~ d <= q < d + Z.of_nat n -> rd (memcpy_bytes n d s m) q = rd m q.
Proof.
  revert d s m. induction n as [|n IH]; intros d s m Hq; [done|]. cbn [memcpy_bytes]. rewrite IH by lia. rewrite rd_wr.
  rewrite decide_False; [done|lia].
Qed.
Lemma handled_copy s s1 n src : 0 <= n <= CONFIG_USBDEV_REQUEST_BUFFER_LEN -> handled_ctl s s1 [] ->
  handled_ctl s (on_wd (fun w => with_um (memcpy_bytes (Z.to_nat n) rq src (um w)) w) s1) [].
Proof.
  intros Hn [H1 H2 H3]. constructor; [by destruct H1|done|]. intros q Hq. rewrite <- H3 by done. cbn.
  apply memcpy_bytes_outside. intros Hr. apply Hq. right. lia.
Qed.

Lemma req_data_ok (s : ustate W) : funs_ok rq own s -> req_data (core s) = rq.
Proof. apply fo_rq. Qed.
Lemma setup_at_range m p : 0 <= wLength (setup_at m p) < 65536.
Proof. apply rd16_range. Qed.
Ltac not_armed := exists []; split; [|split; [|by left]].
Lemma setup_handled p s : funs_ok rq own s -> 0 <= ep0_data_buf_len (ep0 (core s)) ->
  let s' := usbd_event_ep0_setup_complete_handler fuel p s in
  exists t, handled_ctl s s' t /\ armed (ep0 (core s')) t.
Proof.
  intros Hs Hlen. unfold usbd_event_ep0_setup_complete_handler. cbv zeta. set (st := setup_at (mem s) p).
  pose proof (setup_at_range (mem s) p) as Hw. fold st in Hw.
  match goal with |- context [on_ep0 ?f s] => set (s1 := on_ep0 f s) end.
  assert (H1 : handled_ctl s s1 []) by (apply handled_ep0; by apply handled_refl).
  destruct ((CONFIG_USBDEV_REQUEST_BUFFER_LEN <? wLength st) && req_out st) eqn:E1.
  { not_armed; [|done]. eapply handled_frame; [exact H1| |done]. by apply uframe_callp. }
  match goal with |- context [on_ep0 ?f s1] => set (s2 := on_ep0 f s1) end.
  assert (H2 : handled_ctl s s2 []) by by apply handled_ep0.
  assert (Hb : req_data (core s1) = rq) by (apply req_data_ok, (hc_funs _ _ _ H1)). rewrite Hb.
  destruct (negb (wLength st =? 0) && req_out st) eqn:E2.
  { apply andb_true_iff in E2 as [_ E2]. rewrite E2, andb_true_r in E1. apply Z.ltb_ge in E1.
    eexists. split; [by apply handled_call|]. split; [apply Hw|]. right. exists rq, (wLength st). split; [|by right].
    split; [done|]. right. split; [exact (eq_sym Hb)|]. unfold in_buffer. lia. }
  destruct (setup_request_ok fuel rq own st (wLength st) s2 (hc_funs _ _ _ H2) ltac:(lia)) as [Hf Hl].
  set (r := usbd_setup_request_handler fuel st rq (wLength st) s2) in *.
  assert (H3 : handled_ctl s (on_ep0 (set_buf_len (r_len r)) (r_state r)) []) by (apply handled_ep0; by eapply handled_frame).
  destruct (negb (r_ok r)); [not_armed; [eapply handled_frame; [exact H3| |done]; by apply uframe_callp|done]|].
  set (n := Z.min (r_len r) (wLength st)).
  match goal with |- context [stall_ep0 ?x] => set (s4 := x) end.
  assert (H4 : handled_ctl s s4 []) by by apply handled_ep0.
  destruct (Z.ltb_spec CONFIG_USBDEV_REQUEST_BUFFER_LEN n); [not_armed; [eapply handled_frame; [exact H4| |done]; by apply uframe_callp|done]|].
  assert (Hp : pending (ep0 (core s4)) rq n).
  { split; [done|]. right. split; [|unfold in_buffer; lia]. transitivity (ep0_data_buf (ep0 (core s2))); [exact (eq_sym Hb)|]. symmetry. exact (f_equal ep0_data_buf (uf_ep0 _ _ _ _ Hf)). }
  match goal with |- context [ep0_write rq n ?x] => set (s5 := x) end.
  assert (H5 : handled_ctl s s5 []) by (unfold s5; destruct (negb (r_data r =? rq)); [apply handled_copy; [lia|done]|done]).
  assert (E5 : ep0 (core s5) = ep0 (core s4)) by (unfold s5; by destruct (negb (r_data r =? rq))).
  assert (H6 : handled_ctl s (ep0_write rq n s5) [PStartWrite USB_CONTROL_IN_EP0 rq n]) by by apply handled_call.
  assert (Ha : forall b, armed (ep0 (core (on_ep0 (set_zlp b) (ep0_write rq n s5)))) [PStartWrite USB_CONTROL_IN_EP0 rq n]).
  { intros b. split; [cbn; by rewrite E5|]. right. exists rq, n. split; [|by left]. cbn. unfold pending, set_zlp. cbn. by rewrite E5. }
  eexists. match goal with |- context [if ?b then _ else _] => destruct b end.
  - split; [by apply handled_ep0|apply Ha].
  - split; [done|]. split; [cbn; by rewrite E5|]. right. exists rq, n. split; [|by left]. cbn. by rewrite E5.
Qed.

Context (Hrq : 0 <= rq) (Hrq' : rq + CONFIG_USBDEV_REQUEST_BUFFER_LEN < 2 ^ 32).
Lemma pending_advance e d l k : pending e d l -> 0 <= k <= l ->
  ep0_data_buf_residue e = l /\ u32 (ep0_data_buf_residue e - k) = l - k /\
  (0 < l -> in_buffer (ep0_data_buf e) l /\ u32 (ep0_data_buf e + k) = ep0_data_buf e + k).
Proof.
  intros [E Hn] Hk. split; [done|]. assert (Hl : 0 <= l < 2 ^ 32) by (unfold in_buffer, CONFIG_USBDEV_REQUEST_BUFFER_LEN in *; lia).
  unfold u32. split; [rewrite Z.mod_small; lia|]. intros Hpos. destruct Hn as [?|[-> Hb]]; [lia|]. split; [done|].
  unfold in_buffer in Hb. rewrite Z.mod_small; lia.
Qed.
(** A completed IN transaction. *)
Lemma in_complete_handled n d l s : funs_ok rq own s -> 0 <= ep0_data_buf_len (ep0 (core s)) -> pending (ep0 (core s)) d l -> 0 <= n <= l ->
  let s' := usbd_event_ep0_in_complete_handler n s in
  exists t, handled_ctl s s' t /\ armed (ep0 (core s')) t.
Proof.
  intros Hs Hlen Hp Hn. destruct (pending_advance _ _ _ _ Hp Hn) as (E1 & E2 & E3). unfold usbd_event_ep0_in_complete_handler. cbv zeta.
  match goal with |- context [on_ep0 ?f s] => set (s1 := on_ep0 f s) end.
  assert (H1 : handled_ctl s s1 []) by (apply handled_ep0; by apply handled_refl).
  assert (Er : ep0_data_buf_residue (ep0 (core s1)) = l - n) by exact E2. rewrite Er.
  destruct (Z.eqb_spec (l - n) 0) as [Ez|Ez]; cbn [negb].
  - destruct (zlp_flag (ep0 (core s1))).
    + eexists. split; [apply handled_call; [by apply handled_ep0|done]|]. split; [done|]. right. exists 0, 0. split; [|by left]. split; [cbn; lia|by left].
    + match goal with |- context [if ?b then _ else _] => destruct b end; [|by not_armed].
      eexists. split; [by apply handled_call|]. split; [done|]. right. exists 0, 0. split; [|by right]. split; [cbn; lia|by left].
  - eexists. split; [by apply handled_call|]. split; [done|]. right. eexists _, (l - n). split; [|by left]. split; [done|].
    right. split; [done|]. destruct (E3 ltac:(lia)) as [Hb Eb]. cbn. rewrite Eb. unfold in_buffer in *. lia.
Qed.
(** A completed OUT transaction. *)
Lemma out_complete_handled n d l s : funs_ok rq own s -> 0 <= ep0_data_buf_len (ep0 (core s)) -> pending (ep0 (core s)) d l -> 0 <= n <= l ->
  let s' := usbd_event_ep0_out_complete_handler fuel n s in
  exists t, handled_ctl s s' t /\ armed (ep0 (core s')) t.
Proof.
  intros Hs Hlen Hp Hn. destruct (pending_advance _ _ _ _ Hp Hn) as (E1 & E2 & E3). unfold usbd_event_ep0_out_complete_handler. cbv zeta.
  destruct (Z.ltb_spec 0 n); [|not_armed; [by apply handled_refl|done]].
  match goal with |- context [on_ep0 ?f s] => set (s1 := on_ep0 f s) end.
  assert (H1 : handled_ctl s s1 []) by (apply handled_ep0; by apply handled_refl).
  assert (Er : ep0_data_buf_residue (ep0 (core s1)) = l - n) by exact E2. rewrite Er.
  destruct (Z.eqb_spec (l - n) 0) as [Ez|Ez].
  - rewrite (req_data_ok s1 (hc_funs _ _ _ H1)).
    destruct (setup_request_ok fuel rq own (setup (ep0 (core s1))) (ep0_data_buf_len (ep0 (core s1))) s1 (hc_funs _ _ _ H1) Hlen) as [Hf Hl].
    set (r := usbd_setup_request_handler _ _ _ _ _) in *.
    match goal with |- context [stall_ep0 ?x] => set (s2 := x) end.
    assert (H2 : handled_ctl s s2 []) by (apply handled_ep0; by eapply handled_frame).
    destruct (negb (r_ok r)); [not_armed; [eapply handled_frame; [exact H2| |done]; by apply uframe_callp|done]|].
    eexists. split; [by apply handled_call|]. split; [done|]. right. exists 0, 0. split; [|by left]. split; [|by left]. cbn.
    rewrite (uf_ep0 _ _ _ _ Hf). rewrite Er. done.
  - eexists. split; [by apply handled_call|]. split; [done|]. right. eexists _, (l - n). split; [|by right]. split; [done|].
    right. split; [done|]. destruct (E3 ltac:(lia)) as [Hb Eb]. cbn. rewrite Eb. unfold in_buffer in *. lia.
Qed.

Lemma deliver_mem p bytes s q : ~ p <= q < p + Z.of_nat (length bytes) -> rd (mem (deliver p bytes s)) q = rd (mem s) q.
Proof.
  unfold mem, deliver. cbn [wd on_wd um with_um]. generalize (um (wd s)) as m. intros m.
  assert (Hgen : forall k m, ~ p + Z.of_nat k <= q < p + Z.of_nat k + Z.of_nat (length bytes) ->
    rd (foldl (fun m iv => wr m (p + Z.of_nat iv.1) iv.2) m (zip (seq k (length bytes)) bytes)) q = rd m q).
  { clear. induction bytes as [|b bytes IH]; intros k m Hq; [done|]. cbn [length seq zip zip_with foldl fst snd] in *.
    rewrite IH by lia. rewrite rd_wr. rewrite decide_False; [done|lia]. }
  intros Hq. apply Hgen. lia.
Qed.
Lemma ci_handled m0 c c1 s' :
  ctl_inv m0 c -> pin c1 = None -> pout c1 = None -> port (wd (us c1)) = port (wd (us c)) ->
  (forall q, foreign q -> rd (mem (us c1)) q = rd (mem (us c)) q) ->
  (exists t, handled_ctl (us c1) s' t /\ armed (ep0 (core s')) t) -> ctl_inv m0 (after c1 s').
Proof.
  intros Hc Ei Eo Ep Em (t & Hh & Ha). eapply after_handled; try done.
  - rewrite Ep. apply Hc.
  - intros q Hq. rewrite Em by done. by apply Hc.
Qed.
Lemma callback_zero own_cb (l : list (usbd_tx_rx_msg W)) c : cbs_ok rq own own_cb l -> l !! 0%nat ≫= cb = Some c -> c = own_cb.
Proof. intros Hl (msg & Hm & Hc)%bind_Some. specialize (Hl 0%nat msg c Hm Hc). by destruct c; destruct Hl. Qed.
Lemma class_callback_frame own_cb l addr n (s : ustate W) : cbs_ok rq own own_cb l -> Z.land addr 0x7f <> 0 -> uframe rq own s (run_callback fuel l addr n s).
Proof.
  intros Hl Ha. unfold run_callback. destruct (l !! Z.to_nat (Z.land addr 0x7f) ≫= cb) as [c|] eqn:E; [|done].
  apply bind_Some in E as (msg & Hm & Hc). specialize (Hl _ _ _ Hm Hc). assert (Hnn : 0 <= Z.land addr 0x7f) by (apply Z.land_nonneg; right; lia).
  destruct c; destruct Hl as [H1 H2]; [lia|lia|]. by apply uframe_wd.
Qed.
Lemma step_inv m0 c c' : ctl_step c c' -> ctl_inv m0 c -> ctl_inv m0 c'.
Proof.
  intros Hst Hc. pose proof (ci_funs _ _ Hc) as Hfu. destruct Hst as [c bytes Hb c1|c d l n Hp Hn c1|c d l bytes Hp Hn c1|c addr n Ha|c addr n Ha|c|c|c|c|c|c m Hm].
  - apply (ci_handled m0 c); try done.
    + intros q Hq. apply deliver_mem. rewrite Hb. apply Hq.
    + apply setup_handled; [by destruct Hfu|apply Hc].
  - assert (Hone : pout c = None) by (destruct (ci_one _ _ Hc); congruence).
    apply (ci_handled m0 c); try done. cbn [us c1].
    unfold usbd_event_ep_in_complete_handler, run_callback. cbn [Z.land USB_CONTROL_IN_EP0 Pos.land Z.to_nat].
    match goal with |- context [match ?x with Some _ => _ | None => _ end] => destruct x as [f|] eqn:E end.
    + apply (callback_zero usbd_event_ep0_in_complete) in E as ->; [|apply Hfu].
      eapply in_complete_handled; [done|apply Hc|by apply (ci_in _ _ Hc)|done].
    + exists []. split; [by apply handled_refl|]. split; [exact (ci_len _ _ Hc)|by left].
  - assert (Hone : pin c = None) by (destruct (ci_one _ _ Hc); congruence). pose proof (ci_out _ _ Hc _ _ Hp) as Hpe.
    apply (ci_handled m0 c); try done.
    + intros q Hq. apply deliver_mem. intros Hr. apply (proj1 Hq). right. destruct Hpe as [_ [?|[_ Hbuf]]]; unfold in_buffer in *; lia.
    + cbn [us c1]. unfold usbd_event_ep_out_complete_handler, run_callback. cbn [Z.land USB_CONTROL_OUT_EP0 Z.to_nat].
      match goal with |- context [match ?x with Some _ => _ | None => _ end] => destruct x as [f|] eqn:E end.
      * apply (callback_zero usbd_event_ep0_out_complete) in E as ->; [|apply Hfu].
        eapply out_complete_handled; [by destruct Hfu|apply Hc|exact Hpe|lia].
      * exists []. split; [apply handled_refl; by destruct Hfu|]. split; [exact (ci_len _ _ Hc)|by left].
  - apply after_frame; [|done]. apply (class_callback_frame usbd_event_ep0_in_complete); [apply Hfu|done].
  - apply after_frame; [|done]. apply (class_callback_frame usbd_event_ep0_out_complete); [apply Hfu|done].
  - apply after_frame; [|by destruct Hc; constructor; try done; by left]. unfold usbd_event_reset_handler.
    match goal with |- uframe _ _ _ (notify_app _ (usbd_class_event_notify_handler _ _ ?x)) => set (s1 := x) end.
    assert (H1 : uframe rq own (us c) s1).
    { unfold s1. etransitivity; [apply (uframe_callp rq own (PSetAddress 0)); done|]. etransitivity; [apply uframe_dev|].
      etransitivity; [apply uframe_ep_open|apply uframe_ep_open]. }
    assert (H2 : uframe rq own (us c) (usbd_class_event_notify_handler USBD_EVENT_RESET 0 s1)).
    { etransitivity; [exact H1|]. apply uframe_notify_class. by eapply funs_ok_frame. }
    etransitivity; [exact H2|]. apply uframe_notify_app. by eapply funs_ok_frame.
  - apply after_frame; [|done]. unfold usbd_event_suspend_handler. destruct (0 <? _); [|done].
    etransitivity; [apply uframe_dev|]. apply uframe_notify_app. by eapply funs_ok_frame, uframe_dev.
  - apply after_frame; [|done]. etransitivity; [apply uframe_dev|]. apply uframe_notify_app. by eapply funs_ok_frame, uframe_dev.
  - apply after_frame; [|done]. by apply uframe_notify_app.
  - apply after_frame; [|done]. by apply uframe_notify_app.
  - destruct Hc as [? ? ? ? ? ? Hmem]. constructor; try done; [by destruct Hfu|]. intros q Hq. rewrite <- Hmem by done.
    cbn. apply Hm. intros Ho. apply (proj1 Hq). by left.
Qed.
Lemma reachable_inv m0 c c' : rtc ctl_step c c' -> ctl_inv m0 c -> ctl_inv m0 c'.
Proof. induction 1; [done|]. intros. by apply IHrtc, (step_inv m0 x). Qed.
End ctl.
