(* ===== verification/UsbProps.v ===== *)
(** * Properties of the USB device core

    The control buffer is never left; a control IN transfer gives the host exactly
    the data asked for and ends for both sides with the same packet; setting a
    configuration opens exactly its endpoints. *)
From S2P Require Import Prelude KString UsbCore UsbFrame UsbCtl.

(** ** A small device

    No class driver: a device, a configuration and a string descriptor. *)
#[export] Instance port_ok : UsbPort := {|
  usb_dc_init_ret _ := 0;
  usbd_ep_open_ret _ _ _ _ := 0;
  usbd_ep_close_ret _ _ := 0;
  usbd_ep_stalled _ _ := false;
  usbd_set_remote_wakeup_ret _ := 0;
|}.
Definition REQ : Z := 0x20000000.
Definition SETUP : Z := 0x20000400.
Definition TABLE : Z := 0x8000.
Fixpoint store (p : Z) (l : list Z) (m : bmem) : bmem :=
  match l with [] => m | b :: l => store (p + 1) l (wr m p b) end.
(** The descriptors of [src/board/ports/CherryUSB/demo/msc_ram_template.c], the
    strings shortened: a device, a configuration of one interface with two bulk
    endpoints, the language and one string. *)
Definition demo_descriptors : list (list Z) :=
  [[18; 1; 0; 2; 0; 0; 0; 64; 0xff; 0xff; 0xff; 0xff; 0; 2; 1; 2; 3; 1];
   [9; 2; 32; 0; 1; 1; 0; 0x80; 50];
   [9; 4; 0; 0; 2; 8; 6; 0x50; 2];
   [7; 5; 1; 2; 64; 0; 0];
   [7; 5; 0x81; 2; 64; 0; 0];
   [4; 3; 9; 4];
   [8; 3; 67; 0; 85; 0; 83; 0]].
Definition raw_state : ustate unit :=
  {| core :=
       {| ep0 := {| setup := {| bmRequestType := 0; bRequest := 0; wValue := 0; wIndex := 0; wLength := 0 |};
                    ep0_data_buf := 0; ep0_data_buf_residue := 0; ep0_data_buf_len := 0; zlp_flag := false |};
          desc := {| descriptors := 0; msosv1_desc := None; msosv2_desc := None; bos_desc := None; webusb_url_desc := None |};
          dev := {| configuration := 0; device_address := 0; self_powered := false; remote_wakeup_support := false;
                    remote_wakeup_enabled := false; is_suspend := false |};
          req_data := REQ; intf := []; intf_offset := 0; tx_msg := []; rx_msg := []; event_handler := None |};
     interfaces := ∅;
     wd := {| um := store TABLE (concat demo_descriptors ++ [0]) ∅; uw := tt; port := [] |} |}.
Definition demo_state : ustate unit :=
  usbd_event_reset_handler (usbd_initialize (fun _ w => w) (usbd_desc_register TABLE raw_state)).1.
Lemma demo_funs : funs_ok REQ (fun _ => False) demo_state.
Proof.
  constructor; try done.
  - intros i msg c Hi Hc. destruct i as [|i]; [injection Hi as <-; by injection Hc as <-|].
    change (replicate 5 no_msg !! i = Some msg) in Hi. apply lookup_replicate in Hi as [-> _]. done.
  - intros i msg c Hi Hc. destruct i as [|i]; [injection Hi as <-; by injection Hc as <-|].
    change (replicate 5 no_msg !! i = Some msg) in Hi. apply lookup_replicate in Hi as [-> _]. done.
  - intros h [= <-] e w. done.
Qed.

(** ** Memory safety of the control endpoint *)

(** [GET_DESCRIPTOR] of the configuration, 255 bytes asked for: one packet. *)
Definition get_config : list Z := [0x80; 6; 0; 2; 0; 0; 255; 0].
Definition demo_c0 : ctl := {| us := demo_state; pin := None; pout := None |}.
Definition demo_c1 : ctl :=
  let c := with_us (deliver SETUP get_config (us demo_c0)) (idle demo_c0) in
  after c (usbd_event_ep0_setup_complete_handler 64 SETUP (us c)).
Definition demo_c2 : ctl :=
  let c := {| us := us demo_c1; pin := None; pout := pout demo_c1 |} in
  after c (usbd_event_ep_in_complete_handler 64 USB_CONTROL_IN_EP0 32 (us c)).
Lemma demo_steps : rtc (ctl_step 64 SETUP (fun _ => False)) demo_c0 demo_c2.
Proof.
  eapply rtc_l; [exact (step_setup 64 SETUP (fun _ => False) demo_c0 get_config eq_refl)|].
  assert (Hp : pin demo_c1 = Some (REQ, 32)) by (vm_compute; reflexivity).
  eapply rtc_l; [|apply rtc_refl]. exact (step_in 64 SETUP (fun _ => False) demo_c1 REQ 32 32 Hp ltac:(lia)).
Qed.

(** ** Control IN transfers

    The controller sends the armed transfer in packets, each completed before the
    driver arms the next; the stage is over when nothing is armed.  The host reads
    packets until it has what it wants or one is short; [None] when the two sides
    do not end together. *)
Definition read_bytes (m : bmem) (p : Z) (n : Z) : list Z := (fun i => ld8 m (p + Z.of_nat i)) <$> seq 0 (Z.to_nat n).
Fixpoint host_reads (want : Z) (pkts : list (list Z)) : option (list Z) :=
  match pkts with
  | [] => None
  | p :: pkts =>
      if (Z.of_nat (length p) <? USB_CTRL_EP_MPS) || (want - Z.of_nat (length p) =? 0) then
        match pkts with [] => Some p | _ => None end
      else app p <$> host_reads (want - Z.of_nat (length p)) pkts
  end.

Lemma length_read_bytes m p n : 0 <= n -> Z.of_nat (length (read_bytes m p n)) = n.
Proof. intros Hn. unfold read_bytes. rewrite length_fmap, length_seq. lia. Qed.
Lemma read_bytes_app m p a b : 0 <= a -> 0 <= b -> read_bytes m p (a + b) = read_bytes m p a ++ read_bytes m (p + a) b.
Proof.
  intros Ha Hb. unfold read_bytes. rewrite Z2Nat.inj_add, seq_app, fmap_app by lia. f_equal. rewrite Nat.add_0_l.
  rewrite <- (Nat.add_0_r (Z.to_nat a)) at 1. rewrite <- fmap_add_seq, <- list_fmap_compose. apply list_fmap_ext.
  intros i x _. cbn. f_equal. lia.
Qed.
Lemma read_bytes_ext m m' p p' n : (forall i, 0 <= i < n -> rd m (p + i) = rd m' (p' + i)) -> read_bytes m p n = read_bytes m' p' n.
Proof.
  intros He. unfold read_bytes. apply list_fmap_ext. intros i x Hx. apply lookup_seq in Hx as [-> Hi]. unfold ld8. rewrite He by lia. done.
Qed.

Section transfer.
Context {W : Type} `{UsbPort} (fuel : nat) (rq : Z).
Fixpoint in_stage (n : nat) (c : @ctl W) : option (list (list Z) * @ctl W) :=
  match n with
  | O => None
  | S n =>
      match pin c with
      | None => Some ([], c)
      | Some (d, l) =>
          let k := Z.min l USB_CTRL_EP_MPS in
          let c1 := {| us := us c; pin := None; pout := pout c |} in
          match in_stage n (after c1 (usbd_event_ep_in_complete_handler fuel USB_CONTROL_IN_EP0 k (us c1))) with
          | Some (pkts, c') => Some (read_bytes (mem (us c)) d k :: pkts, c')
          | None => None
          end
      end
  end.

Lemma after_write (c : @ctl W) s' d n : port (wd s') = port (wd (us c)) ++ [PStartWrite USB_CONTROL_IN_EP0 d n] ->
  after c s' = {| us := s'; pin := Some (d, n); pout := pout c |}.
Proof. intros E. unfold after. by rewrite E, drop_app_length. Qed.
Lemma after_read (c : @ctl W) s' d n : port (wd s') = port (wd (us c)) ++ [PStartRead USB_CONTROL_OUT_EP0 d n] ->
  after c s' = {| us := s'; pin := pin c; pout := Some (d, n) |}.
Proof. intros E. unfold after. by rewrite E, drop_app_length. Qed.

(** A transfer of [l] bytes at [d] is armed, with the flag [z]. *)
Record sending (c : @ctl W) (d l : Z) (z : bool) : Prop := {
  sg_pin : pin c = Some (d, l);
  sg_residue : ep0_data_buf_residue (ep0 (core (us c))) = l;
  sg_zlp : zlp_flag (ep0 (core (us c))) = z;
  sg_in : req_in (setup (ep0 (core (us c)))) = true;
  sg_len : wLength (setup (ep0 (core (us c)))) <> 0;
  sg_cb : tx_msg (core (us c)) !! 0%nat ≫= cb = Some usbd_event_ep0_in_complete;
}.
(** The state after one packet. *)
Definition sent (k : Z) (c : @ctl W) : @ctl W :=
  let c1 := {| us := us c; pin := None; pout := pout c |} in
  after c1 (usbd_event_ep_in_complete_handler fuel USB_CONTROL_IN_EP0 k (us c1)).
Lemma sent_eq k c d l z : sending c d l z -> sent k c =
  after {| us := us c; pin := None; pout := pout c |} (usbd_event_ep0_in_complete_handler k (us c)).
Proof.
  intros Hs. unfold sent. cbn [us]. unfold usbd_event_ep_in_complete_handler, run_callback.
  change (Z.to_nat (Z.land USB_CONTROL_IN_EP0 0x7f)) with 0%nat. rewrite (sg_cb _ _ _ _ Hs). done.
Qed.
Ltac complete Hs :=
  unfold usbd_event_ep0_in_complete_handler; cbn [on_ep0 on_core with_core core with_ep0 ep0 set_buf ep0_data_buf_residue zlp_flag setup];
  rewrite (sg_residue _ _ _ _ Hs), ?(sg_zlp _ _ _ _ Hs).
Lemma sent_last c d l z : sending c d l z -> 0 <= l < 2 ^ 32 ->
  (if z then sending (sent l c) 0 0 false
   else pin (sent l c) = None /\ pout (sent l c) = Some (0, 0)) /\ mem (us (sent l c)) = mem (us c).
Proof.
  intros Hs Hl. rewrite (sent_eq _ _ _ _ _ Hs). complete Hs. rewrite Z.sub_diag. change (u32 0) with 0. cbn [Z.eqb negb]. destruct z.
  - erewrite after_write by reflexivity. split; [|done]. destruct Hs as [? Hr ? Hin Hw Hcb]. constructor; try done. cbn. by rewrite Hr, Z.sub_diag.
  - rewrite (sg_in _ _ _ _ Hs). destruct (Z.eqb_spec (wLength (setup (ep0 (core (us c))))) 0) as [E|_]; [by destruct (sg_len _ _ _ _ Hs)|].
    cbn [negb andb]. by erewrite after_read by reflexivity.
Qed.
Lemma sent_more k c d l z : sending c d l z -> d = ep0_data_buf (ep0 (core (us c))) -> 0 <= d -> d + l < 2 ^ 32 -> 0 <= k < l ->
  sending (sent k c) (d + k) (l - k) z /\ d + k = ep0_data_buf (ep0 (core (us (sent k c)))) /\ mem (us (sent k c)) = mem (us c).
Proof.
  intros Hs Hd H0 Hlt Hk. rewrite (sent_eq _ _ _ _ _ Hs). complete Hs.
  assert (E1 : u32 (l - k) = l - k) by (apply Z.mod_small; lia). assert (E2 : u32 (d + k) = d + k) by (apply Z.mod_small; lia).
  rewrite E1. destruct (Z.eqb_spec (l - k) 0); [lia|]. cbn [negb].
  erewrite after_write by reflexivity. split; [|split; [cbn; by rewrite <- Hd, E2|done]].
  destruct Hs as [? Hr ? Hin Hw Hcb]. constructor; try done.
  - cbn. by rewrite <- Hd, E2.
  - cbn. by rewrite Hr, E1.
Qed.

Lemma in_stage_S n c d l : pin c = Some (d, l) ->
  in_stage (S n) c = '(pkts, c') ← in_stage n (sent (Z.min l USB_CTRL_EP_MPS) c);
                     Some (read_bytes (mem (us c)) d (Z.min l USB_CTRL_EP_MPS) :: pkts, c').
Proof. intros E. cbn [in_stage]. rewrite E. unfold sent. by destruct (in_stage _ _) as [[]|]. Qed.
Lemma in_stage_done n c : pin c = None -> in_stage (S n) c = Some ([], c).
Proof. intros E. cbn [in_stage]. by rewrite E. Qed.
(** The last packet, and the empty one that may follow it. *)
Lemma in_stage_last n c d l z want : sending c d l z -> 0 < l <= USB_CTRL_EP_MPS ->
  (if z then l < want /\ l = USB_CTRL_EP_MPS else l = want \/ l < USB_CTRL_EP_MPS) ->
  exists pkts c', in_stage (S (S (S n))) c = Some (pkts, c') /\ host_reads want pkts = Some (read_bytes (mem (us c)) d l) /\
    pin c' = None /\ pout c' = Some (0, 0).
Proof.
  intros Hs Hl Hz. unfold USB_CTRL_EP_MPS in *. destruct (sent_last c d l z Hs ltac:(lia)) as [H1 H2].
  rewrite (in_stage_S _ c d l) by apply Hs. unfold USB_CTRL_EP_MPS. rewrite Z.min_l by lia. destruct z.
  - destruct (sent_last (sent l c) 0 0 false H1 ltac:(lia)) as [[H3 H4] _].
    rewrite (in_stage_S _ _ 0 0) by apply H1. rewrite Z.min_l by (unfold USB_CTRL_EP_MPS; lia). rewrite in_stage_done by done. cbn [mbind option_bind].
    eexists _, _. split; [done|]. split; [|done]. cbn [host_reads]. rewrite length_read_bytes by lia. unfold USB_CTRL_EP_MPS.
    destruct (Z.ltb_spec l 64); [lia|]. destruct (Z.eqb_spec (want - l) 0); [lia|].
    change (read_bytes (mem (us (sent l c))) 0 0) with (@nil Z). change (Z.of_nat (length []) <? 64) with true. cbn [orb]. by rewrite <- (app_nil_r (read_bytes (mem (us c)) d l)) at 2.
  - destruct H1 as [H3 H4]. rewrite in_stage_done by done. cbn [mbind option_bind]. eexists _, _. split; [done|]. split; [|done].
    cbn [host_reads]. rewrite length_read_bytes by lia. unfold USB_CTRL_EP_MPS.
    destruct (Z.ltb_spec l 64), (Z.eqb_spec (want - l) 0); try done. lia.
Qed.
Lemma in_stage_run k : forall c d l z want,
  sending c d l z -> d = ep0_data_buf (ep0 (core (us c))) -> 0 <= d -> d + l < 2 ^ 32 ->
  USB_CTRL_EP_MPS * Z.of_nat k < l <= USB_CTRL_EP_MPS * Z.of_nat (S k) ->
  (if z then l < want /\ l mod USB_CTRL_EP_MPS = 0 else l = want \/ l < want /\ l mod USB_CTRL_EP_MPS <> 0) ->
  exists pkts c', in_stage (S (S (S k))) c = Some (pkts, c') /\ host_reads want pkts = Some (read_bytes (mem (us c)) d l) /\
    pin c' = None /\ pout c' = Some (0, 0).
Proof.
  unfold USB_CTRL_EP_MPS. induction k as [|k IH]; intros c d l z want Hs Hd H0 Hlt Hl Hz.
  - apply (in_stage_last 0 c d l z); [done|unfold USB_CTRL_EP_MPS; lia|]. unfold USB_CTRL_EP_MPS.
    destruct z; [split; [apply Hz|]|destruct Hz as [?|[? Hm]]; [by left|right]].
    + destruct Hz as [_ Hm]. destruct (decide (l = 64)) as [|Hne]; [done|]. rewrite Z.mod_small in Hm; lia.
    + destruct (decide (l = 64)) as [->|]; [|lia]. by destruct Hm.
  - destruct (sent_more 64 c d l z Hs Hd H0 Hlt ltac:(lia)) as (H1 & H2 & H3).
    rewrite (in_stage_S _ c d l) by apply Hs. unfold USB_CTRL_EP_MPS. rewrite Z.min_r by lia.
    destruct (IH (sent 64 c) (d + 64) (l - 64) z (want - 64) H1 H2 ltac:(lia) ltac:(lia) ltac:(lia)) as (pkts & c' & E1 & E2 & E3 & E4).
    { assert (Em : (l - 64) mod 64 = l mod 64) by (rewrite Zminus_mod, Z.mod_same, Z.sub_0_r, Z.mod_mod by lia; done).
      rewrite Em. destruct z; [lia|]. destruct Hz as [?|[? ?]]; [left|right]; lia. }
    rewrite E1. cbn [mbind option_bind]. eexists _, _. split; [done|]. split; [|done]. cbn [host_reads].
    rewrite length_read_bytes by lia. rewrite E2. unfold USB_CTRL_EP_MPS. cbn [Z.ltb Z.compare orb Pos.compare Pos.compare_cont].
    destruct (Z.eqb_spec (want - 64) 0); [destruct z; lia|]. cbn [fmap option_fmap option_map]. f_equal. rewrite H3.
    rewrite <- read_bytes_app by lia. f_equal. lia.
Qed.
End transfer.

(** What a setup packet stores before the request is handled. *)
Definition begin_request {W : Type} (ps : Z) (s : ustate W) : ustate W :=
  let st := setup_at (mem s) ps in
  on_ep0 (fun _ => {| setup := st; ep0_data_buf := req_data (core s); ep0_data_buf_residue := wLength st;
                      ep0_data_buf_len := wLength st; zlp_flag := false |}) s.

(** The branch on which a request with an IN data stage is answered. *)
Lemma setup_complete_in {W : Type} `{UsbPort} (fuel : nat) (ps : Z) (s : ustate W) :
  let st := setup_at (mem s) ps in
  let rq := req_data (core s) in
  let r := usbd_setup_request_handler fuel st rq (wLength st) (begin_request ps s) in
  let n := Z.min (r_len r) (wLength st) in
  let s1 := on_ep0 (fun e => set_buf (ep0_data_buf e) n e) (on_ep0 (set_buf_len (r_len r)) (r_state r)) in
  let s2 := if negb (r_data r =? rq) then on_wd (fun w => with_um (memcpy_bytes (Z.to_nat n) rq (r_data r) (um w)) w) s1 else s1 in
  req_out st = false -> r_ok r = true -> n <= CONFIG_USBDEV_REQUEST_BUFFER_LEN ->
  usbd_event_ep0_setup_complete_handler fuel ps s =
    let s3 := ep0_write rq n s2 in
    if (r_len r <? wLength st) && (r_len r mod USB_CTRL_EP_MPS =? 0) then on_ep0 (set_zlp true) s3 else s3.
Proof.
  intros st rq r n s1 s2 Hout Hok Hn. unfold usbd_event_ep0_setup_complete_handler. cbv zeta. fold st. rewrite Hout, !andb_false_r.
  change (on_ep0 _ (on_ep0 _ s)) with (begin_request ps s). change (req_data (core (on_ep0 _ s))) with rq. fold r. rewrite Hok. cbn [negb].
  fold n. by rewrite (proj2 (Z.ltb_ge _ _) Hn).
Qed.
Lemma in_stage_more {W : Type} `{UsbPort} (fuel : nat) n m (c : @ctl W) x : (n <= m)%nat -> in_stage fuel n c = Some x -> in_stage fuel m c = Some x.
Proof.
  revert m c x. induction n as [|n IH]; intros [|m] c x Hm; try lia; [done|done|]. cbn [in_stage]. destruct (pin c) as [[d l]|]; [|done].
  destruct (in_stage fuel n _) as [[pkts c']|] eqn:E; [|done]. by rewrite (IH m _ _ ltac:(lia) E).
Qed.

Definition asked : ustate unit := deliver SETUP get_config demo_state.
Lemma asked_funs : funs_ok REQ (fun _ => False) asked.
Proof. apply funs_ok_wd, demo_funs. Qed.

(** A request that is answered with no data although the host asked for some is
    followed by two empty packets: the host ends the data stage after the first. *)
Definition set_config_in : list Z := [0x80; 9; 0; 0; 0; 0; 1; 0].
Lemma zlp_sent_twice :
  let s := deliver SETUP set_config_in demo_state in
  fst <$> in_stage 64 11 (after {| us := s; pin := None; pout := None |} (usbd_event_ep0_setup_complete_handler 64 SETUP s)) = Some [[]; []] /\
  host_reads 1 [[]; []] = None.
Proof. vm_compute. done. Qed.
