(* ===== verification/UsbConfig.v ===== *)
(** * Selecting a configuration

    A descriptor table is a sequence of descriptors, each led by its length, and a
    zero byte.  [usbd_set_configuration] walks over the bytes; here its effect is
    stated on the descriptors. *)
From S2P Require Import Prelude KString UsbCore UsbFrame UsbCtl UsbProps.

Definition byte (d : list Z) (i : nat) : Z := nth i d 0.
Definition dlen (d : list Z) : Z := Z.of_nat (length d).
Definition word (d : list Z) (i : nat) : Z := Z.lor (byte d i) (Z.shiftl (byte d (S i)) 8).
(** [bDescriptorType]: 2 for a configuration, 4 for an interface, 5 for an
    endpoint. *)
Definition dtype (d : list Z) : Z := byte d 1.
(** The members the core reads are there. *)
Record desc_wf (d : list Z) : Prop := {
  dw_len : byte d 0 = dlen d;
  dw_min : (if dtype d =? 2 then 9 else if dtype d =? 4 then 9 else if dtype d =? 5 then 7 else 2) <= dlen d;
}.
Fixpoint table (m : bmem) (p : Z) (ds : list (list Z)) : Prop :=
  match ds with
  | [] => ld8 m p = 0
  | d :: ds => desc_wf d /\ read_bytes m p (dlen d) = d /\ table m (p + dlen d) ds
  end.
Lemma desc_table_byte m p d ds i : table m p (d :: ds) -> (i < length d)%nat -> ld8 m (p + Z.of_nat i) = byte d i.
Proof.
  intros (_ & E & _) Hi. unfold byte. rewrite <- E at 1. unfold read_bytes, dlen. rewrite Nat2Z.id.
  symmetry. apply nth_lookup_Some. rewrite list_lookup_fmap, lookup_seq_lt by done. done.
Qed.
Lemma table_word m p d ds i : table m p (d :: ds) -> (S i < length d)%nat -> rd16 m (p + Z.of_nat i) = word d i.
Proof.
  intros Ht Hi. unfold rd16, word. rewrite (desc_table_byte m p d ds i) by (done || lia). rewrite <- (desc_table_byte m p d ds (S i)) by (done || lia).
  do 3 f_equal. lia.
Qed.
Lemma desc_wf_pos d : desc_wf d -> 2 <= dlen d.
Proof. intros [_ H]. repeat case_match; lia. Qed.
(** The length byte at the start of what follows. *)
Definition next_len (ds : list (list Z)) : Z := match ds with [] => 0 | d :: _ => dlen d end.
Lemma table_next m p ds : table m p ds -> ld8 m p = next_len ds.
Proof.
  destruct ds as [|d ds]; [done|]. intros Ht. pose proof Ht as (Hw & _ & _). pose proof (desc_wf_pos d Hw).
  rewrite <- (Z.add_0_r p). change 0 with (Z.of_nat 0). rewrite (desc_table_byte m p d ds 0 Ht) by (unfold dlen in *; lia). apply Hw.
Qed.

Lemma table_dlen m p d ds : table m p (d :: ds) -> dlen d < 256.
Proof. intros Ht. pose proof (table_next _ _ _ Ht) as E. cbn in E. rewrite <- E. apply ld8_range. Qed.

Section config.
Context {W : Type} `{UsbPort}.
(** [usbd_set_endpoint] for a descriptor. *)
Definition open_endpoint (d : list Z) (s : ustate W) : ustate W * bool :=
  let addr := byte d 2 in
  let w := word d 4 in
  let i := Z.to_nat (Z.land addr 0x7f) in
  let msg := set_msg (USB_GET_MAXPACKETSIZE w) (USB_GET_MULT w) in
  let s := on_core (fun c =>
    if negb (Z.land addr 0x80 =? 0) then with_msgs (alter msg i (tx_msg c)) (rx_msg c) c
    else with_msgs (tx_msg c) (alter msg i (rx_msg c)) c) s in
  let '(s, ret) := usbd_ep_open addr (byte d 3) w s in
  (s, ret =? 0).
Lemma set_endpoint_eq m p d ds s : table m p (d :: ds) -> dtype d = 5 -> mem s = m -> usbd_set_endpoint p s = open_endpoint d s.
Proof.
  intros Ht Hd Hm. pose proof Ht as ([_ Hmin] & _). rewrite Hd in Hmin. cbn in Hmin. unfold dlen in Hmin.
  unfold usbd_set_endpoint, open_endpoint. cbv zeta.
  assert (E2 : ld8 (mem s) (p + 2) = byte d 2) by (rewrite Hm; apply (desc_table_byte m p d ds 2 Ht); lia).
  assert (E4 : rd16 (mem s) (p + 4) = word d 4) by (rewrite Hm; apply (table_word m p d ds 4 Ht); lia).
  assert (E3 : ld8 (mem s) (p + 3) = byte d 3) by (rewrite Hm; apply (desc_table_byte m p d ds 3 Ht); lia).
  rewrite E2, E4. match goal with |- context [usbd_ep_open _ (ld8 (mem ?x) _)] => change (mem x) with (mem s) end. by rewrite E3.
Qed.
Lemma mem_open d s : mem (open_endpoint d s).1 = mem s.
Proof. done. Qed.

(** One turn of the loop, on a descriptor; then the step to the next. *)
Definition cfg_turn (v alt : Z) (d : list Z) (sw : ustate W * cfg_walk) : ustate W * cfg_walk :=
  let '(s, w) := sw in
  if dtype d =? 2 then
    (s, if byte d 5 =? v then {| w_alt := w_alt w; w_config := byte d 5; w_found := true; w_desc_len := word d 2; w_current_len := 0 |}
        else {| w_alt := w_alt w; w_config := byte d 5; w_found := w_found w; w_desc_len := w_desc_len w; w_current_len := w_current_len w |})
  else if dtype d =? 4 then
    (s, {| w_alt := byte d 3; w_config := w_config w; w_found := w_found w; w_desc_len := w_desc_len w; w_current_len := w_current_len w |})
  else if dtype d =? 5 then
    if negb (w_config w =? v) || negb (w_alt w =? alt) then (s, w)
    else
      let '(s, ok) := open_endpoint d s in
      (s, {| w_alt := w_alt w; w_config := w_config w; w_found := ok; w_desc_len := w_desc_len w; w_current_len := w_current_len w |})
  else (s, w).
Definition move (n : Z) (w : cfg_walk) : cfg_walk :=
  {| w_alt := w_alt w; w_config := w_config w; w_found := w_found w; w_desc_len := w_desc_len w; w_current_len := u32 (w_current_len w + n) |}.
Lemma loop_turn n v alt p d ds w s : table (mem s) p (d :: ds) ->
  set_configuration_loop (S n) v alt p w s =
    let '(s1, w1) := cfg_turn v alt d (s, w) in
    let w2 := move (next_len ds) w1 in
    if past_end (w_current_len w2) (w_desc_len w2) then (s1, w_found w2)
    else set_configuration_loop n v alt (p + dlen d) w2 s1.
Proof.
  intros Ht. pose proof Ht as ([Hlen Hmin] & _ & Hds). pose proof (table_next _ _ _ Ht) as E0. cbn [next_len] in E0.
  pose proof (desc_wf_pos d (proj1 Ht)) as Hpos. unfold dlen in Hmin, Hpos.
  assert (Eb : forall i, (i < length d)%nat -> ld8 (mem s) (p + Z.of_nat i) = byte d i) by (intros; by eapply desc_table_byte).
  assert (E1 : ld8 (mem s) (p + 1) = dtype d) by (apply (Eb 1%nat); lia).
  cbn [set_configuration_loop]. rewrite E0. destruct (Z.eqb_spec (dlen d) 0); [unfold dlen in *; lia|]. rewrite E1.
  unfold cfg_turn. rewrite (table_next _ _ _ Hds). unfold move.
  destruct (Z.eqb_spec (dtype d) 2) as [T2|T2].
  { pose proof (Eb 5%nat ltac:(lia)) as E5. pose proof (table_word _ _ _ _ 2 Ht ltac:(lia)) as E2.
    change (Z.of_nat 5) with 5 in E5. change (Z.of_nat 2) with 2 in E2. rewrite E5, E2. by destruct (byte d 5 =? v). }
  destruct (Z.eqb_spec (dtype d) 4) as [T4|T4].
  { pose proof (Eb 3%nat ltac:(lia)) as E3. change (Z.of_nat 3) with 3 in E3. by rewrite E3. }
  destruct (Z.eqb_spec (dtype d) 5) as [T5|T5]; [|done].
  destruct (negb (w_config w =? v) || _); [done|]. rewrite (set_endpoint_eq (mem s) p d ds s Ht T5 eq_refl).
  by destruct (open_endpoint d s).
Qed.
Lemma mem_turn v alt d s w : mem (cfg_turn v alt d (s, w)).1 = mem s.
Proof.
  unfold cfg_turn. destruct (dtype d =? 2); [done|]. destruct (dtype d =? 4); [done|]. destruct (dtype d =? 5); [|done].
  destruct (negb (w_config w =? v) || negb (w_alt w =? alt)); [done|]. pose proof (mem_open d s) as E. by destruct (open_endpoint d s).
Qed.

(** ** The endpoints of a configuration

    [selected alt cur ds]: the endpoint descriptors behind an interface descriptor
    of the alternate setting [alt]; [cur] is the setting of the last one. *)
Fixpoint selected (alt : Z) (cur : option Z) (ds : list (list Z)) : list (list Z) :=
  match ds with
  | [] => []
  | d :: ds =>
      if dtype d =? 4 then selected alt (Some (byte d 3)) ds
      else if (dtype d =? 5) && bool_decide (cur = Some alt) then d :: selected alt cur ds
      else selected alt cur ds
  end.
Fixpoint interfaces_first (ds : list (list Z)) : bool :=
  match ds with
  | [] => true
  | d :: ds => if dtype d =? 4 then true else if dtype d =? 5 then false else interfaces_first ds
  end.
Definition total (ds : list (list Z)) : Z := foldr (fun d n => dlen d + n) 0 ds.
Lemma total_pos m p ds ds' : table m p (ds ++ ds') -> 0 <= total ds.
Proof.
  revert p. induction ds as [|d ds IH]; intros p; [done|]. cbn [app table total foldr]. intros (Hw & _ & Ht). pose proof (desc_wf_pos d Hw).
  specialize (IH _ Ht). unfold total in IH. lia.
Qed.
Lemma table_drop m p ds ds' : table m p (ds ++ ds') -> table m (p + total ds) ds'.
Proof.
  revert p. induction ds as [|d ds IH]; intros p Ht; cbn [app total foldr] in *; [by rewrite Z.add_0_r|]. destruct Ht as (_ & _ & Ht).
  fold (total ds). rewrite Z.add_assoc. by apply IH.
Qed.
(** What may follow the configuration: another configuration, or descriptors that
    belong to none. *)
Definition rest_ok (len : Z) (rest : list (list Z)) : Prop :=
  match rest with d :: _ => len <= dlen d | [] => False end \/ Forall (fun d => dtype d <> 2 /\ dtype d <> 5) rest.
Definition open_all (sb : ustate W * bool) (ds : list (list Z)) : ustate W * bool :=
  foldl (fun sb d => open_endpoint d sb.1) sb ds.

(** The loop from the end of a turn, at the descriptors [ds]. *)
Definition resume (n : nat) (v alt p : Z) (ds : list (list Z)) (w : cfg_walk) (s : ustate W) : ustate W * bool :=
  let w2 := move (next_len ds) w in
  if past_end (w_current_len w2) (w_desc_len w2) then (s, w_found w2) else set_configuration_loop n v alt p w2 s.
Lemma resume_turn n v alt p d ds w s : table (mem s) p (d :: ds) ->
  past_end (w_current_len (move (dlen d) w)) (w_desc_len w) = false ->
  resume (S n) v alt p (d :: ds) w s =
    let '(s1, w1) := cfg_turn v alt d (s, move (dlen d) w) in resume n v alt (p + dlen d) ds w1 s1.
Proof.
  intros Ht Hp. unfold resume at 1. cbv zeta. cbn [next_len]. change (w_desc_len (move (dlen d) w)) with (w_desc_len w). rewrite Hp.
  by rewrite (loop_turn n v alt p d ds) by done.
Qed.
Lemma turn_idle v alt d s w : dtype d <> 2 -> dtype d <> 5 ->
  cfg_turn v alt d (s, w) = (s, if dtype d =? 4 then {| w_alt := byte d 3; w_config := w_config w; w_found := w_found w; w_desc_len := w_desc_len w; w_current_len := w_current_len w |} else w).
Proof.
  intros H2 H5. unfold cfg_turn. destruct (Z.eqb_spec (dtype d) 2); [done|]. destruct (dtype d =? 4); [done|].
  by destruct (Z.eqb_spec (dtype d) 5).
Qed.
Lemma rest_run v alt ds : forall n p w s, table (mem s) p ds -> Forall (fun d => dtype d <> 2 /\ dtype d <> 5) ds ->
  resume n v alt p ds w s = (s, w_found w).
Proof.
  induction ds as [|d ds IH]; intros n p w s Ht Hf.
  - unfold resume. destruct (past_end _ _); [done|]. destruct n as [|n]; [done|]. cbn [set_configuration_loop]. cbn [table] in Ht.
    by rewrite Ht.
  - destruct n as [|n]; [unfold resume; by destruct (past_end _ _)|].
    destruct (past_end (w_current_len (move (dlen d) w)) (w_desc_len w)) eqn:E.
    { unfold resume. cbv zeta. cbn [next_len]. change (w_desc_len (move (dlen d) w)) with (w_desc_len w). by rewrite E. }
    rewrite resume_turn by done. apply Forall_cons in Hf as [[H2 H5] Hf]. rewrite turn_idle by done. rewrite IH; [|apply Ht|done].
    by destruct (dtype d =? 4).
Qed.
Lemma past_end_false a b : a < b -> past_end a b = false.
Proof. intros Hab. unfold past_end. by rewrite (proj2 (Z.leb_gt _ _) Hab). Qed.
Lemma body_run v alt rest len body : forall cur n p w s,
  table (mem s) p (body ++ rest) -> Forall (fun d => dtype d <> 2) body -> rest_ok len rest ->
  w_config w = v -> 0 <= w_current_len w -> 9 <= len -> w_desc_len w = w_current_len w + total body + len -> w_desc_len w < 65536 ->
  match cur with Some a => w_alt w = a | None => interfaces_first body = true end ->
  (length (body ++ rest) < n)%nat ->
  resume n v alt p (body ++ rest) w s = open_all (s, w_found w) (selected alt cur body).
Proof.
  induction body as [|d body IH]; intros cur n p w s Ht Hb Hr Hv H0 Hlen Htot Hlt Hcur Hn.
  - cbn [app total foldr selected open_all foldl] in *. destruct Hr as [Hr|Hr]; [|by apply rest_run].
    destruct rest as [|d rest]; [done|]. unfold resume. cbn [next_len move w_current_len w_desc_len w_found].
    cbn [table] in Ht. pose proof (desc_wf_pos d (proj1 Ht)).
    pose proof (table_dlen _ _ _ _ Ht).
    rewrite u32_small by lia. unfold past_end. rewrite (proj2 (Z.leb_le _ _)) by lia. destruct (Z.eqb_spec (w_desc_len w) 0); [lia|done].
  - cbn [app] in *. apply Forall_cons in Hb as [H2 Hb]. pose proof Ht as (Hw & _ & Ht'). pose proof (desc_wf_pos d Hw).
    pose proof (total_pos _ _ _ _ Ht'). cbn [total foldr] in Htot. fold (total body) in Htot. cbn [length] in Hn. destruct n as [|n]; [lia|].
    assert (Ec : u32 (w_current_len w + dlen d) = w_current_len w + dlen d) by (apply u32_small; lia).
    rewrite resume_turn; [|done|apply past_end_false; cbn [move w_current_len]; lia].
    assert (Hm : mem s = mem s) by done.
    destruct (Z.eqb_spec (dtype d) 5) as [T5|T5].
    + destruct cur as [a|]; [|cbn [interfaces_first] in Hcur; by rewrite T5 in Hcur].
      cbn [selected]. rewrite T5. unfold cfg_turn. rewrite T5. cbn [Z.eqb Pos.eqb andb move w_config w_alt]. rewrite Hv, Z.eqb_refl, Hcur. cbn [negb orb].
      destruct (Z.eqb_spec a alt) as [->|Ha]; cbn [negb].
      * rewrite bool_decide_true by done. cbn [open_all foldl fst]. pose proof (mem_open d s) as Em. destruct (open_endpoint d s) as [s1 ok]. cbn [fst] in Em.
        rewrite (IH (Some alt)); cbn [move w_config w_current_len w_desc_len w_alt w_found]; rewrite ?Ec, ?Em; try done; lia.
      * rewrite bool_decide_false by congruence.
        rewrite (IH (Some a)); cbn [move w_config w_current_len w_desc_len w_alt w_found]; rewrite ?Ec; try done; lia.
    + rewrite turn_idle by done. cbn [selected interfaces_first] in *. destruct (dtype d =? 4).
      * rewrite (IH (Some (byte d 3))); cbn [move w_config w_current_len w_desc_len w_alt w_found]; rewrite ?Ec; try done; lia.
      * destruct (Z.eqb_spec (dtype d) 5); [done|]. cbn [andb].
        rewrite (IH cur); cbn [move w_config w_current_len w_desc_len w_alt w_found]; rewrite ?Ec; try done; try lia.
Qed.
Lemma pre_run v alt ds pre : forall n p w s,
  table (mem s) p (pre ++ ds) -> Forall (fun d => dtype d = 2 -> byte d 5 <> v) pre -> w_config w <> v -> w_desc_len w = 0 ->
  (length pre < n)%nat ->
  exists w', resume n v alt p (pre ++ ds) w s = resume (n - length pre) v alt (p + total pre) ds w' s /\
    w_config w' <> v /\ w_desc_len w' = 0.
Proof.
  induction pre as [|d pre IH]; intros n p w s Ht Hf Hc Hd Hn.
  - exists w. cbn. by rewrite Nat.sub_0_r, Z.add_0_r.
  - cbn [app length] in *. destruct n as [|n]; [lia|]. apply Forall_cons in Hf as [Hf1 Hf].
    rewrite resume_turn; [|done|unfold past_end; by rewrite Hd, andb_false_r].
    assert (Hturn : exists w1, cfg_turn v alt d (s, move (dlen d) w) = (s, w1) /\ w_config w1 <> v /\ w_desc_len w1 = 0).
    { unfold cfg_turn. cbn [move w_config]. destruct (Z.eqb_spec (dtype d) 2) as [T2|T2].
      - destruct (Z.eqb_spec (byte d 5) v); [by destruct (Hf1 T2)|]. by eexists.
      - destruct (dtype d =? 4); [by eexists|]. destruct (dtype d =? 5); [|by eexists].
        rewrite (proj2 (Z.eqb_neq _ _) Hc). by eexists. }
    destruct Hturn as (w1 & -> & Hc1 & Hd1). destruct (IH n (p + dlen d) w1 s (proj2 (proj2 Ht)) Hf Hc1 Hd1 ltac:(lia)) as (w' & E & Hw').
    exists w'. split; [|done]. rewrite E. cbn [Nat.sub total foldr]. fold (total pre). by rewrite Z.add_assoc.
Qed.
End config.

(** The configuration of the demo: its two bulk endpoints. *)
Lemma demo_table : table (mem demo_state) TABLE demo_descriptors.
Proof. repeat (split; [constructor; vm_compute; [reflexivity|discriminate]|split; [vm_compute; reflexivity|]]). vm_compute. reflexivity. Qed.
