(* ===== verification/UsbMsc.v ===== *)
(** * The mass storage class ([src/packages/CherryUSB-v1.4.0/class/msc/usbd_msc.c])

    The bulk-only transport and the SCSI commands, in the configuration without a
    storage thread: the commands run in the endpoint callbacks.  The command block
    ([cbw]), the status block ([csw]) and the block buffer are memory the
    controller reads and writes; the storage is the interface [MscStorage]. *)
From S2P Require Import Prelude KString UsbCore.

Definition CONFIG_USBDEV_MSC_MAX_LUN : nat := 1.
Definition CONFIG_USBDEV_MSC_MAX_BUFSIZE : Z := 512.
Definition USB_SIZEOF_MSC_CBW : Z := 31.
Definition USB_SIZEOF_MSC_CSW : Z := 13.
Definition MSC_CBW_Signature : Z := 0x43425355.
Definition MSC_CSW_Signature : Z := 0x53425355.
Definition CSW_STATUS_CMD_PASSED : Z := 0.
Definition CSW_STATUS_CMD_FAILED : Z := 1.

Inductive Stage := MSC_READ_CBW | MSC_DATA_OUT | MSC_DATA_IN | MSC_SEND_CSW | MSC_WAIT_CSW.

(** [cbw], [csw] and [block_buffer] are addresses; [mass_ep_data] is reduced to
    the two endpoint addresses. *)
Record usbd_msc_priv := {
  stage : Stage;
  cbw : Z;
  csw : Z;
  readonly : bool;
  popup : bool;
  sKey : Z;
  ASC : Z;
  ASQ : Z;
  max_lun : Z;
  start_sector : Z;
  nsectors : Z;
  scsi_blk_size : list Z;
  scsi_blk_nbr : list Z;
  block_buffer : Z;
  out_ep : Z;
  in_ep : Z;
}.
Abbreviation mworld := (world usbd_msc_priv).

(** The storage of the application. *)
Class MscStorage := {
  usbd_msc_get_cap : Z -> Z * Z;
  usbd_msc_sector_read : Z -> Z -> Z -> Z -> mworld -> mworld * Z;
  usbd_msc_sector_write : Z -> Z -> Z -> Z -> mworld -> mworld * Z;
}.

Definition on_msc (f : usbd_msc_priv -> usbd_msc_priv) (w : mworld) : mworld := with_uw (f (uw w)) w.
Definition with_stage (x : Stage) (p : usbd_msc_priv) : usbd_msc_priv :=
  {| stage := x; cbw := cbw p; csw := csw p; readonly := readonly p; popup := popup p; sKey := sKey p; ASC := ASC p; ASQ := ASQ p; max_lun := max_lun p;
     start_sector := start_sector p; nsectors := nsectors p; scsi_blk_size := scsi_blk_size p; scsi_blk_nbr := scsi_blk_nbr p;
     block_buffer := block_buffer p; out_ep := out_ep p; in_ep := in_ep p |}.
Definition with_readonly (b : bool) (p : usbd_msc_priv) : usbd_msc_priv :=
  {| stage := stage p; cbw := cbw p; csw := csw p; readonly := b; popup := popup p; sKey := sKey p; ASC := ASC p; ASQ := ASQ p; max_lun := max_lun p;
     start_sector := start_sector p; nsectors := nsectors p; scsi_blk_size := scsi_blk_size p; scsi_blk_nbr := scsi_blk_nbr p;
     block_buffer := block_buffer p; out_ep := out_ep p; in_ep := in_ep p |}.
Definition with_popup (b : bool) (p : usbd_msc_priv) : usbd_msc_priv :=
  {| stage := stage p; cbw := cbw p; csw := csw p; readonly := readonly p; popup := b; sKey := sKey p; ASC := ASC p; ASQ := ASQ p; max_lun := max_lun p;
     start_sector := start_sector p; nsectors := nsectors p; scsi_blk_size := scsi_blk_size p; scsi_blk_nbr := scsi_blk_nbr p;
     block_buffer := block_buffer p; out_ep := out_ep p; in_ep := in_ep p |}.
Definition with_sense (k c q : Z) (p : usbd_msc_priv) : usbd_msc_priv :=
  {| stage := stage p; cbw := cbw p; csw := csw p; readonly := readonly p; popup := popup p; sKey := k; ASC := c; ASQ := q; max_lun := max_lun p;
     start_sector := start_sector p; nsectors := nsectors p; scsi_blk_size := scsi_blk_size p; scsi_blk_nbr := scsi_blk_nbr p;
     block_buffer := block_buffer p; out_ep := out_ep p; in_ep := in_ep p |}.
Definition with_sectors (s n : Z) (p : usbd_msc_priv) : usbd_msc_priv :=
  {| stage := stage p; cbw := cbw p; csw := csw p; readonly := readonly p; popup := popup p; sKey := sKey p; ASC := ASC p; ASQ := ASQ p; max_lun := max_lun p;
     start_sector := s; nsectors := n; scsi_blk_size := scsi_blk_size p; scsi_blk_nbr := scsi_blk_nbr p;
     block_buffer := block_buffer p; out_ep := out_ep p; in_ep := in_ep p |}.

(** The members of the command block and of the status block in memory. *)
Definition wr32 (m : bmem) (p v : Z) : bmem :=
  wr (wr (wr (wr m p (Z.land v 0xFF)) (p + 1) (Z.land (Z.shiftr v 8) 0xFF)) (p + 2) (Z.land (Z.shiftr v 16) 0xFF)) (p + 3) (Z.land (Z.shiftr v 24) 0xFF).
Definition cbw_dSignature (w : mworld) : Z := rd32 (um w) (cbw (uw w)).
Definition cbw_dTag (w : mworld) : Z := rd32 (um w) (cbw (uw w) + 4).
Definition cbw_dDataLength (w : mworld) : Z := rd32 (um w) (cbw (uw w) + 8).
Definition cbw_bmFlags (w : mworld) : Z := ld8 (um w) (cbw (uw w) + 12).
Definition cbw_bLUN (w : mworld) : Z := ld8 (um w) (cbw (uw w) + 13).
Definition cbw_bCBLength (w : mworld) : Z := ld8 (um w) (cbw (uw w) + 14).
Definition cbw_CB (w : mworld) (i : Z) : Z := ld8 (um w) (cbw (uw w) + 15 + i).
Definition csw_dDataResidue (w : mworld) : Z := rd32 (um w) (csw (uw w) + 8).
Definition on_um (f : bmem -> bmem) (w : mworld) : mworld := with_um (f (um w)) w.
Definition set_csw_dSignature (v : Z) (w : mworld) : mworld := on_um (fun m => wr32 m (csw (uw w)) v) w.
Definition set_csw_dTag (v : Z) (w : mworld) : mworld := on_um (fun m => wr32 m (csw (uw w) + 4) v) w.
Definition set_csw_dDataResidue (v : Z) (w : mworld) : mworld := on_um (fun m => wr32 m (csw (uw w) + 8) v) w.
Definition set_csw_bStatus (v : Z) (w : mworld) : mworld := on_um (fun m => wr m (csw (uw w) + 12) (u8 v)) w.
Definition GET_BE32 (w : mworld) (i : Z) : Z :=
  Z.lor (Z.lor (Z.shiftl (cbw_CB w i) 24) (Z.shiftl (cbw_CB w (i + 1)) 16)) (Z.lor (Z.shiftl (cbw_CB w (i + 2)) 8) (cbw_CB w (i + 3))).
Definition GET_BE16 (w : mworld) (i : Z) : Z := Z.lor (Z.shiftl (cbw_CB w i) 8) (cbw_CB w (i + 1)).
(** An element of the arrays over the logical units; the index comes from the
    host and is not checked: behind the array this reads 0. *)
Definition lun_get (l : list Z) (i : Z) : Z := default 0 (l !! Z.to_nat i).
Definition blk_nbr (w : mworld) : Z := lun_get (scsi_blk_nbr (uw w)) (cbw_bLUN w).
Definition blk_size (w : mworld) : Z := lun_get (scsi_blk_size (uw w)) (cbw_bLUN w).

Definition start_read (ep addr len : Z) : mworld -> mworld := call_port (PStartRead ep addr len).
Definition start_write (ep addr len : Z) : mworld -> mworld := call_port (PStartWrite ep addr len).

(** ** Requests on the control endpoint and notifications *)
Definition usbd_msc_reset (w : mworld) : mworld := on_msc (fun p => with_readonly false (with_stage MSC_READ_CBW p)) w.
Definition msc_storage_class_interface_request_handler : usbd_request_handler :=
  fun st data len w =>
    if bRequest st =? 0xFF then {| h_ret := 0; h_data := data; h_len := len; h_world := usbd_msc_reset w |}
    else if bRequest st =? 0xFE then {| h_ret := 0; h_data := data; h_len := 1; h_world := poke data (max_lun (uw w)) w |}
    else {| h_ret := -1; h_data := data; h_len := len; h_world := w |}.
Definition read_cbw (w : mworld) : mworld := start_read (out_ep (uw w)) (cbw (uw w)) USB_SIZEOF_MSC_CBW w.
Definition msc_storage_notify_handler : usbd_notify_handler :=
  fun event _ w =>
    match event with
    | USBD_EVENT_RESET => usbd_msc_reset w
    | USBD_EVENT_CONFIGURED => read_cbw w
    | _ => w
    end.

Definition usbd_msc_bot_abort (w : mworld) : mworld :=
  let w := if (cbw_bmFlags w =? 0) && negb (cbw_dDataLength w =? 0) then call_port (PSetStall (out_ep (uw w))) w else w in
  let w := call_port (PSetStall (in_ep (uw w))) w in
  read_cbw w.
Definition usbd_msc_send_csw (status : Z) (w : mworld) : mworld :=
  let w := set_csw_bStatus status (set_csw_dSignature MSC_CSW_Signature w) in
  let w := on_msc (with_stage MSC_WAIT_CSW) w in
  start_write (in_ep (uw w)) (csw (uw w)) USB_SIZEOF_MSC_CSW w.
(** [size] is a byte. *)
Definition usbd_msc_send_info (buffer size : Z) (w : mworld) : mworld :=
  let size := u8 (Z.min (u8 size) (cbw_dDataLength w)) in
  let w := on_msc (with_stage MSC_SEND_CSW) w in
  let w := start_write (in_ep (uw w)) buffer size w in
  let w := set_csw_dDataResidue (u32 (csw_dDataResidue w - size)) w in
  set_csw_bStatus CSW_STATUS_CMD_PASSED w.
Definition SCSI_SetSenseData (KCQ : Z) (w : mworld) : mworld :=
  on_msc (with_sense (u8 (Z.shiftr KCQ 16)) (u8 (Z.shiftr KCQ 8)) (u8 KCQ)) w.
Definition SCSI_KCQIR_INVALIDCOMMAND : Z := 0x052000.
Definition SCSI_KCQIR_LBAOUTOFRANGE : Z := 0x052100.
Definition SCSI_KCQIR_INVALIDFIELDINCBA : Z := 0x052400.
Definition SCSI_KCQHE_WRITEFAULT : Z := 0x040300.
Definition SCSI_KCQHE_UREINRESERVEDAREA : Z := 0x041100.

(** ** SCSI commands

    [Some (data, len)] for success. *)
Definition scsi : Type := option (Z * Z) * mworld.
Definition fail_with (KCQ : Z) (w : mworld) : scsi := (None, SCSI_SetSenseData KCQ w).
(** Copying an array to the answer. *)
Definition put_bytes (p : Z) (l : list Z) (w : mworld) : mworld :=
  foldl (fun w iv => poke (p + Z.of_nat iv.1) iv.2 w) w (zip (seq 0 (length l)) l).
Definition answer (data : Z) (l : list Z) (n : Z) (w : mworld) : scsi := (Some (data, n), put_bytes data (take (Z.to_nat n) l) w).
Definition no_data (w : mworld) : scsi := (Some (0, 0), w).

Definition SCSI_testUnitReady (w : mworld) : scsi :=
  if negb (cbw_dDataLength w =? 0) then fail_with SCSI_KCQIR_INVALIDCOMMAND w else no_data w.
Definition SCSI_requestSense (data : Z) (w : mworld) : scsi :=
  if cbw_dDataLength w =? 0 then fail_with SCSI_KCQIR_INVALIDCOMMAND w
  else
    let n := if cbw_CB w 4 <? 18 then cbw_CB w 4 else 18 in
    let p := uw w in
    answer data [0x70; 0; sKey p; 0; 0; 0; 0; 10; 0; 0; 0; 0; ASC p; ASQ p; 0; 0; 0; 0] n w.
(** The identification strings of [usb_config.h]: two empty ones and ["0.01"]. *)
Definition inquiry_data : list Z := [0; 0x80; 2; 2; 31; 0; 0; 0] ++ replicate 24 0x20 ++ [0x30; 0x2E; 0x30; 0x31].
Definition SCSI_inquiry (data : Z) (w : mworld) : scsi :=
  if cbw_dDataLength w =? 0 then fail_with SCSI_KCQIR_INVALIDCOMMAND w
  else if negb (Z.land (cbw_CB w 1) 1 =? 0) then
    if cbw_CB w 2 =? 0 then answer data [0; 0; 0; 2; 0; 0x80] 6 w
    else if cbw_CB w 2 =? 0x80 then answer data [0; 0x80; 0; 8; 0x20; 0x20; 0x20; 0x20] 8 w
    else fail_with SCSI_KCQIR_INVALIDFIELDINCBA w
  else answer data inquiry_data (if cbw_CB w 4 <? 36 then cbw_CB w 4 else 36) w.
Definition SCSI_startStopUnit (w : mworld) : scsi :=
  if negb (cbw_dDataLength w =? 0) then fail_with SCSI_KCQIR_INVALIDCOMMAND w
  else no_data (if Z.land (cbw_CB w 4) 3 =? 2 then on_msc (with_popup true) w else w).
Definition SCSI_preventAllowMediaRemoval (w : mworld) : scsi :=
  if negb (cbw_dDataLength w =? 0) then fail_with SCSI_KCQIR_INVALIDCOMMAND w else no_data w.
Definition SCSI_modeSense6 (data : Z) (w : mworld) : scsi :=
  if cbw_dDataLength w =? 0 then fail_with SCSI_KCQIR_INVALIDCOMMAND w
  else answer data [3; 0; if readonly (uw w) then 0x80 else 0; 0] (if cbw_CB w 4 <? 4 then cbw_CB w 4 else 4) w.
Definition SCSI_modeSense10 (data : Z) (w : mworld) : scsi :=
  if cbw_dDataLength w =? 0 then fail_with SCSI_KCQIR_INVALIDCOMMAND w
  else answer data ([0; 0x26; 0; 0; 0; 0; 0; 0; 8; 0x12] ++ replicate 17 0) (if cbw_CB w 8 <? 27 then cbw_CB w 8 else 27) w.
Definition be32 (x : Z) : list Z := [Z.land (Z.shiftr x 24) 0xFF; Z.land (Z.shiftr x 16) 0xFF; Z.land (Z.shiftr x 8) 0xFF; Z.land x 0xFF].
Definition SCSI_readFormatCapacity (data : Z) (w : mworld) : scsi :=
  if cbw_dDataLength w =? 0 then fail_with SCSI_KCQIR_INVALIDCOMMAND w
  else answer data ([0; 0; 0; 8] ++ be32 (blk_nbr w) ++ [2; 0; Z.land (Z.shiftr (blk_size w) 8) 0xFF; Z.land (blk_size w) 0xFF]) 12 w.
Definition SCSI_readCapacity10 (data : Z) (w : mworld) : scsi :=
  if cbw_dDataLength w =? 0 then fail_with SCSI_KCQIR_INVALIDCOMMAND w
  else answer data (be32 (u32 (blk_nbr w - 1)) ++ be32 (blk_size w)) 8 w.

Section storage.
Context `{MscStorage}.

(** One block to the host. *)
Definition SCSI_processRead (w : mworld) : mworld * bool :=
  let p := uw w in
  let transfer_len := Z.min (u32 (nsectors p * blk_size w)) CONFIG_USBDEV_MSC_MAX_BUFSIZE in
  let '(w, ret) := usbd_msc_sector_read (cbw_bLUN w) (start_sector p) (block_buffer p) transfer_len w in
  if negb (ret =? 0) then (SCSI_SetSenseData SCSI_KCQHE_UREINRESERVEDAREA w, false)
  else
    let k := transfer_len / blk_size w in
    let w := on_msc (fun p => with_sectors (u32 (start_sector p + k)) (u32 (nsectors p - k)) p) w in
    let w := set_csw_dDataResidue (u32 (csw_dDataResidue w - transfer_len)) w in
    let w := if nsectors (uw w) =? 0 then on_msc (with_stage MSC_SEND_CSW) w else w in
    (start_write (in_ep (uw w)) (block_buffer (uw w)) transfer_len w, true).
(** One block from the host. *)
Definition SCSI_processWrite (nbytes : Z) (w : mworld) : mworld * bool :=
  let p := uw w in
  let '(w, ret) := usbd_msc_sector_write (cbw_bLUN w) (start_sector p) (block_buffer p) nbytes w in
  if negb (ret =? 0) then (SCSI_SetSenseData SCSI_KCQHE_WRITEFAULT w, false)
  else
    let k := nbytes / blk_size w in
    let w := on_msc (fun p => with_sectors (u32 (start_sector p + k)) (u32 (nsectors p - k)) p) w in
    let w := set_csw_dDataResidue (u32 (csw_dDataResidue w - nbytes)) w in
    if nsectors (uw w) =? 0 then (usbd_msc_send_csw CSW_STATUS_CMD_PASSED w, true)
    else
      let data_len := Z.min (u32 (nsectors (uw w) * blk_size w)) CONFIG_USBDEV_MSC_MAX_BUFSIZE in
      (start_read (out_ep (uw w)) (block_buffer (uw w)) data_len w, true).

(** The commands that read and write blocks: the number of blocks is at [CB 7] on
    two bytes or at [CB 6] on four. *)
Definition of_ret (r : mworld * bool) : scsi := (if r.2 then Some (0, 0) else None, r.1).
Definition scsi_read (count : mworld -> Z) (w : mworld) : scsi :=
  if negb (Z.land (cbw_bmFlags w) 0x80 =? 0x80) || (cbw_dDataLength w =? 0) then fail_with SCSI_KCQIR_INVALIDCOMMAND w
  else
    let w := on_msc (with_sectors (GET_BE32 w 2) (count w)) w in
    let p := uw w in
    if blk_nbr w <? u32 (start_sector p + nsectors p) then fail_with SCSI_KCQIR_LBAOUTOFRANGE w
    else if negb (cbw_dDataLength w =? u32 (nsectors p * blk_size w)) then (None, w)
    else of_ret (SCSI_processRead (on_msc (with_stage MSC_DATA_IN) w)).
Definition SCSI_read10 : mworld -> scsi := scsi_read (fun w => GET_BE16 w 7).
Definition SCSI_read12 : mworld -> scsi := scsi_read (fun w => GET_BE32 w 6).
Definition scsi_write (count : mworld -> Z) (w : mworld) : scsi :=
  if negb (Z.land (cbw_bmFlags w) 0x80 =? 0) || (cbw_dDataLength w =? 0) then fail_with SCSI_KCQIR_INVALIDCOMMAND w
  else
    let w := on_msc (with_sectors (GET_BE32 w 2) (count w)) w in
    let p := uw w in
    let data_len := u32 (nsectors p * blk_size w) in
    if blk_nbr w <? u32 (start_sector p + nsectors p) then (None, w)
    else if negb (cbw_dDataLength w =? data_len) then (None, w)
    else
      let w := on_msc (with_stage MSC_DATA_OUT) w in
      (Some (0, 0), start_read (out_ep p) (block_buffer p) (Z.min data_len CONFIG_USBDEV_MSC_MAX_BUFSIZE) w).
Definition SCSI_write10 : mworld -> scsi := scsi_write (fun w => GET_BE16 w 7).
Definition SCSI_write12 : mworld -> scsi := scsi_write (fun w => GET_BE32 w 6).

Definition scsi_command (w : mworld) : scsi :=
  let buf := block_buffer (uw w) in
  let c := cbw_CB w 0 in
  if c =? 0x00 then SCSI_testUnitReady w
  else if c =? 0x03 then SCSI_requestSense buf w
  else if c =? 0x12 then SCSI_inquiry buf w
  else if c =? 0x1b then SCSI_startStopUnit w
  else if c =? 0x1e then SCSI_preventAllowMediaRemoval w
  else if c =? 0x1a then SCSI_modeSense6 buf w
  else if c =? 0x5a then SCSI_modeSense10 buf w
  else if c =? 0x23 then SCSI_readFormatCapacity buf w
  else if c =? 0x25 then SCSI_readCapacity10 buf w
  else if c =? 0x28 then SCSI_read10 w
  else if c =? 0xa8 then SCSI_read12 w
  else if c =? 0x2a then SCSI_write10 w
  else if c =? 0xaa then SCSI_write12 w
  else if c =? 0x2f then (None, w)
  else fail_with SCSI_KCQIR_INVALIDCOMMAND w.
Definition is_read_cbw (w : mworld) : bool := match stage (uw w) with MSC_READ_CBW => true | _ => false end.
Definition SCSI_CBWDecode (nbytes : Z) (w : mworld) : mworld * bool :=
  if negb (nbytes =? USB_SIZEOF_MSC_CBW) then (SCSI_SetSenseData SCSI_KCQIR_INVALIDCOMMAND w, false)
  else
    let w := set_csw_dDataResidue (cbw_dDataLength w) (set_csw_dTag (cbw_dTag w) w) in
    if negb (cbw_dSignature w =? MSC_CBW_Signature) || (cbw_bCBLength w <? 1) || (16 <? cbw_bCBLength w) then
      (SCSI_SetSenseData SCSI_KCQIR_INVALIDCOMMAND w, false)
    else
      match scsi_command w with
      | (None, w) => (w, false)
      | (Some (buf, len), w) =>
          (if is_read_cbw w then
             if negb (len =? 0) then usbd_msc_send_info buf len w else usbd_msc_send_csw CSW_STATUS_CMD_PASSED w
           else w, true)
      end.

(** ** The endpoint callbacks *)
Definition mass_storage_bulk_out (ep nbytes : Z) (w : mworld) : mworld :=
  match stage (uw w) with
  | MSC_READ_CBW =>
      let '(w, ok) := SCSI_CBWDecode nbytes w in
      if negb ok then usbd_msc_bot_abort w else w
  | MSC_DATA_OUT =>
      if (cbw_CB w 0 =? 0x2a) || (cbw_CB w 0 =? 0xaa) then
        let '(w, ok) := SCSI_processWrite nbytes w in
        if negb ok then usbd_msc_send_csw CSW_STATUS_CMD_FAILED w else w
      else w
  | _ => w
  end.
Definition mass_storage_bulk_in (ep nbytes : Z) (w : mworld) : mworld :=
  match stage (uw w) with
  | MSC_DATA_IN =>
      if (cbw_CB w 0 =? 0x28) || (cbw_CB w 0 =? 0xa8) then
        let '(w, ok) := SCSI_processRead w in
        if negb ok then usbd_msc_send_csw CSW_STATUS_CMD_FAILED w else w
      else w
  | MSC_SEND_CSW => usbd_msc_send_csw CSW_STATUS_CMD_PASSED w
  | MSC_WAIT_CSW => read_cbw (on_msc (with_stage MSC_READ_CBW) w)
  | _ => w
  end.

(** ** Registration

    The interface with its handlers and the state after the registration; no
    interface when the blocks of a logical unit are larger than the buffer. *)
Definition msc_interface (i : usbd_interface usbd_msc_priv) : usbd_interface usbd_msc_priv :=
  {| class_interface_handler := Some msc_storage_class_interface_request_handler; class_endpoint_handler := None; vendor_handler := None;
     notify_handler := Some msc_storage_notify_handler; hid_report_descriptor := hid_report_descriptor i;
     hid_report_descriptor_len := hid_report_descriptor_len i; intf_num := intf_num i |}.
Definition usbd_msc_init_intf (i : usbd_interface usbd_msc_priv) (o n : Z) (s : ustate usbd_msc_priv) :
    option (usbd_interface usbd_msc_priv) * ustate usbd_msc_priv :=
  let s := usbd_add_endpoint {| ep_addr := o; ep_cb := Some (class_callback mass_storage_bulk_out) |} s in
  let s := usbd_add_endpoint {| ep_addr := n; ep_cb := Some (class_callback mass_storage_bulk_in) |} s in
  let p := uw (wd s) in
  let caps := (fun l => usbd_msc_get_cap (Z.of_nat l)) <$> seq 0 CONFIG_USBDEV_MSC_MAX_LUN in
  let fresh :=
    {| stage := MSC_READ_CBW; cbw := cbw p; csw := csw p; readonly := false; popup := false; sKey := 0; ASC := 0; ASQ := 0;
       max_lun := Z.of_nat CONFIG_USBDEV_MSC_MAX_LUN - 1; start_sector := 0; nsectors := 0;
       scsi_blk_size := caps.*2; scsi_blk_nbr := caps.*1; block_buffer := block_buffer p; out_ep := o; in_ep := n |} in
  let zero a len := on_um (memset_bytes (Z.to_nat len) 0 a) in
  let s := on_wd (fun w => zero (block_buffer p) CONFIG_USBDEV_MSC_MAX_BUFSIZE (zero (csw p) USB_SIZEOF_MSC_CSW (zero (cbw p) USB_SIZEOF_MSC_CBW (with_uw fresh w)))) s in
  (if existsb (fun c => CONFIG_USBDEV_MSC_MAX_BUFSIZE <? c.2) caps then None else Some (msc_interface i), s).
Definition usbd_msc_set_readonly (b : bool) (w : mworld) : mworld := on_msc (with_readonly b) w.
Definition usbd_msc_get_popup (w : mworld) : bool := popup (uw w).
End storage.
