(* ===== verification/UsbMscProps.v ===== *)
(** * The mass storage class serves reads and writes of blocks

    The host sends a command block, exchanges the blocks and gets the status; the
    storage is seen as a function [disk] from sectors to blocks. *)
From S2P Require Import Prelude KString UsbCore UsbFrame UsbProps UsbConfig UsbMsc.

(** ** Words in memory *)
Definition le4 (v : Z) : list Z := [Z.land v 0xFF; Z.land (Z.shiftr v 8) 0xFF; Z.land (Z.shiftr v 16) 0xFF; Z.land (Z.shiftr v 24) 0xFF].
Lemma land_byte v k : 0 <= k -> Z.land (Z.shiftr v k) 0xFF = (v / 2 ^ k) mod 256.
Proof. intros Hk. change 0xFF with (Z.ones 8). rewrite Z.land_ones, Z.shiftr_div_pow2 by lia. done. Qed.
Lemma le4_word v : 0 <= v < 2 ^ 32 ->
  u32 (Z.land v 0xFF + Z.shiftl (Z.land (Z.shiftr v 8) 0xFF) 8 + Z.shiftl (Z.land (Z.shiftr v 16) 0xFF) 16 + Z.shiftl (Z.land (Z.shiftr v 24) 0xFF) 24) = v.
Proof.
  intros Hv. rewrite !land_byte, !Z.shiftl_mul_pow2 by lia. rewrite <- (Z.shiftr_0_r v) at 1. rewrite land_byte by lia.
  change (2 ^ 0) with 1. change (2 ^ 8) with 256. change (2 ^ 16) with 65536. change (2 ^ 24) with 16777216. change (2 ^ 32) with 4294967296 in Hv.
  rewrite Z.div_1_r.
  assert (E2 : v / 65536 = v / 256 / 256) by (by rewrite Z.div_div by lia). assert (E3 : v / 16777216 = v / 256 / 256 / 256) by (by rewrite !Z.div_div by lia).
  rewrite E2, E3. pose proof (Z.div_mod v 256 ltac:(lia)). pose proof (Z.div_mod (v / 256) 256 ltac:(lia)). pose proof (Z.div_mod (v / 256 / 256) 256 ltac:(lia)).
  pose proof (Z.mod_pos_bound v 256 ltac:(lia)). pose proof (Z.mod_pos_bound (v / 256) 256 ltac:(lia)). pose proof (Z.mod_pos_bound (v / 256 / 256) 256 ltac:(lia)).
  assert (0 <= v / 256 / 256 / 256 < 256) by (rewrite <- E3; split; [apply Z.div_pos; lia|apply Z.div_lt_upper_bound; lia]).
  rewrite (Z.mod_small (v / 256 / 256 / 256)) by lia. unfold u32. rewrite Z.mod_small; [lia|]. change (2 ^ 32) with 4294967296. lia.
Qed.
Lemma rd_wr32 m p v q : rd (wr32 m p v) q =
  if decide (q = p) then Z.land v 0xFF else if decide (q = p + 1) then Z.land (Z.shiftr v 8) 0xFF
  else if decide (q = p + 2) then Z.land (Z.shiftr v 16) 0xFF else if decide (q = p + 3) then Z.land (Z.shiftr v 24) 0xFF else rd m q.
Proof. unfold wr32. rewrite !rd_wr. repeat case_decide; try done; lia. Qed.
Lemma rd_wr32_ne m p v q : ~ p <= q < p + 4 -> rd (wr32 m p v) q = rd m q.
Proof. intros Hq. rewrite rd_wr32. by repeat (rewrite decide_False by lia). Qed.
Lemma byte_range v k : 0 <= Z.land (Z.shiftr v k) 0xFF < 256.
Proof. change 0xFF with (Z.ones 8). rewrite Z.land_ones by lia. apply Z.mod_pos_bound. lia. Qed.
Lemma u8_byte v k : u8 (Z.land (Z.shiftr v k) 0xFF) = Z.land (Z.shiftr v k) 0xFF.
Proof. apply Z.mod_small. apply byte_range. Qed.
Lemma read_wr32 m p v : read_bytes (wr32 m p v) p 4 = le4 v.
Proof.
  change (read_bytes (wr32 m p v) p 4) with [ld8 (wr32 m p v) (p + 0); ld8 (wr32 m p v) (p + 1); ld8 (wr32 m p v) (p + 2); ld8 (wr32 m p v) (p + 3)].
  unfold ld8. rewrite !rd_wr32. repeat (first [rewrite decide_True by lia | rewrite decide_False by lia]).
  unfold le4. rewrite !u8_byte. f_equal. rewrite <- (Z.shiftr_0_r v) at 1 2. apply u8_byte.
Qed.
(** A word whose bytes are known. *)
Lemma rd32_bytes m p v : 0 <= v < 2 ^ 32 -> read_bytes m p 4 = le4 v -> rd32 m p = v.
Proof.
  intros Hv E. change (read_bytes m p 4) with [ld8 m (p + 0); ld8 m (p + 1); ld8 m (p + 2); ld8 m (p + 3)] in E. unfold le4 in E.
  injection E as E0 E1 E2 E3. unfold rd32. rewrite Z.add_0_r in E0. rewrite E0, E1, E2, E3. by apply le4_word.
Qed.
Lemma read_bytes_out m m' p n : (forall q, p <= q < p + n -> rd m' q = rd m q) -> read_bytes m' p n = read_bytes m p n.
Proof. intros Hq. apply read_bytes_ext. intros i Hi. apply Hq. lia. Qed.

(** ** The command block *)
Definition le32_at (c : list Z) (i : nat) : Z :=
  u32 (byte c i + Z.shiftl (byte c (i + 1)) 8 + Z.shiftl (byte c (i + 2)) 16 + Z.shiftl (byte c (i + 3)) 24).
Definition be32_at (c : list Z) (i : nat) : Z :=
  Z.lor (Z.lor (Z.shiftl (byte c i) 24) (Z.shiftl (byte c (i + 1)) 16)) (Z.lor (Z.shiftl (byte c (i + 2)) 8) (byte c (i + 3))).
Definition be16_at (c : list Z) (i : nat) : Z := Z.lor (Z.shiftl (byte c i) 8) (byte c (i + 1)).
(** A command to read ([is_in]) or write [n] blocks from [lba] on. *)
Record block_command (is_in : bool) (lba n tag : Z) (c : list Z) : Prop := {
  bc_bytes : Forall (fun b => 0 <= b < 256) c;
  bc_length : length c = 31%nat;
  bc_sig : le32_at c 0 = MSC_CBW_Signature;
  bc_tag : le32_at c 4 = tag;
  bc_len : le32_at c 8 = n * 512;
  bc_flags : Z.land (byte c 12) 0x80 = if is_in then 0x80 else 0;
  bc_lun : byte c 13 = 0;
  bc_cblen : 1 <= byte c 14 <= 16;
  bc_lba : be32_at c 17 = lba;
  bc_op : if is_in then byte c 15 = 0x28 /\ be16_at c 22 = n \/ byte c 15 = 0xa8 /\ be32_at c 21 = n
          else byte c 15 = 0x2a /\ be16_at c 22 = n \/ byte c 15 = 0xaa /\ be32_at c 21 = n;
  bc_pos : 0 < n;
}.
Definition cbw_holds (c : list Z) (w : mworld) : Prop := read_bytes (um w) (cbw (uw w)) 31 = c.
Lemma cbw_byte c w i : cbw_holds c w -> (i < 31)%nat -> ld8 (um w) (cbw (uw w) + Z.of_nat i) = byte c i.
Proof.
  intros E Hi. unfold byte. rewrite <- E. unfold read_bytes. symmetry. apply nth_lookup_Some.
  rewrite list_lookup_fmap, lookup_seq_lt by done. done.
Qed.
Section accessors.
Context (c : list Z) (w : mworld) (Hc : cbw_holds c w).
Lemma get_byte i : (i < 31)%nat -> forall a, a = cbw (uw w) + Z.of_nat i -> ld8 (um w) a = byte c i.
Proof. intros Hi a ->. by apply cbw_byte. Qed.
Lemma get_sig : cbw_dSignature w = le32_at c 0.
Proof. unfold cbw_dSignature, rd32, le32_at. rewrite (get_byte 0), (get_byte (0 + 1)), (get_byte (0 + 2)), (get_byte (0 + 3)) by lia. done. Qed.
Lemma get_tag : cbw_dTag w = le32_at c 4.
Proof. unfold cbw_dTag, rd32, le32_at. rewrite (get_byte 4), (get_byte (4 + 1)), (get_byte (4 + 2)), (get_byte (4 + 3)) by lia. done. Qed.
Lemma get_len : cbw_dDataLength w = le32_at c 8.
Proof. unfold cbw_dDataLength, rd32, le32_at. rewrite (get_byte 8), (get_byte (8 + 1)), (get_byte (8 + 2)), (get_byte (8 + 3)) by lia. done. Qed.
Lemma get_flags : cbw_bmFlags w = byte c 12.
Proof. by apply get_byte; lia. Qed.
Lemma get_lun : cbw_bLUN w = byte c 13.
Proof. by apply get_byte; lia. Qed.
Lemma get_cblen : cbw_bCBLength w = byte c 14.
Proof. by apply get_byte; lia. Qed.
Lemma get_cb i : (i < 16)%nat -> cbw_CB w (Z.of_nat i) = byte c (15 + i).
Proof. intros Hi. apply get_byte; lia. Qed.
Lemma get_be32 i : (i + 3 < 16)%nat -> GET_BE32 w (Z.of_nat i) = be32_at c (15 + i).
Proof.
  intros Hi. unfold GET_BE32, be32_at. rewrite (get_cb i) by lia.
  replace (Z.of_nat i + 1) with (Z.of_nat (i + 1)) by lia. replace (Z.of_nat i + 2) with (Z.of_nat (i + 2)) by lia.
  replace (Z.of_nat i + 3) with (Z.of_nat (i + 3)) by lia. rewrite !get_cb by lia. by rewrite !Nat.add_assoc.
Qed.
Lemma get_be16 i : (i + 1 < 16)%nat -> GET_BE16 w (Z.of_nat i) = be16_at c (15 + i).
Proof.
  intros Hi. unfold GET_BE16, be16_at. rewrite (get_cb i) by lia. replace (Z.of_nat i + 1) with (Z.of_nat (i + 1)) by lia.
  rewrite get_cb by lia. by rewrite Nat.add_assoc.
Qed.
End accessors.

(** ** The storage *)
Section serve.
Context `{MscStorage}.
(** The addresses of the command block, the status block and the block buffer, the
    endpoints, the number of blocks announced, and how many of them the storage
    has. *)
Context (ac asx ab oe ie nbr limit : Z) (disk : bmem -> Z -> list Z).
Record geometry : Prop := {
  gm_cbw : 0 <= ac;
  gm_csw : ac + 31 <= asx;
  gm_buf : asx + 13 <= ab;
  gm_limit : 0 <= limit <= nbr;
  gm_nbr : nbr < 2 ^ 32;
}.
Definition msc_region (q : Z) : Prop := ac <= q < ac + 31 \/ asx <= q < asx + 13 \/ ab <= q < ab + 512.
Record layout (p : usbd_msc_priv) : Prop := {
  ly_cbw : cbw p = ac;
  ly_csw : csw p = asx;
  ly_buf : block_buffer p = ab;
  ly_out : out_ep p = oe;
  ly_in : in_ep p = ie;
  ly_size : scsi_blk_size p = [512];
  ly_nbr : scsi_blk_nbr p = [nbr];
}.
Record storage_laws : Prop := {
  sl_read : forall s w, 0 <= s < limit -> exists w', usbd_msc_sector_read 0 s ab 512 w = (w', 0) /\ uw w' = uw w /\ port w' = port w /\
    read_bytes (um w') ab 512 = disk (um w) s /\ (forall q, ~ ab <= q < ab + 512 -> rd (um w') q = rd (um w) q);
  sl_write : forall s w, 0 <= s < limit -> exists w', usbd_msc_sector_write 0 s ab 512 w = (w', 0) /\ uw w' = uw w /\ port w' = port w /\
    (forall t, 0 <= t < limit -> disk (um w') t = if decide (t = s) then read_bytes (um w) ab 512 else disk (um w) t) /\
    (forall q, msc_region q -> rd (um w') q = rd (um w) q);
  sl_frame : forall m m' s, 0 <= s < limit -> (forall q, ~ msc_region q -> rd m' q = rd m q) -> disk m' s = disk m s;
}.
Context (Hg : geometry) (Hst : storage_laws).

(** ** A command under way: [left] blocks to go *)
Record busy (c : list Z) (tag left : Z) (d : Z -> list Z) (w : mworld) : Prop := {
  bz_layout : layout (uw w);
  bz_cbw : cbw_holds c w;
  bz_tag : read_bytes (um w) (asx + 4) 4 = le4 tag;
  bz_res : read_bytes (um w) (asx + 8) 4 = le4 (left * 512);
  bz_disk : forall t, 0 <= t < limit -> disk (um w) t = d t;
}.
Definition csw_bytes (tag residue status : Z) : list Z := le4 MSC_CSW_Signature ++ le4 tag ++ le4 residue ++ [status].
Ltac geo := destruct Hg; unfold msc_region in *; lia.

(** Writing to the region of the class keeps the storage. *)
Lemma disk_kept m m' d : (forall q, ~ msc_region q -> rd m' q = rd m q) -> (forall t, 0 <= t < limit -> disk m t = d t) ->
  forall t, 0 <= t < limit -> disk m' t = d t.
Proof. intros Hm Hd t Ht. rewrite (sl_frame Hst m m') by done. by apply Hd. Qed.
Lemma cbw_kept c w w' : layout (uw w) -> layout (uw w') -> (forall q, ac <= q < ac + 31 -> rd (um w') q = rd (um w) q) -> cbw_holds c w -> cbw_holds c w'.
Proof. intros L L' Hm E. unfold cbw_holds in *. rewrite (ly_cbw _ L) in E. rewrite (ly_cbw _ L'). by rewrite (read_bytes_out (um w)). Qed.

Lemma send_csw_spec c tag left d st w : busy c tag left d w -> 0 <= st < 256 ->
  let w' := usbd_msc_send_csw st w in
  busy c tag left d w' /\ stage (uw w') = MSC_WAIT_CSW /\ port w' = port w ++ [PStartWrite ie asx 13] /\
  read_bytes (um w') asx 13 = csw_bytes tag (left * 512) st.
Proof.
  intros [L Hc Ht Hr Hd] Hs w'. pose proof L as [E1 E2 E3 E4 E5 E6 E7].
  assert (Em : um w' = wr (wr32 (um w) asx MSC_CSW_Signature) (asx + 12) (u8 st)).
  { unfold w', usbd_msc_send_csw, set_csw_bStatus, set_csw_dSignature, on_um, on_msc. cbn. by rewrite E2. }
  assert (Hm : forall q, ~ asx <= q < asx + 4 -> q <> asx + 12 -> rd (um w') q = rd (um w) q).
  { intros q H1 H2. rewrite Em, rd_wr, decide_False by done. by apply rd_wr32_ne. }
  assert (L' : layout (uw w')) by by constructor.
  assert (Ht' : read_bytes (um w') (asx + 4) 4 = le4 tag) by (rewrite (read_bytes_out (um w)); [done|intros; apply Hm; lia]).
  assert (Hr' : read_bytes (um w') (asx + 8) 4 = le4 (left * 512)) by (rewrite (read_bytes_out (um w)); [done|intros; apply Hm; lia]).
  split; [constructor; try done|].
  - eapply cbw_kept; [exact L|done| |done]. intros q Hq. apply Hm; geo.
  - eapply disk_kept; [|exact Hd]. intros q Hq. apply Hm; geo.
  - split; [done|]. split; [unfold w', usbd_msc_send_csw; cbn; by rewrite E5, E2|].
    change 13 with (4 + (4 + (4 + 1))). rewrite !read_bytes_app by lia. rewrite <- Z.add_assoc. change (4 + 4) with 8. rewrite <- Z.add_assoc. change (8 + 4) with 12.
    unfold csw_bytes. rewrite Ht', Hr'. f_equal; [|do 2 f_equal].
    + rewrite (read_bytes_out (wr32 (um w) asx MSC_CSW_Signature)); [apply read_wr32|]. intros q Hq. rewrite Em, rd_wr. by rewrite decide_False by lia.
    + change (read_bytes (um w') (asx + 12) 1) with [ld8 (um w') (asx + 12 + 0)]. rewrite Z.add_0_r. unfold ld8. rewrite Em, rd_wr, decide_True by done.
      unfold u8. rewrite !Z.mod_mod by lia. by rewrite Z.mod_small.
Qed.

(** The residue written by a step, and what it keeps. *)
Lemma busy_residue c tag left left' d d' w w' : busy c tag left d w -> layout (uw w') -> 0 <= left' * 512 < 2 ^ 32 ->
  (forall t, 0 <= t < limit -> disk (um w') t = d' t) ->
  (forall q, ac <= q < ac + 31 \/ asx <= q < asx + 13 -> rd (um w') q = rd (wr32 (um w) (asx + 8) (left' * 512)) q) ->
  busy c tag left' d' w'.
Proof.
  intros [L Hc Ht Hr Hd] L' Hl Hk Hm. constructor; [done| | | |].
  - eapply cbw_kept; [exact L|done| |done]. intros q Hq. rewrite Hm by geo. apply rd_wr32_ne. geo.
  - rewrite (read_bytes_out (um w)); [done|]. intros q Hq. rewrite Hm by geo. apply rd_wr32_ne. lia.
  - rewrite (read_bytes_out (wr32 (um w) (asx + 8) (left' * 512))); [apply read_wr32|]. intros q Hq. apply Hm. geo.
  - done.
Qed.
Lemma busy_sizes c tag left d w : busy c tag left d w -> byte c 13 = 0 -> blk_size w = 512 /\ blk_nbr w = nbr /\ cbw_bLUN w = 0.
Proof.
  intros [L Hc _ _ _] Hlun. unfold blk_size, blk_nbr. rewrite (get_lun c w Hc), Hlun, (ly_size _ L), (ly_nbr _ L). done.
Qed.
Lemma busy_residue_val c tag left d w : busy c tag left d w -> 0 <= left * 512 < 2 ^ 32 -> csw_dDataResidue w = left * 512.
Proof. intros [L _ _ Hr _] Hl. unfold csw_dDataResidue. rewrite (ly_csw _ L). by apply rd32_bytes. Qed.

(** One block read: it is in the buffer, on its way to the host. *)
Lemma process_read_spec c tag left d s w : busy c tag left d w -> byte c 13 = 0 -> start_sector (uw w) = s -> nsectors (uw w) = left ->
  0 < left -> 0 <= s -> s + left <= limit -> left * 512 < 2 ^ 32 ->
  exists w', SCSI_processRead w = (w', true) /\ busy c tag (left - 1) d w' /\ start_sector (uw w') = s + 1 /\ nsectors (uw w') = left - 1 /\
    stage (uw w') = (if left - 1 =? 0 then MSC_SEND_CSW else stage (uw w)) /\
    port w' = port w ++ [PStartWrite ie ab 512] /\ read_bytes (um w') ab 512 = d s.
Proof.
  intros Hb Hlun Hs Hn Hl H0 Hlim Hov. destruct (busy_sizes _ _ _ _ _ Hb Hlun) as (Esz & _ & El).
  pose proof (bz_layout _ _ _ _ _ Hb) as L. assert (s + left < 2 ^ 32) by (destruct Hg; lia). change (2 ^ 32) with 4294967296 in *.
  destruct (sl_read Hst s w ltac:(lia)) as (w1 & Er & Eu & Ep & Hbuf & Hfr).
  assert (Hb1 : busy c tag left d w1).
  { destruct Hb as [_ Hc Ht Hr Hd]. constructor; [by rewrite Eu| | | |].
    - eapply cbw_kept; [exact L|by rewrite Eu| |done]. intros q Hq. apply Hfr. geo.
    - rewrite (read_bytes_out (um w)); [done|]. intros q Hq. apply Hfr. geo.
    - rewrite (read_bytes_out (um w)); [done|]. intros q Hq. apply Hfr. geo.
    - eapply disk_kept; [|exact Hd]. intros q Hq. apply Hfr. geo. }
  destruct (busy_sizes _ _ _ _ _ Hb1 Hlun) as (Esz1 & _ & El1).
  pose proof (busy_residue_val _ _ _ _ _ Hb1 ltac:(lia)) as Eres.
  unfold SCSI_processRead. rewrite Hs, Hn, Esz, El, (ly_buf _ L). rewrite u32_small by lia. unfold CONFIG_USBDEV_MSC_MAX_BUFSIZE. rewrite Z.min_r by lia.
  rewrite Er. cbn [Z.eqb negb]. rewrite Esz1. change (512 / 512) with 1.
  eexists. split; [reflexivity|].
  match goal with |- context [if nsectors (uw ?x) =? 0 then _ else _] => set (w2 := x) end.
  assert (E2 : nsectors (uw w2) = left - 1) by (cbn; rewrite Eu, Hn; apply u32_small; lia).
  assert (E3 : start_sector (uw w2) = s + 1) by (cbn; rewrite Eu, Hs; apply u32_small; lia).
  assert (Em : um w2 = wr32 (um w1) (asx + 8) ((left - 1) * 512)).
  { cbn. rewrite Eu, (ly_csw _ L). f_equal. change (csw_dDataResidue _) with (csw_dDataResidue w1). rewrite Eres, u32_small by lia. lia. }
  rewrite E2. assert (L2 : layout (uw w2)) by (destruct L; constructor; cbn; by rewrite Eu).
  split; [|split; [by destruct (_ =? 0)|split; [by destruct (_ =? 0)|split; [by destruct (_ =? 0); cbn; rewrite ?Eu|split]]]].
  - eapply (busy_residue c tag left (left - 1) d); [exact Hb1|by destruct (_ =? 0); [destruct L2|]|lia| |].
    + eapply disk_kept; [|apply (bz_disk _ _ _ _ _ Hb1)]. intros q Hq. destruct (_ =? 0); cbn [um]; change (rd (um w2) q = rd (um w1) q); rewrite Em; apply rd_wr32_ne; geo.
    + intros q Hq. destruct (_ =? 0); change (rd (um w2) q = rd (wr32 (um w1) (asx + 8) ((left - 1) * 512)) q); by rewrite Em.
  - assert (Ei : in_ep (uw w2) = ie) by apply L2. assert (Eb : block_buffer (uw w2) = ab) by apply L2.
    destruct (_ =? 0); cbn; cbn in Ei, Eb; rewrite Ei, Eb, Ep; done.
  - rewrite <- (bz_disk _ _ _ _ _ Hb s) by lia. rewrite <- Hbuf. apply read_bytes_out. intros q Hq.
    destruct (_ =? 0); change (rd (um w2) q = rd (um w1) q); rewrite Em; apply rd_wr32_ne; geo.
Qed.

(** One block written to the storage: then the status, or the next block. *)
Lemma process_write_spec c tag left d s w : busy c tag left d w -> byte c 13 = 0 -> start_sector (uw w) = s -> nsectors (uw w) = left ->
  0 < left -> 0 <= s -> s + left <= limit -> left * 512 < 2 ^ 32 ->
  exists w', SCSI_processWrite 512 w = (w', true) /\
    busy c tag (left - 1) (fun t => if decide (t = s) then read_bytes (um w) ab 512 else d t) w' /\
    start_sector (uw w') = s + 1 /\ nsectors (uw w') = left - 1 /\
    (if left - 1 =? 0 then stage (uw w') = MSC_WAIT_CSW /\ port w' = port w ++ [PStartWrite ie asx 13] /\ read_bytes (um w') asx 13 = csw_bytes tag 0 0
     else stage (uw w') = stage (uw w) /\ port w' = port w ++ [PStartRead oe ab 512]).
Proof.
  intros Hb Hlun Hs Hn Hl H0 Hlim Hov. destruct (busy_sizes _ _ _ _ _ Hb Hlun) as (Esz & _ & El).
  pose proof (bz_layout _ _ _ _ _ Hb) as L. assert (s + left < 2 ^ 32) by (destruct Hg; lia). change (2 ^ 32) with 4294967296 in *.
  destruct (sl_write Hst s w ltac:(lia)) as (w1 & Er & Eu & Ep & Hdk & Hfr).
  assert (Hb1 : busy c tag left (fun t => if decide (t = s) then read_bytes (um w) ab 512 else d t) w1).
  { destruct Hb as [_ Hc Ht Hr Hd]. constructor; [by rewrite Eu| | | |].
    - eapply cbw_kept; [exact L|by rewrite Eu| |done]. intros q Hq. apply Hfr. geo.
    - rewrite (read_bytes_out (um w)); [done|]. intros q Hq. apply Hfr. geo.
    - rewrite (read_bytes_out (um w)); [done|]. intros q Hq. apply Hfr. geo.
    - intros t Ht'. rewrite Hdk by done. case_decide; [done|by apply Hd]. }
  destruct (busy_sizes _ _ _ _ _ Hb1 Hlun) as (Esz1 & _ & El1).
  pose proof (busy_residue_val _ _ _ _ _ Hb1 ltac:(lia)) as Eres.
  unfold SCSI_processWrite. rewrite Hs, El, (ly_buf _ L), Er. cbn [Z.eqb negb]. rewrite Esz1. change (512 / 512) with 1.
  match goal with |- context [if nsectors (uw ?x) =? 0 then _ else _] => set (w2 := x) end.
  assert (E2 : nsectors (uw w2) = left - 1) by (cbn; rewrite Eu, Hn; apply u32_small; lia).
  assert (E3 : start_sector (uw w2) = s + 1) by (cbn; rewrite Eu, Hs; apply u32_small; lia).
  assert (Em : um w2 = wr32 (um w1) (asx + 8) ((left - 1) * 512)).
  { cbn. rewrite Eu, (ly_csw _ L). f_equal. change (csw_dDataResidue _) with (csw_dDataResidue w1). rewrite Eres, u32_small by lia. lia. }
  assert (L2 : layout (uw w2)) by (destruct L; constructor; cbn; by rewrite Eu).
  assert (Est : stage (uw w2) = stage (uw w)) by (cbn; by rewrite Eu). assert (Epo : port w2 = port w) by exact Ep.
  assert (Hb2 : busy c tag (left - 1) (fun t => if decide (t = s) then read_bytes (um w) ab 512 else d t) w2).
  { eapply (busy_residue c tag left (left - 1)); [exact Hb1|exact L2|lia| |].
    - eapply disk_kept; [|apply (bz_disk _ _ _ _ _ Hb1)]. intros q Hq. rewrite Em. apply rd_wr32_ne. geo.
    - intros q Hq. by rewrite Em. }
  clearbody w2. rewrite E2. destruct (Z.eqb_spec (left - 1) 0) as [E0|E0].
  - destruct (send_csw_spec c tag (left - 1) _ CSW_STATUS_CMD_PASSED w2 Hb2 ltac:(done)) as (K1 & K2 & K3 & K4). rewrite E0 in K4.
    eexists. split; [reflexivity|]. rewrite <- Epo. split; [exact K1|]. split; [exact E3|]. split; [exact E2|]. done.
  - destruct (busy_sizes _ _ _ _ _ Hb2 Hlun) as (Esz2 & _ & _). rewrite Esz2, u32_small by lia. unfold CONFIG_USBDEV_MSC_MAX_BUFSIZE. rewrite Z.min_r by lia.
    eexists. split; [reflexivity|]. split; [by destruct Hb2; constructor|]. split; [done|]. split; [done|]. split; [done|].
    cbn. by rewrite Epo, (ly_out _ L2), (ly_buf _ L2).
Qed.

(** ** The command block decoded *)
Lemma byte_nonneg c i : Forall (fun b => 0 <= b < 256) c -> 0 <= byte c i.
Proof.
  intros Hc. unfold byte. destruct (c !! i) as [x|] eqn:E.
  - rewrite (nth_lookup_Some _ _ _ _ E). apply (Forall_lookup_1 _ _ _ _ Hc E).
  - apply lookup_ge_None in E. by rewrite nth_overflow.
Qed.
Lemma be32_nonneg c i : Forall (fun b => 0 <= b < 256) c -> 0 <= be32_at c i.
Proof. intros Hc. unfold be32_at. rewrite !Z.lor_nonneg, !Z.shiftl_nonneg. repeat split; by apply byte_nonneg. Qed.
Lemma block_lengths is_in lba n tag c : block_command is_in lba n tag c -> 0 <= lba /\ 0 < n /\ n * 512 < 2 ^ 32 /\ n < 2 ^ 32.
Proof.
  intros B. pose proof (bc_len _ _ _ _ _ B) as E. unfold le32_at, u32 in E. pose proof (bc_pos _ _ _ _ _ B).
  match type of E with ?a mod _ = _ => pose proof (Z.mod_pos_bound a (2 ^ 32) ltac:(done)) end.
  split; [rewrite <- (bc_lba _ _ _ _ _ B); apply be32_nonneg; apply B|]. lia.
Qed.
(** The tag and the length of the command go to the status block. *)
Lemma header_busy is_in lba n tag d c w : layout (uw w) -> cbw_holds c w -> (forall t, 0 <= t < limit -> disk (um w) t = d t) ->
  block_command is_in lba n tag c ->
  busy c tag n d (set_csw_dDataResidue (cbw_dDataLength w) (set_csw_dTag (cbw_dTag w) w)).
Proof.
  intros L Hc Hd B. destruct (block_lengths _ _ _ _ _ B) as (_ & Hn & Hn' & _). rewrite (get_len c w Hc), (get_tag c w Hc), (bc_len _ _ _ _ _ B), (bc_tag _ _ _ _ _ B).
  set (w1 := set_csw_dTag tag w). assert (Em : um w1 = wr32 (um w) (asx + 4) tag) by (cbn; by rewrite (ly_csw _ L)).
  assert (Em2 : um (set_csw_dDataResidue (n * 512) w1) = wr32 (um w1) (asx + 8) (n * 512)) by (cbn; by rewrite (ly_csw _ L)).
  assert (L1 : layout (uw (set_csw_dDataResidue (n * 512) w1))) by exact L.
  assert (Hm : forall q, ~ asx + 4 <= q < asx + 12 -> rd (um (set_csw_dDataResidue (n * 512) w1)) q = rd (um w) q).
  { intros q Hq. rewrite Em2, rd_wr32_ne by lia. rewrite Em. apply rd_wr32_ne. lia. }
  constructor; [done| | | |].
  - eapply cbw_kept; [exact L|done| |done]. intros q Hq. apply Hm. geo.
  - rewrite (read_bytes_out (um w1)); [rewrite Em; apply read_wr32|]. intros q Hq. rewrite Em2. apply rd_wr32_ne. lia.
  - rewrite Em2. apply read_wr32.
  - eapply disk_kept; [|exact Hd]. intros q Hq. apply Hm. geo.
Qed.
Lemma busy_msc c tag left d f w : busy c tag left d w -> (forall p, layout p -> layout (f p)) -> busy c tag left d (on_msc f w).
Proof.
  intros [L Hc Ht Hr Hd] Hf. pose proof (Hf _ L) as L'. constructor; try done.
  eapply cbw_kept; [exact L|exact L'|done|done].
Qed.
Lemma layout_sectors a b p : layout p -> layout (with_sectors a b p).
Proof. by intros []. Qed.
Lemma layout_stage x p : layout p -> layout (with_stage x p).
Proof. by intros []. Qed.
Lemma scsi_read_spec count lba n tag c d w : busy c tag n d w -> block_command true lba n tag c -> count w = n -> lba + n <= limit ->
  exists w', scsi_read count w = (Some (0, 0), w') /\ busy c tag (n - 1) d w' /\ start_sector (uw w') = lba + 1 /\ nsectors (uw w') = n - 1 /\
    stage (uw w') = (if n - 1 =? 0 then MSC_SEND_CSW else MSC_DATA_IN) /\
    port w' = port w ++ [PStartWrite ie ab 512] /\ read_bytes (um w') ab 512 = d lba.
Proof.
  intros Hb B Hcnt Hlim. destruct (block_lengths _ _ _ _ _ B) as (Hl & Hn & Hn' & Hn''). pose proof (bz_cbw _ _ _ _ _ Hb) as Hc.
  unfold scsi_read. rewrite (get_flags c w Hc), (get_len c w Hc), (bc_flags _ _ _ _ _ B), (bc_len _ _ _ _ _ B). rewrite Z.eqb_refl.
  destruct (Z.eqb_spec (n * 512) 0); [lia|]. cbn [negb orb]. change (GET_BE32 w 2) with (GET_BE32 w (Z.of_nat 2)).
  rewrite (get_be32 c w Hc) by lia. change (15 + 2)%nat with 17%nat. rewrite (bc_lba _ _ _ _ _ B), Hcnt.
  set (w1 := on_msc (with_sectors lba n) w). assert (Hb1 : busy c tag n d w1) by (apply busy_msc; [done|apply layout_sectors]).
  destruct (busy_sizes _ _ _ _ _ Hb1 (bc_lun _ _ _ _ _ B)) as (-> & -> & _). change (start_sector (uw w1)) with lba. change (nsectors (uw w1)) with n.
  assert (lba + n < 2 ^ 32) by (destruct Hg; lia).
  rewrite !u32_small by lia. destruct (Z.ltb_spec nbr (lba + n)); [destruct Hg; lia|].
  change (cbw_dDataLength w1) with (cbw_dDataLength w). rewrite (get_len c w Hc), (bc_len _ _ _ _ _ B), Z.eqb_refl. cbn [negb].
  destruct (process_read_spec c tag n d lba (on_msc (with_stage MSC_DATA_IN) w1)) as (w' & -> & K); try done.
  - apply busy_msc; [done|apply layout_stage].
  - apply B.
  - by exists w'.
Qed.
Lemma scsi_write_spec count lba n tag c d w : busy c tag n d w -> block_command false lba n tag c -> count w = n -> lba + n <= limit ->
  exists w', scsi_write count w = (Some (0, 0), w') /\ busy c tag n d w' /\ start_sector (uw w') = lba /\ nsectors (uw w') = n /\
    stage (uw w') = MSC_DATA_OUT /\ port w' = port w ++ [PStartRead oe ab 512].
Proof.
  intros Hb B Hcnt Hlim. destruct (block_lengths _ _ _ _ _ B) as (Hl & Hn & Hn' & Hn''). pose proof (bz_cbw _ _ _ _ _ Hb) as Hc.
  unfold scsi_write. rewrite (get_flags c w Hc), (get_len c w Hc), (bc_flags _ _ _ _ _ B), (bc_len _ _ _ _ _ B). rewrite Z.eqb_refl.
  destruct (Z.eqb_spec (n * 512) 0); [lia|]. cbn [negb orb]. change (GET_BE32 w 2) with (GET_BE32 w (Z.of_nat 2)).
  rewrite (get_be32 c w Hc) by lia. change (15 + 2)%nat with 17%nat. rewrite (bc_lba _ _ _ _ _ B), Hcnt.
  set (w1 := on_msc (with_sectors lba n) w). assert (Hb1 : busy c tag n d w1) by (apply busy_msc; [done|apply layout_sectors]).
  destruct (busy_sizes _ _ _ _ _ Hb1 (bc_lun _ _ _ _ _ B)) as (-> & -> & _). change (start_sector (uw w1)) with lba. change (nsectors (uw w1)) with n.
  assert (lba + n < 2 ^ 32) by (destruct Hg; lia).
  rewrite !u32_small by lia. destruct (Z.ltb_spec nbr (lba + n)); [destruct Hg; lia|].
  change (cbw_dDataLength w1) with (cbw_dDataLength w). rewrite (get_len c w Hc), (bc_len _ _ _ _ _ B), Z.eqb_refl. cbn [negb].
  assert (Hb2 : busy c tag n d (on_msc (with_stage MSC_DATA_OUT) w1)) by (apply busy_msc; [done|apply layout_stage]).
  eexists. split; [reflexivity|]. split; [by destruct Hb2; constructor|].
  split; [done|]. split; [done|]. split; [done|]. unfold CONFIG_USBDEV_MSC_MAX_BUFSIZE. rewrite Z.min_r by lia.
  cbn. pose proof (bz_layout _ _ _ _ _ Hb) as L. by rewrite (ly_out _ L), (ly_buf _ L).
Qed.

Lemma header_out c tag left d w : busy c tag left d w -> forall is_in lba n, block_command is_in lba n tag c ->
  negb (cbw_dSignature w =? MSC_CBW_Signature) || (cbw_bCBLength w <? 1) || (16 <? cbw_bCBLength w) = false.
Proof.
  intros Hb is_in lba n B. pose proof (bz_cbw _ _ _ _ _ Hb) as Hc. rewrite (get_sig c w Hc), (get_cblen c w Hc), (bc_sig _ _ _ _ _ B), Z.eqb_refl.
  pose proof (bc_cblen _ _ _ _ _ B). destruct (Z.ltb_spec (byte c 14) 1), (Z.ltb_spec 16 (byte c 14)); try lia; done.
Qed.
(** A command to read blocks starts with the first block, one to write them with a
    transfer for it. *)
Lemma decode_read ep lba n tag c d w : layout (uw w) -> stage (uw w) = MSC_READ_CBW -> cbw_holds c w -> (forall t, 0 <= t < limit -> disk (um w) t = d t) ->
  block_command true lba n tag c -> lba + n <= limit ->
  let w' := mass_storage_bulk_out ep 31 w in
  busy c tag (n - 1) d w' /\ start_sector (uw w') = lba + 1 /\ nsectors (uw w') = n - 1 /\
  stage (uw w') = (if n - 1 =? 0 then MSC_SEND_CSW else MSC_DATA_IN) /\
  port w' = port w ++ [PStartWrite ie ab 512] /\ read_bytes (um w') ab 512 = d lba.
Proof.
  intros L Hst' Hc Hd B Hlim w'. pose proof (header_busy _ _ _ _ _ _ _ L Hc Hd B) as Hb. revert Hb. unfold w', mass_storage_bulk_out, SCSI_CBWDecode. rewrite Hst'.
  change (31 =? USB_SIZEOF_MSC_CBW) with true. cbn [negb]. change (port w) with (port (set_csw_dDataResidue (cbw_dDataLength w) (set_csw_dTag (cbw_dTag w) w))).
  set (w1 := set_csw_dDataResidue _ _). intros Hb. rewrite (header_out _ _ _ _ _ Hb _ _ _ B). pose proof (bz_cbw _ _ _ _ _ Hb) as Hc1.
  assert (Hr : exists count, count w1 = n /\ scsi_command w1 = scsi_read count w1).
  { unfold scsi_command. change (cbw_CB w1 0) with (cbw_CB w1 (Z.of_nat 0)). rewrite (get_cb c w1 Hc1) by lia.
    destruct (bc_op _ _ _ _ _ B) as [[E En]|[E En]]; change (15 + 0)%nat with 15%nat; rewrite E; cbn [Z.eqb Pos.eqb]; eexists; (split; [|reflexivity]).
    - cbv beta. change 7 with (Z.of_nat 7). rewrite (get_be16 c w1 Hc1) by lia. exact En.
    - cbv beta. change 6 with (Z.of_nat 6). rewrite (get_be32 c w1 Hc1) by lia. exact En. }
  destruct Hr as (count & Hcnt & ->). destruct (scsi_read_spec count lba n tag c d w1 Hb B Hcnt Hlim) as (w2 & -> & K1 & K2 & K3 & K4 & K5 & K6).
  unfold is_read_cbw. rewrite K4. destruct (n - 1 =? 0); cbn [negb]; rewrite ?K4; done.
Qed.
Lemma decode_write ep lba n tag c d w : layout (uw w) -> stage (uw w) = MSC_READ_CBW -> cbw_holds c w -> (forall t, 0 <= t < limit -> disk (um w) t = d t) ->
  block_command false lba n tag c -> lba + n <= limit ->
  let w' := mass_storage_bulk_out ep 31 w in
  busy c tag n d w' /\ start_sector (uw w') = lba /\ nsectors (uw w') = n /\
  stage (uw w') = MSC_DATA_OUT /\ port w' = port w ++ [PStartRead oe ab 512].
Proof.
  intros L Hst' Hc Hd B Hlim w'. pose proof (header_busy _ _ _ _ _ _ _ L Hc Hd B) as Hb. revert Hb. unfold w', mass_storage_bulk_out, SCSI_CBWDecode. rewrite Hst'.
  change (31 =? USB_SIZEOF_MSC_CBW) with true. cbn [negb]. change (port w) with (port (set_csw_dDataResidue (cbw_dDataLength w) (set_csw_dTag (cbw_dTag w) w))).
  set (w1 := set_csw_dDataResidue _ _). intros Hb. rewrite (header_out _ _ _ _ _ Hb _ _ _ B). pose proof (bz_cbw _ _ _ _ _ Hb) as Hc1.
  assert (Hr : exists count, count w1 = n /\ scsi_command w1 = scsi_write count w1).
  { unfold scsi_command. change (cbw_CB w1 0) with (cbw_CB w1 (Z.of_nat 0)). rewrite (get_cb c w1 Hc1) by lia.
    destruct (bc_op _ _ _ _ _ B) as [[E En]|[E En]]; change (15 + 0)%nat with 15%nat; rewrite E; cbn [Z.eqb Pos.eqb]; eexists; (split; [|reflexivity]).
    - cbv beta. change 7 with (Z.of_nat 7). rewrite (get_be16 c w1 Hc1) by lia. exact En.
    - cbv beta. change 6 with (Z.of_nat 6). rewrite (get_be32 c w1 Hc1) by lia. exact En. }
  destruct Hr as (count & Hcnt & ->). destruct (scsi_write_spec count lba n tag c d w1 Hb B Hcnt Hlim) as (w2 & -> & K1 & K2 & K3 & K4 & K5).
  unfold is_read_cbw. rewrite K4. done.
Qed.
End serve.
