(* ===== verification/UsbMscHost.v ===== *)
(** * The host reads and writes blocks

    The bulk conversation of a host with the mass storage class, and the storage of
    the application [src/board/ports/CherryUSB/demo/msc_ram_template.c]. *)
From S2P Require Import Prelude KString UsbCore UsbFrame UsbProps UsbConfig UsbMsc UsbMscProps.

(** ** The storage in RAM *)
Definition BLOCK_SIZE : Z := 512.
Definition BLOCK_COUNT : Z := 10.
Definition mass_block : Z := 0x20002000.
Definition ram_get_cap (lun : Z) : Z * Z := (1000, BLOCK_SIZE).
Definition ram_sector_read (lun sector buffer length : Z) (w : mworld) : mworld * Z :=
  (if sector <? BLOCK_COUNT then on_um (memcpy_bytes (Z.to_nat length) buffer (mass_block + sector * BLOCK_SIZE)) w else w, 0).
Definition ram_sector_write (lun sector buffer length : Z) (w : mworld) : mworld * Z :=
  (if sector <? BLOCK_COUNT then on_um (memcpy_bytes (Z.to_nat length) (mass_block + sector * BLOCK_SIZE) buffer) w else w, 0).
#[export] Instance msc_ram : MscStorage := {|
  usbd_msc_get_cap := ram_get_cap;
  usbd_msc_sector_read := ram_sector_read;
  usbd_msc_sector_write := ram_sector_write;
|}.

(** ** The bulk endpoints

    The host collects the transfers the class starts, each completed by its
    callback, until the class reads again; it sends a transfer of the length the
    class has asked for. *)
Section host.
Context `{MscStorage}.
Fixpoint host_in (n : nat) (w : mworld) : option (list (list Z) * mworld) :=
  match last (port w), n with
  | Some (PStartWrite ep a l), S n =>
      '(ts, w') ← host_in n (mass_storage_bulk_in ep l w); Some (read_bytes (um w) a l :: ts, w')
  | Some (PStartWrite _ _ _), O => None
  | _, _ => Some ([], w)
  end.
Definition host_out (b : list Z) (w : mworld) : option mworld :=
  match last (port w) with
  | Some (PStartRead ep a l) => if Z.of_nat (length b) =? l then Some (mass_storage_bulk_out ep l (on_um (store a b) w)) else None
  | _ => None
  end.
Fixpoint host_outs (bs : list (list Z)) (w : mworld) : option mworld :=
  match bs with [] => Some w | b :: bs => w' ← host_out b w; host_outs bs w' end.

(** A command to read [n] blocks, or to write some; the command block as the host
    sends it. *)
Inductive request :=
| ReadBlocks (lba n tag : Z) (c : list Z)
| WriteBlocks (lba tag : Z) (c : list Z) (bs : list (list Z)).
(** A block of 512 bytes. *)
Definition block_ok (b : list Z) : Prop := length b = 512%nat /\ Forall (fun x => 0 <= x < 256) b.
Definition request_ok (limit : Z) (r : request) : Prop :=
  match r with
  | ReadBlocks lba n tag c => block_command true lba n tag c /\ lba + n <= limit
  | WriteBlocks lba tag c bs =>
      block_command false lba (Z.of_nat (length bs)) tag c /\ lba + Z.of_nat (length bs) <= limit /\
      Forall block_ok bs
  end.
Definition request_out (r : request) : list (list Z) :=
  match r with ReadBlocks _ _ _ c => [c] | WriteBlocks _ _ c bs => c :: bs end.
Definition request_fuel (r : request) : nat :=
  match r with ReadBlocks _ n _ _ => S (Z.to_nat n) | WriteBlocks _ _ _ _ => 1 end.
Definition host_request (r : request) (w : mworld) : option (list (list Z) * mworld) :=
  w' ← host_outs (request_out r) w; host_in (request_fuel r) w'.
Fixpoint host_requests (rs : list request) (w : mworld) : option (list (list (list Z)) * mworld) :=
  match rs with
  | [] => Some ([], w)
  | r :: rs => '(a, w) ← host_request r w; '(l, w) ← host_requests rs w; Some (a :: l, w)
  end.
End host.

(** ** What the host expects: a disk *)
Definition written (s : Z) (bs : list (list Z)) (d : Z -> list Z) (t : Z) : list Z :=
  if decide (s <= t < s + Z.of_nat (length bs)) then bs !!! Z.to_nat (t - s) else d t.
Definition disk_request (r : request) (d : Z -> list Z) : list (list Z) * (Z -> list Z) :=
  match r with
  | ReadBlocks lba n tag _ => ((d <$> seqZ lba n) ++ [csw_bytes tag 0 CSW_STATUS_CMD_PASSED], d)
  | WriteBlocks lba tag _ bs => ([csw_bytes tag 0 CSW_STATUS_CMD_PASSED], written lba bs d)
  end.
Fixpoint disk_requests (rs : list request) (d : Z -> list Z) : list (list (list Z)) * (Z -> list Z) :=
  match rs with
  | [] => ([], d)
  | r :: rs => let '(a, d) := disk_request r d in let '(l, d) := disk_requests rs d in (a :: l, d)
  end.

Lemma rd_store l : forall p m q, rd (store p l m) q = if decide (p <= q < p + Z.of_nat (length l)) then l !!! Z.to_nat (q - p) else rd m q.
Proof.
  induction l as [|b l IH]; intros p m q; cbn [store length]; [by rewrite decide_False by lia|]. rewrite IH, rd_wr.
  destruct (decide (p = q)) as [<-|Hq].
  - rewrite decide_False, decide_True by lia. by rewrite Z.sub_diag.
  - repeat case_decide; try lia; try done. by replace (Z.to_nat (q - p)) with (S (Z.to_nat (q - (p + 1)))) by lia.
Qed.
Lemma read_store p l m : Forall (fun x => 0 <= x < 256) l -> read_bytes (store p l m) p (Z.of_nat (length l)) = l.
Proof.
  intros Hl. unfold read_bytes. rewrite Nat2Z.id. apply list_eq. intros i. rewrite list_lookup_fmap.
  destruct (decide (i < length l)%nat) as [Hi|Hi].
  - rewrite lookup_seq_lt by done. cbn. unfold ld8. rewrite rd_store, decide_True by lia. replace (Z.to_nat (p + Z.of_nat i - p)) with i by lia.
    destruct (lookup_lt_is_Some_2 l i Hi) as [x Hx]. rewrite (list_lookup_total_correct _ _ _ Hx), Hx. f_equal. apply Z.mod_small.
    exact (Forall_lookup_1 _ _ _ _ Hl Hx).
  - rewrite lookup_seq_ge by lia. cbn. symmetry. apply lookup_ge_None. lia.
Qed.

(** ** The class serves the requests *)
Section serve.
Context `{MscStorage}.
Context (ac asx ab oe ie nbr limit : Z) (disk : bmem -> Z -> list Z).
Context (Hg : geometry ac asx ab nbr limit) (Hst : storage_laws ac asx ab limit disk).
#[local] Abbreviation Busy := (busy ac asx ab oe ie nbr limit disk).
#[local] Abbreviation Layout := (layout ac asx ab oe ie nbr).
(** Between two commands. *)
Record resting (d : Z -> list Z) (w : mworld) : Prop := {
  rg_layout : Layout (uw w);
  rg_stage : stage (uw w) = MSC_READ_CBW;
  rg_port : last (port w) = Some (PStartRead oe ac USB_SIZEOF_MSC_CBW);
  rg_disk : forall t, 0 <= t < limit -> disk (um w) t = d t;
}.
Lemma host_in_S n w ep a l : last (port w) = Some (PStartWrite ep a l) ->
  host_in (S n) w = '(ts, w') ← host_in n (mass_storage_bulk_in ep l w); Some (read_bytes (um w) a l :: ts, w').
Proof. intros E. cbn [host_in]. by rewrite E. Qed.
Lemma host_in_reads n w ep a l : last (port w) = Some (PStartRead ep a l) -> host_in n w = Some ([], w).
Proof. intros E. destruct n; cbn [host_in]; by rewrite E. Qed.
Lemma host_out_reads b w ep a l : last (port w) = Some (PStartRead ep a l) -> Z.of_nat (length b) = l ->
  host_out b w = Some (mass_storage_bulk_out ep l (on_um (store a b) w)).
Proof. intros E El. unfold host_out. by rewrite E, El, Z.eqb_refl. Qed.
(** The status goes out and the class waits for the next command. *)
Lemma status_sent n c tag left d w x : Busy c tag left d w -> stage (uw w) = MSC_WAIT_CSW -> last (port w) = Some (PStartWrite ie asx 13) ->
  read_bytes (um w) asx 13 = x -> exists w', host_in (S n) w = Some ([x], w') /\ resting d w'.
Proof.
  intros [L _ _ _ Hd] Es Ep Ex. rewrite (host_in_S _ _ _ _ _ Ep), Ex. unfold mass_storage_bulk_in. rewrite Es.
  set (w1 := read_cbw _). assert (E1 : last (port w1) = Some (PStartRead oe ac USB_SIZEOF_MSC_CBW)).
  { cbn. by rewrite last_snoc, (ly_out _ _ _ _ _ _ _ L), (ly_cbw _ _ _ _ _ _ _ L). }
  rewrite (host_in_reads _ _ _ _ _ E1). cbn [mbind option_bind]. exists w1. split; [done|]. constructor; [by destruct L|done|done|done].
Qed.
Lemma opcode_read c lba n tag w : block_command true lba n tag c -> cbw_holds c w -> (cbw_CB w 0 =? 0x28) || (cbw_CB w 0 =? 0xa8) = true.
Proof.
  intros B Hc. change 0 with (Z.of_nat 0) at 1 2. rewrite (get_cb c w Hc) by lia. change (15 + 0)%nat with 15%nat.
  by destruct (bc_op _ _ _ _ _ B) as [[-> _]|[-> _]].
Qed.
Lemma opcode_write c lba n tag w : block_command false lba n tag c -> cbw_holds c w -> (cbw_CB w 0 =? 0x2a) || (cbw_CB w 0 =? 0xaa) = true.
Proof.
  intros B Hc. change 0 with (Z.of_nat 0) at 1 2. rewrite (get_cb c w Hc) by lia. change (15 + 0)%nat with 15%nat.
  by destruct (bc_op _ _ _ _ _ B) as [[-> _]|[-> _]].
Qed.
(** The blocks still to be read. *)
Lemma blocks_read c tag lba n d : block_command true lba n tag c -> n * 512 < 2 ^ 32 -> forall k s w, Busy c tag (Z.of_nat k) d w ->
  start_sector (uw w) = s -> nsectors (uw w) = Z.of_nat k -> 0 <= s -> s + Z.of_nat k <= limit -> Z.of_nat k <= n ->
  stage (uw w) = (if Z.of_nat k =? 0 then MSC_SEND_CSW else MSC_DATA_IN) -> last (port w) = Some (PStartWrite ie ab 512) ->
  exists w', host_in (S (S k)) w = Some (read_bytes (um w) ab 512 :: (d <$> seqZ s (Z.of_nat k)) ++ [csw_bytes tag 0 0], w') /\ resting d w'.
Proof.
  intros B Hn. induction k as [|k IH]; intros s w Hb Hs Hk H0 Hlim Hkn Est Ep; rewrite (host_in_S _ _ _ _ _ Ep).
  - unfold mass_storage_bulk_in. rewrite Est. change (if Z.of_nat 0 =? 0 then MSC_SEND_CSW else MSC_DATA_IN) with MSC_SEND_CSW. cbv iota.
    destruct (send_csw_spec ac asx ab oe ie nbr limit disk Hg Hst c tag 0 d CSW_STATUS_CMD_PASSED w Hb ltac:(done)) as (K1 & K2 & K3 & K4).
    destruct (status_sent 0 c tag 0 d _ _ K1 K2 ltac:(by rewrite K3, last_snoc) K4) as (w' & E & Hr).
    rewrite E. cbn [mbind option_bind]. exists w'. split; [|exact Hr]. done.
  - destruct (Z.eqb_spec (Z.of_nat (S k)) 0); [lia|].
    destruct (process_read_spec ac asx ab oe ie nbr limit disk Hg Hst c tag (Z.of_nat (S k)) d s w Hb ltac:(apply B) Hs Hk ltac:(lia) H0 Hlim ltac:(lia))
      as (w1 & E1 & K1 & K2 & K3 & K4 & K5 & K6).
    replace (Z.of_nat (S k) - 1) with (Z.of_nat k) in K1, K3, K4 by lia.
    assert (Ew : mass_storage_bulk_in ie 512 w = w1).
    { unfold mass_storage_bulk_in. by rewrite Est, (opcode_read c lba n tag w B (bz_cbw _ _ _ _ _ _ _ _ _ _ _ _ _ Hb)), E1. }
    rewrite Ew. rewrite Est in K4. destruct (IH (s + 1) w1 K1 K2 K3 ltac:(lia) ltac:(lia) ltac:(lia) K4 ltac:(by rewrite K5, last_snoc)) as (w' & E & Hr).
    rewrite E. cbn [mbind option_bind]. exists w'. split; [|exact Hr]. rewrite K6, (seqZ_cons s (Z.of_nat (S k))) by lia. rewrite <- Z.sub_1_r. rewrite <- Z.add_1_r.
    by replace (Z.of_nat (S k) - 1) with (Z.of_nat k) by lia.
Qed.
Lemma busy_ext c tag left d d' w : (forall t, 0 <= t < limit -> d t = d' t) -> Busy c tag left d w -> Busy c tag left d' w.
Proof. intros Hd [? ? ? ? Hk]. constructor; try done. intros t Ht. rewrite <- Hd by done. by apply Hk. Qed.
Lemma busy_store c tag left d b w : Busy c tag left d w -> length b = 512%nat -> Busy c tag left d (on_um (store ab b) w).
Proof.
  intros [L Hc Ht Hr Hd] Hb.
  assert (Hm : forall q, ~ ab <= q < ab + 512 -> rd (um (on_um (store ab b) w)) q = rd (um w) q).
  { intros q Hq. cbn. rewrite rd_store. by rewrite decide_False by lia. }
  pose proof (gm_csw _ _ _ _ _ Hg). pose proof (gm_buf _ _ _ _ _ Hg). constructor; [exact L| | | |].
  - eapply cbw_kept; [exact L|exact L| |exact Hc]. intros q Hq. apply Hm. lia.
  - rewrite (read_bytes_out (um w)); [done|]. intros q Hq. apply Hm. lia.
  - rewrite (read_bytes_out (um w)); [done|]. intros q Hq. apply Hm. lia.
  - eapply disk_kept; [exact Hst| |exact Hd]. intros q Hq. apply Hm. unfold msc_region in Hq. lia.
Qed.
Lemma written_cons s b bs d t : written s (b :: bs) d t = written (s + 1) bs (fun t => if decide (t = s) then b else d t) t.
Proof.
  unfold written. cbn [length]. destruct (decide (t = s)) as [->|Ht].
  - rewrite decide_True, decide_False by lia. by rewrite Z.sub_diag.
  - repeat case_decide; try lia; try done. by replace (Z.to_nat (t - s)) with (S (Z.to_nat (t - (s + 1)))) by lia.
Qed.
(** The blocks still to be written, at least one. *)
Lemma blocks_written c tag lba n : block_command false lba n tag c -> n * 512 < 2 ^ 32 -> forall bs s d w, bs <> [] -> Forall block_ok bs ->
  Busy c tag (Z.of_nat (length bs)) d w -> start_sector (uw w) = s -> nsectors (uw w) = Z.of_nat (length bs) ->
  0 <= s -> s + Z.of_nat (length bs) <= limit -> Z.of_nat (length bs) <= n ->
  stage (uw w) = MSC_DATA_OUT -> last (port w) = Some (PStartRead oe ab 512) ->
  exists w', host_outs bs w = Some w' /\ Busy c tag 0 (written s bs d) w' /\ stage (uw w') = MSC_WAIT_CSW /\
    last (port w') = Some (PStartWrite ie asx 13) /\ read_bytes (um w') asx 13 = csw_bytes tag 0 0.
Proof.
  intros B Hn. induction bs as [|b bs IH]; intros s d w Hne Hbs Hb Hs Hk H0 Hlim Hkn Est Ep; [done|]. apply Forall_cons in Hbs as [[Hlen Hby] Hbs].
  cbn [host_outs]. rewrite (host_out_reads b w _ _ _ Ep) by lia. cbn [mbind option_bind]. cbn [length] in *.
  pose proof (busy_store _ _ _ _ b w Hb Hlen) as Hb1. set (w1 := on_um (store ab b) w) in *.
  destruct (process_write_spec ac asx ab oe ie nbr limit disk Hg Hst c tag _ d s w1 Hb1 ltac:(apply B) Hs Hk ltac:(lia) H0 Hlim ltac:(lia))
    as (w2 & E2 & K1 & K2 & K3 & K4).
  assert (Ew : mass_storage_bulk_out oe 512 w1 = w2).
  { unfold mass_storage_bulk_out. change (stage (uw w1)) with (stage (uw w)). rewrite Est.
    by rewrite (opcode_write c lba n tag w1 B (bz_cbw _ _ _ _ _ _ _ _ _ _ _ _ _ Hb1)), E2. }
  rewrite Ew. replace (Z.of_nat (S (length bs)) - 1) with (Z.of_nat (length bs)) in K1, K3, K4 by lia.
  assert (Eb : read_bytes (um w1) ab 512 = b) by (change 512 with (Z.of_nat 512); rewrite <- Hlen; by apply read_store). rewrite Eb in K1.
  destruct bs as [|b' bs].
  - destruct K4 as (K4 & K5 & K6). exists w2. split; [done|]. split; [|split; [done|split; [by rewrite K5, last_snoc|done]]].
    eapply busy_ext; [|exact K1]. intros t _. rewrite written_cons. unfold written. by rewrite (decide_False (P := s + 1 <= t < _)) by (cbn [length]; lia).
  - destruct (Z.eqb_spec (Z.of_nat (length (b' :: bs))) 0) as [E0|E0]; [done|]. destruct K4 as (K4 & K5).
    assert (length (b' :: bs) = S (length bs)) by done.
    destruct (IH (s + 1) _ w2 ltac:(done) Hbs K1 K2 K3 ltac:(lia) ltac:(lia) ltac:(lia)) as (w' & E & Hb' & Ht); [rewrite K4; exact Est|rewrite K5; apply last_snoc|].
    exists w'. split; [exact E|]. split; [|exact Ht]. eapply busy_ext; [|exact Hb']. intros t _. symmetry. apply written_cons.
Qed.

(** One request, then any number of them. *)
Lemma cbw_delivered d c w : resting d w -> length c = 31%nat -> Forall (fun b => 0 <= b < 256) c ->
  let w1 := on_um (store ac c) w in
  Layout (uw w1) /\ stage (uw w1) = MSC_READ_CBW /\ cbw_holds c w1 /\ (forall t, 0 <= t < limit -> disk (um w1) t = d t) /\
  host_out c w = Some (mass_storage_bulk_out oe 31 w1).
Proof.
  intros [L Es Ep Hd] Hlen Hc w1. split; [done|]. split; [done|]. split; [|split].
  - unfold cbw_holds. change (cbw (uw w1)) with (cbw (uw w)). rewrite (ly_cbw _ _ _ _ _ _ _ L). change 31 with (Z.of_nat 31). rewrite <- Hlen. by apply read_store.
  - eapply disk_kept; [exact Hst| |exact Hd]. intros q Hq. cbn. rewrite rd_store, decide_False; [done|]. unfold msc_region in Hq. lia.
  - apply host_out_reads; [exact Ep|by rewrite Hlen].
Qed.
Lemma read_served lba n tag c d w : resting d w -> request_ok limit (ReadBlocks lba n tag c) ->
  exists w', host_request (ReadBlocks lba n tag c) w = Some ((d <$> seqZ lba n) ++ [csw_bytes tag 0 0], w') /\ resting d w'.
Proof.
  intros Hr [B Hlim]. destruct (block_lengths _ _ _ _ _ B) as (Hl & Hn & Hn' & _).
  destruct (cbw_delivered d c w Hr (bc_length _ _ _ _ _ B) (bc_bytes _ _ _ _ _ B)) as (L & Es & Hc & Hd & E).
  destruct (decode_read ac asx ab oe ie nbr limit disk Hg Hst oe lba n tag c d _ L Es Hc Hd B Hlim) as (K1 & K2 & K3 & K4 & K5 & K6).
  unfold host_request. cbn [request_out request_fuel host_outs]. rewrite E. cbn [mbind option_bind].
  set (w1 := mass_storage_bulk_out oe 31 _) in *. replace (S (Z.to_nat n)) with (S (S (Z.to_nat (n - 1)))) by lia.
  replace (n - 1) with (Z.of_nat (Z.to_nat (n - 1))) in K1, K3, K4 by lia.
  destruct (blocks_read c tag lba n d B Hn' _ (lba + 1) w1 K1 K2 K3 ltac:(lia) ltac:(lia) ltac:(lia) K4 ltac:(by rewrite K5, last_snoc)) as (w' & E' & Hr').
  exists w'. split; [|exact Hr']. rewrite E', K6, (seqZ_cons lba n) by lia. rewrite Z2Nat.id, <- Z.sub_1_r, <- Z.add_1_r by lia. done.
Qed.
Lemma write_served lba tag c bs d w : resting d w -> request_ok limit (WriteBlocks lba tag c bs) ->
  exists w', host_request (WriteBlocks lba tag c bs) w = Some ([csw_bytes tag 0 0], w') /\ resting (written lba bs d) w'.
Proof.
  intros Hr (B & Hlim & Hbs). destruct (block_lengths _ _ _ _ _ B) as (Hl & Hn & Hn' & _).
  destruct (cbw_delivered d c w Hr (bc_length _ _ _ _ _ B) (bc_bytes _ _ _ _ _ B)) as (L & Es & Hc & Hd & E).
  destruct (decode_write ac asx ab oe ie nbr limit disk Hg Hst oe lba _ tag c d _ L Es Hc Hd B Hlim) as (K1 & K2 & K3 & K4 & K5).
  unfold host_request. cbn [request_out request_fuel host_outs]. rewrite E. cbn [mbind option_bind].
  set (w1 := mass_storage_bulk_out oe 31 _) in *.
  destruct (blocks_written c tag lba _ B Hn' bs lba d w1 ltac:(by intros ->) Hbs K1 K2 K3 ltac:(lia) ltac:(lia) ltac:(lia) K4 ltac:(by rewrite K5, last_snoc))
    as (w2 & E2 & J1 & J2 & J3 & J4).
  rewrite E2. cbn [mbind option_bind]. by apply (status_sent 0 c tag 0 _ w2 _ J1).
Qed.

(** C31: whatever sequence of commands to read and to write blocks within the storage
    the host gives, with the data of each write, the class answers every read with
    the blocks as the writes before it left them, in order, every command with a
    status block of its tag, no residue and success, and is then ready for the next
    command with the storage changed exactly as a disk would be. *)
Theorem storage_served (rs : list request) (d : Z -> list Z) (w : mworld) :
  resting d w -> Forall (request_ok limit) rs ->
  exists w', host_requests rs w = Some ((disk_requests rs d).1, w') /\ resting (disk_requests rs d).2 w'.
Proof.
  revert d w. induction rs as [|r rs IH]; intros d w Hr Hrs; [by exists w|]. apply Forall_cons in Hrs as [H1 Hrs]. cbn [host_requests disk_requests].
  assert (Hone : exists w1, host_request r w = Some ((disk_request r d).1, w1) /\ resting (disk_request r d).2 w1).
  { destruct r as [lba n tag c|lba tag c bs]; [by apply read_served|by apply write_served]. }
  destruct Hone as (w1 & -> & Hr1). destruct (disk_request r d) as [a d1]. cbn in *. destruct (IH d1 w1 Hr1 Hrs) as (w2 & E & Hr2).
  rewrite E. destruct (disk_requests rs d1) as [l d2]. cbn in *. by exists w2.
Qed.
End serve.

(** ** The storage in RAM keeps the laws *)
Definition ram_disk (m : bmem) (s : Z) : list Z := read_bytes m (mass_block + s * BLOCK_SIZE) BLOCK_SIZE.
Definition CBW_AT : Z := 0x20000000.
Definition CSW_AT : Z := 0x20000020.
Definition BUF_AT : Z := 0x20000040.
Lemma ram_geometry : geometry CBW_AT CSW_AT BUF_AT 1000 BLOCK_COUNT.
Proof. by constructor. Qed.
Lemma read_bytes_of m m' p q n : (forall i, 0 <= i < n -> rd m' (q + i) = rd m (p + i)) -> read_bytes m' q n = read_bytes m p n.
Proof.
  intros Hm. unfold read_bytes. apply list_fmap_ext. intros i x Hx. apply lookup_seq in Hx as [-> Hi]. unfold ld8. cbn. by rewrite Hm by lia.
Qed.
Lemma ram_laws : storage_laws CBW_AT CSW_AT BUF_AT BLOCK_COUNT ram_disk.
Proof.
  unfold BLOCK_COUNT. constructor.
  - intros s w Hs. cbn [usbd_msc_sector_read msc_ram]. unfold ram_sector_read, BLOCK_COUNT. destruct (Z.ltb_spec s 10); [|lia].
    eexists. split; [reflexivity|]. split; [done|]. split; [done|]. cbn [um on_um with_um]. unfold ram_disk, BLOCK_SIZE, mass_block, BUF_AT.
    split; [apply read_bytes_of; intros i Hi|intros q Hq]; rewrite memcpy_bytes_spec by lia.
    + rewrite decide_True by lia. f_equal. lia.
    + by rewrite decide_False by lia.
  - intros s w Hs. cbn [usbd_msc_sector_write msc_ram]. unfold ram_sector_write, BLOCK_COUNT. destruct (Z.ltb_spec s 10); [|lia].
    eexists. split; [reflexivity|]. split; [done|]. split; [done|]. cbn [um on_um with_um]. unfold ram_disk, BLOCK_SIZE, mass_block, BUF_AT.
    split; [intros t Ht; destruct (decide (t = s)) as [->|Hts]|intros q Hq; unfold msc_region, CBW_AT, CSW_AT, BUF_AT in Hq].
    + apply read_bytes_of. intros i Hi. rewrite memcpy_bytes_spec by lia. rewrite decide_True by lia. f_equal. lia.
    + apply read_bytes_of. intros i Hi. rewrite memcpy_bytes_spec by lia. rewrite decide_False by lia. done.
    + rewrite memcpy_bytes_spec by lia. by rewrite decide_False by lia.
  - intros m m' s Hs Hm. apply read_bytes_of. intros i Hi. apply Hm. unfold msc_region, CBW_AT, CSW_AT, BUF_AT, mass_block, BLOCK_SIZE in *. lia.
Qed.

(** The class registered as in [msc_ram_init], then the device configured. *)
Definition ram_raw : ustate usbd_msc_priv :=
  {| core := {| ep0 := ep0 (core raw_state); desc := desc (core raw_state); dev := dev (core raw_state); req_data := REQ;
                UsbCore.intf := []; intf_offset := 0; tx_msg := []; rx_msg := []; event_handler := None |};
     interfaces := ∅;
     wd := {| um := ∅;
              uw := {| stage := MSC_WAIT_CSW; cbw := CBW_AT; csw := CSW_AT; readonly := false; popup := false; sKey := 0; ASC := 0; ASQ := 0; max_lun := 0;
                       start_sector := 0; nsectors := 0; scsi_blk_size := []; scsi_blk_nbr := []; block_buffer := BUF_AT; out_ep := 0; in_ep := 0 |};
              port := [] |} |}.
Definition intf0 : usbd_interface usbd_msc_priv :=
  {| class_interface_handler := None; class_endpoint_handler := None; vendor_handler := None; notify_handler := None;
     hid_report_descriptor := 0; hid_report_descriptor_len := 0; intf_num := 0 |}.
Definition ram_start : mworld := msc_storage_notify_handler USBD_EVENT_CONFIGURED 0 (wd (usbd_msc_init_intf intf0 0x02 0x81 ram_raw).2).
Lemma ram_resting : resting CBW_AT CSW_AT BUF_AT 0x02 0x81 1000 BLOCK_COUNT ram_disk (ram_disk (um ram_start)) ram_start.
Proof. by constructor. Qed.

Definition cdb10 (op lba n : Z) : list Z := [op; 0] ++ be32 lba ++ [0; n / 256; n mod 256; 0] ++ replicate 6 0.
Definition command10 (is_in : bool) (lba n tag : Z) : list Z :=
  le4 MSC_CBW_Signature ++ le4 tag ++ le4 (n * 512) ++ [if is_in then 0x80 else 0; 0; 10] ++ cdb10 (if is_in then 0x28 else 0x2a) lba n.
Definition ram_blocks : list (list Z) := [replicate 512 0xAA; replicate 512 0x55].
Definition ram_requests : list request :=
  [WriteBlocks 3 1 (command10 false 3 2 1) ram_blocks; ReadBlocks 2 3 2 (command10 true 2 3 2)].
Lemma command10_bytes : Forall (fun b => 0 <= b < 256) (command10 false 3 2 1) /\ Forall (fun b => 0 <= b < 256) (command10 true 2 3 2).
Proof. split; apply (bool_decide_unpack _); vm_compute; exact I. Qed.
Lemma ram_requests_ok : Forall (request_ok BLOCK_COUNT) ram_requests.
Proof.
  repeat apply Forall_cons_2; [| |by apply Forall_nil].
  - split; [|split; [done|]].
    + constructor; try done; [apply command10_bytes|by left].
    + by repeat (apply Forall_cons_2; [split; [done|apply Forall_replicate; lia]|]).
  - split; [|done]. constructor; try done; [apply command10_bytes|by left].
Qed.
Lemma storage_served_witness : exists w',
  host_requests ram_requests ram_start =
    Some ([[csw_bytes 1 0 0]; [replicate 512 0; replicate 512 0xAA; replicate 512 0x55; csw_bytes 2 0 0]], w') /\
  ram_disk (um w') 3 = replicate 512 0xAA.
Proof.
  destruct (storage_served CBW_AT CSW_AT BUF_AT 0x02 0x81 1000 BLOCK_COUNT ram_disk ram_geometry ram_laws ram_requests _ ram_start ram_resting ram_requests_ok)
    as (w' & E & Hr).
  exists w'. split.
  - rewrite E. apply (f_equal (fun a => Some (a, w'))). vm_compute. reflexivity.
  - rewrite (rg_disk _ _ _ _ _ _ _ _ _ _ Hr) by (unfold BLOCK_COUNT; lia). vm_compute. reflexivity.
Defined.

(** The last address plus one wraps around: a read far behind the end of the storage
    is not refused but answered with the buffer as it is, and succeeds. *)
Lemma lba_wraps :
  fst <$> host_request (ReadBlocks 0xFFFFFFFF 1 7 (command10 true 0xFFFFFFFF 1 7)) ram_start = Some [replicate 512 0; csw_bytes 7 0 0].
Proof. vm_compute. reflexivity. Qed.
