(* ===== verification/Sched.v ===== *)
(** * The uniprocessor scheduler

    [src/rt-thread/src/scheduler_up.c] and the scheduler half of
    [scheduler_comm.c], with [RT_THREAD_PRIORITY_MAX = 32] as in
    [src/rtconfig.h].  Every function runs with interrupts disabled, so each is
    one atomic function on [sstate]; the context switch itself is the change of
    [rt_current_thread]. *)
From S2P Require Import Prelude Queue Ffs.

Abbreviation tid := nat.

(** ** Constants of [rtdef.h] *)

Definition RT_THREAD_PRIORITY_MAX : Z := 32.
Definition RT_THREAD_INIT : Z := 0.
Definition RT_THREAD_CLOSE : Z := 1.
Definition RT_THREAD_READY : Z := 2.
Definition RT_THREAD_RUNNING : Z := 3.
Definition RT_THREAD_SUSPEND_MASK : Z := 4.
Definition RT_THREAD_SUSPEND_INTERRUPTIBLE : Z := 4.
Definition RT_THREAD_SUSPEND : Z := RT_THREAD_SUSPEND_INTERRUPTIBLE.
Definition RT_THREAD_SUSPEND_KILLABLE : Z := 6.
Definition RT_THREAD_SUSPEND_UNINTERRUPTIBLE : Z := 7.
Definition RT_THREAD_STAT_MASK : Z := 7.
Definition RT_THREAD_STAT_YIELD : Z := 8.
Definition RT_THREAD_STAT_YIELD_MASK : Z := RT_THREAD_STAT_YIELD.

(** ** State *)

(** The objects threads can wait on. *)
Inductive objref :=
  | OSem (n : nat) | OMutex (n : nat) | OEvent (n : nat) | OMb (n : nat) | OMq (n : nat)
  | OMp (n : nat).

(** The rings a thread's [tlist] node can be linked in. *)
Inductive lid :=
  | LReady (p : Z)          (* rt_thread_priority_table[p] *)
  | LSusp (o : objref)      (* o->parent.suspend_thread *)
  | LSend (o : objref)      (* o->suspend_sender_thread *)
  | LDefunct.               (* _rt_thread_defunct *)

#[export] Instance objref_eq_dec : EqDecision objref.
Proof. solve_decision. Defined.
#[export] Instance objref_countable : Countable objref.
Proof.
  refine (inj_countable'
    (fun o => match o with
              | OSem n => (0, n) | OMutex n => (1, n) | OEvent n => (2, n)
              | OMb n => (3, n) | OMq n => (4, n) | OMp n => (5, n) end)%nat
    (fun x => match x with
              | (0, n) => OSem n | (1, n) => OMutex n | (2, n) => OEvent n
              | (3, n) => OMb n | (4, n) => OMq n | (_, n) => OMp n end)%nat _).
  by intros [].
Defined.

#[export] Instance lid_eq_dec : EqDecision lid.
Proof. solve_decision. Defined.
#[export] Instance lid_countable : Countable lid.
Proof.
  refine (inj_countable'
    (fun l => match l with
              | LReady p => inl p | LSusp o => inr (inl o)
              | LSend o => inr (inr (inl o)) | LDefunct => inr (inr (inr tt)) end)
    (fun x => match x with
              | inl p => LReady p | inr (inl o) => LSusp o
              | inr (inr (inl o)) => LSend o | inr (inr (inr _)) => LDefunct end) _).
  by intros [].
Defined.

(** The fields of [struct rt_thread] the kernel reads and writes. *)
Record rt_thread := Thread {
  stat : Z;
  sched_flag_ttmr_set : bool;
  init_tick : Z;
  remaining_tick : Z;
  current_priority : Z;
  init_priority : Z;
  number_mask : Z;
  error : Z;
  pending_object : option objref;
  event_set : Z;
  event_info : Z;
}.

Definition thread0 : rt_thread := Thread 0 false 0 0 0 0 0 0 None 0 0.

Definition with_stat (v : Z) (th : rt_thread) : rt_thread :=
  Thread v (sched_flag_ttmr_set th) (init_tick th) (remaining_tick th) (current_priority th)
    (init_priority th) (number_mask th) (error th) (pending_object th) (event_set th) (event_info th).
Definition with_ttmr_set (v : bool) (th : rt_thread) : rt_thread :=
  Thread (stat th) v (init_tick th) (remaining_tick th) (current_priority th)
    (init_priority th) (number_mask th) (error th) (pending_object th) (event_set th) (event_info th).
Definition with_remaining_tick (v : Z) (th : rt_thread) : rt_thread :=
  Thread (stat th) (sched_flag_ttmr_set th) (init_tick th) v (current_priority th)
    (init_priority th) (number_mask th) (error th) (pending_object th) (event_set th) (event_info th).
(** [current_priority = p; number_mask = 1 << p] *)
Definition with_priority (p : Z) (th : rt_thread) : rt_thread :=
  Thread (stat th) (sched_flag_ttmr_set th) (init_tick th) (remaining_tick th) p
    (init_priority th) (u32 (Z.shiftl 1 p)) (error th) (pending_object th) (event_set th) (event_info th).
Definition with_number_mask (v : Z) (th : rt_thread) : rt_thread :=
  Thread (stat th) (sched_flag_ttmr_set th) (init_tick th) (remaining_tick th) (current_priority th)
    (init_priority th) v (error th) (pending_object th) (event_set th) (event_info th).
Definition with_error (v : Z) (th : rt_thread) : rt_thread :=
  Thread (stat th) (sched_flag_ttmr_set th) (init_tick th) (remaining_tick th) (current_priority th)
    (init_priority th) (number_mask th) v (pending_object th) (event_set th) (event_info th).
Definition with_pending (v : option objref) (th : rt_thread) : rt_thread :=
  Thread (stat th) (sched_flag_ttmr_set th) (init_tick th) (remaining_tick th) (current_priority th)
    (init_priority th) (number_mask th) (error th) v (event_set th) (event_info th).
Definition with_event (set info : Z) (th : rt_thread) : rt_thread :=
  Thread (stat th) (sched_flag_ttmr_set th) (init_tick th) (remaining_tick th) (current_priority th)
    (init_priority th) (number_mask th) (error th) (pending_object th) set info.

(** The scheduler's variables, the thread control blocks and every ring that
    links them. *)
Record sstate := SState {
  threads : gmap tid rt_thread;
  tlists : gmap lid (list tid);
  rt_thread_ready_priority_group : Z;
  rt_current_thread : option tid;
  rt_current_priority : Z;
  rt_scheduler_lock_nest : Z;
  rt_interrupt_nest : Z;
}.

Definition with_threads v s := SState v (tlists s) (rt_thread_ready_priority_group s)
  (rt_current_thread s) (rt_current_priority s) (rt_scheduler_lock_nest s) (rt_interrupt_nest s).
Definition with_tlists v s := SState (threads s) v (rt_thread_ready_priority_group s)
  (rt_current_thread s) (rt_current_priority s) (rt_scheduler_lock_nest s) (rt_interrupt_nest s).
Definition with_group v s := SState (threads s) (tlists s) v
  (rt_current_thread s) (rt_current_priority s) (rt_scheduler_lock_nest s) (rt_interrupt_nest s).
Definition with_current t p s := SState (threads s) (tlists s) (rt_thread_ready_priority_group s)
  (Some t) p (rt_scheduler_lock_nest s) (rt_interrupt_nest s).
Definition with_lock_nest v s := SState (threads s) (tlists s) (rt_thread_ready_priority_group s)
  (rt_current_thread s) (rt_current_priority s) v (rt_interrupt_nest s).
Definition with_interrupt_nest v s := SState (threads s) (tlists s) (rt_thread_ready_priority_group s)
  (rt_current_thread s) (rt_current_priority s) (rt_scheduler_lock_nest s) v.

Definition get_thread (s : sstate) (t : tid) : rt_thread := default thread0 (threads s !! t).
Definition upd_thread (t : tid) (f : rt_thread -> rt_thread) (s : sstate) : sstate :=
  with_threads (alter f t (threads s)) s.
Definition tlist (s : sstate) (l : lid) : list tid := qget (tlists s) l.
Definition stat_of (th : rt_thread) : Z := Z.land (stat th) RT_THREAD_STAT_MASK.
(** [v | (stat & ~RT_THREAD_STAT_MASK)] *)
Definition restat (v : Z) (th : rt_thread) : rt_thread :=
  with_stat (Z.lor v (clear_flag (stat th) RT_THREAD_STAT_MASK)) th.
(** [rt_list_remove(&RT_THREAD_LIST_NODE(thread))] *)
Definition tlist_remove (t : tid) (s : sstate) : sstate := with_tlists (qunlink t (tlists s)) s.

(** ** Operations of [scheduler_up.c] *)
Definition rt_thread_self (s : sstate) : option tid := rt_current_thread s.

(** [None]: the ring of the lowest set bit is empty. *)
Definition _scheduler_get_highest_priority_thread (s : sstate) : option (tid * Z) :=
  let highest_ready_priority := __rt_ffs (rt_thread_ready_priority_group s) - 1 in
  match tlist s (LReady highest_ready_priority) with
  | t :: _ => Some (t, highest_ready_priority)
  | [] => None
  end.

Definition rt_sched_insert_thread (t : tid) (s : sstate) : sstate :=
  if decide (rt_current_thread s = Some t) then
    upd_thread t (restat RT_THREAD_RUNNING) s
  else
    let s := upd_thread t (restat RT_THREAD_READY) s in
    let th := get_thread s t in
    let s := if has_flag (stat th) RT_THREAD_STAT_YIELD_MASK
             then with_tlists (qpush_back (LReady (current_priority th)) t (tlists s)) s
             else with_tlists (qpush_front (LReady (current_priority th)) t (tlists s)) s in
    with_group (Z.lor (rt_thread_ready_priority_group s) (number_mask th)) s.

Definition rt_sched_remove_thread (t : tid) (s : sstate) : sstate :=
  let s := tlist_remove t s in
  let th := get_thread s t in
  match tlist s (LReady (current_priority th)) with
  | [] => with_group (clear_flag (rt_thread_ready_priority_group s) (number_mask th)) s
  | _ => s
  end.

(** The choice between the running thread and the highest ready one:
    [(to_thread, need_insert_from_thread)]. *)
Definition schedule_target (c : tid) (cth : rt_thread) (to : tid) (hp : Z) : tid * bool :=
  if stat_of cth =? RT_THREAD_RUNNING then
    if current_priority cth <? hp then (c, false)
    else if (current_priority cth =? hp)
            && negb (has_flag (stat cth) RT_THREAD_STAT_YIELD_MASK) then (c, false)
    else (to, true)
  else (to, false).

Definition rt_schedule (s : sstate) : sstate :=
  if rt_scheduler_lock_nest s =? 0 then
    if negb (rt_thread_ready_priority_group s =? 0) then
      match rt_current_thread s, _scheduler_get_highest_priority_thread s with
      | Some c, Some (top, hp) =>
          let '(to, need_insert_from_thread) := schedule_target c (get_thread s c) top hp in
          if decide (to <> c) then
            let s := with_current to (u8 hp) s in
            let s := if need_insert_from_thread then rt_sched_insert_thread c s else s in
            let s := if has_flag (stat (get_thread s c)) RT_THREAD_STAT_YIELD_MASK
                     then upd_thread c (fun th => with_stat (clear_flag (stat th) RT_THREAD_STAT_YIELD_MASK) th) s
                     else s in
            let s := rt_sched_remove_thread to s in
            upd_thread to (restat RT_THREAD_RUNNING) s
          else
            let s := rt_sched_remove_thread c s in
            upd_thread c (restat RT_THREAD_RUNNING) s
      (* no thread runs yet, or a bit without its thread: not reached *)
      | _, _ => s
      end
    else s
  else s.

Definition rt_sched_unlock_n_resched (s : sstate) : sstate :=
  match rt_thread_self s with
  | Some _ => rt_schedule s
  | None => s
  end.

Definition rt_system_scheduler_init (s : sstate) : sstate :=
  let s := with_lock_nest 0 s in
  let s := with_tlists
    (foldr (fun p Q => qset (LReady (Z.of_nat p)) [] Q) (tlists s)
       (seq 0 (Z.to_nat RT_THREAD_PRIORITY_MAX))) s in
  with_group 0 s.

Definition rt_system_scheduler_start (s : sstate) : sstate :=
  match _scheduler_get_highest_priority_thread s with
  | Some (to, _) =>
      let s := with_current to (rt_current_priority s) s in
      let s := rt_sched_remove_thread to s in
      upd_thread to (with_stat RT_THREAD_RUNNING) s
  | None => s
  end.

Definition rt_sched_thread_startup (t : tid) (s : sstate) : sstate :=
  let s := upd_thread t (fun th => with_number_mask (u32 (Z.shiftl 1 (current_priority th))) th) s in
  upd_thread t (with_stat RT_THREAD_SUSPEND) s.

Definition rt_sched_thread_init_priv (t : tid) (tick priority : Z) (s : sstate) : sstate :=
  (* rt_list_init makes the node a ring of its own *)
  let s := tlist_remove t s in
  upd_thread t (fun th => Thread (stat th) (sched_flag_ttmr_set th) tick tick priority priority 0
    (error th) (pending_object th) (event_set th) (event_info th)) s.

Definition i16 (z : Z) : Z := (z + 2 ^ 15) mod 2 ^ 16 - 2 ^ 15.

Definition rt_enter_critical (s : sstate) : sstate * Z :=
  let s := with_lock_nest (i16 (rt_scheduler_lock_nest s + 1)) s in
  (s, rt_scheduler_lock_nest s).

Definition rt_exit_critical (s : sstate) : sstate :=
  let s := with_lock_nest (i16 (rt_scheduler_lock_nest s - 1)) s in
  if rt_scheduler_lock_nest s <=? 0 then
    let s := with_lock_nest 0 s in
    match rt_current_thread s with
    | Some _ => rt_schedule s
    | None => s
    end
  else s.

Definition rt_exit_critical_safe (critical_level : Z) (s : sstate) : sstate := rt_exit_critical s.

Definition rt_critical_level (s : sstate) : Z := u16 (rt_scheduler_lock_nest s).

Definition rt_sched_thread_bind_cpu (t : tid) (cpu : Z) : Z := - RT_EINVAL.

(** ** Operations of [scheduler_comm.c] *)
Definition rt_sched_thread_init_ctx (t : tid) (tick priority : Z) (s : sstate) : sstate :=
  let s := upd_thread t (with_stat RT_THREAD_INIT) s in
  rt_sched_thread_init_priv t tick priority s.

Definition rt_sched_thread_timer_start (t : tid) (s : sstate) : sstate :=
  upd_thread t (with_ttmr_set true) s.

Definition rt_sched_thread_get_stat (s : sstate) (t : tid) : Z := stat_of (get_thread s t).
Definition rt_sched_thread_get_curr_prio (s : sstate) (t : tid) : Z :=
  current_priority (get_thread s t).
Definition rt_sched_thread_get_init_prio (s : sstate) (t : tid) : Z :=
  init_priority (get_thread s t).
Definition rt_sched_thread_is_suspended (s : sstate) (t : tid) : bool :=
  Z.land (stat (get_thread s t)) RT_THREAD_SUSPEND_MASK =? RT_THREAD_SUSPEND_MASK.
Definition rt_sched_thread_close (t : tid) (s : sstate) : sstate :=
  upd_thread t (with_stat RT_THREAD_CLOSE) s.

Definition rt_sched_thread_yield (t : tid) (s : sstate) : sstate :=
  let s := upd_thread t (fun th => with_remaining_tick (init_tick th) th) s in
  upd_thread t (fun th => with_stat (set_flag (stat th) RT_THREAD_STAT_YIELD) th) s.

Definition rt_sched_tick_increase (s : sstate) : sstate :=
  match rt_thread_self s with
  | Some t =>
      let s := upd_thread t (fun th => with_remaining_tick (u32 (remaining_tick th - 1)) th) s in
      if negb (remaining_tick (get_thread s t) =? 0) then s
      else rt_sched_unlock_n_resched (rt_sched_thread_yield t s)
  | None => s
  end.

Definition rt_sched_thread_change_priority (t : tid) (priority : Z) (s : sstate) : sstate :=
  if stat_of (get_thread s t) =? RT_THREAD_READY then
    let s := rt_sched_remove_thread t s in
    let s := upd_thread t (with_priority priority) s in
    let s := upd_thread t (with_stat RT_THREAD_INIT) s in
    rt_sched_insert_thread t s
  else upd_thread t (with_priority priority) s.

(** [rt_thread_yield] of [thread.c]: nothing but scheduler operations. *)
Definition rt_thread_yield (s : sstate) : sstate * Z :=
  let s := match rt_thread_self s with
           | Some t => rt_sched_thread_yield t s
           | None => s
           end in
  (rt_sched_unlock_n_resched s, RT_EOK).

(** [rt_interrupt_enter] and [rt_interrupt_leave] of [irq.c]. *)
Definition rt_interrupt_enter (s : sstate) : sstate :=
  with_interrupt_nest (i32 (rt_interrupt_nest s + 1)) s.
Definition rt_interrupt_leave (s : sstate) : sstate :=
  with_interrupt_nest (i32 (rt_interrupt_nest s - 1)) s.
Definition rt_interrupt_get_nest (s : sstate) : Z := u8 (rt_interrupt_nest s).
