(* ===== verification/SchedFacts.v ===== *)
(** * Invariant of the scheduler

    [swf] is the representation invariant of the scheduler: the rings, the
    thread states, the priority masks and the ready bitmap agree.  [swfx (Some t)]
    is the invariant while [t] is linked in no ring, the state between
    [rt_sched_remove_thread] and [rt_sched_insert_thread]. *)
From S2P Require Import Prelude Queue Ffs Sched.

(** ** Bit facts of the masks *)
Lemma testbit_pow2 p i : 0 <= p -> Z.testbit (2 ^ p) i = bool_decide (i = p).
Proof.
  intros Hp. case_bool_decide; subst; [by apply Z.pow2_bits_true|].
  apply Z.pow2_bits_false; lia.
Qed.

Lemma testbit_set_pow2 g p i :
  0 <= p -> Z.testbit (Z.lor g (2 ^ p)) i = Z.testbit g i || bool_decide (i = p).
Proof. intros. by rewrite Z.lor_spec, testbit_pow2. Qed.

Lemma testbit_clear_pow2 g p i :
  0 <= p -> 0 <= i -> Z.testbit (clear_flag g (2 ^ p)) i = Z.testbit g i && negb (bool_decide (i = p)).
Proof. intros. unfold clear_flag. by rewrite Z.land_spec, Z.lnot_spec, testbit_pow2. Qed.

Lemma set_pow2_range g p n : 0 <= p < n -> 0 <= g < 2 ^ n -> 0 <= Z.lor g (2 ^ p) < 2 ^ n.
Proof.
  intros Hp Hg. assert (0 <= 2 ^ p) by (apply Z.pow_nonneg; lia).
  assert (0 <= Z.lor g (2 ^ p)) by (apply Z.lor_nonneg; lia). split; [done|].
  apply range_of_testbit; [lia..|]. intros i Hi.
  rewrite testbit_set_pow2, (testbit_range_high g n) by lia. rewrite bool_decide_false; [done|lia].
Qed.

Lemma clear_flag_range g m n : 0 <= n -> 0 <= g < 2 ^ n -> 0 <= clear_flag g m < 2 ^ n.
Proof.
  intros Hn Hg. unfold clear_flag.
  assert (0 <= Z.land g (Z.lnot m)) by (apply Z.land_nonneg; lia). split; [done|].
  apply range_of_testbit; [lia..|]. intros i Hi.
  by rewrite Z.land_spec, (testbit_range_high g n) by lia.
Qed.

Lemma clear_flag_0 g : clear_flag g 0 = g.
Proof. unfold clear_flag. by rewrite Z.land_m1_r. Qed.

Lemma shiftl_1_mask p : 0 <= p < 32 -> u32 (Z.shiftl 1 p) = 2 ^ p.
Proof.
  intros Hp. rewrite Z.shiftl_1_l. apply Z.mod_small.
  split; [apply Z.pow_nonneg; lia|apply Z.pow_lt_mono_r; lia].
Qed.

(** [stat & RT_THREAD_STAT_MASK] and the yield bit after the status updates. *)
Lemma bits7 i : 0 <= i -> Z.testbit 7 i = (i <? 3).
Proof.
  intros Hi. change 7 with (Z.ones 3). rewrite Z.testbit_ones_nonneg; lia.
Qed.

Lemma land_restat v st : Z.land v 7 = v -> Z.land (Z.lor v (clear_flag st 7)) 7 = v.
Proof.
  intros Hv. apply Z.bits_inj'. intros i Hi. rewrite <- Hv at 2. unfold clear_flag.
  rewrite !Z.land_spec, Z.lor_spec, Z.land_spec, Z.lnot_spec by done.
  by destruct (Z.testbit v i), (Z.testbit st i), (Z.testbit 7 i).
Qed.

Lemma land_restat_yield v st : Z.land v 8 = 0 -> Z.land (Z.lor v (clear_flag st 7)) 8 = Z.land st 8.
Proof.
  intros Hv. apply Z.bits_inj'. intros i Hi.
  assert (Hvi : Z.testbit (Z.land v 8) i = false) by (rewrite Hv; apply Z.bits_0).
  unfold clear_flag. rewrite !Z.land_spec, Z.lor_spec, Z.land_spec, Z.lnot_spec in * by done.
  rewrite bits7 by done. change 8 with (2 ^ 3) in *. rewrite testbit_pow2 in * by lia.
  case_bool_decide; subst; [|by rewrite !andb_false_r].
  rewrite andb_true_r in Hvi. rewrite Hvi. by destruct (Z.testbit st 3).
Qed.

Lemma land_set_yield st : Z.land (set_flag st 8) 7 = Z.land st 7.
Proof.
  apply Z.bits_inj'. intros i Hi. unfold set_flag.
  rewrite !Z.land_spec, Z.lor_spec, bits7 by done. change 8 with (2 ^ 3).
  rewrite testbit_pow2 by lia. destruct (Z.ltb_spec i 3); [|by rewrite !andb_false_r].
  rewrite bool_decide_false by lia. by rewrite orb_false_r.
Qed.

Lemma has_flag_set_yield st : has_flag (set_flag st 8) 8 = true.
Proof.
  unfold has_flag, set_flag. rewrite Z.land_comm, Z.lor_comm, Z.land_lor_distr_r. change (Z.land 8 8) with 8.
  apply negb_true_iff, Z.eqb_neq. intros E. apply Z.lor_eq_0_l in E. lia.
Qed.

Lemma land_clear_yield st : Z.land (clear_flag st 8) 7 = Z.land st 7.
Proof.
  apply Z.bits_inj'. intros i Hi. unfold clear_flag.
  rewrite !Z.land_spec, Z.lnot_spec, bits7 by done. change 8 with (2 ^ 3).
  rewrite testbit_pow2 by lia. destruct (Z.ltb_spec i 3); [|by rewrite !andb_false_r].
  rewrite bool_decide_false by lia. by rewrite andb_true_r.
Qed.

Lemma land4_of_7 st : Z.land st 4 = Z.land (Z.land st 7) 4.
Proof. rewrite <- Z.land_assoc. done. Qed.

(** ** Accessors *)
Definition suspended (th : rt_thread) : Prop := Z.land (stat th) RT_THREAD_SUSPEND_MASK = RT_THREAD_SUSPEND_MASK.

Lemma suspended_stat_of th : suspended th <-> Z.land (stat_of th) 4 = 4.
Proof. unfold suspended, stat_of, RT_THREAD_SUSPEND_MASK, RT_THREAD_STAT_MASK. by rewrite <- land4_of_7. Qed.

Lemma get_thread_lookup s t th : threads s !! t = Some th -> get_thread s t = th.
Proof. unfold get_thread. intros E. by rewrite E. Qed.

Lemma lookup_upd s t f t' :
  threads (upd_thread t f s) !! t' = if decide (t = t') then f <$> threads s !! t' else threads s !! t'.
Proof. unfold upd_thread, with_threads. cbn [threads]. rewrite lookup_alter. case_decide; by subst. Qed.
Lemma lookup_upd_eq s t f th : threads s !! t = Some th -> threads (upd_thread t f s) !! t = Some (f th).
Proof. intros H. rewrite lookup_upd, decide_True by done. by rewrite H. Qed.
Lemma lookup_upd_ne s t f t' : t <> t' -> threads (upd_thread t f s) !! t' = threads s !! t'.
Proof. intros H. by rewrite lookup_upd, decide_False. Qed.

Lemma stat_of_restat v th : Z.land v 7 = v -> stat_of (restat v th) = v.
Proof. apply land_restat. Qed.

(** ** The invariant *)
Definition prio_ok (th : rt_thread) : Prop :=
  0 <= current_priority th < RT_THREAD_PRIORITY_MAX /\
  0 <= init_priority th < RT_THREAD_PRIORITY_MAX /\
  (number_mask th = 2 ^ current_priority th \/ number_mask th = 0 /\ stat_of th = RT_THREAD_INIT).

Definition link_ok (l : lid) (th : rt_thread) : Prop :=
  match l with
  | LReady p => stat_of th = RT_THREAD_READY /\ current_priority th = p
  | LSusp _ | LSend _ => suspended th
  | LDefunct => stat_of th = RT_THREAD_CLOSE
  end.

Record swfx (x : option tid) (s : sstate) : Prop := {
  sw_q : qwf (tlists s);
  sw_fresh : forall t, x = Some t -> qfresh t (tlists s);
  sw_link : forall l t, t ∈ tlist s l -> exists th, threads s !! t = Some th /\ link_ok l th;
  sw_ready : forall t th, threads s !! t = Some th -> stat_of th = RT_THREAD_READY ->
    Some t <> x -> t ∈ tlist s (LReady (current_priority th));
  sw_prio : forall t th, threads s !! t = Some th -> prio_ok th;
  sw_group_range : 0 <= rt_thread_ready_priority_group s < 2 ^ 32;
  sw_group : forall p, 0 <= p < RT_THREAD_PRIORITY_MAX ->
    Z.testbit (rt_thread_ready_priority_group s) p = true <-> tlist s (LReady p) <> [];
}.

Record cur_ok (s : sstate) : Prop := {
  co_cur : forall t, rt_current_thread s = Some t -> exists th, threads s !! t = Some th /\
    stat_of th <> RT_THREAD_READY /\ stat_of th <> RT_THREAD_INIT;
  co_running : forall t th, threads s !! t = Some th -> stat_of th = RT_THREAD_RUNNING ->
    rt_current_thread s = Some t;
}.

Record swf (s : sstate) : Prop := { swf_core : swfx None s; swf_cur : cur_ok s }.

(** ** Steps between the full invariant and a detached thread *)
Lemma swfx_attach t s :
  swfx (Some t) s -> (forall th, threads s !! t = Some th -> stat_of th <> RT_THREAD_READY) ->
  swfx None s.
Proof.
  intros [] Hnr. constructor; try done.
  intros t' th Hth Hst _. apply sw_ready0; try done. intros [= ->]. by apply (Hnr th).
Qed.

Lemma swfx_detach t s : swfx None s -> qfresh t (tlists s) -> swfx (Some t) s.
Proof. intros [] Hf. constructor; try done. - by intros ? [= ->]. - intros. by eapply sw_ready0. Qed.

(** Updates of a thread that keep what the scheduler looks at. *)
Definition sched_frame (f : rt_thread -> rt_thread) : Prop :=
  forall th, stat_of (f th) = stat_of th /\ current_priority (f th) = current_priority th /\
             number_mask (f th) = number_mask th /\ init_priority (f th) = init_priority th.

Lemma link_ok_frame l th th' :
  stat_of th' = stat_of th -> current_priority th' = current_priority th -> link_ok l th -> link_ok l th'.
Proof.
  intros Hs Hp. destruct l; simpl; rewrite ?suspended_stat_of, ?Hs, ?Hp; done.
Qed.

Lemma prio_ok_frame th th' :
  stat_of th' = stat_of th -> current_priority th' = current_priority th ->
  number_mask th' = number_mask th -> init_priority th' = init_priority th -> prio_ok th -> prio_ok th'.
Proof. intros Hs Hp Hm Hi. unfold prio_ok. by rewrite Hs, Hp, Hm, Hi. Qed.

Lemma lookup_upd_inv s t f t' th' :
  threads (upd_thread t f s) !! t' = Some th' ->
  exists th, threads s !! t' = Some th /\ th' = (if decide (t = t') then f th else th).
Proof.
  rewrite lookup_upd. case_decide; [|by eauto].
  destruct (threads s !! t') eqn:E; simpl; [|done]. intros [= <-]. eauto.
Qed.

Lemma swfx_frame x s t f : sched_frame f -> swfx x s -> swfx x (upd_thread t f s).
Proof.
  intros Hf []. constructor; try done.
  - intros l t' Hin. destruct (sw_link0 l t' Hin) as (th & Hth & Hl).
    destruct (Hf th) as (H1 & H2 & H3 & H4). rewrite lookup_upd.
    case_decide; [|by eauto]. rewrite Hth. simpl. eauto using link_ok_frame.
  - intros t' th' (th & Hth & ->)%lookup_upd_inv Hst Hne. destruct (Hf th) as (H1 & H2 & H3 & H4).
    assert (stat_of th = RT_THREAD_READY) as Hst' by (case_decide; congruence).
    pose proof (sw_ready0 t' th Hth Hst' Hne). case_decide; [by rewrite H2|done].
  - intros t' th' (th & Hth & ->)%lookup_upd_inv. destruct (Hf th) as (H1 & H2 & H3 & H4).
    pose proof (sw_prio0 t' th Hth). case_decide; [|done]. eauto using prio_ok_frame.
Qed.

Lemma cur_ok_frame s t f : sched_frame f -> cur_ok s -> cur_ok (upd_thread t f s).
Proof.
  intros Hf [Hc Hr]. constructor.
  - intros t' Ht'. destruct (Hc t' Ht') as (th & Hth & H1 & H2). rewrite lookup_upd, Hth.
    destruct (Hf th) as (E & _ & _).
    case_decide; simpl; eexists; (split; [done|]); rewrite ?E; done.
  - intros t' th' (th & Hth & ->)%lookup_upd_inv Hst. destruct (Hf th) as (E & _ & _).
    apply (Hr t' th); [done|]. case_decide; congruence.
Qed.

Lemma swf_frame s t f : sched_frame f -> swf s -> swf (upd_thread t f s).
Proof. intros Hf [H1 H2]. split; [by apply swfx_frame|by apply cur_ok_frame]. Qed.

Lemma swfx_upd_detached t f s :
  swfx (Some t) s -> (forall th, threads s !! t = Some th -> prio_ok (f th)) ->
  swfx (Some t) (upd_thread t f s).
Proof.
  intros [] Hf. constructor; try done.
  - intros l t' Hin. destruct (decide (t = t')) as [<-|Hne].
    { by apply (sw_fresh0 t eq_refl) in Hin. }
    rewrite lookup_upd_ne by done. eauto.
  - intros t' th' (th & Hth & ->)%lookup_upd_inv Hst Hne.
    rewrite decide_False in * by congruence. eauto.
  - intros t' th' (th & Hth & ->)%lookup_upd_inv. case_decide; subst; eauto.
Qed.

Lemma prio_ok_stat v th : prio_ok th -> number_mask th <> 0 -> prio_ok (with_stat v th).
Proof. intros [H1 [Hi [H2|[H2 _]]]]; [|done]. intros _. split; [done|]. split; [done|]. by left. Qed.

Lemma prio_ok_restat v th : prio_ok th -> number_mask th <> 0 -> prio_ok (restat v th).
Proof. apply prio_ok_stat. Qed.

Lemma prio_ok_mask th : prio_ok th -> stat_of th <> RT_THREAD_INIT -> number_mask th = 2 ^ current_priority th.
Proof. by intros [_ [_ [?|[_ ?]]]]. Qed.

Lemma prio_ok_mask_nz th : prio_ok th -> stat_of th <> RT_THREAD_INIT -> number_mask th <> 0.
Proof.
  intros Hp Hs. rewrite prio_ok_mask by done. destruct Hp as [Hp _].
  assert (0 < 2 ^ current_priority th) by (apply Z.pow_pos_nonneg; lia). lia.
Qed.

Lemma prio_ok_with_priority p th :
  0 <= p < RT_THREAD_PRIORITY_MAX -> prio_ok th -> prio_ok (with_priority p th).
Proof. intros Hp (_ & Hi & _). split; [done|]. split; [done|]. left. by apply shiftl_1_mask. Qed.

(** ** [rt_sched_remove_thread] *)
Lemma threads_remove t s : threads (rt_sched_remove_thread t s) = threads s.
Proof. unfold rt_sched_remove_thread. by case_match. Qed.
Lemma tlists_remove t s : tlists (rt_sched_remove_thread t s) = qunlink t (tlists s).
Proof. unfold rt_sched_remove_thread. by case_match. Qed.
Lemma tlist_remove_eq t s l : tlist (rt_sched_remove_thread t s) l = unlink t (tlist s l).
Proof. unfold tlist. by rewrite tlists_remove, qget_unlink. Qed.
Lemma current_remove t s : rt_current_thread (rt_sched_remove_thread t s) = rt_current_thread s.
Proof. unfold rt_sched_remove_thread. by case_match. Qed.
#[export] Hint Rewrite threads_remove tlists_remove current_remove : rt_rw.

Lemma swfx_remove x t s th :
  swfx x s -> threads s !! t = Some th -> (forall t', x = Some t' -> t' = t) ->
  swfx (Some t) (rt_sched_remove_thread t s).
Proof.
  intros [] Hth Hx.
  assert (Hlinks : forall l t', t' ∈ tlist s l -> t' <> t -> t' ∈ unlink t (tlist s l)).
  { intros l t' Hin Hne. by apply elem_of_unlink. }
  assert (Hrdy : forall p, t ∈ tlist s (LReady p) -> p = current_priority th /\ number_mask th = 2 ^ p).
  { intros p Hin. destruct (sw_link0 _ _ Hin) as (th' & Hth' & Hst & <-).
    simplify_eq. split; [done|]. apply prio_ok_mask; [eauto|]. by rewrite Hst. }
  assert (Hne : forall p, 0 <= p < RT_THREAD_PRIORITY_MAX -> p <> current_priority th ->
            unlink t (tlist s (LReady p)) = tlist s (LReady p)).
  { intros p Hp Hpne. apply unlink_not_in. intros [-> _]%Hrdy. done. }
  assert (Hgrp : let s' := rt_sched_remove_thread t s in
      0 <= rt_thread_ready_priority_group s' < 2 ^ 32 /\
      forall p, 0 <= p < RT_THREAD_PRIORITY_MAX ->
        Z.testbit (rt_thread_ready_priority_group s') p = true <-> unlink t (tlist s (LReady p)) <> []).
  { simpl. unfold rt_sched_remove_thread.
    rewrite (get_thread_lookup _ _ th) by done.
    assert (tlist (tlist_remove t s) (LReady (current_priority th))
            = unlink t (tlist s (LReady (current_priority th)))) as ->
      by (unfold tlist; simpl; by rewrite qget_unlink).
    destruct (sw_prio0 _ _ Hth) as (Hcp & _ & Hmask).
    destruct (unlink t (tlist s (LReady (current_priority th)))) as [|t1 l1] eqn:El; simpl.
    - split; [by apply clear_flag_range|]. intros p Hp.
      destruct Hmask as [->|[-> Hst]].
      + rewrite testbit_clear_pow2 by lia. destruct (decide (p = current_priority th)) as [->|Hpne].
        * rewrite El, bool_decide_true, andb_false_r by done. done.
        * rewrite bool_decide_false, andb_true_r, Hne by done. by apply sw_group0.
      + rewrite clear_flag_0. rewrite unlink_not_in; [by apply sw_group0|].
        intros Hin. destruct (sw_link0 _ _ Hin) as (th' & Hth' & Hst' & _).
        simplify_eq. rewrite Hst in Hst'. done.
    - split; [done|]. intros p Hp. destruct (decide (p = current_priority th)) as [->|Hpne].
      + rewrite El. rewrite sw_group0 by done. split; [done|]. intros _ E. by rewrite E in El.
      + rewrite Hne by done. by apply sw_group0. }
  destruct Hgrp as [Hg1 Hg2]. constructor; rewrite ?threads_remove, ?tlists_remove; try done.
  - by apply qwf_qunlink.
  - intros t' [= <-]. apply qfresh_qunlink.
  - intros l t'. rewrite tlist_remove_eq, elem_of_unlink. intros [_ Hin]. eauto.
  - intros t' th' Hth' Hst Hnt. rewrite tlist_remove_eq. apply Hlinks; [|congruence].
    apply sw_ready0; try done. intros <-. apply Hnt. f_equal. eauto.
  - intros p Hp. rewrite tlist_remove_eq. by apply Hg2.
Qed.

(** ** [rt_sched_insert_thread] *)
Lemma stat_of_ready_restat th : stat_of (restat RT_THREAD_READY th) = RT_THREAD_READY.
Proof. by apply stat_of_restat. Qed.
Lemma stat_of_running_restat th : stat_of (restat RT_THREAD_RUNNING th) = RT_THREAD_RUNNING.
Proof. by apply stat_of_restat. Qed.

(** The position [rt_sched_insert_thread] links the thread at. *)
Definition insert_pos (th : rt_thread) (t : tid) (l : list tid) : list tid :=
  if has_flag (stat th) RT_THREAD_STAT_YIELD_MASK then l ++ [t] else t :: l.

Lemma insert_pos_perm th t l : insert_pos th t l ≡ₚ t :: l.
Proof. unfold insert_pos. case_match; [|done]. by rewrite Permutation_app_comm. Qed.

Lemma has_yield_restat v th :
  Z.land v 8 = 0 -> has_flag (stat (restat v th)) RT_THREAD_STAT_YIELD_MASK
                    = has_flag (stat th) RT_THREAD_STAT_YIELD_MASK.
Proof.
  intros Hv. unfold has_flag, RT_THREAD_STAT_YIELD_MASK, RT_THREAD_STAT_YIELD. simpl.
  by rewrite land_restat_yield.
Qed.

(** What the function does when the thread is not the running one. *)
Lemma insert_thread_eq t s th :
  rt_current_thread s <> Some t -> threads s !! t = Some th ->
  rt_sched_insert_thread t s =
    with_group (Z.lor (rt_thread_ready_priority_group s) (number_mask th))
      (with_tlists (qset (LReady (current_priority th))
                         (insert_pos th t (tlist s (LReady (current_priority th)))) (tlists s))
        (upd_thread t (restat RT_THREAD_READY) s)).
Proof.
  intros Hc Hth. unfold rt_sched_insert_thread. rewrite decide_False by done.
  rewrite (get_thread_lookup _ _ (restat RT_THREAD_READY th)) by by apply lookup_upd_eq.
  rewrite has_yield_restat by done. unfold insert_pos.
  by destruct (has_flag (stat th) RT_THREAD_STAT_YIELD_MASK).
Qed.

Lemma insert_thread_current t s :
  rt_current_thread s = Some t -> rt_sched_insert_thread t s = upd_thread t (restat RT_THREAD_RUNNING) s.
Proof. intros Hc. unfold rt_sched_insert_thread. by rewrite decide_True. Qed.

Lemma swfx_insert t s th :
  swfx (Some t) s -> threads s !! t = Some th -> number_mask th <> 0 ->
  rt_current_thread s <> Some t -> swfx None (rt_sched_insert_thread t s).
Proof.
  intros [] Hth Hm Hc. rewrite (insert_thread_eq _ _ th) by done.
  set (p := current_priority th). set (l' := insert_pos th t (tlist s (LReady p))).
  assert (Hl' : forall t', t' ∈ l' <-> t' = t \/ t' ∈ tlist s (LReady p)).
  { intros t'. unfold l'. rewrite insert_pos_perm. apply elem_of_cons. }
  assert (Hp : 0 <= p < RT_THREAD_PRIORITY_MAX) by (by destruct (sw_prio0 _ _ Hth)).
  assert (Hmask : number_mask th = 2 ^ p) by (destruct (sw_prio0 _ _ Hth) as (_ & _ & [?|[? _]]); done).
  assert (Htl : forall l, tlist (with_group (Z.lor (rt_thread_ready_priority_group s) (number_mask th))
      (with_tlists (qset (LReady p) l' (tlists s)) (upd_thread t (restat RT_THREAD_READY) s))) l
      = if decide (LReady p = l) then l' else tlist s l).
  { intros l. unfold tlist. simpl. by rewrite qget_set. }
  constructor; try done.
  - simpl. apply qwf_insert with t; [done|by apply sw_fresh0|apply insert_pos_perm].
  - intros l t'. rewrite Htl. case_decide; subst.
    + rewrite Hl'. intros [->|Hin].
      * exists (restat RT_THREAD_READY th). split; [by apply lookup_upd_eq|].
        split; [apply stat_of_ready_restat|done].
      * destruct (sw_link0 _ _ Hin) as (th' & Hth' & Hl). exists th'. split; [|done].
        simpl. rewrite lookup_alter_ne; [done|]. intros ->. by apply (sw_fresh0 t' eq_refl (LReady p)).
    + intros Hin. destruct (sw_link0 _ _ Hin) as (th' & Hth' & Hl). exists th'. split; [|done].
      simpl. rewrite lookup_alter_ne; [done|]. intros ->. by apply (sw_fresh0 t' eq_refl l).
  - intros t' th' (th0 & Hth0 & ->)%lookup_upd_inv Hst _. rewrite Htl. destruct (decide (t = t')) as [<-|Hne].
    + simplify_eq. simpl. rewrite decide_True by done. apply Hl'. by left.
    + assert (t' ∈ tlist s (LReady (current_priority th0))) by (apply sw_ready0; congruence).
      case_decide as E; [|done]. injection E as ->. apply Hl'. by right.
  - intros t' th' (th0 & Hth0 & ->)%lookup_upd_inv. case_decide; subst; [|by eauto].
    simplify_eq. apply prio_ok_restat; eauto.
  - simpl. rewrite Hmask. by apply set_pow2_range.
  - intros q Hq. rewrite Htl. simpl. rewrite Hmask, testbit_set_pow2 by lia.
    destruct (decide (q = p)) as [->|Hne].
    + rewrite bool_decide_true, orb_true_r, decide_True by done. split; [|done]. intros _ E.
      assert (t ∈ l') as Hin by (apply Hl'; by left). rewrite E in Hin. by apply not_elem_of_nil in Hin.
    + rewrite bool_decide_false, orb_false_r, decide_False by congruence. by apply sw_group0.
Qed.

Lemma lookup_insert_thread t s t' :
  threads (rt_sched_insert_thread t s) !! t' =
    if decide (t = t') then restat (if decide (rt_current_thread s = Some t) then RT_THREAD_RUNNING
                                    else RT_THREAD_READY) <$> threads s !! t
    else threads s !! t'.
Proof.
  unfold rt_sched_insert_thread. case_decide; [|case_match]; simpl;
    rewrite lookup_alter; case_decide; by subst.
Qed.
Lemma current_insert t s : rt_current_thread (rt_sched_insert_thread t s) = rt_current_thread s.
Proof. unfold rt_sched_insert_thread. case_decide; [done|]. by case_match. Qed.
#[export] Hint Rewrite current_insert : rt_rw.

Lemma cur_ok_insert t s : cur_ok s -> cur_ok (rt_sched_insert_thread t s).
Proof.
  intros [Hc Hr]. constructor.
  - intros t'. rewrite current_insert. intros Ht'. destruct (Hc t' Ht') as (th & Hth & H1 & H2).
    rewrite lookup_insert_thread. destruct (decide (t = t')) as [->|]; [|by eauto].
    rewrite decide_True, Hth by done. simpl. eexists. split; [done|].
    by rewrite stat_of_running_restat.
  - intros t' th'. rewrite current_insert, lookup_insert_thread. case_decide; subst; [|by eauto].
    case_decide; [done|]. destruct (threads s !! t') as [th|]; simpl; [|done].
    intros [= <-]. by rewrite stat_of_ready_restat.
Qed.

(** Making a detached thread runnable again. *)
Lemma swf_insert t s th :
  swfx (Some t) s -> cur_ok s -> threads s !! t = Some th -> number_mask th <> 0 ->
  swf (rt_sched_insert_thread t s).
Proof.
  intros Hs Hc Hth Hm. split; [|by apply cur_ok_insert].
  destruct (decide (rt_current_thread s = Some t)) as [E|E]; [|by eapply swfx_insert].
  rewrite insert_thread_current by done. apply (swfx_attach t).
  - apply swfx_upd_detached; [done|]. intros th' Hth'. simplify_eq.
    apply prio_ok_restat; [|done]. by eapply sw_prio.
  - intros th' (th0 & Hth0 & ->)%lookup_upd_inv. rewrite decide_True by done.
    by rewrite stat_of_running_restat.
Qed.

Lemma cur_ok_same s s' :
  threads s' = threads s -> rt_current_thread s' = rt_current_thread s -> cur_ok s -> cur_ok s'.
Proof. intros E1 E2 [Hc Hr]. constructor; rewrite E1, E2; done. Qed.

(** ** The choice of the next thread *)
Lemma fresh_unlinked x s t th :
  swfx x s -> threads s !! t = Some th -> stat_of th <> RT_THREAD_READY ->
  ~ suspended th -> stat_of th <> RT_THREAD_CLOSE -> qfresh t (tlists s).
Proof.
  intros [] Hth H1 H2 H3 l Hin. destruct (sw_link0 l t Hin) as (th' & Hth' & Hl).
  simplify_eq. destruct l; simpl in Hl; tauto.
Qed.

Lemma running_fresh x s t th :
  swfx x s -> threads s !! t = Some th -> stat_of th = RT_THREAD_RUNNING -> qfresh t (tlists s).
Proof.
  intros Hs Hth Hst. eapply fresh_unlinked; try done; rewrite ?suspended_stat_of, Hst; done.
Qed.

Lemma highest_spec x s :
  swfx x s -> rt_thread_ready_priority_group s <> 0 ->
  exists t hp rest, _scheduler_get_highest_priority_thread s = Some (t, hp) /\
    0 <= hp < RT_THREAD_PRIORITY_MAX /\ tlist s (LReady hp) = (t :: rest) /\
    forall p, 0 <= p < hp -> tlist s (LReady p) = [].
Proof.
  intros [] Hnz. unfold _scheduler_get_highest_priority_thread.
  destruct (rt_ffs_lowest (rt_thread_ready_priority_group s)) as (H0 & H1 & H2); [lia|].
  set (hp := __rt_ffs (rt_thread_ready_priority_group s) - 1) in *.
  assert (Hhp : 0 <= hp < RT_THREAD_PRIORITY_MAX).
  { split; [done|]. unfold RT_THREAD_PRIORITY_MAX.
    destruct (Z.lt_ge_cases hp 32) as [|Hge]; [done|].
    rewrite (testbit_range_high _ 32) in H1; done. }
  apply sw_group0 in H1; [|done].
  destruct (tlist s (LReady hp)) as [|t rest] eqn:E; [done|].
  exists t, hp, rest. split_and!; try done; try lia. intros p Hp.
  destruct (tlist s (LReady p)) eqn:Ep; [done|]. exfalso.
  assert (Z.testbit (rt_thread_ready_priority_group s) p = true) as Hb.
  { apply sw_group0; [lia|]. by rewrite Ep. }
  by rewrite H2 in Hb.
Qed.

Lemma highest_thread s t hp rest :
  swfx None s -> tlist s (LReady hp) = (t :: rest) ->
  exists th, threads s !! t = Some th /\ stat_of th = RT_THREAD_READY /\ current_priority th = hp.
Proof.
  intros [] E. destruct (sw_link0 (LReady hp) t) as (th & Hth & H1 & H2); [rewrite E; left|]. eauto.
Qed.

(** No ready thread is more urgent than the head that is chosen. *)
Lemma ready_prio_bound s hp t th :
  swfx None s -> (forall p, 0 <= p < hp -> tlist s (LReady p) = []) ->
  threads s !! t = Some th -> stat_of th = RT_THREAD_READY -> hp <= current_priority th.
Proof.
  intros [] Hlow Hth Hst. destruct (Z.lt_ge_cases (current_priority th) hp) as [Hlt|]; [|done].
  destruct (sw_prio0 _ _ Hth) as [Hp _].
  assert (t ∈ tlist s (LReady (current_priority th))) as Hin by (by apply sw_ready0).
  rewrite Hlow in Hin by lia. by apply not_elem_of_nil in Hin.
Qed.

(** ** [rt_schedule] *)
Lemma restat_id th : restat (stat_of th) th = th.
Proof.
  unfold restat, stat_of, clear_flag. destruct th as [st]. simpl. unfold with_stat. simpl. f_equal.
  apply Z.bits_inj'. intros i Hi. rewrite Z.lor_spec, !Z.land_spec, Z.lnot_spec by done.
  by destruct (Z.testbit st i), (Z.testbit RT_THREAD_STAT_MASK i).
Qed.

Lemma qunlink_fresh (t : tid) (Q : gmap lid (list tid)) : qfresh t Q -> qunlink t Q = Q.
Proof.
  intros Hf. apply map_eq. intros l. unfold qunlink. rewrite lookup_fmap.
  destruct (Q !! l) as [xs|] eqn:E; [|done]. simpl. f_equal. apply unlink_not_in.
  specialize (Hf l). unfold qget in Hf. by rewrite E in Hf.
Qed.

Lemma clear_flag_unset g p : 0 <= p -> Z.testbit g p = false -> clear_flag g (2 ^ p) = g.
Proof.
  intros Hp Hb. apply Z.bits_inj'. intros i Hi. rewrite testbit_clear_pow2 by done.
  case_bool_decide; subst; [by rewrite Hb|]. by rewrite andb_true_r.
Qed.

Lemma remove_fresh s t th :
  swfx None s -> threads s !! t = Some th -> qfresh t (tlists s) -> rt_sched_remove_thread t s = s.
Proof.
  intros Hs Hth Hf. unfold rt_sched_remove_thread, tlist_remove. rewrite qunlink_fresh by done.
  replace (with_tlists (tlists s) s) with s by (by destruct s).
  rewrite (get_thread_lookup _ _ th) by done.
  destruct (tlist s (LReady (current_priority th))) eqn:E; [|done].
  destruct Hs. destruct (sw_prio0 _ _ Hth) as (Hp & _ & Hm).
  assert (clear_flag (rt_thread_ready_priority_group s) (number_mask th)
          = rt_thread_ready_priority_group s) as ->; [|by destruct s].
  destruct Hm as [->|[-> _]]; [|apply clear_flag_0]. apply clear_flag_unset; [lia|].
  apply not_true_is_false. rewrite sw_group0, E by done. intros Hnn. by apply Hnn.
Qed.

Lemma upd_thread_id t f s th : threads s !! t = Some th -> f th = th -> upd_thread t f s = s.
Proof.
  intros Hth Hf. unfold upd_thread. assert (alter f t (threads s) = threads s) as ->; [|by destruct s].
  apply map_eq. intros t'. rewrite lookup_alter. case_decide; subst; [|done].
  rewrite Hth. simpl. by rewrite Hf.
Qed.

(** The running thread keeps the processor: nothing changes. *)
Lemma rt_schedule_keep s c th :
  swf s -> rt_current_thread s = Some c -> threads s !! c = Some th ->
  stat_of th = RT_THREAD_RUNNING ->
  (forall top hp, _scheduler_get_highest_priority_thread s = Some (top, hp) ->
     rt_thread_ready_priority_group s <> 0 ->
     current_priority th < hp \/
     current_priority th = hp /\ has_flag (stat th) RT_THREAD_STAT_YIELD_MASK = false) ->
  rt_schedule s = s.
Proof.
  intros [Hs Hco] Hc Hth Hst Hk. unfold rt_schedule.
  destruct (rt_scheduler_lock_nest s =? 0); [|done].
  destruct (rt_thread_ready_priority_group s =? 0) eqn:Hg; [done|]. rt_bool. simpl. rewrite Hc.
  destruct (_scheduler_get_highest_priority_thread s) as [[top hp]|] eqn:Hh; [|done].
  rewrite (get_thread_lookup _ _ th) by done.
  assert (schedule_target c th top hp = (c, false)) as ->.
  { unfold schedule_target. rewrite Hst. simpl. destruct (Hk top hp eq_refl Hg) as [Hlt|[Heq Hy]].
    - by rewrite (proj2 (Z.ltb_lt _ _)) by done.
    - rewrite Heq, Z.ltb_irrefl, Z.eqb_refl, Hy. done. }
  rewrite decide_False by auto. rewrite (remove_fresh s c th); [|done..|by eapply running_fresh].
  apply (upd_thread_id _ _ _ th); [done|]. rewrite <- Hst. apply restat_id.
Qed.

(** The state after a switch from [c] to the head [top] of the ring [hp];
    [need] says whether [c] goes back to its ring. *)
Definition switch_state (c top : tid) (hp : Z) (need : bool) (s : sstate) : sstate :=
  let s := with_current top (u8 hp) s in
  let s := if need then rt_sched_insert_thread c s else s in
  let s := if has_flag (stat (get_thread s c)) RT_THREAD_STAT_YIELD_MASK
           then upd_thread c (fun th => with_stat (clear_flag (stat th) RT_THREAD_STAT_YIELD_MASK) th) s
           else s in
  let s := rt_sched_remove_thread top s in
  upd_thread top (restat RT_THREAD_RUNNING) s.

Lemma rt_schedule_switch s c th top hp need :
  swf s -> rt_current_thread s = Some c -> threads s !! c = Some th ->
  rt_scheduler_lock_nest s = 0 -> rt_thread_ready_priority_group s <> 0 ->
  _scheduler_get_highest_priority_thread s = Some (top, hp) ->
  schedule_target c th top hp = (top, need) -> top <> c ->
  rt_schedule s = switch_state c top hp need s.
Proof.
  intros Hs Hc Hth Hl Hg Hh Ht Hne. unfold rt_schedule.
  rewrite Hl, Hc, Hh. simpl. rewrite (proj2 (Z.eqb_neq _ _)) by done. simpl.
  rewrite (get_thread_lookup _ _ th), Ht by done. by rewrite decide_True.
Qed.

(** Which of the two happens. *)
Lemma rt_schedule_cases s c :
  swf s -> rt_current_thread s = Some c ->
  (rt_schedule s = s /\
   (rt_scheduler_lock_nest s = 0 -> rt_thread_ready_priority_group s = 0 \/
      exists th, threads s !! c = Some th /\ stat_of th = RT_THREAD_RUNNING /\
        forall p, 0 <= p < current_priority th -> tlist s (LReady p) = [])) \/
  exists th top hp rest need, threads s !! c = Some th /\ top <> c /\
    rt_scheduler_lock_nest s = 0 /\ tlist s (LReady hp) = (top :: rest) /\
    0 <= hp < RT_THREAD_PRIORITY_MAX /\ (forall p, 0 <= p < hp -> tlist s (LReady p) = []) /\
    (need = true <-> stat_of th = RT_THREAD_RUNNING) /\
    (need = true -> hp <= current_priority th /\ (hp = current_priority th ->
       has_flag (stat th) RT_THREAD_STAT_YIELD_MASK = true)) /\
    rt_schedule s = switch_state c top hp need s.
Proof.
  intros Hs Hc. destruct (co_cur _ (swf_cur _ Hs) c Hc) as (th & Hth & Hnr & Hni).
  destruct (decide (rt_scheduler_lock_nest s = 0)) as [Hl|Hl].
  2:{ left. split; [|done]. unfold rt_schedule. by rewrite (proj2 (Z.eqb_neq _ _)). }
  destruct (decide (rt_thread_ready_priority_group s = 0)) as [Hg|Hg].
  { left. split; [|by left]. unfold rt_schedule. rewrite Hl, Hg. done. }
  destruct (highest_spec None s) as (top & hp & rest & Hh & Hhp & Hr & Hlow); [apply Hs|done|].
  destruct (highest_thread s top hp rest) as (tth & Htop & Htst & Htp); [apply Hs|done|].
  assert (top <> c) as Hne by (intros ->; simplify_eq).
  destruct (schedule_target c th top hp) as [to need] eqn:Et.
  pose proof Et as Et'. unfold schedule_target in Et'.
  destruct (stat_of th =? RT_THREAD_RUNNING) eqn:Est; rt_bool.
  - destruct (current_priority th <? hp) eqn:E1; rt_bool.
    { left. split.
      - apply (rt_schedule_keep s c th); try done. intros top' hp' Hh' _. simplify_eq. by left.
      - intros _. right. exists th. split_and!; [done..|]. intros p Hp'. apply Hlow. lia. }
    destruct ((current_priority th =? hp) && negb (has_flag (stat th) RT_THREAD_STAT_YIELD_MASK)) eqn:E2.
    { rt_bool. left. split.
      - apply (rt_schedule_keep s c th); try done. intros top' hp' Hh' _. simplify_eq. by right.
      - intros _. right. exists th. split_and!; [done..|]. intros p Hp'. apply Hlow. lia. }
    injection Et' as <- <-. right. exists th, top, hp, rest, true.
    split_and!; try done; try (by apply Hhp).
    + intros _. split; [done|]. intros Heq. rewrite Heq, Z.eqb_refl in E2. by apply negb_false_iff in E2.
    + by eapply rt_schedule_switch.
  - injection Et' as <- <-. right. exists th, top, hp, rest, false.
    split_and!; try done; try (by apply Hhp).
    by eapply rt_schedule_switch.
Qed.

(** *** The state after the switch *)
Definition requeue (c : tid) (th : rt_thread) (need : bool) (l : list tid) : list tid :=
  if need then insert_pos th c l else l.

Lemma switch_threads c top hp need s th tth :
  threads s !! c = Some th -> threads s !! top = Some tth -> top <> c ->
  exists th', (forall t, threads (switch_state c top hp need s) !! t =
      if decide (t = top) then Some (restat RT_THREAD_RUNNING tth)
      else if decide (t = c) then Some th' else threads s !! t) /\
    stat_of th' = (if need then RT_THREAD_READY else stat_of th) /\
    current_priority th' = current_priority th /\ th' = with_stat (stat th') th /\
    has_flag (stat th') RT_THREAD_STAT_YIELD_MASK = false.
Proof.
  intros Hc Htop Hne. unfold switch_state.
  set (th1 := if need then restat RT_THREAD_READY th else th).
  set (s2 := if need then rt_sched_insert_thread c (with_current top (u8 hp) s)
             else with_current top (u8 hp) s).
  assert (Hs2 : forall t, threads s2 !! t = if decide (t = c) then Some th1 else threads s !! t).
  { intros t. unfold s2, th1. destruct need; simpl.
    - rewrite lookup_insert_thread. simpl.
      destruct (decide (c = t)) as [<-|]; [|by rewrite decide_False].
      rewrite (decide_True (P := c = c)), Hc by done. rewrite decide_False by congruence. done.
    - case_decide; by subst. }
  rewrite (get_thread_lookup s2 c th1) by (rewrite Hs2; by rewrite decide_True).
  set (th2 := if has_flag (stat th1) RT_THREAD_STAT_YIELD_MASK
              then with_stat (clear_flag (stat th1) RT_THREAD_STAT_YIELD_MASK) th1 else th1).
  exists th2. split_and!.
  - intros t. rewrite lookup_upd, threads_remove.
    assert (E : forall t, threads (if has_flag (stat th1) RT_THREAD_STAT_YIELD_MASK
       then upd_thread c (fun th => with_stat (clear_flag (stat th) RT_THREAD_STAT_YIELD_MASK) th) s2
       else s2) !! t = if decide (t = c) then Some th2 else threads s !! t).
    { intros t'. unfold th2. destruct (has_flag (stat th1) _); [|apply Hs2].
      rewrite lookup_upd, Hs2. destruct (decide (c = t')) as [<-|].
      - rewrite !decide_True by done. reflexivity.
      - rewrite !decide_False by congruence. reflexivity. }
    rewrite !E. destruct (decide (top = t)) as [<-|Ht].
    + rewrite (decide_False (P := top = c)), (decide_True (P := top = top)), Htop by done. reflexivity.
    + by rewrite (decide_False (P := t = top)) by congruence.
  - unfold th2, th1. destruct need; case_match; try done.
    + unfold stat_of. simpl. unfold RT_THREAD_STAT_YIELD_MASK, RT_THREAD_STAT_YIELD, RT_THREAD_STAT_MASK.
      rewrite land_clear_yield. apply stat_of_ready_restat.
    + apply stat_of_ready_restat.
    + apply land_clear_yield.
  - unfold th2, th1. destruct need; by case_match.
  - unfold th2, th1. destruct need; case_match; try done. by destruct th.
  - unfold th2. case_match eqn:E; [|done]. unfold has_flag in *. simpl.
    unfold RT_THREAD_STAT_YIELD_MASK, RT_THREAD_STAT_YIELD, clear_flag.
    by rewrite <- Z.land_assoc, Z.land_0_r.
Qed.

Lemma switch_tlists c top hp need s th l :
  threads s !! c = Some th -> top <> c ->
  tlist (switch_state c top hp need s) l =
    unlink top (if decide (need = true /\ l = LReady (current_priority th))
                then insert_pos th c (tlist s l) else tlist s l).
Proof.
  intros Hc Hne. unfold switch_state, tlist. simpl. rewrite tlists_remove, qget_unlink. f_equal.
  set (s1 := with_current top (u8 hp) s).
  assert (Htl : tlists (if need then rt_sched_insert_thread c s1 else s1) =
    if need then qset (LReady (current_priority th))
      (insert_pos th c (tlist s (LReady (current_priority th)))) (tlists s) else tlists s).
  { destruct need; [|done]. by rewrite (insert_thread_eq _ _ th) by (simpl; congruence). }
  assert (Heq : forall (b : bool) s0, tlists (if b then upd_thread c
      (fun th => with_stat (clear_flag (stat th) RT_THREAD_STAT_YIELD_MASK) th) s0 else s0) = tlists s0)
    by (by intros []). rewrite Heq, Htl.
  destruct need.
  - rewrite qget_set. destruct (decide (LReady (current_priority th) = l)) as [<-|].
    + by rewrite decide_True.
    + rewrite decide_False; [done|]. intros [_ E]. by rewrite E in *.
  - rewrite decide_False; [done|]. by intros [? _].
Qed.

Lemma switch_current c top hp need s :
  rt_current_thread (switch_state c top hp need s) = Some top.
Proof.
  unfold switch_state. simpl. rewrite current_remove.
  repeat case_match; simpl; by rewrite ?current_insert.
Qed.

Lemma swfx_same x s s' :
  threads s' = threads s -> tlists s' = tlists s ->
  rt_thread_ready_priority_group s' = rt_thread_ready_priority_group s -> swfx x s -> swfx x s'.
Proof. intros E1 E2 E3 []. constructor; unfold tlist in *; rewrite ?E1, ?E2, ?E3; done. Qed.

Lemma clear_yield_frame : sched_frame (fun th => with_stat (clear_flag (stat th) RT_THREAD_STAT_YIELD_MASK) th).
Proof. intros th. split; [apply land_clear_yield|done]. Qed.

Lemma swfx_switch s c th top hp rest need :
  swf s -> rt_current_thread s = Some c -> threads s !! c = Some th -> top <> c ->
  tlist s (LReady hp) = (top :: rest) -> (need = true <-> stat_of th = RT_THREAD_RUNNING) ->
  swfx None (switch_state c top hp need s).
Proof.
  intros [Hs Hco] Hc Hth Hne Hr Hneed.
  destruct (highest_thread s top hp rest) as (tth & Htop & Htst & Htp); [done..|].
  unfold switch_state. set (s1 := with_current top (u8 hp) s).
  assert (H1 : swfx None s1) by (by apply (swfx_same _ s)).
  set (s2 := if need then rt_sched_insert_thread c s1 else s1).
  assert (H2 : swfx None s2).
  { unfold s2. destruct need; [|done]. assert (stat_of th = RT_THREAD_RUNNING) as Hst by (by apply Hneed).
    apply (swfx_insert _ _ th).
    - apply swfx_detach; [done|]. by apply (running_fresh None s c th).
    - done.
    - apply prio_ok_mask_nz; [by eapply (sw_prio None s)|by rewrite Hst].
    - simpl. congruence. }
  assert (Ht2 : exists tth', threads s2 !! top = Some tth' /\ tth' = tth).
  { exists tth. split; [|done]. unfold s2. destruct need; [|done].
    rewrite lookup_insert_thread. by rewrite decide_False. }
  clearbody s2. destruct Ht2 as (tth' & Ht2 & ->).
  set (s3 := if has_flag (stat (get_thread s2 c)) RT_THREAD_STAT_YIELD_MASK then _ else s2).
  assert (H3 : swfx None s3).
  { unfold s3. case_match; [|done]. apply swfx_frame; [apply clear_yield_frame|done]. }
  assert (Ht3 : threads s3 !! top = Some tth).
  { unfold s3. case_match; [|done]. by rewrite lookup_upd_ne. }
  clearbody s3. apply (swfx_attach top).
  - apply swfx_upd_detached; [by apply (swfx_remove None _ _ tth)|].
    intros th' Hth'. rewrite threads_remove, Ht3 in Hth'. injection Hth' as <-.
    assert (prio_ok tth) by (by eapply (sw_prio None s)).
    apply prio_ok_restat; [done|]. apply prio_ok_mask_nz; [done|]. by rewrite Htst.
  - intros th' (th0 & _ & ->)%lookup_upd_inv. rewrite decide_True by done.
    by rewrite stat_of_running_restat.
Qed.

Lemma cur_ok_switch s c th top hp rest need :
  swf s -> rt_current_thread s = Some c -> threads s !! c = Some th -> top <> c ->
  tlist s (LReady hp) = (top :: rest) -> (need = true <-> stat_of th = RT_THREAD_RUNNING) ->
  cur_ok (switch_state c top hp need s).
Proof.
  intros [Hs Hco] Hc Hth Hne Hr Hneed.
  destruct (highest_thread s top hp rest) as (tth & Htop & Htst & Htp); [done..|].
  destruct (switch_threads c top hp need s th tth) as (th' & Hthr & Hst & _); [done..|].
  constructor; rewrite switch_current.
  - intros t [= <-]. rewrite Hthr, decide_True by done. eexists. split; [done|].
    by rewrite stat_of_running_restat.
  - intros t x Ht Hx. rewrite Hthr in Ht. f_equal. destruct (decide (t = top)) as [->|]; [done|].
    destruct (decide (t = c)) as [->|Htc]; simplify_eq.
    + destruct need; [by rewrite Hst in Hx|]. assert (false = true) as [=]. apply Hneed. congruence.
    + pose proof (co_running _ Hco t x Ht Hx). congruence.
Qed.

Lemma rt_schedule_swf_lemma s : swf s -> swf (rt_schedule s).
Proof.
  intros Hs. destruct (rt_current_thread s) as [c|] eqn:Hc.
  - destruct (rt_schedule_cases s c Hs Hc) as [[-> _]|(th & top & hp & rest & need & H)]; [done|].
    destruct H as (Hth & Hne & _ & Hr & _ & _ & Hneed & _ & ->).
    split; [by eapply swfx_switch|by eapply cur_ok_switch].
  - unfold rt_schedule. rewrite Hc. by repeat case_match.
Qed.
#[export] Hint Resolve rt_schedule_swf_lemma : rt.

Lemma rt_sched_unlock_n_resched_swf s : swf s -> swf (rt_sched_unlock_n_resched s).
Proof. unfold rt_sched_unlock_n_resched. case_match; eauto with rt. Qed.
#[export] Hint Resolve rt_sched_unlock_n_resched_swf : rt.

(** ** The other operations preserve the invariant *)
Lemma swf_same s s' :
  threads s' = threads s -> tlists s' = tlists s ->
  rt_thread_ready_priority_group s' = rt_thread_ready_priority_group s ->
  rt_current_thread s' = rt_current_thread s -> swf s -> swf s'.
Proof. intros ? ? ? ? []. split; [by apply (swfx_same _ s)|by apply (cur_ok_same s)]. Qed.

Lemma set_yield_frame : sched_frame (fun th => with_stat (set_flag (stat th) RT_THREAD_STAT_YIELD) th).
Proof. intros th. split; [apply land_set_yield|done]. Qed.

Lemma yield_swf t s : swf s -> swf (rt_sched_thread_yield t s).
Proof.
  intros Hs. unfold rt_sched_thread_yield. apply swf_frame; [apply set_yield_frame|].
  by apply swf_frame.
Qed.
#[export] Hint Resolve yield_swf : rt.

Lemma exit_critical_swf s : swf s -> swf (rt_exit_critical s).
Proof.
  intros Hs. unfold rt_exit_critical. simpl. repeat case_match; try apply rt_schedule_swf_lemma;
    by apply (swf_same s).
Qed.
Lemma enter_critical_swf s : swf s -> swf (rt_enter_critical s).1.
Proof. intros Hs. by apply (swf_same s). Qed.
#[export] Hint Resolve exit_critical_swf enter_critical_swf : rt.

Lemma tick_increase_swf s : swf s -> swf (rt_sched_tick_increase s).
Proof.
  intros Hs. unfold rt_sched_tick_increase. destruct (rt_thread_self s) as [t|]; [|done].
  assert (H1 : swf (upd_thread t (fun th => with_remaining_tick (u32 (remaining_tick th - 1)) th) s))
    by (by apply swf_frame).
  case_match; [done|]. by apply rt_sched_unlock_n_resched_swf, yield_swf.
Qed.
#[export] Hint Resolve tick_increase_swf : rt.

(** An update of a thread that is not ready and keeps its state. *)
Lemma swfx_upd_not_ready x t f s :
  swfx x s ->
  (forall th, threads s !! t = Some th ->
     stat_of th <> RT_THREAD_READY /\ stat_of (f th) = stat_of th /\ prio_ok (f th)) ->
  swfx x (upd_thread t f s).
Proof.
  intros [] Hf. constructor; try done.
  - intros l t' Hin. destruct (sw_link0 l t' Hin) as (th & Hth & Hl). rewrite lookup_upd, Hth.
    case_decide; subst; [|by eauto]. simpl. eexists. split; [done|].
    destruct (Hf th Hth) as (Hnr & E & _). revert Hl.
    destruct l; simpl; rewrite ?suspended_stat_of, ?E; tauto.
  - intros t' th' (th & Hth & ->)%lookup_upd_inv Hst Hne. case_decide; subst; [|by eauto].
    destruct (Hf th Hth) as (Hnr & E & _). congruence.
  - intros t' th' (th & Hth & ->)%lookup_upd_inv. case_decide; subst; [|by eauto]. by apply Hf.
Qed.

Lemma cur_ok_upd t f s :
  cur_ok s -> (forall th, threads s !! t = Some th -> stat_of (f th) = stat_of th) -> cur_ok (upd_thread t f s).
Proof.
  intros [Hc Hr] Hf. constructor.
  - intros t' Ht'. destruct (Hc t' Ht') as (th & Hth & H1 & H2). rewrite lookup_upd, Hth.
    case_decide; subst; simpl; eexists; (split; [done|]); [|done]. by rewrite (Hf th).
  - intros t' th' (th & Hth & ->)%lookup_upd_inv Hst. apply (Hr t' th Hth).
    case_decide; subst; [|done]. by rewrite (Hf th) in Hst.
Qed.

(** A status change of a thread that is not and does not become the running one. *)
Lemma cur_ok_not_current t f s :
  cur_ok s -> rt_current_thread s <> Some t ->
  (forall th, threads s !! t = Some th -> stat_of (f th) <> RT_THREAD_RUNNING) -> cur_ok (upd_thread t f s).
Proof.
  intros [Hc Hr] Hne Hf. constructor.
  - intros t' Ht'. destruct (Hc t' Ht') as (th & Hth & H1 & H2).
    rewrite lookup_upd_ne by (intros ->; done). eauto.
  - intros t' th' (th & Hth & ->)%lookup_upd_inv Hst. apply (Hr t' th Hth).
    case_decide; subst; [|done]. by apply Hf in Hst.
Qed.

Lemma ready_not_current s t th :
  cur_ok s -> threads s !! t = Some th -> stat_of th = RT_THREAD_READY -> rt_current_thread s <> Some t.
Proof. intros [Hc _] Hth Hst Hcur. destruct (Hc t Hcur) as (th' & ? & ? & _). congruence. Qed.

(** Changing the priority moves a ready thread to the front of its new ring. *)
Lemma change_priority_swf t p s th :
  swf s -> threads s !! t = Some th -> 0 <= p < RT_THREAD_PRIORITY_MAX ->
  swf (rt_sched_thread_change_priority t p s).
Proof.
  intros [Hs Hco] Hth Hp. unfold rt_sched_thread_change_priority.
  rewrite (get_thread_lookup _ _ th) by done.
  assert (Hpok : prio_ok th) by (by eapply (sw_prio None s)).
  destruct (stat_of th =? RT_THREAD_READY) eqn:Hst; rt_bool.
  - pose proof (ready_not_current _ _ _ Hco Hth Hst) as Hnc.
    set (s1 := rt_sched_remove_thread t s).
    assert (Hth1 : threads s1 !! t = Some th) by (unfold s1; by rewrite threads_remove).
    assert (Hc1 : rt_current_thread s1 = rt_current_thread s) by apply current_remove.
    assert (Hco1 : cur_ok s1) by (apply (cur_ok_same s); [apply threads_remove|done|done]).
    set (s2 := upd_thread t (with_priority p) s1).
    set (s3 := upd_thread t (with_stat RT_THREAD_INIT) s2).
    assert (Hth3 : threads s3 !! t = Some (with_stat RT_THREAD_INIT (with_priority p th))).
    { unfold s3, s2. erewrite lookup_upd_eq; [done|]. by apply lookup_upd_eq. }
    eapply swf_insert; [| |apply Hth3|].
    + apply swfx_upd_detached.
      * apply swfx_upd_detached; [by apply (swfx_remove None _ _ th)|].
        intros th' Hth'. simplify_eq. by apply prio_ok_with_priority.
      * intros th0 Hth0. unfold s2 in Hth0. rewrite (lookup_upd_eq _ _ _ _ Hth1) in Hth0. injection Hth0 as <-.
        apply prio_ok_stat; [by apply prio_ok_with_priority|]. simpl. rewrite shiftl_1_mask by done.
        assert (0 < 2 ^ p) by (apply Z.pow_pos_nonneg; lia). lia.
    + apply cur_ok_not_current; [|simpl; by rewrite Hc1|done].
      by apply cur_ok_upd.
    + simpl. rewrite shiftl_1_mask by done. assert (0 < 2 ^ p) by (apply Z.pow_pos_nonneg; lia). lia.
  - split.
    + apply swfx_upd_not_ready; [done|]. intros th' Hth'. simplify_eq.
      split; [done|]. split; [done|]. by apply prio_ok_with_priority.
    + by apply cur_ok_upd.
Qed.

(** ** Initialisation and start *)
Lemma startup_swf t s th :
  swf s -> threads s !! t = Some th -> stat_of th = RT_THREAD_INIT ->
  swf (rt_sched_thread_startup t s).
Proof.
  intros [Hs Hco] Hth Hst. unfold rt_sched_thread_startup.
  assert (Hf : qfresh t (tlists s)).
  { eapply fresh_unlinked; try done; rewrite ?suspended_stat_of, Hst; done. }
  assert (Hp : prio_ok th) by (by eapply (sw_prio None s)).
  assert (Hnc : rt_current_thread s <> Some t).
  { intros Hcur. destruct (co_cur _ Hco t Hcur) as (th' & ? & _ & ?). congruence. }
  split.
  - apply (swfx_attach t).
    + apply swfx_upd_detached; [apply swfx_upd_detached; [by apply swfx_detach|]|].
      * intros th' Hth'. simplify_eq. split; [apply Hp|]. split; [apply Hp|]. left. apply shiftl_1_mask, Hp.
      * intros th' (th0 & Hth0 & ->)%lookup_upd_inv. simplify_eq. rewrite decide_True by done.
        split; [apply Hp|]. split; [apply Hp|]. left. apply shiftl_1_mask, Hp.
    + intros th' (th0 & _ & ->)%lookup_upd_inv. by rewrite decide_True.
  - apply cur_ok_not_current; [|done|done]. by apply cur_ok_upd.
Qed.

(** When the head of the lowest non-empty ring takes the processor. *)
Lemma rt_schedule_to s c th top hp rest :
  swf s -> rt_current_thread s = Some c -> threads s !! c = Some th ->
  rt_scheduler_lock_nest s = 0 -> 0 <= hp < RT_THREAD_PRIORITY_MAX ->
  tlist s (LReady hp) = (top :: rest) -> (forall p, 0 <= p < hp -> tlist s (LReady p) = []) ->
  (stat_of th = RT_THREAD_RUNNING -> hp < current_priority th \/
     hp = current_priority th /\ has_flag (stat th) RT_THREAD_STAT_YIELD_MASK = true) ->
  top <> c /\ rt_schedule s = switch_state c top hp (stat_of th =? RT_THREAD_RUNNING) s.
Proof.
  intros Hs Hc Hth Hl Hhp Hr Hlow Hk.
  assert (Hg : rt_thread_ready_priority_group s <> 0).
  { intros Hg. pose proof (proj2 (sw_group _ _ (swf_core _ Hs) hp Hhp)) as Hb.
    rewrite Hr, Hg, Z.bits_0 in Hb. by discriminate Hb. }
  destruct (highest_spec None s) as (top' & hp' & rest' & Hh & Hhp' & Hr' & Hlow'); [apply Hs|done|].
  assert (hp' = hp) as ->.
  { destruct (Z.lt_trichotomy hp hp') as [Hlt|[?|Hlt]]; [|done|].
    - rewrite Hlow' in Hr by lia. done.
    - rewrite Hlow in Hr' by lia. done. }
  rewrite Hr in Hr'. injection Hr' as <- <-.
  destruct (highest_thread s top hp rest) as (tth & Htop & Htst & Htp); [apply Hs|done|].
  destruct (co_cur _ (swf_cur _ Hs) c Hc) as (th' & Hth' & Hnr & _).
  assert (top <> c) as Hne by (intros ->; congruence). split; [done|].
  apply (rt_schedule_switch s c th); try done. unfold schedule_target.
  destruct (stat_of th =? RT_THREAD_RUNNING) eqn:Est; [|done]. rt_bool.
  destruct (Hk Est) as [Hlt|[Heq Hy]].
  - rewrite (proj2 (Z.ltb_ge _ _)) by lia. rewrite (proj2 (Z.eqb_neq _ _)) by lia. done.
  - rewrite Heq, Z.ltb_irrefl, Z.eqb_refl, Hy. done.
Qed.

(** The rings after the switch. *)
Lemma switch_ring_top s c th top hp rest need :
  swf s -> threads s !! c = Some th -> top <> c -> tlist s (LReady hp) = (top :: rest) ->
  (need = true -> hp <> current_priority th) ->
  tlist (switch_state c top hp need s) (LReady hp) = rest.
Proof.
  intros Hs Hth Hne Hr Hp. rewrite (switch_tlists _ _ _ _ _ th) by done. rewrite decide_False, Hr.
  - apply unlink_head. pose proof (qwf_nodup _ (sw_q _ _ (swf_core _ Hs)) (LReady hp)) as Hnd.
    unfold tlist in Hr. rewrite Hr in Hnd. by apply NoDup_cons in Hnd as [? _].
  - intros [Hn E]. injection E as E. by apply Hp.
Qed.

Lemma switch_ring_other s c th top hp rest need l :
  swf s -> threads s !! c = Some th -> top <> c -> tlist s (LReady hp) = (top :: rest) ->
  l <> LReady hp ->
  tlist (switch_state c top hp need s) l =
    if decide (need = true /\ l = LReady (current_priority th)) then insert_pos th c (tlist s l)
    else tlist s l.
Proof.
  intros Hs Hth Hne Hr Hl. rewrite (switch_tlists _ _ _ _ _ th) by done.
  assert (top ∉ tlist s l) as Hni.
  { intros Hin. apply Hl, (qwf_uniq _ (sw_q _ _ (swf_core _ Hs)) _ _ top); [done|].
    change (qget (tlists s) (LReady hp)) with (tlist s (LReady hp)). rewrite Hr. left. }
  apply unlink_not_in. case_decide; [|done]. rewrite insert_pos_perm. set_solver.
Qed.
