(* ===== verification/SchedProps.v ===== *)
(** * Scheduler: properties *)
From S2P Require Import Prelude Queue Ffs Sched SchedFacts.

(** A concrete system for the witnesses: thread 0 runs at priority 5, threads 1
    and 2 are ready at priority 5, thread 3 is ready at priority 9, thread 4 is
    suspended. *)
Definition demo_thread (st p : Z) : rt_thread :=
  Thread st false 10 10 p p (2 ^ p) 0 None 0 0.
Definition demo : sstate := SState
  (list_to_map [(0%nat, demo_thread 3 5); (1%nat, demo_thread 2 5); (2%nat, demo_thread 2 5);
                (3%nat, demo_thread 2 9); (4%nat, demo_thread 4 2)])
  (list_to_map [(LReady 5, [1%nat; 2%nat]); (LReady 9, [3%nat]); (LSusp (OSem 0), [4%nat])])
  (2 ^ 5 + 2 ^ 9) (Some 0%nat) 5 0 0.

(** The invariant is decided by evaluating it on a finite state. *)
Definition all_lids (s : sstate) : list lid := (map_to_list (tlists s)).*1.
Definition link_okb (l : lid) (th : rt_thread) : bool :=
  match l with
  | LReady p => (stat_of th =? RT_THREAD_READY) && (current_priority th =? p)
  | LSusp _ | LSend _ => Z.land (stat th) RT_THREAD_SUSPEND_MASK =? RT_THREAD_SUSPEND_MASK
  | LDefunct => stat_of th =? RT_THREAD_CLOSE
  end.
Definition prio_okb (th : rt_thread) : bool :=
  (0 <=? current_priority th) && (current_priority th <? RT_THREAD_PRIORITY_MAX) &&
  ((0 <=? init_priority th) && (init_priority th <? RT_THREAD_PRIORITY_MAX)) &&
  ((number_mask th =? 2 ^ current_priority th)
   || ((number_mask th =? 0) && (stat_of th =? RT_THREAD_INIT))).
Arguments prio_okb : simpl never.
Arguments link_okb : simpl never.
Definition swfb (s : sstate) : bool :=
  let all := concat (snd <$> map_to_list (tlists s)) in
  let group := rt_thread_ready_priority_group s in
  bool_decide (NoDup all) &&
  forallb (fun '(l, ts) => forallb (fun t =>
     match threads s !! t with Some th => link_okb l th | None => false end) ts) (map_to_list (tlists s)) &&
  forallb (fun '(t, th) => prio_okb th &&
     (negb (stat_of th =? RT_THREAD_READY)
      || bool_decide (t ∈ tlist s (LReady (current_priority th)))) &&
     (negb (stat_of th =? RT_THREAD_RUNNING)
      || bool_decide (rt_current_thread s = Some t))) (map_to_list (threads s)) &&
  (0 <=? group) && (group <? 2 ^ 32) &&
  forallb (fun n => Bool.eqb (Z.testbit group (Z.of_nat n))
     (negb (bool_decide (tlist s (LReady (Z.of_nat n)) = [])))) (seq 0 32) &&
  match rt_current_thread s with
  | None => true
  | Some t => match threads s !! t with
              | None => false
              | Some th => negb (stat_of th =? RT_THREAD_READY) && negb (stat_of th =? RT_THREAD_INIT)
              end
  end.

Lemma link_okb_spec l th : link_okb l th = true -> link_ok l th.
Proof. unfold link_okb. destruct l; simpl; rewrite ?andb_true_iff, ?Z.eqb_eq; done. Qed.

Lemma prio_okb_spec th : prio_okb th = true -> prio_ok th.
Proof.
  unfold prio_okb, prio_ok. rewrite !andb_true_iff, orb_true_iff, andb_true_iff.
  rewrite !Z.eqb_eq, !Z.leb_le, !Z.ltb_lt. tauto.
Qed.

Lemma elem_of_tlist s l t :
  t ∈ tlist s l -> exists ts, (l, ts) ∈ map_to_list (tlists s) /\ t ∈ ts /\ tlist s l = ts.
Proof.
  unfold tlist, qget. destruct (tlists s !! l) as [ts|] eqn:E; simpl.
  - intros Hin. exists ts. split; [by apply elem_of_map_to_list|done].
  - intros Hin. by apply not_elem_of_nil in Hin.
Qed.

Lemma swfb_spec s : swfb s = true -> swf s.
Proof.
  unfold swfb. rewrite !andb_true_iff, !bool_decide_eq_true, Z.leb_le, Z.ltb_lt, !forallb_forall.
  intros [[[[[[Hq Hl] Ht] Hg0] Hg1] Hg] Hc].
  assert (Hthr : forall t th, threads s !! t = Some th -> In (t, th) (map_to_list (threads s))).
  { intros t th H. by apply list_elem_of_In, elem_of_map_to_list. }
  split; constructor; try done.
  - by apply NoDup_concat_qwf.
  - intros l t Hin. destruct (elem_of_tlist s l t Hin) as (ts & M & T & _).
    apply list_elem_of_In in M, T. specialize (Hl _ M). simpl in Hl.
    rewrite forallb_forall in Hl. specialize (Hl _ T).
    destruct (threads s !! t) as [th|]; [|done]. eauto using link_okb_spec.
  - intros t th H Hst _. specialize (Ht _ (Hthr _ _ H)). simpl in Ht.
    rewrite Hst in Ht. rewrite !andb_true_iff in Ht. destruct Ht as [[_ Ht] _].
    simpl in Ht. by apply bool_decide_eq_true in Ht.
  - intros t th H. specialize (Ht _ (Hthr _ _ H)). simpl in Ht. rewrite !andb_true_iff in Ht.
    by apply prio_okb_spec, Ht.
  - intros p Hp. specialize (Hg (Z.to_nat p)). rewrite Z2Nat.id in Hg by lia.
    rewrite eqb_true_iff in Hg. rewrite Hg by (apply in_seq; unfold RT_THREAD_PRIORITY_MAX in Hp; lia).
    by rewrite negb_true_iff, bool_decide_eq_false.
  - intros t Hcur. rewrite Hcur in Hc. destruct (threads s !! t) as [th|]; [|done].
    rewrite andb_true_iff, !negb_true_iff, !Z.eqb_neq in Hc. eauto.
  - intros t th H Hst. specialize (Ht _ (Hthr _ _ H)). simpl in Ht.
    rewrite Hst in Ht. rewrite !andb_true_iff in Ht. destruct Ht as [_ Ht].
    simpl in Ht. by apply bool_decide_eq_true in Ht.
Qed.

Lemma demo_swf : swf demo.
Proof. apply swfb_spec. vm_compute. reflexivity. Qed.

(** ** Properties *)

(** C6: [rt_schedule] called with the scheduler unlocked keeps the scheduler's
    invariant and leaves as the current thread a RUNNING one such that no ready
    thread has a numerically smaller (more urgent) priority. *)
Theorem rt_schedule_runs_highest (s : sstate) (c : tid) (th : rt_thread) :
  swf s -> rt_current_thread s = Some c -> threads s !! c = Some th ->
  rt_scheduler_lock_nest s = 0 ->
  stat_of th = RT_THREAD_RUNNING \/ rt_thread_ready_priority_group s <> 0 ->
  let s' := rt_schedule s in
  swf s' /\ exists c' th', rt_current_thread s' = Some c' /\ threads s' !! c' = Some th' /\
    stat_of th' = RT_THREAD_RUNNING /\
    forall t x, threads s' !! t = Some x -> stat_of x = RT_THREAD_READY ->
      current_priority th' <= current_priority x.
Proof.
  intros Hs Hc Hth Hl Hor. simpl. split; [by apply rt_schedule_swf_lemma|].
  destruct (rt_schedule_cases s c Hs Hc) as [[-> Hk]|(th0 & top & hp & rest & need & H)].
  - destruct (Hk Hl) as [Hg|(th' & Hth' & Hst & Hlow)].
    + destruct Hor as [Hst|]; [|done]. exists c, th. split_and!; try done.
      intros t x Hx Hxst. exfalso. pose proof (sw_ready _ _ (swf_core _ Hs) t x Hx Hxst) as Hin.
      assert (tlist s (LReady (current_priority x)) = []) as E; [|rewrite E in Hin; by apply not_elem_of_nil in Hin; eauto].
      destruct (tlist s (LReady (current_priority x))) eqn:E; [done|].
      destruct (sw_prio _ _ (swf_core _ Hs) t x Hx) as [Hp _].
      pose proof (proj2 (sw_group _ _ (swf_core _ Hs) _ Hp)) as Hb.
      rewrite Hg, Z.bits_0, E in Hb. by discriminate Hb.
    + exists c, th'. split_and!; try done. intros t x Hx Hxst.
      eapply ready_prio_bound; [apply Hs|done..].
  - destruct H as (Hth0 & Hne & _ & Hr & Hhp & Hlow & Hneed & Hneed2 & ->). assert (th0 = th) as -> by congruence.
    destruct (highest_thread s top hp rest) as (tth & Htop & Htst & Htp); [apply Hs|done|].
    destruct (switch_threads c top hp need s th tth) as (th' & Hthr & Hst & Hp & _); [done..|].
    exists top, (restat RT_THREAD_RUNNING tth). rewrite switch_current, Hthr, decide_True by done.
    split_and!; try done; [apply stat_of_running_restat|].
    intros t x Hx Hxst. rewrite Hthr in Hx. simpl. rewrite Htp.
    destruct (decide (t = top)) as [->|]; simplify_eq.
    { by rewrite stat_of_running_restat in Hxst. }
    destruct (decide (t = c)) as [->|]; simplify_eq.
    + rewrite Hst in Hxst. destruct need; [by rewrite Hp; apply Hneed2|].
      pose proof (co_cur _ (swf_cur _ Hs) c Hc) as (y & Hy & Hny & _). congruence.
    + eapply ready_prio_bound; [apply Hs|done..].
Qed.

Lemma rt_schedule_runs_highest_witness :
  swf demo /\ exists c' th', rt_current_thread (rt_schedule demo) = Some c' /\
    threads (rt_schedule demo) !! c' = Some th' /\ stat_of th' = RT_THREAD_RUNNING.
Proof.
  split; [exact demo_swf|].
  destruct (rt_schedule_runs_highest demo 0%nat (demo_thread 3 5)) as [_ (c' & th' & H1 & H2 & H3 & _)];
    [exact demo_swf|reflexivity|reflexivity|reflexivity|left; reflexivity|].
  by exists c', th'.
Defined.

(** A running thread without the yield mark that is preempted by a more
    urgent ready thread goes to the front of the ring of its own priority, the
    preempting thread leaves the front of its ring, and no other ring changes. *)
Theorem rt_schedule_preemption (s : sstate) (c top : tid) (th : rt_thread) (hp : Z) (rest : list tid) :
  swf s -> rt_current_thread s = Some c -> threads s !! c = Some th ->
  rt_scheduler_lock_nest s = 0 -> stat_of th = RT_THREAD_RUNNING ->
  has_flag (stat th) RT_THREAD_STAT_YIELD_MASK = false ->
  0 <= hp < current_priority th -> tlist s (LReady hp) = (top :: rest) ->
  (forall p, 0 <= p < hp -> tlist s (LReady p) = []) ->
  let s' := rt_schedule s in
  rt_current_thread s' = Some top /\
  rt_sched_thread_get_stat s' c = RT_THREAD_READY /\
  tlist s' (LReady (current_priority th)) = (c :: tlist s (LReady (current_priority th))) /\
  tlist s' (LReady hp) = rest /\
  forall l, l <> LReady hp -> l <> LReady (current_priority th) -> tlist s' l = tlist s l.
Proof.
  intros Hs Hc Hth Hl Hst Hy Hhp Hr Hlow. simpl.
  destruct (sw_prio _ _ (swf_core _ Hs) c th Hth) as [Hp _].
  destruct (rt_schedule_to s c th top hp rest) as [Hne ->]; try done; [lia|by left; lia|].
  rewrite Hst. change (RT_THREAD_RUNNING =? RT_THREAD_RUNNING) with true.
  destruct (highest_thread s top hp rest) as (tth & Htop & _); [apply Hs|done|].
  destruct (switch_threads c top hp true s th tth) as (th' & Hthr & Hst' & _); [done..|].
  assert (Hpos : forall l, insert_pos th c l = c :: l) by (unfold insert_pos; by rewrite Hy).
  split_and!.
  - by rewrite switch_current.
  - unfold rt_sched_thread_get_stat. rewrite (get_thread_lookup _ _ th'); [done|].
    by rewrite Hthr, decide_False, decide_True.
  - erewrite switch_ring_other; try done; [|intros [=]; lia]. by rewrite decide_True, Hpos.
  - eapply switch_ring_top; try done. intros _. lia.
  - intros l H1 H2. erewrite switch_ring_other; try done. rewrite decide_False; [done|]. tauto.
Qed.

Definition demo_preempt : sstate :=
  with_group (2 ^ 2 + 2 ^ 5) (with_tlists (list_to_map [(LReady 2, [4%nat]); (LReady 5, [1%nat])])
    (with_threads (list_to_map [(0%nat, demo_thread 3 5); (1%nat, demo_thread 2 5);
                                (4%nat, demo_thread 2 2)]) demo)).

Lemma rt_schedule_preemption_witness :
  rt_current_thread (rt_schedule demo_preempt) = Some 4%nat /\
  tlist (rt_schedule demo_preempt) (LReady 5) = [0%nat; 1%nat].
Proof.
  destruct (rt_schedule_preemption demo_preempt 0 4 (demo_thread 3 5) 2 []) as (H1 & _ & H3 & _);
    [apply swfb_spec; vm_compute; reflexivity|reflexivity..|cbn; lia|reflexivity| |by split].
  intros p Hp. assert (p = 0 \/ p = 1) as [-> | ->] by lia; reflexivity.
Defined.

(** C7: yielding is round robin: the running thread goes to the back of the ring
    of its priority with a fresh time slice, and the thread at the front of the
    ring runs. *)
Theorem rt_thread_yield_round_robin (s : sstate) (c n : tid) (th : rt_thread) (rest : list tid) :
  swf s -> rt_current_thread s = Some c -> threads s !! c = Some th ->
  rt_scheduler_lock_nest s = 0 -> stat_of th = RT_THREAD_RUNNING ->
  tlist s (LReady (current_priority th)) = (n :: rest) ->
  (forall p, 0 <= p < current_priority th -> tlist s (LReady p) = []) ->
  let '(s', err) := rt_thread_yield s in
  err = RT_EOK /\ swf s' /\ rt_current_thread s' = Some n /\
  tlist s' (LReady (current_priority th)) = rest ++ [c] /\
  remaining_tick (get_thread s' c) = init_tick th /\
  has_flag (stat (get_thread s' c)) RT_THREAD_STAT_YIELD_MASK = false /\
  forall l, l <> LReady (current_priority th) -> tlist s' l = tlist s l.
Proof.
  intros Hs Hc Hth Hl Hst Hr Hlow. unfold rt_thread_yield, rt_thread_self. rewrite Hc. simpl.
  set (s1 := rt_sched_thread_yield c s).
  assert (Hs1 : swf s1) by by apply yield_swf.
  set (th1 := with_stat (set_flag (stat th) RT_THREAD_STAT_YIELD) (with_remaining_tick (init_tick th) th)).
  assert (Hth1 : threads s1 !! c = Some th1).
  { unfold s1, rt_sched_thread_yield.
    rewrite (lookup_upd_eq _ _ _ (with_remaining_tick (init_tick th) th)); [done|].
    by rewrite (lookup_upd_eq _ _ _ th). }
  assert (Hst1 : stat_of th1 = RT_THREAD_RUNNING) by (rewrite <- Hst; apply land_set_yield).
  assert (Hy1 : has_flag (stat th1) RT_THREAD_STAT_YIELD_MASK = true) by apply has_flag_set_yield.
  destruct (sw_prio _ _ (swf_core _ Hs) c th Hth) as [Hp _].
  unfold rt_sched_unlock_n_resched, rt_thread_self. change (rt_current_thread s1) with (rt_current_thread s).
  rewrite Hc. split; [done|]. split; [by apply rt_schedule_swf_lemma|].
  destruct (rt_schedule_to s1 c th1 n (current_priority th) rest) as [Hne ->]; try done; [by right|].
  rewrite Hst1. change (RT_THREAD_RUNNING =? RT_THREAD_RUNNING) with true.
  destruct (highest_thread s1 n (current_priority th) rest) as (nth & Hn & _); [apply Hs1|done|].
  destruct (switch_threads c n (current_priority th) true s1 th1 nth) as (th' & Hthr & _ & _ & Heq & Hy');
    [done..|].
  assert (Hget : get_thread (switch_state c n (current_priority th) true s1) c = th').
  { apply get_thread_lookup. by rewrite Hthr, decide_False, decide_True. }
  rewrite Hget. split_and!; [apply switch_current| |by rewrite Heq|done|].
  - rewrite (switch_tlists _ _ _ _ _ th1), decide_True by done. unfold insert_pos. rewrite Hy1.
    change (tlist s1) with (tlist s). rewrite Hr. simpl. rewrite unlink_cons_eq.
    apply unlink_not_in. pose proof (qwf_nodup _ (sw_q _ _ (swf_core _ Hs)) (LReady (current_priority th))) as Hnd.
    change (qget (tlists s) (LReady (current_priority th)))
      with (tlist s (LReady (current_priority th))) in Hnd.
    rewrite Hr in Hnd. apply NoDup_cons in Hnd as [Hni _].
    intros [Hin|Hin%list_elem_of_singleton]%elem_of_app; [done|by subst].
  - intros l Hne'. rewrite (switch_ring_other _ _ th1 _ _ rest) by done.
    rewrite decide_False; [done|]. simpl. tauto.
Qed.

Lemma rt_thread_yield_round_robin_witness :
  tlist (rt_thread_yield demo).1 (LReady 5) = [2%nat; 0%nat] /\
  rt_current_thread (rt_thread_yield demo).1 = Some 1%nat.
Proof.
  destruct (rt_thread_yield_round_robin demo 0 1 (demo_thread 3 5) [2%nat]) as (_ & _ & H1 & H2 & _);
    [exact demo_swf|reflexivity..| |by split].
  intros p Hp. unfold demo_thread in Hp. simpl in Hp.
  assert (p = 0 \/ p = 1 \/ p = 2 \/ p = 3 \/ p = 4) as [-> | [-> | [-> | [-> | ->]]]] by lia; reflexivity.
Defined.
