(* ===== verification/TimerCore.v ===== *)
(** * Timers: the timer lists

    The static functions of [src/rt-thread/src/timer.c] and the operations that
    touch nothing but timers.  [RT_TIMER_SKIP_LIST_LEVEL] is 1, as in
    [src/rtconfig.h], so a timer list is one ring sorted by expiry and the
    second insertion loop of [_timer_start] (levels 2 and up) runs zero times.
    Ticks are 32-bit; expiries are compared through their wrapped difference. *)
From S2P Require Import Prelude Queue Sched.

Definition RT_TICK_MAX : Z := 0xffffffff.
Definition TICK_HALF : Z := RT_TICK_MAX / 2.

Definition RT_TIMER_FLAG_DEACTIVATED : Z := 0x0.
Definition RT_TIMER_FLAG_ACTIVATED : Z := 0x1.
Definition RT_TIMER_FLAG_PROCESSING : Z := 0x2.
Definition RT_TIMER_FLAG_ONE_SHOT : Z := 0x0.
Definition RT_TIMER_FLAG_PERIODIC : Z := 0x4.
Definition RT_TIMER_FLAG_SOFT_TIMER : Z := 0x8.
Definition RT_TIMER_FLAG_THREAD_TIMER : Z := 0x10.

(** ** State *)

(** A timer is the one built into a thread or an object of its own. *)
Inductive tmid := TmThread (t : tid) | TmObj (n : nat).
(** [_timer_list], [_soft_timer_list] and the local lists of [rt_timer_check] and
    [_soft_timer_check]. *)
Inductive tlid := THard | TSoft | THardTmp | TSoftTmp.

#[export] Instance tmid_eq_dec : EqDecision tmid.
Proof. solve_decision. Defined.
#[export] Instance tmid_countable : Countable tmid.
Proof.
  refine (inj_countable'
    (fun o => match o with TmThread n => inl n | TmObj n => inr n end)
    (fun x => match x with inl n => TmThread n | inr n => TmObj n end) _).
  by intros [].
Defined.
#[export] Instance tlid_eq_dec : EqDecision tlid.
Proof. solve_decision. Defined.
#[export] Instance tlid_countable : Countable tlid.
Proof.
  refine (inj_countable'
    (fun o => match o with THard => 0 | TSoft => 1 | THardTmp => 2 | TSoftTmp => 3 end)%nat
    (fun x => match x with 0 => THard | 1 => TSoft | 2 => THardTmp | _ => TSoftTmp end)%nat _).
  by intros [].
Defined.

(** The timeout function: [_thread_timeout] or a function of the application. *)
Inductive timeout_func_t := FThreadTimeout | FUser (n : Z).

Record rt_timer := Timer {
  timer_flag : Z;
  timeout_func : timeout_func_t;
  parameter : Z;
  timer_init_tick : Z;
  timeout_tick : Z;
}.
Definition timer0 : rt_timer := Timer 0 FThreadTimeout 0 0 0.

Definition with_flag (v : Z) (t : rt_timer) : rt_timer :=
  Timer v (timeout_func t) (parameter t) (timer_init_tick t) (timeout_tick t).
Definition with_func (v : timeout_func_t) (t : rt_timer) : rt_timer :=
  Timer (timer_flag t) v (parameter t) (timer_init_tick t) (timeout_tick t).
Definition with_parm (v : Z) (t : rt_timer) : rt_timer :=
  Timer (timer_flag t) (timeout_func t) v (timer_init_tick t) (timeout_tick t).
Definition with_init_tick (v : Z) (t : rt_timer) : rt_timer :=
  Timer (timer_flag t) (timeout_func t) (parameter t) v (timeout_tick t).
Definition with_timeout_tick (v : Z) (t : rt_timer) : rt_timer :=
  Timer (timer_flag t) (timeout_func t) (parameter t) (timer_init_tick t) v.

Record tstate := TState {
  rt_tick : Z;
  timers : gmap tmid rt_timer;
  rows : gmap tlid (list tmid);
  random_nr : Z;
}.
Definition with_tick v s := TState v (timers s) (rows s) (random_nr s).
Definition with_timers v s := TState (rt_tick s) v (rows s) (random_nr s).
Definition with_rows v s := TState (rt_tick s) (timers s) v (random_nr s).
Definition with_random v s := TState (rt_tick s) (timers s) (rows s) v.

Definition get_timer (s : tstate) (t : tmid) : rt_timer := default timer0 (timers s !! t).
Definition upd_timer (t : tmid) (f : rt_timer -> rt_timer) (s : tstate) : tstate :=
  with_timers (alter f t (timers s)) s.
Definition row (s : tstate) (l : tlid) : list tmid := qget (rows s) l.
Definition timer_has (s : tstate) (t : tmid) (mask : Z) : bool := has_flag (timer_flag (get_timer s t)) mask.
(** [timer->parent.flag |= mask] and [timer->parent.flag &= ~mask]. *)
Definition flag_set (mask : Z) (t : tmid) : tstate -> tstate :=
  upd_timer t (fun tm => with_flag (set_flag (timer_flag tm) mask) tm).
Definition flag_clear (mask : Z) (t : tmid) : tstate -> tstate :=
  upd_timer t (fun tm => with_flag (clear_flag (timer_flag tm) mask) tm).

(** ** Operations *)
Definition rt_tick_get (s : tstate) : Z := rt_tick s.
Definition rt_tick_set (tick : Z) (s : tstate) : tstate := with_tick (u32 tick) s.

Definition _timer_init (t : tmid) (timeout : timeout_func_t) (parm time flag : Z) (s : tstate) : tstate :=
  let s := with_timers (<[t := Timer (clear_flag flag RT_TIMER_FLAG_ACTIVATED) timeout parm time 0]> (timers s)) s in
  (* rt_list_init of every row *)
  with_rows (qunlink t (rows s)) s.

(** [timer_list]'s first expiry, or [-RT_ERROR]. *)
Definition _timer_list_next_timeout (s : tstate) (l : tlid) : Z * option Z :=
  match row s l with
  | t :: _ => (RT_EOK, Some (timeout_tick (get_timer s t)))
  | [] => (- RT_ERROR, None)
  end.

Definition _timer_remove (t : tmid) (s : tstate) : tstate := with_rows (qunlink t (rows s)) s.

(** The search loop of [_timer_start] with the insertion at the place it stops. *)
Fixpoint timer_insert (s : tstate) (t : tmid) (l : list tmid) : list tmid :=
  match l with
  | [] => [t]
  | x :: l' =>
      let d := u32 (timeout_tick (get_timer s x) - timeout_tick (get_timer s t)) in
      if d =? 0 then x :: timer_insert s t l'
      else if d <? TICK_HALF then t :: x :: l'
      else x :: timer_insert s t l'
  end.

Definition _timer_start (l : tlid) (t : tmid) (s : tstate) : tstate * Z :=
  if timer_has s t RT_TIMER_FLAG_PROCESSING then (s, - RT_ERROR)
  else
    let s := _timer_remove t s in
    let s := flag_clear RT_TIMER_FLAG_ACTIVATED t s in
    let s := upd_timer t (fun tm => with_timeout_tick (u32 (rt_tick_get s + timer_init_tick tm)) tm) s in
    let s := with_random (u32 (random_nr s + 1)) s in
    let s := with_rows (qset l (timer_insert s t (row s l)) (rows s)) s in
    let s := flag_set RT_TIMER_FLAG_ACTIVATED t s in
    (s, RT_EOK).

Definition rt_timer_stop (t : tmid) (s : tstate) : tstate * Z :=
  if negb (timer_has s t RT_TIMER_FLAG_ACTIVATED) then (s, - RT_ERROR)
  else
    let s := _timer_remove t s in
    let s := flag_clear RT_TIMER_FLAG_ACTIVATED t s in
    (s, RT_EOK).

(** [rt_timer_detach] and [rt_timer_delete] up to the object they end with. *)
Definition timer_unlink (t : tmid) (s : tstate) : tstate :=
  let s := _timer_remove t s in
  flag_clear RT_TIMER_FLAG_ACTIVATED t s.

(** The commands of [rt_timer_control] with their argument, and what is written
    through the argument pointer. *)
Inductive timer_cmd :=
  | RT_TIMER_CTRL_SET_TIME (v : Z)
  | RT_TIMER_CTRL_GET_TIME
  | RT_TIMER_CTRL_SET_ONESHOT
  | RT_TIMER_CTRL_SET_PERIODIC
  | RT_TIMER_CTRL_GET_STATE
  | RT_TIMER_CTRL_GET_REMAIN_TIME
  | RT_TIMER_CTRL_GET_FUNC
  | RT_TIMER_CTRL_SET_FUNC (f : timeout_func_t)
  | RT_TIMER_CTRL_GET_PARM
  | RT_TIMER_CTRL_SET_PARM (v : Z)
  | RT_TIMER_CTRL_OTHER.
Inductive timer_arg := ANone | AInt (v : Z) | AFunc (f : timeout_func_t).

Definition rt_timer_control (t : tmid) (cmd : timer_cmd) (s : tstate) : tstate * Z * timer_arg :=
  let tm := get_timer s t in
  match cmd with
  | RT_TIMER_CTRL_GET_TIME => (s, RT_EOK, AInt (timer_init_tick tm))
  | RT_TIMER_CTRL_SET_TIME v =>
      let s := if timer_has s t RT_TIMER_FLAG_ACTIVATED
               then flag_clear RT_TIMER_FLAG_ACTIVATED t (_timer_remove t s) else s in
      (upd_timer t (with_init_tick v) s, RT_EOK, ANone)
  | RT_TIMER_CTRL_SET_ONESHOT => (flag_clear RT_TIMER_FLAG_PERIODIC t s, RT_EOK, ANone)
  | RT_TIMER_CTRL_SET_PERIODIC => (flag_set RT_TIMER_FLAG_PERIODIC t s, RT_EOK, ANone)
  | RT_TIMER_CTRL_GET_STATE =>
      (s, RT_EOK, AInt (if timer_has s t RT_TIMER_FLAG_ACTIVATED
                        then RT_TIMER_FLAG_ACTIVATED else RT_TIMER_FLAG_DEACTIVATED))
  | RT_TIMER_CTRL_GET_REMAIN_TIME => (s, RT_EOK, AInt (timeout_tick tm))
  | RT_TIMER_CTRL_GET_FUNC => (s, RT_EOK, AFunc (timeout_func tm))
  | RT_TIMER_CTRL_SET_FUNC f => (upd_timer t (with_func f) s, RT_EOK, ANone)
  | RT_TIMER_CTRL_GET_PARM => (s, RT_EOK, AInt (parameter tm))
  | RT_TIMER_CTRL_SET_PARM v => (upd_timer t (with_parm v) s, RT_EOK, ANone)
  | RT_TIMER_CTRL_OTHER => (s, RT_EOK, ANone)
  end.

Definition rt_timer_next_timeout_tick (s : tstate) : Z :=
  default RT_TICK_MAX (snd (_timer_list_next_timeout s THard)).

Definition rt_system_timer_init (s : tstate) : tstate := with_rows (qset THard [] (rows s)) s.

(** [rt_tick_from_millisecond] with [RT_TICK_PER_SECOND = 1000], in the code's
    32-bit arithmetic. *)
Definition RT_TICK_PER_SECOND : Z := 1000.
Definition rt_tick_from_millisecond (ms : Z) : Z :=
  if ms <? 0 then u32 (-1)
  else
    let tick := u32 (RT_TICK_PER_SECOND * (ms / 1000)) in
    u32 (tick + (RT_TICK_PER_SECOND * (ms mod 1000) + 999) / 1000).
Definition rt_tick_get_millisecond (s : tstate) : Z :=
  u32 (rt_tick_get s * (1000 / RT_TICK_PER_SECOND)).
