(* ===== verification/TimerFacts.v ===== *)
(** * The timer lists stay sorted *)
From Stdlib Require Import Sorted.
From S2P Require Import Prelude Queue Sched TimerCore.

Lemma TICK_HALF_val : TICK_HALF = 2147483647.
Proof. reflexivity. Qed.

(** Expiry of a timer counted from the tick [b], modulo 2^32. *)
Definition tkey (b : Z) (s : tstate) (t : tmid) : Z := u32 (timeout_tick (get_timer s t) - b).

(** A list whose timers all expire within half the tick range after [b], in
    order of expiry. *)
Record trow_ok (b : Z) (s : tstate) (l : list tmid) : Prop := {
  tr_sorted : StronglySorted (fun x y => tkey b s x <= tkey b s y) l;
  tr_bound : forall x, x ∈ l -> tkey b s x < TICK_HALF;
}.

Lemma u32_range z : 0 <= u32 z < 2 ^ 32.
Proof. apply Z.mod_pos_bound. lia. Qed.


Lemma u32_idem_sub a b c : u32 (u32 (a - c) - u32 (b - c)) = u32 (a - b).
Proof.
  unfold u32. rewrite <- Zminus_mod. f_equal. lia.
Qed.

(** The comparison of [_timer_start] is the comparison of the keys. *)
Lemma tkey_diff b s x t :
  tkey b s x < TICK_HALF -> tkey b s t < TICK_HALF ->
  let d := u32 (timeout_tick (get_timer s x) - timeout_tick (get_timer s t)) in
  (d = 0 <-> tkey b s x = tkey b s t) /\ (d <> 0 -> d < TICK_HALF <-> tkey b s t < tkey b s x).
Proof.
  intros Hx Ht. simpl. rewrite <- (u32_idem_sub _ _ b). fold (tkey b s x) (tkey b s t).
  pose proof (u32_range (timeout_tick (get_timer s x) - b)) as Rx.
  pose proof (u32_range (timeout_tick (get_timer s t) - b)) as Rt.
  fold (tkey b s x) in Rx. fold (tkey b s t) in Rt. rewrite TICK_HALF_val in *.
  destruct (Z.lt_trichotomy (tkey b s x) (tkey b s t)) as [Hlt|[Heq|Hlt]].
  - assert (u32 (tkey b s x - tkey b s t) = tkey b s x - tkey b s t + 2 ^ 32) as ->; [|lia].
    unfold u32. rewrite <- (Z.mod_add _ 1) by lia. apply Z.mod_small. lia.
  - rewrite Heq, Z.sub_diag. change (u32 0) with 0. lia.
  - rewrite u32_small by lia. lia.
Qed.

Lemma timer_insert_split b s t l :
  trow_ok b s l -> tkey b s t < TICK_HALF ->
  exists l1 l2, l = l1 ++ l2 /\ timer_insert s t l = l1 ++ t :: l2 /\
    (forall x, x ∈ l1 -> tkey b s x <= tkey b s t) /\ (forall x, x ∈ l2 -> tkey b s t < tkey b s x).
Proof.
  intros [Hs Hb] Ht. induction Hs as [|x l Hs IH Hx]; simpl.
  { exists [], []. split_and!; try done; intros x Hx; by apply not_elem_of_nil in Hx. }
  assert (Hkx : tkey b s x < TICK_HALF) by (apply Hb; left).
  destruct (tkey_diff b s x t Hkx Ht) as [H0 H1].
  set (d := u32 (timeout_tick (get_timer s x) - timeout_tick (get_timer s t))) in *.
  assert (Hcont : tkey b s x <= tkey b s t -> exists l1 l2, x :: l = l1 ++ l2 /\
     x :: timer_insert s t l = l1 ++ t :: l2 /\
    (forall x, x ∈ l1 -> tkey b s x <= tkey b s t) /\ (forall x, x ∈ l2 -> tkey b s t < tkey b s x)).
  { intros Hle. destruct IH as (l1 & l2 & -> & -> & I1 & I2); [intros y Hy; apply Hb; by right|].
    exists (x :: l1), l2. split_and!; try done.
    intros y [->|Hy]%elem_of_cons; [done|by apply I1]. }
  destruct (Z.eqb_spec d 0) as [Hd|Hd].
  { apply Hcont. rewrite (proj1 H0 Hd). lia. }
  destruct (Z.ltb_spec d TICK_HALF) as [Hlt|Hge].
  - apply (H1 Hd) in Hlt. exists [], (x :: l). split_and!; try done.
    + intros y Hy. by apply not_elem_of_nil in Hy.
    + intros y [->|Hy]%elem_of_cons; [done|]. rewrite Forall_forall in Hx.
      specialize (Hx y Hy). simpl in Hx. lia.
  - apply Hcont. destruct (Z.le_gt_cases (tkey b s x) (tkey b s t)) as [|Hgt]; [done|].
    apply (H1 Hd) in Hgt. lia.
Qed.

Lemma sorted_insert b s t l1 l2 :
  StronglySorted (fun x y => tkey b s x <= tkey b s y) (l1 ++ l2) ->
  (forall x, x ∈ l1 -> tkey b s x <= tkey b s t) -> (forall x, x ∈ l2 -> tkey b s t < tkey b s x) ->
  StronglySorted (fun x y => tkey b s x <= tkey b s y) (l1 ++ t :: l2).
Proof.
  intros Hs H1 H2. induction l1 as [|x l1 IH]; simpl in *.
  - constructor; [done|]. apply Forall_forall. intros y Hy. apply H2 in Hy. lia.
  - inversion Hs as [|? ? Hs' Hf]; subst. constructor.
    + apply IH; [done|]. intros y Hy. apply H1. by right.
    + rewrite Forall_forall in *. intros y Hy.
      apply elem_of_app in Hy as [Hy|[->|Hy]%elem_of_cons].
      * apply Hf. apply elem_of_app. by left.
      * apply H1. left.
      * apply Hf. apply elem_of_app. by right.
Qed.

(** ** Frame facts *)
Lemma get_timer_lookup s t tm : timers s !! t = Some tm -> get_timer s t = tm.
Proof. unfold get_timer. intros E. by rewrite E. Qed.

Lemma lookup_upd_timer s t f t' :
  timers (upd_timer t f s) !! t' = if decide (t = t') then f <$> timers s !! t' else timers s !! t'.
Proof. unfold upd_timer, with_timers. cbn [timers]. rewrite lookup_alter. case_decide; by subst. Qed.

Lemma tkey_ext b s s' t : timers s' !! t = timers s !! t -> tkey b s' t = tkey b s t.
Proof. intros E. unfold tkey, get_timer. by rewrite E. Qed.

Lemma timer_insert_ext s s' t l :
  (forall x, x ∈ t :: l -> timeout_tick (get_timer s' x) = timeout_tick (get_timer s x)) ->
  timer_insert s' t l = timer_insert s t l.
Proof.
  intros H. induction l as [|x l IH]; simpl; [done|].
  rewrite !H by set_solver. rewrite IH by set_solver. done.
Qed.

Lemma trow_ok_ext b s s' l :
  (forall x, x ∈ l -> timeout_tick (get_timer s' x) = timeout_tick (get_timer s x)) ->
  trow_ok b s l -> trow_ok b s' l.
Proof.
  intros He [Hs Hb].
  assert (Hk : forall x, x ∈ l -> tkey b s' x = tkey b s x) by (intros x Hx; unfold tkey; by rewrite He).
  split.
  - clear Hb He. induction Hs as [|x l Hs IH Hx]; constructor.
    + apply IH. intros y Hy. apply Hk. by right.
    + rewrite Forall_forall in *. intros y Hy. rewrite !Hk by (by left || by right). by apply Hx.
  - intros x Hx. rewrite Hk by done. by apply Hb.
Qed.

Lemma sorted_unlink b s t l :
  StronglySorted (fun x y => tkey b s x <= tkey b s y) l ->
  StronglySorted (fun x y => tkey b s x <= tkey b s y) (unlink t l).
Proof.
  induction 1 as [|x l Hs IH Hx]; [constructor|].
  destruct (decide (x = t)) as [->|Hne]; [by rewrite unlink_cons_eq|].
  rewrite unlink_cons_ne by done. constructor; [done|].
  rewrite Forall_forall in *. intros y [_ Hy]%elem_of_unlink. by apply Hx.
Qed.

Lemma trow_ok_unlink b s t l : trow_ok b s l -> trow_ok b s (unlink t l).
Proof. intros [Hs Hb]. split; [by apply sorted_unlink|]. intros x [_ Hx]%elem_of_unlink. by apply Hb. Qed.

(** The timer [_timer_start] leaves. *)
Definition started (now : Z) (tm : rt_timer) : rt_timer :=
  Timer (set_flag (clear_flag (timer_flag tm) RT_TIMER_FLAG_ACTIVATED) RT_TIMER_FLAG_ACTIVATED)
    (timeout_func tm) (parameter tm) (timer_init_tick tm) (u32 (now + timer_init_tick tm)).

Lemma timer_start_spec l t s tm :
  timers s !! t = Some tm -> has_flag (timer_flag tm) RT_TIMER_FLAG_PROCESSING = false ->
  exists s', _timer_start l t s = (s', RT_EOK) /\ rt_tick s' = rt_tick s /\
    (forall x, timers s' !! x = if decide (t = x) then Some (started (rt_tick s) tm) else timers s !! x) /\
    rows s' = qset l (timer_insert s' t (unlink t (row s l))) (qunlink t (rows s)).
Proof.
  intros Ht Hp. unfold _timer_start, timer_has. rewrite (get_timer_lookup _ _ tm), Hp by done.
  set (s1 := upd_timer t (fun tm => with_timeout_tick (u32 (rt_tick s + timer_init_tick tm)) tm)
               (flag_clear RT_TIMER_FLAG_ACTIVATED t (_timer_remove t s))).
  eexists. split; [reflexivity|]. split; [done|]. split.
  - intros x. unfold flag_set. rewrite lookup_upd_timer. cbn [timers with_rows with_random].
    unfold flag_clear. rewrite !lookup_upd_timer. cbn [timers _timer_remove with_rows].
    destruct (decide (t = x)) as [<-|Hne]; [by rewrite Ht|done].
  - cbn [rows flag_set upd_timer with_timers with_rows with_random].
    unfold row at 1. cbn [rows with_random upd_timer with_timers flag_clear _timer_remove with_rows].
    rewrite qget_unlink. f_equal. apply timer_insert_ext. intros x _.
    unfold get_timer, flag_set. rewrite lookup_upd_timer. cbn [timers with_rows with_random].
    case_decide; [subst|done].
    match goal with |- context [_ <$> ?o] => by destruct o end.
Qed.

(** ** Flag bits *)
Lemma has_flag_pow2 f i : 0 <= i -> has_flag f (2 ^ i) = Z.testbit f i.
Proof.
  intros Hi. unfold has_flag. destruct (Z.testbit f i) eqn:E.
  - apply negb_true_iff, Z.eqb_neq. intros H0.
    assert (Z.testbit (Z.land f (2 ^ i)) i = false) as Hb by (rewrite H0; apply Z.bits_0).
    rewrite Z.land_spec, Z.pow2_bits_true, E in Hb by done. done.
  - apply negb_false_iff, Z.eqb_eq, Z.bits_inj'. intros j Hj.
    rewrite Z.land_spec, Z.bits_0. destruct (decide (j = i)) as [->|].
    + by rewrite E.
    + rewrite Z.pow2_bits_false by done. apply andb_false_r.
Qed.

Lemma has_set f i j :
  0 <= i -> 0 <= j -> has_flag (set_flag f (2 ^ i)) (2 ^ j) = bool_decide (i = j) || has_flag f (2 ^ j).
Proof.
  intros Hi Hj. rewrite !has_flag_pow2 by done. unfold set_flag. rewrite Z.lor_spec.
  case_bool_decide; subst.
  - rewrite Z.pow2_bits_true by done. apply orb_true_r.
  - rewrite Z.pow2_bits_false by congruence. apply orb_false_r.
Qed.

Lemma has_clear f i j :
  0 <= i -> 0 <= j ->
  has_flag (clear_flag f (2 ^ i)) (2 ^ j) = negb (bool_decide (i = j)) && has_flag f (2 ^ j).
Proof.
  intros Hi Hj. rewrite !has_flag_pow2 by done. unfold clear_flag.
  rewrite Z.land_spec, Z.lnot_spec by done. case_bool_decide; subst.
  - rewrite Z.pow2_bits_true by done. apply andb_false_r.
  - rewrite Z.pow2_bits_false by congruence. apply andb_true_r.
Qed.

(** Compute the flags of a chain of updates. *)
Ltac flag_simpl :=
  change RT_TIMER_FLAG_ACTIVATED with (2 ^ 0) in *; change RT_TIMER_FLAG_PROCESSING with (2 ^ 1) in *;
  change RT_TIMER_FLAG_PERIODIC with (2 ^ 2) in *; change RT_TIMER_FLAG_SOFT_TIMER with (2 ^ 3) in *;
  change RT_TIMER_FLAG_THREAD_TIMER with (2 ^ 4) in *;
  repeat ((rewrite has_set by lia) || (rewrite has_clear by lia));
  repeat ((rewrite bool_decide_true by lia) || (rewrite bool_decide_false by lia)); simpl.

Notation is_active tm := (has_flag (timer_flag tm) RT_TIMER_FLAG_ACTIVATED).
Notation is_processing tm := (has_flag (timer_flag tm) RT_TIMER_FLAG_PROCESSING).
Notation is_periodic tm := (has_flag (timer_flag tm) RT_TIMER_FLAG_PERIODIC).

Lemma started_flags now tm :
  is_active (started now tm) = true /\ is_processing (started now tm) = is_processing tm /\
  is_periodic (started now tm) = is_periodic tm.
Proof. unfold started; simpl. flag_simpl. done. Qed.

Lemma clear_active_flags tm :
  let tm' := with_flag (clear_flag (timer_flag tm) RT_TIMER_FLAG_ACTIVATED) tm in
  is_active tm' = false /\ is_processing tm' = is_processing tm /\ is_periodic tm' = is_periodic tm.
Proof. simpl. flag_simpl. done. Qed.

(** ** The invariant of the timer lists *)
Record twf (s : tstate) : Prop := {
  tw_q : qwf (rows s);
  tw_live : forall l t, t ∈ row s l -> exists tm, timers s !! t = Some tm;
  tw_listed : forall l t tm, l = THard \/ l = TSoft -> t ∈ row s l -> timers s !! t = Some tm ->
    is_active tm = true /\ is_processing tm = false;
  tw_active : forall t tm, timers s !! t = Some tm -> is_active tm = true -> exists l, t ∈ row s l;
}.

Lemma row_qset s l k (xs : list tmid) Q : rows s = qset l xs Q -> row s k = if decide (l = k) then xs else qget Q k.
Proof. intros E. unfold row. by rewrite E, qget_set. Qed.

Lemma timer_insert_perm s t l : timer_insert s t l ≡ₚ t :: l.
Proof.
  induction l as [|x l IH]; simpl; [done|].
  case_match; [rewrite IH; apply perm_swap|]. case_match; [done|]. rewrite IH. apply perm_swap.
Qed.

Lemma timer_start_twf l t s s' tm :
  twf s -> timers s !! t = Some tm -> is_processing tm = false ->
  _timer_start l t s = (s', RT_EOK) -> twf s'.
Proof.
  intros [Hq Hlv Hls Ha] Ht Hp Hst.
  destruct (timer_start_spec l t s tm Ht Hp) as (s1 & E & _ & Htm & Hr).
  rewrite Hst in E. injection E as <-.
  assert (Hin : forall k x, x ∈ row s' k -> x = t \/ (x <> t /\ x ∈ row s k)).
  { intros k x. rewrite (row_qset _ _ k _ _ Hr). case_decide; subst.
    - rewrite timer_insert_perm, elem_of_cons, elem_of_unlink. tauto.
    - rewrite elem_of_qunlink. unfold row. tauto. }
  constructor.
  - rewrite Hr. apply qwf_insert with t; [by apply qwf_qunlink|apply qfresh_qunlink|].
    by rewrite qget_unlink, timer_insert_perm.
  - intros k x [->|[Hne Hx]]%Hin; rewrite Htm; [rewrite decide_True by done; by eexists|].
    rewrite decide_False by done. eauto.
  - intros k x tm' Hk [->|[Hne Hx]]%Hin; rewrite Htm.
    + rewrite decide_True by done. intros [= <-].
      destruct (started_flags (rt_tick s) tm) as (F1 & F2 & _). by rewrite F1, F2.
    + rewrite decide_False by done. eauto.
  - intros x tm'. rewrite Htm. case_decide; subst.
    + intros _ _. exists l. rewrite (row_qset _ _ l _ _ Hr), decide_True by done.
      rewrite timer_insert_perm. left.
    + intros Hx Hax. destruct (Ha x tm' Hx Hax) as [k Hk]. exists k.
      rewrite (row_qset _ _ k _ _ Hr). case_decide; subst.
      * rewrite timer_insert_perm. right. by apply elem_of_unlink.
      * apply elem_of_qunlink. by split.
Qed.

(** ** One turn of the expiry loop *)
Lemma lookup_flag_set m t s x :
  timers (flag_set m t s) !! x =
    if decide (t = x) then (fun tm => with_flag (set_flag (timer_flag tm) m) tm) <$> timers s !! x
    else timers s !! x.
Proof. apply lookup_upd_timer. Qed.
Lemma lookup_flag_clear m t s x :
  timers (flag_clear m t s) !! x =
    if decide (t = x) then (fun tm => with_flag (clear_flag (timer_flag tm) m) tm) <$> timers s !! x
    else timers s !! x.
Proof. apply lookup_upd_timer. Qed.

Lemma twf_unlinked s s' t :
  twf s -> (forall x, x <> t -> timers s' !! x = timers s !! x) ->
  (forall tm', timers s' !! t = Some tm' -> is_active tm' = false) ->
  (forall k, row s' k = unlink t (row s k)) -> qwf (rows s') -> twf s'.
Proof.
  intros [Hq Hlv Hls Ha] Hx Ht Hr Hq'. constructor; try done.
  - intros k x. rewrite Hr. intros [Hne Hin]%elem_of_unlink. rewrite Hx by done. eauto.
  - intros k x tm Hk. rewrite Hr. intros [Hne Hin]%elem_of_unlink. rewrite Hx by done. eauto.
  - intros x tm. destruct (decide (x = t)) as [->|Hne].
    + intros H1 H2. rewrite (Ht tm H1) in H2. done.
    + rewrite Hx by done. intros H1 H2. destruct (Ha x tm H1 H2) as [k Hk].
      exists k. rewrite Hr. by apply elem_of_unlink.
Qed.
