(* ===== verification/Kernel.v ===== *)
(** * The kernel state and suspended threads

    [kstate] puts the scheduler, the timers, the object containers and the IPC
    objects together.  The file models the operations that involve both a
    thread and its timer: making a suspended thread ready ([scheduler_comm.c]),
    the suspend lists ([ipc.c]) and suspending and resuming threads
    ([thread.c]). *)
From S2P Require Import Prelude Queue Object Sched TimerCore.

Definition RT_IPC_FLAG_FIFO : Z := 0.
Definition RT_IPC_FLAG_PRIO : Z := 1.
Definition RT_INTERRUPTIBLE : Z := 0.
Definition RT_KILLABLE : Z := 1.
Definition RT_UNINTERRUPTIBLE : Z := 2.
Definition RT_WAITING_FOREVER : Z := -1.
Definition RT_THREAD_RESUME_RES_THR_ERR : Z := -1.

(** ** IPC objects *)
Record rt_semaphore := Semaphore { sem_flag : Z; sem_value : Z; sem_max_value : Z }.
Record rt_mutex := Mutex {
  mutex_flag : Z;
  ceiling_priority : Z;
  mutex_priority : Z;
  hold : Z;
  owner : option tid;
}.
Record rt_event := Event { event_flag : Z; event_bits : Z }.
Record rt_mailbox := Mailbox {
  mb_flag : Z;
  mb_pool : list Z;
  mb_size : Z;
  mb_entry : Z;
  in_offset : Z;
  out_offset : Z;
}.
(** A message slot: [struct rt_mq_message] and the bytes after it. *)
Record rt_mq_message := MqMessage { mq_next : option nat; mq_length : Z; mq_data : list Z }.
Record rt_messagequeue := Messagequeue {
  mq_flag : Z;
  msg_size : Z;
  max_msgs : Z;
  mq_entry : Z;
  msg_queue_head : option nat;
  msg_queue_tail : option nat;
  msg_queue_free : option nat;
  mq_pool : gmap nat rt_mq_message;
}.

(** Addresses of kernel objects. *)
Inductive kobj := KThread (t : tid) | KTimer (t : tmid) | KIpc (o : objref).
#[export] Instance kobj_eq_dec : EqDecision kobj.
Proof. solve_decision. Defined.
#[export] Instance kobj_countable : Countable kobj.
Proof.
  refine (inj_countable'
    (fun o => match o with KThread t => inl t | KTimer m => inr (inl m) | KIpc o => inr (inr o) end)
    (fun x => match x with inl t => KThread t | inr (inl m) => KTimer m | inr (inr o) => KIpc o end) _).
  by intros [].
Defined.

Record kstate := KState {
  ks : sstate;
  kt : tstate;
  ko : ostate kobj;
  sems : gmap nat rt_semaphore;
  mutexes : gmap nat rt_mutex;
  taken_object_list : gmap tid (list nat);  (* the mutexes each thread holds *)
  events : gmap nat rt_event;
  mbs : gmap nat rt_mailbox;
  mqs : gmap nat rt_messagequeue;
}.

Definition with_ks v k := KState v (kt k) (ko k) (sems k) (mutexes k) (taken_object_list k) (events k) (mbs k) (mqs k).
Definition with_kt v k := KState (ks k) v (ko k) (sems k) (mutexes k) (taken_object_list k) (events k) (mbs k) (mqs k).
Definition with_ko v k := KState (ks k) (kt k) v (sems k) (mutexes k) (taken_object_list k) (events k) (mbs k) (mqs k).
Definition with_sems v k := KState (ks k) (kt k) (ko k) v (mutexes k) (taken_object_list k) (events k) (mbs k) (mqs k).
Definition with_mutexes v k := KState (ks k) (kt k) (ko k) (sems k) v (taken_object_list k) (events k) (mbs k) (mqs k).
Definition with_taken v k := KState (ks k) (kt k) (ko k) (sems k) (mutexes k) v (events k) (mbs k) (mqs k).
Definition with_events v k := KState (ks k) (kt k) (ko k) (sems k) (mutexes k) (taken_object_list k) v (mbs k) (mqs k).
Definition with_mbs v k := KState (ks k) (kt k) (ko k) (sems k) (mutexes k) (taken_object_list k) (events k) v (mqs k).
Definition with_mqs v k := KState (ks k) (kt k) (ko k) (sems k) (mutexes k) (taken_object_list k) (events k) (mbs k) v.

(** Operations of a part lifted to the whole. *)
Definition on_ks (f : sstate -> sstate) (k : kstate) : kstate := with_ks (f (ks k)) k.
Definition on_kt (f : tstate -> tstate) (k : kstate) : kstate := with_kt (f (kt k)) k.
Definition on_ko (f : ostate kobj -> ostate kobj) (k : kstate) : kstate := with_ko (f (ko k)) k.
Definition kschedule : kstate -> kstate := on_ks rt_schedule.
Definition self (k : kstate) : option tid := rt_current_thread (ks k).
Definition thr (k : kstate) (t : tid) : rt_thread := get_thread (ks k) t.
Definition upd_thr (t : tid) (f : rt_thread -> rt_thread) : kstate -> kstate := on_ks (upd_thread t f).
Definition susp_list (k : kstate) (l : lid) : list tid := tlist (ks k) l.

(** ** Calls that may give up the processor

    A call is a sequence of segments that run with interrupts disabled or the
    scheduler locked.  [Done] is its return, with the values it writes through
    its pointer arguments; [Resched k p] is the point where it calls
    [rt_schedule], after which the calling thread goes on at the label [p], at
    once or when it is scheduled again; [Enable k p] is a point where the call
    enables interrupts and goes on at [p]. *)
Inductive pc :=
  | PcRet (rc : Z) (out : list Z)
  | PcSchedule (rc : Z)   (* call [rt_schedule] once more, then return *)
  | PcSemTake (s : nat)
  | PcMutexWait (m : nat)
  | PcMutexTake (m : nat)
  | PcMutexFail (ret : Z)
  | PcMutexDetach (m : nat)
  | PcMutexDelete (m : nat)
  | PcEventRecv (e : nat)
  | PcEventDelete (e : nat)
  | PcMbSend (m : nat) (value timeout tick_delta suspend_flag : Z)
  | PcMbRecv (m : nat) (timeout tick_delta suspend_flag : Z)
  | PcMbDelete (m : nat)
  | PcMqSend (m : nat) (buffer : list Z) (timeout tick_delta suspend_flag : Z)
  | PcMqLink (m : nat) (msg : nat) (buffer : list Z)
  | PcMqUrgent (m : nat) (msg : nat) (buffer : list Z)
  | PcMqRecv (m : nat) (size : Z) (timeout tick_delta suspend_flag : Z)
  | PcMqFree (m : nat) (msg : nat) (size : Z)
  | PcMqDelete (m : nat)
  | PcSleep (err : Z)
  | PcDelayUntil (tick : Z)
  | PcDelayUntilEnd (tick : Z)
  | PcDelayUntilLate (tick : Z).

Inductive outcome :=
  | Done (k : kstate) (rc : Z) (out : list Z)
  | Resched (k : kstate) (p : pc)
  | Enable (k : kstate) (p : pc).

(** ** [scheduler_comm.c]: a thread and its timer *)
Definition rt_sched_thread_timer_stop (t : tid) (k : kstate) : kstate * Z :=
  if sched_flag_ttmr_set (thr k t) then
    let '(ts, error) := rt_timer_stop (TmThread t) (kt k) in
    let k := with_kt ts k in
    (* mask out timer flag no matter stop success or not *)
    (upd_thr t (with_ttmr_set false) k, error)
  else (k, RT_EOK).

Definition rt_sched_thread_ready (t : tid) (k : kstate) : kstate * Z :=
  if negb (rt_sched_thread_is_suspended (ks k) t) then (k, - RT_EINVAL)
  else
    let '(k, error) := if sched_flag_ttmr_set (thr k t)
                       then rt_sched_thread_timer_stop t k else (k, RT_EOK) in
    if error =? 0 then
      let k := on_ks (tlist_remove t) k in
      let k := on_ks (rt_sched_insert_thread t) k in
      (k, error)
    else (k, error).

(** ** [ipc.c]: suspend lists *)
Definition rt_susp_list_dequeue (l : lid) (thread_error : Z) (k : kstate) : kstate * option tid :=
  match susp_list k l with
  | t :: _ =>
      let '(k, error) := rt_sched_thread_ready t k in
      if negb (error =? 0) then (k, None)
      else
        let k := if 0 <=? thread_error then upd_thr t (with_error thread_error) k else k in
        (k, Some t)
  | [] => (k, None)
  end.

(** The loop of [rt_susp_list_resume_all]; every iteration takes one thread off
    the list, so its length bounds the iterations. *)
Fixpoint resume_all_loop (fuel : nat) (l : lid) (thread_error : Z) (k : kstate) : kstate :=
  match fuel with
  | O => k
  | S f => let '(k, thread) := rt_susp_list_dequeue l thread_error k in
           match thread with
           | Some _ => resume_all_loop f l thread_error k
           | None => k
           end
  end.
Definition rt_susp_list_resume_all (l : lid) (thread_error : Z) (k : kstate) : kstate :=
  resume_all_loop (S (length (susp_list k l))) l thread_error k.
(** The same with the lock taken around every iteration. *)
Definition rt_susp_list_resume_all_irq (l : lid) (thread_error : Z) (k : kstate) : kstate :=
  resume_all_loop (S (length (susp_list k l))) l thread_error k.

(** The place before the first waiter of lower urgency. *)
Fixpoint prio_insert (s : sstate) (t : tid) (l : list tid) : list tid :=
  match l with
  | [] => [t]
  | x :: l' => if rt_sched_thread_get_curr_prio s t <? rt_sched_thread_get_curr_prio s x
               then t :: x :: l' else x :: prio_insert s t l'
  end.

Definition rt_susp_list_enqueue (l : lid) (t : tid) (ipc_flags : Z) (k : kstate) : kstate :=
  let s := ks k in
  if ipc_flags =? RT_IPC_FLAG_FIFO then with_ks (with_tlists (qpush_back l t (tlists s)) s) k
  else if ipc_flags =? RT_IPC_FLAG_PRIO then
    with_ks (with_tlists (qset l (prio_insert s t (tlist s l)) (tlists s)) s) k
  else k.

(** ** [thread.c]: suspending and resuming *)
Definition suspend_stat (suspend_flag : Z) : Z :=
  if suspend_flag =? RT_INTERRUPTIBLE then RT_THREAD_SUSPEND_INTERRUPTIBLE
  else if suspend_flag =? RT_KILLABLE then RT_THREAD_SUSPEND_KILLABLE
  else RT_THREAD_SUSPEND_UNINTERRUPTIBLE.
Definition _thread_set_suspend_state (t : tid) (suspend_flag : Z) (k : kstate) : kstate :=
  upd_thr t (restat (suspend_stat suspend_flag)) k.

Definition rt_thread_suspend_to_list (t : tid) (l : option lid) (ipc_flags suspend_flag : Z) (k : kstate)
    : kstate * Z :=
  let st := rt_sched_thread_get_stat (ks k) t in
  if negb (st =? RT_THREAD_READY) && negb (st =? RT_THREAD_RUNNING) then (k, - RT_ERROR)
  else
    let k := on_ks (rt_sched_remove_thread t) k in
    let k := _thread_set_suspend_state t suspend_flag k in
    let k := match l with Some l => rt_susp_list_enqueue l t ipc_flags k | None => k end in
    let '(k, _) := rt_sched_thread_timer_stop t k in
    (k, RT_EOK).

Definition rt_thread_suspend_with_flag (t : tid) (suspend_flag : Z) (k : kstate) : kstate * Z :=
  rt_thread_suspend_to_list t None 0 suspend_flag k.
Definition rt_thread_suspend (t : tid) (k : kstate) : kstate * Z :=
  rt_thread_suspend_with_flag t RT_UNINTERRUPTIBLE k.

Definition rt_thread_resume (t : tid) (k : kstate) : kstate * Z :=
  let '(k, error) := rt_sched_thread_ready t k in
  if error =? 0 then (on_ks rt_sched_unlock_n_resched k, RT_EOK) else (k, error).

Definition rt_thread_startup (t : tid) (k : kstate) : kstate * Z :=
  let k := on_ks (rt_sched_thread_startup t) k in
  let '(k, _) := rt_thread_resume t k in
  (k, RT_EOK).

(** The timeout function of every thread timer. *)
Definition _thread_timeout (t : tid) (k : kstate) : kstate :=
  let k := upd_thr t (with_error (- RT_ETIMEOUT)) k in
  let k := on_ks (tlist_remove t) k in
  let k := on_ks (rt_sched_insert_thread t) k in
  on_ks rt_sched_unlock_n_resched k.

(** ** Spinlocks: on one processor, the scheduler lock

    [rt_exit_critical] ends with a reschedule, which is a step of its own where
    interrupts are enabled; [spin_unlock] is the part before it. *)
Definition exit_critical_nest (s : sstate) : sstate :=
  let s := with_lock_nest (i16 (rt_scheduler_lock_nest s - 1)) s in
  if rt_scheduler_lock_nest s <=? 0 then with_lock_nest 0 s else s.
Definition rt_spin_lock (k : kstate) : kstate := on_ks (fun s => fst (rt_enter_critical s)) k.
Definition spin_unlock (k : kstate) : kstate := on_ks exit_critical_nest k.

(** [rt_set_errno] in a thread; the global [__rt_errno] is not part of the state. *)
Definition rt_set_errno (e : Z) (k : kstate) : kstate :=
  if negb (rt_interrupt_get_nest (ks k) =? 0) then k
  else match self k with Some t => upd_thr t (with_error e) k | None => k end.
