(* ===== verification/KernelFacts.v ===== *)
(** * Suspending and resuming keep the scheduler's invariant *)
From S2P Require Import Prelude Queue Object Sched SchedFacts TimerCore Kernel.

Lemma suspended_not_ready th : suspended th -> stat_of th <> RT_THREAD_READY.
Proof. rewrite suspended_stat_of. by intros H E; rewrite E in H. Qed.
Lemma suspended_not_running th : suspended th -> stat_of th <> RT_THREAD_RUNNING.
Proof. rewrite suspended_stat_of. by intros H E; rewrite E in H. Qed.
Lemma suspended_not_init th : suspended th -> stat_of th <> RT_THREAD_INIT.
Proof. rewrite suspended_stat_of. by intros H E; rewrite E in H. Qed.
#[export] Hint Resolve suspended_not_ready suspended_not_running suspended_not_init : rt.

Lemma is_suspended_spec s t th :
  threads s !! t = Some th -> rt_sched_thread_is_suspended s t = true <-> suspended th.
Proof.
  intros Hth. unfold rt_sched_thread_is_suspended. rewrite (get_thread_lookup _ _ th) by done.
  apply Z.eqb_eq.
Qed.

Lemma suspend_stat_spec f th : suspended (restat (suspend_stat f) th) /\
  stat_of (restat (suspend_stat f) th) = suspend_stat f.
Proof.
  assert (stat_of (restat (suspend_stat f) th) = suspend_stat f) as E.
  { apply stat_of_restat. unfold suspend_stat. by repeat case_match. }
  split; [|done]. rewrite suspended_stat_of, E. unfold suspend_stat. by repeat case_match.
Qed.

(** Unlinking a thread that is not ready. *)
Lemma swfx_tlist_remove s t th :
  swfx None s -> threads s !! t = Some th -> stat_of th <> RT_THREAD_READY ->
  swfx (Some t) (tlist_remove t s).
Proof.
  intros Hs Hth Hnr.
  assert (Hr : forall p, tlist (tlist_remove t s) (LReady p) = tlist s (LReady p)).
  { intros p. unfold tlist. simpl. rewrite qget_unlink. apply unlink_not_in. intros Hin.
    destruct (sw_link _ _ Hs (LReady p) t Hin) as (th' & Hth' & Hst & _). congruence. }
  constructor; simpl; try by apply Hs.
  - apply qwf_qunlink, Hs.
  - intros t' [= <-]. apply qfresh_qunlink.
  - intros l t'. unfold tlist. simpl. rewrite qget_unlink, elem_of_unlink.
    intros [_ Hin]. by apply (sw_link _ _ Hs).
  - intros t' th' Hth' Hst Hne. rewrite Hr. by apply (sw_ready _ _ Hs).
  - intros p Hp. rewrite Hr. by apply (sw_group _ _ Hs).
Qed.

Lemma cur_ok_tlist_remove t s : cur_ok s -> cur_ok (tlist_remove t s).
Proof. by apply cur_ok_same. Qed.

(** The scheduler's side of making a suspended thread ready. *)
Definition wake (t : tid) (s : sstate) : sstate := rt_sched_insert_thread t (tlist_remove t s).

Lemma wake_swf t s th :
  swf s -> threads s !! t = Some th -> suspended th -> swf (wake t s).
Proof.
  intros [Hs Hc] Hth Hsu. eapply swf_insert; [|by apply cur_ok_tlist_remove|done|].
  - eapply swfx_tlist_remove; eauto with rt.
  - apply prio_ok_mask_nz; [by eapply (sw_prio None s)|eauto with rt].
Qed.

(** ** [rt_sched_thread_ready] *)

(** The thread can be woken: a timer that is set is still pending. *)
Definition wakeable (k : kstate) (t : tid) : Prop :=
  exists th, threads (ks k) !! t = Some th /\ suspended th /\
    (sched_flag_ttmr_set th = true -> timer_has (kt k) (TmThread t) RT_TIMER_FLAG_ACTIVATED = true).

Definition ready_state (t : tid) (k : kstate) : kstate :=
  with_ks (wake t (upd_thread t (with_ttmr_set false) (ks k)))
    (if sched_flag_ttmr_set (thr k t) then on_kt (timer_unlink (TmThread t)) k else k).

Lemma with_ttmr_set_id th : sched_flag_ttmr_set th = false -> with_ttmr_set false th = th.
Proof. destruct th. simpl. by intros ->. Qed.

Lemma thread_ready_ok k t : wakeable k t -> rt_sched_thread_ready t k = (ready_state t k, RT_EOK).
Proof.
  intros (th & Hth & Hsu & Htm). unfold rt_sched_thread_ready, ready_state.
  rewrite (proj2 (is_suspended_spec _ _ th Hth)) by done. simpl.
  assert (Hget : thr k t = th) by (by apply get_thread_lookup). rewrite Hget.
  destruct (sched_flag_ttmr_set th) eqn:Hf.
  - unfold rt_sched_thread_timer_stop. rewrite Hget, Hf. unfold rt_timer_stop.
    rewrite Htm by done. reflexivity.
  - simpl. f_equal. unfold wake. rewrite (upd_thread_id t _ (ks k) th); [by destruct k|done|].
    by apply with_ttmr_set_id.
Qed.

Lemma thread_ready_not_suspended k t th :
  threads (ks k) !! t = Some th -> ~ suspended th -> rt_sched_thread_ready t k = (k, - RT_EINVAL).
Proof.
  intros Hth Hn. unfold rt_sched_thread_ready.
  destruct (rt_sched_thread_is_suspended (ks k) t) eqn:E; [|done].
  apply (is_suspended_spec _ _ th Hth) in E. done.
Qed.

(** A timer that already fired makes it fail, and the timer flag is lost. *)
Lemma thread_ready_race k t th :
  threads (ks k) !! t = Some th -> suspended th -> sched_flag_ttmr_set th = true ->
  timer_has (kt k) (TmThread t) RT_TIMER_FLAG_ACTIVATED = false ->
  rt_sched_thread_ready t k = (upd_thr t (with_ttmr_set false) k, - RT_ERROR).
Proof.
  intros Hth Hsu Hf Htm. unfold rt_sched_thread_ready.
  rewrite (proj2 (is_suspended_spec _ _ th Hth)) by done. simpl.
  assert (Hget : thr k t = th) by (by apply get_thread_lookup). rewrite Hget, Hf.
  unfold rt_sched_thread_timer_stop. rewrite Hget, Hf. unfold rt_timer_stop. rewrite Htm. simpl.
  by destruct k.
Qed.

Lemma upd_ttmr_swf t b s : swf s -> swf (upd_thread t (with_ttmr_set b) s).
Proof. by apply swf_frame. Qed.
Lemma upd_error_swf t e s : swf s -> swf (upd_thread t (with_error e) s).
Proof. by apply swf_frame. Qed.
Lemma upd_pending_swf t o s : swf s -> swf (upd_thread t (with_pending o) s).
Proof. by apply swf_frame. Qed.
Lemma upd_event_swf t a b s : swf s -> swf (upd_thread t (with_event a b) s).
Proof. by apply swf_frame. Qed.
#[export] Hint Resolve upd_ttmr_swf upd_error_swf upd_pending_swf upd_event_swf : rt.

Lemma ready_state_swf k t th :
  swf (ks k) -> threads (ks k) !! t = Some th -> suspended th -> swf (ks (ready_state t k)).
Proof.
  intros Hs Hth Hsu. unfold ready_state. cbn [ks with_ks].
  apply (wake_swf _ _ (with_ttmr_set false th)); [by apply upd_ttmr_swf|by apply lookup_upd_eq|done].
Qed.

Lemma thread_ready_swf t k : swf (ks k) -> swf (ks (rt_sched_thread_ready t k).1).
Proof.
  intros Hs. destruct (threads (ks k) !! t) as [th|] eqn:Hth.
  2:{ unfold rt_sched_thread_ready, rt_sched_thread_is_suspended.
      unfold get_thread. rewrite Hth. done. }
  destruct (decide (suspended th)) as [Hsu|Hsu].
  2:{ by rewrite (thread_ready_not_suspended _ _ th). }
  assert (Hw : wakeable k t \/ sched_flag_ttmr_set th = true /\
                 timer_has (kt k) (TmThread t) RT_TIMER_FLAG_ACTIVATED = false).
  { destruct (sched_flag_ttmr_set th) eqn:Hf, (timer_has (kt k) (TmThread t) RT_TIMER_FLAG_ACTIVATED) eqn:Ht;
      [left|right|left|left]; try done; exists th; rewrite Ht, ?Hf; done. }
  destruct Hw as [Hw|[Hf Ht]].
  - rewrite thread_ready_ok by done. by eapply ready_state_swf.
  - rewrite (thread_ready_race _ _ th) by done. by apply upd_ttmr_swf.
Qed.

(** ** Enqueueing a suspended thread *)
Lemma prio_insert_perm s t l : prio_insert s t l ≡ₚ t :: l.
Proof.
  induction l as [|x l IH]; simpl; [done|]. case_match; [done|]. rewrite IH. apply perm_swap.
Qed.

Definition wait_list (l : lid) : Prop := match l with LSusp _ | LSend _ => True | _ => False end.

Lemma swfx_link s t th l l' :
  swfx (Some t) s -> threads s !! t = Some th -> suspended th -> wait_list l ->
  l' ≡ₚ t :: tlist s l -> swfx None (with_tlists (qset l l' (tlists s)) s).
Proof.
  intros Hs Hth Hsu Hl Hp.
  assert (Htl : forall k, tlist (with_tlists (qset l l' (tlists s)) s) k = if decide (l = k) then l' else tlist s k).
  { intros k. unfold tlist. simpl. apply qget_set. }
  assert (Hr : forall p, tlist (with_tlists (qset l l' (tlists s)) s) (LReady p) = tlist s (LReady p)).
  { intros p. rewrite Htl, decide_False; [done|]. by intros ->. }
  constructor; try done; try by apply Hs.
  - simpl. apply qwf_insert with t; [apply Hs|by apply (sw_fresh _ _ Hs)|done].
  - intros k t'. rewrite Htl. case_decide; subst.
    + rewrite Hp. intros [->|Hin]%elem_of_cons; [|by apply (sw_link _ _ Hs)].
      exists th. split; [done|]. by destruct k.
    + apply (sw_link _ _ Hs).
  - intros t' th' Hth' Hst _. rewrite Hr. apply (sw_ready _ _ Hs); [done..|].
    intros [= ->]. simpl in Hth'. simplify_eq. by apply suspended_not_ready in Hst.
  - intros p Hp'. rewrite Hr. by apply (sw_group _ _ Hs).
Qed.

Lemma enqueue_swf l t fl k th :
  swfx (Some t) (ks k) -> threads (ks k) !! t = Some th -> suspended th -> wait_list l ->
  swfx None (ks (rt_susp_list_enqueue l t fl k)).
Proof.
  intros Hs Hth Hsu Hl. unfold rt_susp_list_enqueue.
  assert (Ha : swfx None (ks k)).
  { apply (swfx_attach t); [done|]. intros th' Hth'. simplify_eq. by apply suspended_not_ready. }
  case_match; [|case_match; [|done]]; simpl; eapply swfx_link; try done.
  - by rewrite Permutation_app_comm.
  - apply prio_insert_perm.
Qed.

(** ** [rt_thread_suspend_to_list] *)
Definition suspend_state (t : tid) (l : option lid) (fl sf : Z) (k : kstate) : kstate :=
  let k := _thread_set_suspend_state t sf (on_ks (rt_sched_remove_thread t) k) in
  match l with Some l => rt_susp_list_enqueue l t fl k | None => k end.

Lemma threads_enqueue l t fl k : threads (ks (rt_susp_list_enqueue l t fl k)) = threads (ks k).
Proof. unfold rt_susp_list_enqueue. by repeat case_match. Qed.
Lemma current_enqueue l t fl k :
  rt_current_thread (ks (rt_susp_list_enqueue l t fl k)) = rt_current_thread (ks k).
Proof. unfold rt_susp_list_enqueue. by repeat case_match. Qed.

Lemma suspend_state_thread t l fl sf k th :
  threads (ks k) !! t = Some th ->
  forall t', threads (ks (suspend_state t l fl sf k)) !! t' =
    if decide (t = t') then Some (restat (suspend_stat sf) th) else threads (ks k) !! t'.
Proof.
  intros Hth t'. unfold suspend_state.
  assert (E : forall k0, threads (ks (match l with Some l => rt_susp_list_enqueue l t fl k0 | None => k0 end))
              = threads (ks k0)) by (intros; destruct l; [apply threads_enqueue|done]).
  rewrite E. unfold _thread_set_suspend_state, upd_thr, on_ks. cbn [ks with_ks].
  rewrite lookup_upd, threads_remove. case_decide; [|done]. subst. by rewrite Hth.
Qed.

Lemma suspend_state_current t l fl sf k :
  rt_current_thread (ks (suspend_state t l fl sf k)) = rt_current_thread (ks k).
Proof.
  unfold suspend_state. destruct l; rewrite ?current_enqueue; simpl; apply current_remove.
Qed.

Lemma suspend_state_swf t l fl sf k th :
  swf (ks k) -> threads (ks k) !! t = Some th ->
  stat_of th = RT_THREAD_READY \/ stat_of th = RT_THREAD_RUNNING ->
  match l with Some l => wait_list l | None => True end -> swf (ks (suspend_state t l fl sf k)).
Proof.
  intros [Hs Hco] Hth Hst Hl. destruct (suspend_stat_spec sf th) as [Hsu Hss].
  assert (Hni : stat_of th <> RT_THREAD_INIT) by (by destruct Hst as [-> | ->]).
  split.
  - assert (H1 : swfx (Some t) (ks (_thread_set_suspend_state t sf (on_ks (rt_sched_remove_thread t) k)))).
    { apply swfx_upd_detached; [by apply (swfx_remove None _ _ th)|]. intros th' Hth'.
      simpl in Hth'. rewrite threads_remove in Hth'. assert (th' = th) as -> by congruence.
      assert (prio_ok th) by (by eapply (sw_prio None (ks k))).
      apply prio_ok_restat; [done|]. by apply prio_ok_mask_nz. }
    assert (H2 : threads (ks (_thread_set_suspend_state t sf (on_ks (rt_sched_remove_thread t) k))) !! t
                 = Some (restat (suspend_stat sf) th)).
    { apply lookup_upd_eq. simpl. by rewrite threads_remove. }
    unfold suspend_state. destruct l as [l|].
    + by eapply enqueue_swf.
    + apply (swfx_attach t); [done|]. intros th' Hth'. rewrite H2 in Hth'. simplify_eq.
      by apply suspended_not_ready.
  - constructor; rewrite suspend_state_current; intros t'.
    + intros Hc. destruct (co_cur _ Hco t' Hc) as (th' & Hth' & H1 & H2).
      rewrite (suspend_state_thread _ _ _ _ _ th) by done. case_decide; subst; [|by eauto].
      eexists. split; [done|]. eauto with rt.
    + intros th'. rewrite (suspend_state_thread _ _ _ _ _ th) by done. case_decide; subst.
      * intros [= <-] Hr. by apply suspended_not_running in Hr.
      * apply (co_running _ Hco).
Qed.

Lemma timer_stop_ks t k th :
  threads (ks k) !! t = Some th ->
  ks (rt_sched_thread_timer_stop t k).1 = upd_thread t (with_ttmr_set false) (ks k).
Proof.
  intros Hth. unfold rt_sched_thread_timer_stop.
  assert (Hget : thr k t = th) by (by apply get_thread_lookup). rewrite Hget.
  destruct (sched_flag_ttmr_set th) eqn:E.
  - by destruct (rt_timer_stop _ _).
  - simpl. symmetry. apply (upd_thread_id _ _ _ th); [done|]. by apply with_ttmr_set_id.
Qed.

Lemma suspend_to_list_eq t l fl sf k th :
  threads (ks k) !! t = Some th ->
  stat_of th = RT_THREAD_READY \/ stat_of th = RT_THREAD_RUNNING ->
  rt_thread_suspend_to_list t l fl sf k =
    ((rt_sched_thread_timer_stop t (suspend_state t l fl sf k)).1, RT_EOK).
Proof.
  intros Hth Hst. unfold rt_thread_suspend_to_list, rt_sched_thread_get_stat.
  rewrite (get_thread_lookup _ _ th) by done.
  assert (negb (stat_of th =? RT_THREAD_READY) && negb (stat_of th =? RT_THREAD_RUNNING) = false) as ->.
  { by destruct Hst as [-> | ->]. }
  unfold suspend_state. by destruct (rt_sched_thread_timer_stop _ _).
Qed.

Lemma suspend_to_list_fail t l fl sf k th :
  threads (ks k) !! t = Some th ->
  stat_of th <> RT_THREAD_READY -> stat_of th <> RT_THREAD_RUNNING ->
  rt_thread_suspend_to_list t l fl sf k = (k, - RT_ERROR).
Proof.
  intros Hth H1 H2. unfold rt_thread_suspend_to_list, rt_sched_thread_get_stat.
  rewrite (get_thread_lookup _ _ th) by done.
  by rewrite (proj2 (Z.eqb_neq _ _) H1), (proj2 (Z.eqb_neq _ _) H2).
Qed.

Lemma suspend_to_list_swf t l fl sf k th :
  swf (ks k) -> threads (ks k) !! t = Some th ->
  match l with Some l => wait_list l | None => True end ->
  swf (ks (rt_thread_suspend_to_list t l fl sf k).1).
Proof.
  intros Hs Hth Hl.
  destruct (decide (stat_of th = RT_THREAD_READY \/ stat_of th = RT_THREAD_RUNNING)) as [Hst|Hst].
  - rewrite (suspend_to_list_eq _ _ _ _ _ th) by done. cbn [fst].
    erewrite timer_stop_ks.
    + apply upd_ttmr_swf. by eapply suspend_state_swf.
    + rewrite (suspend_state_thread _ _ _ _ _ th) by done. by rewrite decide_True.
  - rewrite (suspend_to_list_fail _ _ _ _ _ th); [done|done|tauto..].
Qed.

(** ** Dequeueing *)
Lemma dequeue_swf l e k : swf (ks k) -> swf (ks (rt_susp_list_dequeue l e k).1).
Proof.
  intros Hs. unfold rt_susp_list_dequeue. destruct (susp_list k l) as [|t rest]; [done|].
  pose proof (thread_ready_swf t k Hs) as H. destruct (rt_sched_thread_ready t k) as [k1 err].
  case_match; [done|]. case_match; [|done]. by apply upd_error_swf.
Qed.
#[export] Hint Resolve dequeue_swf thread_ready_swf : rt.

Lemma resume_all_loop_swf f l e k : swf (ks k) -> swf (ks (resume_all_loop f l e k)).
Proof.
  revert k. induction f as [|f IH]; intros k Hs; [done|]. simpl.
  pose proof (dequeue_swf l e k Hs) as H. destruct (rt_susp_list_dequeue l e k) as [k1 [t|]]; auto.
Qed.
Lemma resume_all_swf l e k : swf (ks k) -> swf (ks (rt_susp_list_resume_all l e k)).
Proof. apply resume_all_loop_swf. Qed.

Lemma thread_resume_swf t k : swf (ks k) -> swf (ks (rt_thread_resume t k).1).
Proof.
  intros Hs. unfold rt_thread_resume. pose proof (thread_ready_swf t k Hs) as H.
  destruct (rt_sched_thread_ready t k) as [k1 err]. case_match; [|done].
  by apply rt_sched_unlock_n_resched_swf.
Qed.
#[export] Hint Resolve resume_all_swf thread_resume_swf : rt.

Lemma kschedule_swf k : swf (ks k) -> swf (ks (kschedule k)).
Proof. apply rt_schedule_swf_lemma. Qed.
#[export] Hint Resolve kschedule_swf : rt.

Lemma thread_startup_swf t k th :
  swf (ks k) -> threads (ks k) !! t = Some th -> stat_of th = RT_THREAD_INIT ->
  swf (ks (rt_thread_startup t k).1).
Proof.
  intros Hs Hth Hst. unfold rt_thread_startup.
  pose proof (thread_resume_swf t (on_ks (rt_sched_thread_startup t) k)) as H.
  destruct (rt_thread_resume t _) as [k1 e]. apply H. by eapply startup_swf.
Qed.

(** The timeout of a suspended thread wakes it with [-RT_ETIMEOUT]. *)
Lemma thread_timeout_swf t k th :
  swf (ks k) -> threads (ks k) !! t = Some th -> suspended th -> swf (ks (_thread_timeout t k)).
Proof.
  intros Hs Hth Hsu. unfold _thread_timeout. apply rt_sched_unlock_n_resched_swf.
  apply (wake_swf _ _ (with_error (- RT_ETIMEOUT) th)); [by apply upd_error_swf|by apply lookup_upd_eq|done].
Qed.
