(* ===== verification/Sem.v ===== *)
(** * Semaphores ([src/rt-thread/src/ipc.c]), all but the blocking take

    [rt_sem_release] is needed by the soft timers, so it comes before [Timer];
    [_rt_sem_take], which needs the timers, is in [SemTake]. *)
From S2P Require Import Prelude Queue Object Sched TimerCore Kernel.

Definition RT_SEM_VALUE_MAX : Z := 65535.
Definition RT_IPC_CMD_RESET : Z := 1.
Definition RT_IPC_CMD_SET_VLIMIT : Z := 3.

Definition get_sem (k : kstate) (n : nat) : rt_semaphore := default (Semaphore 0 0 0) (sems k !! n).
Definition set_sem (n : nat) (f : rt_semaphore -> rt_semaphore) (k : kstate) : kstate :=
  with_sems (alter f n (sems k)) k.
Definition with_value (v : Z) (s : rt_semaphore) : rt_semaphore := Semaphore (sem_flag s) v (sem_max_value s).
Definition with_max_value (v : Z) (s : rt_semaphore) : rt_semaphore := Semaphore (sem_flag s) (sem_value s) v.

(** [_ipc_object_init]: an empty suspend list. *)
Definition _ipc_object_init (o : objref) (k : kstate) : kstate :=
  on_ks (fun s => with_tlists (qset (LSusp o) [] (tlists s)) s) k.

Definition _sem_object_init (n : nat) (value flag max_value : Z) (k : kstate) : kstate :=
  let k := _ipc_object_init (OSem n) k in
  with_sems (<[n := Semaphore (u8 flag) (u16 value) (u16 max_value)]> (sems k)) k.

Definition rt_sem_init (n : nat) (name : list Z) (value flag : Z) (k : kstate) : kstate * Z :=
  let k := on_ko (rt_object_init (KIpc (OSem n)) RT_Object_Class_Semaphore name) k in
  (_sem_object_init n value flag RT_SEM_VALUE_MAX k, RT_EOK).

Definition rt_sem_detach (n : nat) (k : kstate) : kstate * Z :=
  let k := rt_susp_list_resume_all (LSusp (OSem n)) RT_ERROR k in
  (on_ko (rt_object_detach (KIpc (OSem n))) k, RT_EOK).

(** [alloc]: the number of the semaphore at the allocated address. *)
Definition rt_sem_create (alloc : option nat) (name : list Z) (value flag : Z) (k : kstate)
    : kstate * option nat :=
  let '(o, r) := rt_object_allocate ((fun n => KIpc (OSem n)) <$> alloc) RT_Object_Class_Semaphore name (ko k) in
  let k := with_ko o k in
  match alloc with
  | None => (k, None)
  | Some n => (_sem_object_init n value flag RT_SEM_VALUE_MAX k, Some n)
  end.

Definition rt_sem_delete (n : nat) (k : kstate) : kstate * Z :=
  let k := rt_susp_list_resume_all (LSusp (OSem n)) RT_ERROR k in
  (on_ko (rt_object_delete (KIpc (OSem n))) k, RT_EOK).

Definition rt_sem_release (n : nat) (k : kstate) : outcome :=
  match susp_list k (LSusp (OSem n)) with
  | _ :: _ =>
      let '(k, _) := rt_susp_list_dequeue (LSusp (OSem n)) RT_EOK k in
      Resched k (PcRet RT_EOK [])
  | [] =>
      if sem_value (get_sem k n) <? sem_max_value (get_sem k n) then
        Done (set_sem n (fun s => with_value (u16 (sem_value s + 1)) s) k) RT_EOK []
      else Done k (- RT_EFULL) []
  end.

Definition rt_sem_control (n : nat) (cmd arg : Z) (k : kstate) : outcome :=
  if cmd =? RT_IPC_CMD_RESET then
    let k := rt_susp_list_resume_all (LSusp (OSem n)) RT_ERROR k in
    let k := set_sem n (with_value (u16 arg)) k in
    Resched k (PcRet RT_EOK [])
  else if cmd =? RT_IPC_CMD_SET_VLIMIT then
    let max_value := u16 arg in
    if (RT_SEM_VALUE_MAX <? max_value) || (max_value <? 1) then Done k (- RT_EINVAL) []
    else
      let '(k, need_schedule) :=
        if max_value <? sem_value (get_sem k n) then
          match susp_list k (LSusp (OSem n)) with
          | _ :: _ => (rt_susp_list_resume_all (LSusp (OSem n)) RT_ERROR k, true)
          | [] => (k, false)
          end
        else (k, false) in
      let k := set_sem n (with_max_value max_value) k in
      if need_schedule then Resched k (PcRet RT_EOK []) else Done k RT_EOK []
  else Done k (- RT_ERROR) [].

(** A call from a context that is not preempted at the reschedule: the timer and
    interrupt code that runs with interrupts disabled. *)
Definition run_atomic (o : outcome) : kstate * Z :=
  match o with
  | Done k rc _ => (k, rc)
  | Resched k (PcRet rc _) => (kschedule k, rc)
  | Resched k _ => (kschedule k, 0)
  | Enable k _ => (k, 0)
  end.
