(* ===== verification/Timer.v ===== *)
(** * Timers: starting, expiry and the tick ([timer.c], [clock.c])

    [rt_timer_start] of a soft timer wakes the timer thread through
    [_soft_timer_sem]; expiry calls the timeout function of the timer.  The
    timeout functions of the application are the parameter [user_timeout]. *)
From S2P Require Import Prelude Queue Object Sched TimerCore Kernel Sem.

(** The semaphore [_soft_timer_sem]. *)
Definition _soft_timer_sem : nat := 0%nat.

Definition rt_timer_init (t : tmid) (name : list Z) (timeout : timeout_func_t) (parm time flag : Z) (k : kstate) : kstate :=
  let k := on_ko (rt_object_init (KTimer t) RT_Object_Class_Timer name) k in
  on_kt (_timer_init t timeout parm time flag) k.

Definition rt_timer_detach (t : tmid) (k : kstate) : kstate * Z :=
  let k := on_kt (timer_unlink t) k in
  (on_ko (rt_object_detach (KTimer t)) k, RT_EOK).

Definition rt_timer_create (alloc : option tmid) (name : list Z) (timeout : timeout_func_t)
    (parm time flag : Z) (k : kstate) : kstate * option tmid :=
  let '(o, r) := rt_object_allocate (KTimer <$> alloc) RT_Object_Class_Timer name (ko k) in
  let k := with_ko o k in
  match alloc with
  | None => (k, None)
  | Some t => (on_kt (_timer_init t timeout parm time flag) k, Some t)
  end.

Definition rt_timer_delete (t : tmid) (k : kstate) : kstate * Z :=
  let k := on_kt (timer_unlink t) k in
  (on_ko (rt_object_delete (KTimer t)) k, RT_EOK).

Definition rt_timer_start (t : tmid) (k : kstate) : kstate * Z :=
  let timer_list := if timer_has (kt k) t RT_TIMER_FLAG_SOFT_TIMER then TSoft else THard in
  let k := if timer_has (kt k) t RT_TIMER_FLAG_THREAD_TIMER
           then match t with
                | TmThread th => on_ks (rt_sched_thread_timer_start th) k
                | TmObj _ => k   (* a thread timer is embedded in a thread *)
                end
           else k in
  let '(ts, err) := _timer_start timer_list t (kt k) in
  let k := with_kt ts k in
  let k := if (err =? RT_EOK) && timer_has (kt k) t RT_TIMER_FLAG_SOFT_TIMER
           then fst (run_atomic (rt_sem_release _soft_timer_sem k)) else k in
  (k, err).

(** The two calls a timed wait makes after suspending its thread: set the
    timeout of the thread timer and start it. *)
Definition thread_timer_arm (t : tid) (timeout : Z) (k : kstate) : kstate :=
  let k := with_kt (rt_timer_control (TmThread t) (RT_TIMER_CTRL_SET_TIME (u32 timeout)) (kt k)).1.1 k in
  (rt_timer_start (TmThread t) k).1.

(** A timed wait: suspend the thread on a list and arm its timer. *)
Definition wait_on (thread : tid) (l : lid) (ipc_flags timeout suspend_flag : Z) (k : kstate) : kstate * Z :=
  let '(k, ret) := rt_thread_suspend_to_list thread (Some l) ipc_flags suspend_flag k in
  if negb (ret =? RT_EOK) then (k, ret)
  else (if 0 <? timeout then thread_timer_arm thread timeout k else k, RT_EOK).

(** The rest of a timeout after a wait that started at [tick_delta]. *)
Definition wait_remaining (k : kstate) (timeout tick_delta : Z) : Z :=
  if 0 <? timeout then
    let tick_delta := u32 (rt_tick_get (kt k) - tick_delta) in
    let timeout := i32 (u32 timeout - tick_delta) in
    if timeout <? 0 then 0 else timeout
  else timeout.

Section expiry.
Context (user_timeout : Z -> Z -> kstate -> kstate).

(** [t->timeout_func(t->parameter)] *)
Definition call_timeout (t : tmid) (k : kstate) : kstate :=
  let tm := get_timer (kt k) t in
  match timeout_func tm, t with
  | FThreadTimeout, TmThread th => _thread_timeout th k
  | FThreadTimeout, TmObj _ => k
  | FUser f, _ => user_timeout f (parameter tm) k
  end.

(** One turn of the loop of [rt_timer_check]: up to the call of the timeout
    function, with interrupts disabled, ... *)
Definition timer_pop (tmp : tlid) (t : tmid) (s : tstate) : tstate :=
  let s := _timer_remove t s in
  let s := if negb (timer_has s t RT_TIMER_FLAG_PERIODIC)
           then flag_clear RT_TIMER_FLAG_ACTIVATED t s else s in
  let s := flag_set RT_TIMER_FLAG_PROCESSING t s in
  with_rows (qpush_front tmp t (rows s)) s.

(** ... and from its return to the end of the turn. *)
Definition timer_after (l tmp : tlid) (t : tmid) (s : tstate) : tstate :=
  let s := flag_clear RT_TIMER_FLAG_PROCESSING t s in
  match row s tmp with
  | [] => s
  | _ =>
      let s := with_rows (qunlink t (rows s)) s in
      if timer_has s t RT_TIMER_FLAG_PERIODIC && timer_has s t RT_TIMER_FLAG_ACTIVATED then
        let s := flag_clear RT_TIMER_FLAG_ACTIVATED t s in
        fst (_timer_start l t s)
      else s
  end.

(** The loop of [rt_timer_check] on [_timer_list]: [current_tick] is read before
    the loop and again after every timeout function. *)
Fixpoint hard_loop (fuel : nat) (current_tick : Z) (k : kstate) : option kstate :=
  match fuel with
  | O => None
  | S f =>
      match row (kt k) THard with
      | [] => Some k
      | t :: _ =>
          if u32 (current_tick - timeout_tick (get_timer (kt k) t)) <? TICK_HALF then
            let k := on_kt (timer_pop THardTmp t) k in
            let k := call_timeout t k in
            let current_tick := rt_tick_get (kt k) in
            let k := on_kt (timer_after THard THardTmp t) k in
            hard_loop f current_tick k
          else Some k
      end
  end.

Definition rt_timer_check (fuel : nat) (k : kstate) : option kstate :=
  let k := on_kt (fun s => with_rows (qset THardTmp [] (rows s)) s) k in
  hard_loop fuel (rt_tick_get (kt k)) k.

(** [_soft_timer_check] reads the tick in every turn. *)
Fixpoint soft_loop (fuel : nat) (k : kstate) : option kstate :=
  match fuel with
  | O => None
  | S f =>
      match row (kt k) TSoft with
      | [] => Some k
      | t :: _ =>
          if u32 (rt_tick_get (kt k) - timeout_tick (get_timer (kt k) t)) <? TICK_HALF then
            let k := on_kt (timer_pop TSoftTmp t) k in
            let k := call_timeout t k in
            let k := on_kt (timer_after TSoft TSoftTmp t) k in
            soft_loop f k
          else Some k
      end
  end.

Definition _soft_timer_check (fuel : nat) (k : kstate) : option kstate :=
  let k := on_kt (fun s => with_rows (qset TSoftTmp [] (rows s)) s) k in
  soft_loop fuel k.

(** The tick interrupt. *)
Definition rt_tick_increase (fuel : nat) (k : kstate) : option kstate :=
  let k := on_kt (fun s => with_tick (u32 (rt_tick s + 1)) s) k in
  let k := on_ks rt_sched_tick_increase k in
  rt_timer_check fuel k.
End expiry.
