(* ===== verification/TimerProps.v ===== *)
(** * Timers: properties *)
From Stdlib Require Import Sorted.
From S2P Require Import Prelude Queue Object Sched TimerCore TimerFacts Kernel Sem Timer.

(** ** One turn of an expiry loop, the timeout function left out *)
Definition turn_kt (l tmp : tlid) (t : tmid) (s : tstate) : tstate :=
  timer_after l tmp t (timer_pop tmp t s).

(** The timer and the rings when the timer has been taken off the temporary
    list again, before a periodic timer is restarted. *)
Definition popped (tm : rt_timer) : rt_timer :=
  let fl := timer_flag tm in
  let fl := if is_periodic tm then fl else clear_flag fl RT_TIMER_FLAG_ACTIVATED in
  with_flag (clear_flag (set_flag fl RT_TIMER_FLAG_PROCESSING) RT_TIMER_FLAG_PROCESSING) tm.

Definition turn_mid (tmp : tlid) (t : tmid) (s : tstate) : tstate :=
  let s := flag_clear RT_TIMER_FLAG_PROCESSING t (timer_pop tmp t s) in
  with_rows (qunlink t (rows s)) s.

Lemma popped_flags tm :
  is_processing (popped tm) = false /\ is_periodic (popped tm) = is_periodic tm /\
  is_active (popped tm) = (is_periodic tm && is_active tm).
Proof.
  unfold popped; simpl. destruct (is_periodic tm) eqn:E; simpl; flag_simpl; rewrite ?E; done.
Qed.

Lemma popped_high tm m : 3 <= m -> has_flag (timer_flag (popped tm)) (2 ^ m) = has_flag (timer_flag tm) (2 ^ m).
Proof.
  intros Hm. unfold popped; simpl. destruct (is_periodic tm); flag_simpl; done.
Qed.

Lemma turn_mid_spec tmp t s tm :
  timers s !! t = Some tm ->
  (forall x, timers (turn_mid tmp t s) !! x = if decide (t = x) then Some (popped tm) else timers s !! x) /\
  (forall k, row (turn_mid tmp t s) k = unlink t (row s k)) /\
  rt_tick (turn_mid tmp t s) = rt_tick s.
Proof.
  intros Ht.
  assert (Hper : timer_has (_timer_remove t s) t RT_TIMER_FLAG_PERIODIC = is_periodic tm).
  { unfold timer_has. by rewrite (get_timer_lookup _ _ tm). }
  unfold turn_mid, timer_pop. rewrite Hper. split_and!.
  - intros x. cbn [timers with_rows]. rewrite lookup_flag_clear. cbn [timers with_rows].
    rewrite lookup_flag_set. destruct (is_periodic tm) eqn:E; cbn [negb].
    + cbn [timers with_rows _timer_remove]. case_decide; [subst|done]. rewrite Ht. simpl.
      unfold popped. by rewrite E.
    + rewrite lookup_flag_clear. cbn [timers with_rows _timer_remove].
      case_decide; [subst|done]. rewrite Ht. simpl. unfold popped. by rewrite E.
  - intros k. unfold row. cbn [rows with_rows]. rewrite qget_unlink.
    assert (Hq : forall b : bool, qget (rows (flag_clear RT_TIMER_FLAG_PROCESSING t
       (let s0 := flag_set RT_TIMER_FLAG_PROCESSING t
          (if b then flag_clear RT_TIMER_FLAG_ACTIVATED t (_timer_remove t s) else _timer_remove t s) in
        with_rows (qpush_front tmp t (rows s0)) s0))) k
       = if decide (tmp = k) then t :: unlink t (qget (rows s) tmp) else unlink t (qget (rows s) k)).
    { intros b. cbn [rows flag_clear upd_timer with_timers with_rows]. unfold qpush_front.
      rewrite qget_set. by destruct b; simpl; rewrite !qget_unlink. }
    rewrite Hq. case_decide; subst.
    + rewrite unlink_cons_eq. apply unlink_not_in. by intros [? _]%elem_of_unlink.
    + apply unlink_not_in. by intros [? _]%elem_of_unlink.
  - by destruct (negb _).
Qed.

Lemma unlink_twice {A} `{EqDecision A} (x : A) (l : list A) : unlink x (unlink x l) = unlink x l.
Proof. apply unlink_not_in. by intros [? _]%elem_of_unlink. Qed.

Lemma turn_mid_qwf tmp t s : twf s -> qwf (rows (turn_mid tmp t s)).
Proof.
  intros Hw. unfold turn_mid. cbn [rows with_rows]. apply qwf_qunlink.
  unfold timer_pop. cbn [rows flag_clear upd_timer with_timers with_rows].
  assert (Hb : forall b : bool, rows (flag_set RT_TIMER_FLAG_PROCESSING t
     (if b then flag_clear RT_TIMER_FLAG_ACTIVATED t (_timer_remove t s) else _timer_remove t s))
     = qunlink t (rows s)) by (by intros []).
  rewrite Hb. apply qwf_push_front; [apply qwf_qunlink, Hw|apply qfresh_qunlink].
Qed.

(** The temporary list still holds the timer, so the turn goes on. *)
Lemma turn_kt_eq l tmp t s tm :
  timers s !! t = Some tm -> is_active tm = true ->
  turn_kt l tmp t s =
    if is_periodic tm
    then fst (_timer_start l t (flag_clear RT_TIMER_FLAG_ACTIVATED t (turn_mid tmp t s)))
    else turn_mid tmp t s.
Proof.
  intros Ht Hact. destruct (turn_mid_spec tmp t s tm Ht) as (Mt & _ & _).
  destruct (popped_flags tm) as (_ & F2 & F3). rewrite Hact, andb_true_r in F3.
  unfold turn_kt, timer_after.
  assert (row (flag_clear RT_TIMER_FLAG_PROCESSING t (timer_pop tmp t s)) tmp <> []) as Hnn.
  { unfold row, timer_pop. cbn [rows flag_clear upd_timer with_timers with_rows]. unfold qpush_front.
    by rewrite qget_set_eq. }
  destruct (row (flag_clear RT_TIMER_FLAG_PROCESSING t (timer_pop tmp t s)) tmp); [done|].
  change (with_rows _ _) with (turn_mid tmp t s). unfold timer_has.
  rewrite (get_timer_lookup _ _ (popped tm)) by (rewrite Mt; by rewrite decide_True).
  rewrite F2, F3. by destruct (is_periodic tm).
Qed.

(** What a turn of the loop does to the expired timer [t] at the head of [l]: a
    one-shot timer is inactive and off the lists, a periodic one is inserted
    again with the expiry [now + init_tick]. *)
Definition turn_post (l tmp : tlid) (t : tmid) (s : tstate) (tm : rt_timer) (rest : list tmid)
    (s' : tstate) : Prop :=
  twf s' /\ rt_tick s' = rt_tick s /\ row s' tmp = [] /\
  (forall x, x <> t -> timers s' !! x = timers s !! x) /\
  exists tm', timers s' !! t = Some tm' /\ is_processing tm' = false /\
    is_periodic tm' = is_periodic tm /\ timer_init_tick tm' = timer_init_tick tm /\
    is_active tm' = is_periodic tm /\
    (is_periodic tm = true -> timeout_tick tm' = u32 (rt_tick s + timer_init_tick tm)) /\
    row s' l = (if is_periodic tm then timer_insert s' t rest else rest) /\
    timeout_func tm' = timeout_func tm /\
    forall m, 3 <= m -> has_flag (timer_flag tm') (2 ^ m) = has_flag (timer_flag tm) (2 ^ m).

Lemma turn_one_shot l tmp t s tm rest :
  twf s -> unlink t (row s l) = rest -> row s tmp = [] -> timers s !! t = Some tm ->
  is_periodic tm = false -> is_active tm = true -> turn_post l tmp t s tm rest (turn_mid tmp t s).
Proof.
  intros Hw Hrest Htmp Ht Eper Hact. destruct (turn_mid_spec tmp t s tm Ht) as (Mt & Mr & Mk).
  destruct (popped_flags tm) as (F1 & F2 & F3). rewrite Hact, andb_true_r in F3. rewrite Eper in *.
  unfold turn_post. rewrite Eper. split_and!; try done.
  - apply (twf_unlinked s _ t); try done.
    + intros x Hx. by rewrite Mt, decide_False.
    + intros tm'. rewrite Mt, decide_True by done. by intros [= <-].
    + by apply turn_mid_qwf.
  - by rewrite Mr, Htmp.
  - intros x Hx. by rewrite Mt, decide_False.
  - exists (popped tm). rewrite Mt, decide_True by done. split_and!; try done; [by rewrite Mr|].
    apply popped_high.
Qed.

Lemma turn_periodic l tmp t s tm rest :
  twf s -> l <> tmp -> unlink t (row s l) = rest -> row s tmp = [] -> timers s !! t = Some tm ->
  is_periodic tm = true -> is_active tm = true ->
  turn_post l tmp t s tm rest
    (fst (_timer_start l t (flag_clear RT_TIMER_FLAG_ACTIVATED t (turn_mid tmp t s)))).
Proof.
  intros Hw Hne Hrest Htmp Ht Eper Hact. destruct (turn_mid_spec tmp t s tm Ht) as (Mt & Mr & Mk).
  destruct (popped_flags tm) as (F1 & F2 & F3). rewrite Hact, andb_true_r in F3. rewrite Eper in *.
  set (s1 := turn_mid tmp t s) in *. set (s2 := flag_clear RT_TIMER_FLAG_ACTIVATED t s1).
  set (tm2 := with_flag (clear_flag (timer_flag (popped tm)) RT_TIMER_FLAG_ACTIVATED) (popped tm)).
  assert (Ht2 : forall x, timers s2 !! x = if decide (t = x) then Some tm2 else timers s !! x).
  { intros x. unfold s2. rewrite lookup_flag_clear, Mt. by case_decide. }
  assert (F : is_active tm2 = false /\ is_processing tm2 = false /\ is_periodic tm2 = true).
  { destruct (clear_active_flags (popped tm)) as (E1 & E2 & E3).
    unfold tm2. by rewrite E1, E2, E3, F1, F2. }
  destruct F as (G1 & G2 & G3).
  assert (Hw2 : twf s2).
  { apply (twf_unlinked s s2 t); try done.
    - intros x Hx. by rewrite Ht2, decide_False.
    - intros tm'. rewrite Ht2, decide_True by done. by intros [= <-].
    - by apply (turn_mid_qwf tmp t s). }
  assert (Ht2t : timers s2 !! t = Some tm2) by (by rewrite Ht2, decide_True).
  destruct (timer_start_spec l t s2 tm2 Ht2t G2) as (s' & Est & Hk & Htm & Hrow).
  rewrite Est. cbn [fst].
  assert (Hk2 : rt_tick s2 = rt_tick s) by exact Mk.
  assert (Hrow' : forall k, row s' k = if decide (l = k) then timer_insert s' t rest else unlink t (row s k)).
  { intros k. rewrite (row_qset _ _ k _ _ Hrow). change (row s2 l) with (row s1 l).
    rewrite qget_unlink. change (qget (rows s2) k) with (row s1 k).
    rewrite !Mr, !unlink_twice. by subst rest. }
  unfold turn_post. rewrite Eper. split_and!.
  - by apply (timer_start_twf l t s2 s' tm2).
  - by rewrite Hk.
  - rewrite Hrow', decide_False, Htmp by done. done.
  - intros x Hx. by rewrite Htm, decide_False, Ht2, decide_False by congruence.
  - exists (started (rt_tick s2) tm2). rewrite Htm, decide_True by done.
    destruct (started_flags (rt_tick s2) tm2) as (S1 & S2 & S3).
    split_and!; try done; [by rewrite S2|by rewrite S3|by rewrite Hk2|by rewrite Hrow', decide_True|].
    intros m Hm. rewrite <- (popped_high tm) by done. unfold started, tm2; simpl. flag_simpl. done.
Qed.

Lemma turn_kt_spec l tmp t s tm rest :
  twf s -> l = THard \/ l = TSoft -> l <> tmp -> row s l = (t :: rest) -> row s tmp = [] ->
  timers s !! t = Some tm -> turn_post l tmp t s tm rest (turn_kt l tmp t s).
Proof.
  intros Hw Hl Hne Hr Htmp Ht.
  assert (Hact : is_active tm = true).
  { apply (tw_listed _ Hw l t tm Hl); [rewrite Hr; left|done]. }
  assert (Hrest : unlink t (row s l) = rest).
  { rewrite Hr. apply unlink_head. pose proof (qwf_nodup _ (tw_q _ Hw) l) as Hnd.
    unfold row in Hr. rewrite Hr in Hnd. by apply NoDup_cons in Hnd as [? _]. }
  rewrite (turn_kt_eq _ _ _ _ tm) by done. destruct (is_periodic tm) eqn:E.
  - by apply turn_periodic.
  - by apply turn_one_shot.
Qed.

(** ** The loop *)
Lemma due_key b s x :
  tkey b s x < TICK_HALF -> u32 (rt_tick s - b) < TICK_HALF ->
  (u32 (rt_tick s - timeout_tick (get_timer s x)) <? TICK_HALF) = (tkey b s x <=? u32 (rt_tick s - b)).
Proof.
  intros Hx Hn. rewrite <- (u32_idem_sub _ _ b). fold (tkey b s x).
  pose proof (u32_range (timeout_tick (get_timer s x) - b)) as Rx. fold (tkey b s x) in Rx.
  pose proof (u32_range (rt_tick s - b)) as Rn. set (n := u32 (rt_tick s - b)) in *.
  rewrite TICK_HALF_val in *. destruct (Z.leb_spec (tkey b s x) n).
  - rewrite u32_small by lia. apply Z.ltb_lt. lia.
  - assert (u32 (n - tkey b s x) = n - tkey b s x + 2 ^ 32) as ->.
    { unfold u32. rewrite <- (Z.mod_add _ 1) by lia. apply Z.mod_small. lia. }
    apply Z.ltb_ge. lia.
Qed.

(** The list is cut into the due timers [d] and the others [r]; [n] ticks have
    passed since [b]. *)
Record loop_inv (b : Z) (s : tstate) (l tmp : tlid) (d r : list tmid) : Prop := {
  li_wf : twf s;
  li_row : row s l = d ++ r;
  li_tmp : row s tmp = [];
  li_ok : trow_ok b s (d ++ r);
  li_now : u32 (rt_tick s - b) < TICK_HALF;
  li_due : forall x, x ∈ d -> tkey b s x <= u32 (rt_tick s - b);
  li_later : forall x, x ∈ r -> u32 (rt_tick s - b) < tkey b s x;
  li_period : forall x tm, x ∈ d -> timers s !! x = Some tm -> is_periodic tm = true ->
    0 < timer_init_tick tm /\ u32 (rt_tick s - b) + timer_init_tick tm < TICK_HALF;
}.

Lemma split_after (d r l1 l2 : list tmid) (P : tmid -> Prop) :
  d ++ r = l1 ++ l2 -> (forall x, x ∈ d -> ~ P x) -> (forall x, x ∈ l2 -> P x) ->
  exists r1, l1 = d ++ r1 /\ r = r1 ++ l2.
Proof.
  intros E Hd Hl. apply app_eq_inv in E as [(k & -> & ->)|(k & -> & ->)]; [|by eauto].
  destruct k as [|x k]; [exists []; by rewrite !app_nil_r|].
  exfalso. apply (Hd x).
  - rewrite elem_of_app, elem_of_cons. auto.
  - apply Hl. rewrite elem_of_app, elem_of_cons. auto.
Qed.

(** A turn takes the first due timer away; a periodic one joins the others. *)
Lemma loop_inv_turn b s l tmp t d r :
  loop_inv b s l tmp (t :: d) r -> l = THard \/ l = TSoft -> l <> tmp ->
  exists r', loop_inv b (turn_kt l tmp t s) l tmp d r'.
Proof.
  intros [Hw Hr Htmp Hok Hn Hd Hl Hp] Hlt Hne.
  destruct (tw_live _ Hw l t) as [tm Ht]; [rewrite Hr; left|].
  destruct (turn_kt_spec l tmp t s tm (d ++ r) Hw Hlt Hne Hr Htmp Ht)
    as (Hw' & Hk & Htmp' & Hx & tm' & Ht' & _ & _ & _ & _ & Hto & Hrow & _).
  set (s' := turn_kt l tmp t s) in *.
  assert (Hnin : t ∉ d ++ r).
  { pose proof (qwf_nodup _ (tw_q _ Hw) l) as Hnd. unfold row in Hr. rewrite Hr in Hnd.
    by apply NoDup_cons in Hnd as [? _]. }
  assert (Hkey : forall x, x ∈ d ++ r -> tkey b s' x = tkey b s x).
  { intros x Hin. apply tkey_ext, Hx. by intros ->. }
  assert (Hok' : trow_ok b s' (d ++ r)).
  { apply (trow_ok_ext b s).
    - intros x Hin. unfold get_timer. rewrite Hx; [done|by intros ->].
    - destruct Hok as [Hs Hb]. inversion Hs; subst. split; [done|]. intros x Hin. apply Hb. by right. }
  assert (Hper : forall x tm, x ∈ d -> timers s' !! x = Some tm -> is_periodic tm = true ->
    0 < timer_init_tick tm /\ u32 (rt_tick s' - b) + timer_init_tick tm < TICK_HALF).
  { intros x tmx Hin. rewrite Hx by (intros ->; apply Hnin, elem_of_app; by left). rewrite Hk. apply Hp. by right. }
  destruct (is_periodic tm) eqn:Eper.
  - destruct (Hp t tm) as [Hi Hb]; [left|done|done|].
    assert (Hkt : tkey b s' t = u32 (rt_tick s - b) + timer_init_tick tm).
    { unfold tkey. rewrite (get_timer_lookup _ _ tm'), Hto by done.
      pose proof (u32_range (rt_tick s - b)). rewrite TICK_HALF_val in *.
      rewrite <- (u32_small (u32 (rt_tick s - b) + timer_init_tick tm)) by lia.
      unfold u32. rewrite Zminus_mod_idemp_l, Zplus_mod_idemp_l. f_equal. lia. }
    destruct (timer_insert_split b s' t (d ++ r)) as (l1 & l2 & El & Ei & I1 & I2); [done|lia|].
    destruct (split_after d r l1 l2 (fun x => tkey b s' t < tkey b s' x)) as (r1 & -> & ->); [done| |done|].
    { intros x Hin. rewrite (Hkey x) by (apply elem_of_app; by left). assert (x ∈ t :: d) as Hin' by (by right). apply Hd in Hin'. lia. }
    exists (r1 ++ t :: l2). constructor; try done.
    + by rewrite Hrow, Ei, <- app_assoc.
    + rewrite app_assoc. split.
      * apply sorted_insert; [|done|done]. rewrite <- app_assoc. apply Hok'.
      * intros x Hin. destruct (decide (x = t)) as [->|]; [lia|]. apply Hok'. rewrite !elem_of_app, elem_of_cons in *. tauto.
    + by rewrite Hk.
    + intros x Hin. rewrite Hk, Hkey by (apply elem_of_app; by left). apply Hd. by right.
    + intros x Hin. rewrite Hk. destruct (decide (x = t)) as [->|]; [lia|].
      rewrite elem_of_app, elem_of_cons in Hin.
      assert (x ∈ r1 ++ l2) as Hin' by (rewrite elem_of_app; tauto).
      rewrite Hkey; [by apply Hl|]. apply elem_of_app. by right.
  - exists r. constructor; try done.
    + by rewrite Hk.
    + intros x Hin. rewrite Hk, Hkey by (apply elem_of_app; by left). apply Hd. by right.
    + intros x Hin. rewrite Hk, Hkey by (apply elem_of_app; by right). by apply Hl.
Qed.

Section check.
Context (user_timeout : Z -> Z -> kstate -> kstate).
(** The timeout functions of the application leave the timers alone. *)
Context (Huser : forall f p k, kt (user_timeout f p k) = kt k).

(** One turn of [rt_timer_check] with the call of the timeout function. *)
Definition turn (t : tmid) (k : kstate) : kstate :=
  on_kt (timer_after THard THardTmp t)
    (call_timeout user_timeout t (on_kt (timer_pop THardTmp t) k)).

Lemma kt_call_timeout t k : kt (call_timeout user_timeout t k) = kt k.
Proof. unfold call_timeout. destruct (timeout_func _); [by destruct t|apply Huser]. Qed.

Lemma kt_turn t k : kt (turn t k) = turn_kt THard THardTmp t (kt k).
Proof. unfold turn, on_kt. cbn [kt with_kt]. by rewrite kt_call_timeout. Qed.

Lemma loop_inv_tick b l tmp t d r s :
  loop_inv b s l tmp (t :: d) r -> l = THard \/ l = TSoft -> l <> tmp ->
  rt_tick (turn_kt l tmp t s) = rt_tick s.
Proof.
  intros [Hw Hr Htmp _ _ _ _ _] Hl Hne. destruct (tw_live _ Hw l t) as [tm Ht]; [rewrite Hr; left|].
  by apply (turn_kt_spec l tmp t s tm (d ++ r)).
Qed.

Lemma hard_loop_fold b d : forall r k fuel,
  loop_inv b (kt k) THard THardTmp d r -> (length d < fuel)%nat ->
  let k' := foldl (fun k t => turn t k) k d in
  hard_loop user_timeout fuel (rt_tick (kt k)) k = Some k' /\ rt_tick (kt k') = rt_tick (kt k) /\
  exists r', loop_inv b (kt k') THard THardTmp [] r'.
Proof.
  induction d as [|t d IH]; intros r k fuel Hinv Hf; (destruct fuel as [|fuel]; [lia|]); simpl.
  - split; [|split; [done|by exists r]]. pose proof (li_row _ _ _ _ _ _ Hinv) as Hr. simpl in Hr.
    rewrite Hr. destruct r as [|x r]; [done|].
    rewrite (due_key b) by (try apply Hinv; left).
    pose proof (li_later _ _ _ _ _ _ Hinv x ltac:(left)). rewrite (proj2 (Z.leb_gt _ _)) by done. done.
  - pose proof (li_row _ _ _ _ _ _ Hinv) as Hr. rewrite Hr. simpl.
    rewrite (due_key b) by (try apply Hinv; left).
    rewrite (proj2 (Z.leb_le _ _)) by (apply Hinv; left).
    destruct (loop_inv_turn b _ THard THardTmp t d r Hinv) as [r' Hinv']; [by left|done|].
    pose proof (loop_inv_tick b THard THardTmp t d r _ Hinv (or_introl eq_refl) ltac:(done)) as Htk.
    rewrite <- kt_turn in Hinv', Htk. fold (turn t k).
    assert (rt_tick_get (kt (call_timeout user_timeout t (on_kt (timer_pop THardTmp t) k)))
            = rt_tick (kt (turn t k))) as ->.
    { rewrite kt_call_timeout, Htk. unfold rt_tick_get. cbn [kt on_kt with_kt].
      unfold timer_pop. by destruct (negb _). }
    destruct (IH r' (turn t k) fuel Hinv') as (H1 & H2 & H3); [simpl in Hf; lia|].
    split; [done|]. split; [by rewrite H2|done].
Qed.

(** The expired timers of a sorted list are a prefix of it. *)
Definition due (b : Z) (s : tstate) : list tmid :=
  filter (fun x => tkey b s x <= u32 (rt_tick s - b)) (row s THard).
Definition later (b : Z) (s : tstate) : list tmid :=
  filter (fun x => ~ tkey b s x <= u32 (rt_tick s - b)) (row s THard).

Lemma sorted_filter_split (key : tmid -> Z) n l :
  StronglySorted (fun x y => key x <= key y) l ->
  l = filter (fun x => key x <= n) l ++ filter (fun x => ~ key x <= n) l.
Proof.
  induction 1 as [|x l Hs IH Hx]; [done|]. rewrite !filter_cons.
  destruct (decide (key x <= n)) as [Hle|Hgt].
  - rewrite (decide_False (P := ~ _)) by tauto. simpl. by f_equal.
  - rewrite (decide_True (P := ~ _)) by done. rewrite Forall_forall in Hx.
    assert (forall y, y ∈ l -> ~ key y <= n) as Hall.
    { intros y Hy. specialize (Hx y Hy). simpl in Hx. lia. }
    rewrite (filter_none _ l) by done. simpl. f_equal. by rewrite filter_all.
Qed.

Lemma loop_inv_start b s :
  twf s -> row s THardTmp = [] -> trow_ok b s (row s THard) -> u32 (rt_tick s - b) < TICK_HALF ->
  (forall x tm, x ∈ due b s -> timers s !! x = Some tm -> is_periodic tm = true ->
     0 < timer_init_tick tm /\ u32 (rt_tick s - b) + timer_init_tick tm < TICK_HALF) ->
  loop_inv b s THard THardTmp (due b s) (later b s).
Proof.
  intros Hw Htmp Hok Hn Hp. pose proof (sorted_filter_split (tkey b s) (u32 (rt_tick s - b)) _ (tr_sorted _ _ _ Hok)) as E.
  fold (due b s) (later b s) in E. constructor; try done.
  - by rewrite <- E.
  - intros x. unfold due. rewrite list_elem_of_filter. tauto.
  - intros x. unfold later. rewrite list_elem_of_filter. lia.
Qed.

Definition clear_tmp (s : tstate) : tstate := with_rows (qset THardTmp [] (rows s)) s.
Lemma clear_tmp_row s l : row s THardTmp = [] -> row (clear_tmp s) l = row s l.
Proof. intros E. unfold row, clear_tmp. cbn [rows with_rows]. rewrite qget_set. case_decide; by subst. Qed.

Lemma twf_clear_tmp s : row s THardTmp = [] -> twf s -> twf (clear_tmp s).
Proof.
  intros E [Hq Hlv Hls Ha]. pose proof (fun l => clear_tmp_row s l E) as Hr. constructor.
  - split.
    + intros l. change (NoDup (row (clear_tmp s) l)). rewrite Hr. apply Hq.
    + intros l1 l2 x. change (x ∈ row (clear_tmp s) l1 -> x ∈ row (clear_tmp s) l2 -> l1 = l2).
      rewrite !Hr. apply Hq.
  - intros l t. rewrite Hr. apply Hlv.
  - intros l t tm Hl. rewrite Hr. by apply Hls.
  - intros t tm H1 H2. destruct (Ha t tm H1 H2) as [l Hl]. exists l. by rewrite Hr.
Qed.
End check.


(** A small timer state for the witnesses: at tick 100 the one-shot timer 0 and
    the periodic timer 1 (period 5) have expired, timer 2 expires at 107. *)
Definition demo_timers : tstate := TState 100
  (list_to_map [(TmObj 0, Timer 1 (FUser 0) 0 3 98); (TmObj 1, Timer 5 (FUser 1) 0 5 100);
                (TmObj 2, Timer 1 (FUser 2) 0 10 107)])
  (list_to_map [(THard, [TmObj 0; TmObj 1; TmObj 2])]) 0.
Definition demo_sched0 : sstate := SState ∅ ∅ 0 None 0 0 1.
Definition demo_k : kstate := KState demo_sched0 demo_timers (OState ∅ ∅) ∅ ∅ ∅ ∅ ∅ ∅.

(** The invariant on a finite state. *)
Definition twfb (s : tstate) : bool :=
  bool_decide (NoDup (concat (snd <$> map_to_list (rows s)))) &&
  forallb (fun '(l, ts) => forallb (fun t => match timers s !! t with
     | Some tm => bool_decide (l = THardTmp \/ l = TSoftTmp) || (is_active tm && negb (is_processing tm))
     | None => false end) ts) (map_to_list (rows s)) &&
  forallb (fun '(t, tm) => negb (is_active tm) ||
     existsb (fun lt : tlid * list tmid => bool_decide (t ∈ lt.2)) (map_to_list (rows s))) (map_to_list (timers s)).

Lemma elem_of_row s l t :
  t ∈ row s l -> exists ts, (l, ts) ∈ map_to_list (rows s) /\ t ∈ ts.
Proof.
  unfold row, qget. destruct (rows s !! l) as [ts|] eqn:E; simpl.
  - intros Hin. exists ts. split; [by apply elem_of_map_to_list|done].
  - intros Hin. by apply not_elem_of_nil in Hin.
Qed.

Lemma twfb_spec s : twfb s = true -> twf s.
Proof.
  unfold twfb. rewrite !andb_true_iff, bool_decide_eq_true, !forallb_forall. intros [[Hq Hl] Ha].
  assert (Hlk : forall l t, t ∈ row s l -> exists tm, timers s !! t = Some tm /\
     (l = THard \/ l = TSoft -> is_active tm = true /\ is_processing tm = false)).
  { intros l t Hin. destruct (elem_of_row s l t Hin) as (ts & M & T).
    apply list_elem_of_In in M, T. specialize (Hl _ M). simpl in Hl.
    rewrite forallb_forall in Hl. specialize (Hl _ T). destruct (timers s !! t) as [tm|]; [|done].
    exists tm. split; [done|]. intros Hlt.
    rewrite bool_decide_false in Hl by (destruct Hlt as [-> | ->]; intros [? | ?]; done).
    by apply andb_true_iff in Hl as [-> ->%negb_true_iff]. }
  constructor.
  - by apply NoDup_concat_qwf.
  - intros l t Hin. destruct (Hlk l t Hin) as (tm & ? & _). eauto.
  - intros l t tm Hlt Hin Ht. destruct (Hlk l t Hin) as (tm' & Ht' & H). simplify_eq. auto.
  - intros t tm Ht Hact. apply elem_of_map_to_list, list_elem_of_In in Ht. specialize (Ha _ Ht).
    cbv beta iota in Ha. rewrite Hact in Ha. cbn [negb orb] in Ha. apply existsb_exists in Ha as ([l ts] & M & T).
    apply bool_decide_eq_true in T. apply list_elem_of_In, elem_of_map_to_list in M.
    exists l. unfold row, qget. by rewrite M.
Qed.


(** Starting a timer whose expiry lies within half the tick range keeps the
    list sorted by expiry, puts the timer after every timer that expires no
    later - timers with equal expiry stay in starting order - and changes no
    other timer and no other list. *)
Theorem timer_start_sorted (b : Z) (l : tlid) (t : tmid) (s s' : tstate) (tm : rt_timer) :
  twf s -> l = THard \/ l = TSoft -> timers s !! t = Some tm -> is_processing tm = false ->
  trow_ok b s (row s l) -> u32 (rt_tick s + timer_init_tick tm - b) < TICK_HALF ->
  _timer_start l t s = (s', RT_EOK) ->
  twf s' /\ trow_ok b s' (row s' l) /\
  timeout_tick (get_timer s' t) = u32 (rt_tick s + timer_init_tick tm) /\
  (exists l1 l2, unlink t (row s l) = l1 ++ l2 /\ row s' l = l1 ++ t :: l2 /\
     (forall x, x ∈ l1 -> tkey b s x <= u32 (rt_tick s + timer_init_tick tm - b)) /\
     (forall x, x ∈ l2 -> u32 (rt_tick s + timer_init_tick tm - b) < tkey b s x)) /\
  (forall x, x <> t -> timers s' !! x = timers s !! x) /\
  (forall k, k <> l -> row s' k = unlink t (row s k)).
Proof.
  intros Hw Hl Ht Hp Hok Hb Hst. split; [by eapply timer_start_twf|].
  destruct (timer_start_spec l t s tm Ht Hp) as (s1 & E & Hk & Htm & Hr).
  rewrite Hst in E. injection E as <-.
  assert (Hget : get_timer s' t = started (rt_tick s) tm).
  { apply get_timer_lookup. by rewrite Htm, decide_True. }
  assert (Hkt : tkey b s' t = u32 (rt_tick s + timer_init_tick tm - b)).
  { unfold tkey. rewrite Hget. simpl. unfold u32. by rewrite Zminus_mod_idemp_l. }
  assert (Hx : forall x, x <> t -> timers s' !! x = timers s !! x).
  { intros x Hne. by rewrite Htm, decide_False. }
  assert (Hkx : forall x, x ∈ unlink t (row s l) -> tkey b s' x = tkey b s x).
  { intros x [Hne _]%elem_of_unlink. by apply tkey_ext, Hx. }
  assert (Hok' : trow_ok b s' (unlink t (row s l))).
  { apply (trow_ok_ext b s); [|by apply trow_ok_unlink].
    intros x [Hne _]%elem_of_unlink. unfold get_timer. by rewrite Hx. }
  destruct (timer_insert_split b s' t (unlink t (row s l)) Hok') as (l1 & l2 & E1 & E2 & I1 & I2); [lia|].
  assert (Hrow : row s' l = l1 ++ t :: l2) by (by rewrite (row_qset _ _ l _ _ Hr), decide_True).
  split; [|split; [by rewrite Hget|split; [|split; [done|]]]].
  - rewrite Hrow. split.
    + apply sorted_insert; [|done|done]. rewrite <- E1. apply Hok'.
    + intros x Hin. destruct (decide (x = t)) as [->|]; [lia|]. apply Hok'. rewrite E1.
      rewrite elem_of_app, elem_of_cons in *. tauto.
  - exists l1, l2. rewrite <- Hkt. split; [done|]. split; [done|]. split; intros x Hin.
    + rewrite <- Hkx; [by apply I1|]. rewrite E1. apply elem_of_app. by left.
    + rewrite <- Hkx; [by apply I2|]. rewrite E1. apply elem_of_app. by right.
  - intros k Hne. rewrite (row_qset _ _ k _ _ Hr), decide_False by done. apply qget_unlink.
Qed.

Lemma demo_timers_ok : trow_ok 97 demo_timers (row demo_timers THard).
Proof.
  change (row demo_timers THard) with [TmObj 0; TmObj 1; TmObj 2].
  split; [repeat constructor; vm_compute; discriminate|].
  intros x Hx. repeat (apply elem_of_cons in Hx as [->|Hx]; [vm_compute; reflexivity|]).
  by apply not_elem_of_nil in Hx.
Qed.

Lemma timer_start_sorted_witness :
  exists s', _timer_start THard (TmObj 0) demo_timers = (s', RT_EOK) /\
    trow_ok 97 s' (row s' THard) /\ row s' THard = [TmObj 1; TmObj 0; TmObj 2].
Proof.
  destruct (timer_start_sorted 97 THard (TmObj 0) demo_timers
              (fst (_timer_start THard (TmObj 0) demo_timers)) (Timer 1 (FUser 0) 0 3 98))
    as (_ & H & _); [apply twfb_spec; vm_compute; reflexivity|by left|reflexivity|reflexivity|
      exact demo_timers_ok|vm_compute; reflexivity|reflexivity|].
  eexists. split; [reflexivity|]. split; [exact H|reflexivity].
Defined.

(** [rt_timer_next_timeout_tick] is the earliest expiry of the hard timers:
    the expiry of a listed timer that no other listed timer precedes, and
    [RT_TICK_MAX] exactly when no hard timer is listed. *)
Theorem next_timeout_minimal (b : Z) (s : tstate) :
  trow_ok b s (row s THard) ->
  match row s THard with
  | [] => rt_timer_next_timeout_tick s = RT_TICK_MAX
  | _ => exists t, t ∈ row s THard /\ rt_timer_next_timeout_tick s = timeout_tick (get_timer s t) /\
           forall x, x ∈ row s THard -> tkey b s t <= tkey b s x
  end.
Proof.
  intros [Hs _]. unfold rt_timer_next_timeout_tick, _timer_list_next_timeout.
  destruct (row s THard) as [|t l]; [done|]. exists t. split; [left|]. split; [done|].
  inversion Hs as [|? ? _ Hf]; subst. rewrite Forall_forall in Hf.
  intros x [->|Hx]%elem_of_cons; [lia|]. by apply Hf.
Qed.

Lemma next_timeout_minimal_witness :
  trow_ok 97 demo_timers (row demo_timers THard) /\ rt_timer_next_timeout_tick demo_timers = 98.
Proof.
  split; [exact demo_timers_ok|].
  destruct (next_timeout_minimal 97 demo_timers demo_timers_ok) as (t & _ & _ & _). reflexivity.
Defined.

(** A one-shot timer cannot be started again from its own timeout function:
    while the timer is being processed [_timer_start] refuses and changes
    nothing, although the expiry loop has a case for a timer that was started
    again. *)
Theorem timer_restart_in_callback (l tmp : tlid) (t : tmid) (s : tstate) (tm : rt_timer) :
  timers s !! t = Some tm ->
  let s1 := timer_pop tmp t s in _timer_start l t s1 = (s1, - RT_ERROR).
Proof.
  intros Ht s1. unfold _timer_start, timer_has.
  assert (H : exists tm', timers s1 !! t = Some tm' /\ is_processing tm' = true).
  { unfold s1, timer_pop. cbn [timers with_rows]. rewrite lookup_flag_set, decide_True by done.
    destruct (negb _); rewrite ?lookup_flag_clear, ?decide_True by done;
      cbn [timers _timer_remove with_rows]; rewrite Ht; simpl; eexists; (split; [done|]); simpl;
      flag_simpl; done. }
  destruct H as (tm' & H1 & H2). by rewrite (get_timer_lookup _ _ tm'), H2.
Qed.

Lemma timer_restart_in_callback_witness :
  snd (_timer_start THard (TmObj 0) (timer_pop THardTmp (TmObj 0) demo_timers)) = - RT_ERROR.
Proof.
  rewrite (timer_restart_in_callback THard THardTmp (TmObj 0) demo_timers (Timer 1 (FUser 0) 0 3 98));
    reflexivity.
Defined.

(** A periodic timer with [init_tick = 0] never leaves the expiry loop: once
    it is the only hard timer and has expired, no amount of fuel ends
    [rt_timer_check]. *)
Theorem rt_timer_check_zero_period (user_timeout : Z -> Z -> kstate -> kstate) (fuel : nat) (k : kstate)
    (t : tmid) (tm : rt_timer) :
  (forall f p k, kt (user_timeout f p k) = kt k) ->
  twf (kt k) -> row (kt k) THard = [t] -> row (kt k) THardTmp = [] -> timers (kt k) !! t = Some tm ->
  is_periodic tm = true -> timer_init_tick tm = 0 -> 0 <= rt_tick (kt k) < 2 ^ 32 ->
  timeout_tick tm = rt_tick (kt k) ->
  rt_timer_check user_timeout fuel k = None.
Proof.
  intros Huser Hw Hr Htmp Ht Hp Hi Hk Hto. unfold rt_timer_check.
  assert (H : forall fuel k tm, twf (kt k) -> row (kt k) THard = [t] -> row (kt k) THardTmp = [] ->
     timers (kt k) !! t = Some tm -> is_periodic tm = true -> timer_init_tick tm = 0 ->
     0 <= rt_tick (kt k) < 2 ^ 32 -> timeout_tick tm = rt_tick (kt k) ->
     hard_loop user_timeout fuel (rt_tick (kt k)) k = None).
  { clear -Huser. induction fuel as [|f IH]; [done|]. intros k tm Hw Hr Htmp Ht Hp Hi Hk Hto. simpl.
    rewrite Hr, (get_timer_lookup _ _ tm), Hto, Z.sub_diag by done. simpl.
    destruct (turn_kt_spec THard THardTmp t (kt k) tm [] Hw ltac:(by left) ltac:(done) Hr Htmp Ht)
      as (Hw' & Hk' & Htmp' & _ & tm' & Ht' & _ & Hp' & Hi' & _ & Hto' & Hrow & _).
    rewrite <- (kt_turn user_timeout Huser) in *. fold (turn user_timeout t k).
    rewrite kt_call_timeout by done.
    replace (rt_tick_get (kt (on_kt (timer_pop THardTmp t) k))) with (rt_tick (kt (turn user_timeout t k))).
    2:{ rewrite Hk'. cbn [kt on_kt with_kt]. unfold timer_pop. by destruct (negb _). }
    rewrite Hp in *. apply (IH (turn user_timeout t k) tm'); try done; try congruence.
    rewrite Hk'. rewrite Hto', Hi, Z.add_0_r by done. by apply u32_small. }
  apply (H fuel (on_kt clear_tmp k) tm); try done; try (by rewrite clear_tmp_row).
  - by apply twf_clear_tmp.
  - by rewrite <- Hr; apply clear_tmp_row.
  - by rewrite <- (clear_tmp_row (kt k) THardTmp) in Htmp.
Qed.

Definition demo_zero : kstate :=
  with_kt (TState 100 (list_to_map [(TmObj 0, Timer 5 (FUser 0) 0 0 100)])
             (list_to_map [(THard, [TmObj 0])]) 0) demo_k.

Lemma rt_timer_check_zero_period_witness :
  rt_timer_check (fun _ _ k => k) 1000 demo_zero = None.
Proof.
  apply (rt_timer_check_zero_period (fun _ _ k => k) 1000 demo_zero (TmObj 0) (Timer 5 (FUser 0) 0 0 100));
    try reflexivity; [apply twfb_spec; vm_compute; reflexivity|].
  split; [vm_compute; discriminate|vm_compute; reflexivity].
Defined.

(** [rt_tick_from_millisecond] is the identity on non-negative 32-bit
    millisecond counts (1000 ticks per second) and maps every negative one to
    the endless wait. *)
Theorem tick_from_millisecond_id (ms : Z) :
  - 2 ^ 31 <= ms < 2 ^ 31 ->
  rt_tick_from_millisecond ms = if ms <? 0 then 2 ^ 32 - 1 else ms.
Proof.
  intros Hms. unfold rt_tick_from_millisecond, RT_TICK_PER_SECOND.
  destruct (Z.ltb_spec ms 0); [done|].
  assert (H1 : 0 <= 1000 * (ms / 1000) <= ms).
  { pose proof (Z.mul_div_le ms 1000). pose proof (Z.div_pos ms 1000). lia. }
  rewrite (u32_small (1000 * (ms / 1000))) by lia.
  assert ((1000 * (ms mod 1000) + 999) / 1000 = ms mod 1000) as ->.
  { rewrite Z.mul_comm, Z.div_add_l by lia. change (999 / 1000) with 0. lia. }
  rewrite <- Z.div_mod by lia. apply u32_small. lia.
Qed.

Lemma tick_from_millisecond_id_witness : rt_tick_from_millisecond 1234567 = 1234567.
Proof. rewrite (tick_from_millisecond_id 1234567); [reflexivity|lia]. Defined.
