(* ===== verification/KInv.v ===== *)
(** * The kernel invariant: threads and their timers agree

    [kwf]: the scheduler and the timer lists are well formed, and the timer of a
    thread is pending exactly while the thread is suspended with a timeout.
    Under it every wake-up succeeds and [_thread_timeout] only ever meets a
    suspended thread, which is what its [RT_ASSERT] says. *)
From S2P Require Import Prelude Queue Object Sched SchedFacts TimerCore TimerFacts Kernel KernelFacts Sem Timer TimerProps.

(** What a thread timer depends on: [(suspended, sched_flag_ttmr_set)]. *)
Definition is_susp (th : rt_thread) : bool := Z.land (stat th) RT_THREAD_SUSPEND_MASK =? RT_THREAD_SUSPEND_MASK.
Definition tview (th : rt_thread) : bool * bool := (is_susp th, sched_flag_ttmr_set th).
Definition view (s : sstate) (t : tid) : option (bool * bool) := tview <$> threads s !! t.
Definition tactive (s : tstate) (t : tid) : bool := timer_has s (TmThread t) RT_TIMER_FLAG_ACTIVATED.

Definition thread_timer (tm : rt_timer) : Prop :=
  timeout_func tm = FThreadTimeout /\ has_flag (timer_flag tm) RT_TIMER_FLAG_THREAD_TIMER = true /\
  has_flag (timer_flag tm) RT_TIMER_FLAG_SOFT_TIMER = false /\ is_periodic tm = false /\
  is_processing tm = false.

Record kwf (k : kstate) : Prop := {
  kw_s : swf (ks k);
  kw_t : twf (kt k);
  kw_link : forall t, tactive (kt k) t = true <-> view (ks k) t = Some (true, true);
  kw_shape : forall t, is_Some (threads (ks k) !! t) ->
    exists tm, timers (kt k) !! TmThread t = Some tm /\ thread_timer tm;
}.
#[export] Hint Resolve kw_s kw_t : rt.

Lemma is_susp_spec th : is_susp th = true <-> suspended th.
Proof. apply Z.eqb_eq. Qed.
Lemma is_susp_false th : is_susp th = false <-> ~ suspended th.
Proof. rewrite <- is_susp_spec. by destruct (is_susp th). Qed.

Lemma view_lookup s t th : threads s !! t = Some th -> view s t = Some (tview th).
Proof. unfold view. intros E. by rewrite E. Qed.

Lemma view_is_Some s t : is_Some (view s t) <-> is_Some (threads s !! t).
Proof. unfold view. apply fmap_is_Some. Qed.

Lemma view_upd s t f t' :
  view (upd_thread t f s) t' = if decide (t = t') then (fun th => tview (f th)) <$> threads s !! t' else view s t'.
Proof. unfold view. rewrite lookup_upd. case_decide; [|done]. by destruct (threads s !! t'). Qed.

(** A change of the scheduler's part that keeps the view of every thread. *)
Lemma kwf_ks k s' : kwf k -> swf s' -> (forall t, view s' t = view (ks k) t) -> kwf (with_ks s' k).
Proof.
  intros [Hs Ht Hl Hsh] Hs' Hv. constructor; try done; cbn [ks kt with_ks].
  - intros t. by rewrite Hv.
  - intros t Ht'. apply Hsh. rewrite <- view_is_Some, <- Hv. by apply view_is_Some.
Qed.

Lemma kwf_other k k' : kwf k -> ks k' = ks k -> kt k' = kt k -> kwf k'.
Proof. intros [] E1 E2. constructor; by rewrite ?E1, ?E2. Qed.

Lemma kwf_upd_thr k t f :
  kwf k -> sched_frame f -> (forall th, tview (f th) = tview th) -> kwf (upd_thr t f k).
Proof.
  intros Hk Hf Hv. apply kwf_ks; [done|apply swf_frame; [done|apply Hk]|].
  intros t'. rewrite view_upd. unfold view. case_decide; [|done].
  destruct (threads (ks k) !! t'); simpl; [|done]. by rewrite Hv.
Qed.
Lemma kwf_upd_error k t e : kwf k -> kwf (upd_thr t (with_error e) k).
Proof. intros. by apply kwf_upd_thr. Qed.
Lemma kwf_upd_pending k t e : kwf k -> kwf (upd_thr t (with_pending e) k).
Proof. intros. by apply kwf_upd_thr. Qed.
Lemma kwf_upd_event k t a b : kwf k -> kwf (upd_thr t (with_event a b) k).
Proof. intros. by apply kwf_upd_thr. Qed.
#[export] Hint Resolve kwf_upd_error kwf_upd_pending kwf_upd_event : rt.

(** ** Rescheduling *)
Lemma tview_restat_nosusp v th :
  Z.land v 7 = v -> Z.land v 4 = 0 -> is_susp th = false -> tview (restat v th) = tview th.
Proof.
  intros Hv H4 Hs. unfold tview. f_equal. rewrite Hs. apply is_susp_false.
  rewrite suspended_stat_of, stat_of_restat, H4 by done. done.
Qed.

Lemma tview_with_stat st th : Z.land st 7 = stat_of th -> tview (with_stat st th) = tview th.
Proof.
  intros E. unfold tview, is_susp. simpl. f_equal. unfold RT_THREAD_SUSPEND_MASK.
  rewrite (land4_of_7 st), E, (land4_of_7 (stat th)). done.
Qed.

Lemma view_schedule s t : swf s -> view (rt_schedule s) t = view s t.
Proof.
  intros Hs. destruct (rt_current_thread s) as [c|] eqn:Hc.
  2:{ unfold rt_schedule. rewrite Hc. by repeat case_match. }
  destruct (rt_schedule_cases s c Hs Hc) as [[-> _]|(th & top & hp & rest & need & H)]; [done|].
  destruct H as (Hth & Hne & _ & Hr & _ & _ & Hneed & _ & ->).
  destruct (highest_thread s top hp rest) as (tth & Htop & Htst & _); [apply Hs|done|].
  destruct (switch_threads c top hp need s th tth) as (th' & Hthr & Hst & _ & Heq & _); [done..|].
  unfold view. rewrite Hthr. destruct (decide (t = top)) as [->|]; [rewrite Htop; simpl; f_equal|
    destruct (decide (t = c)) as [->|]; [rewrite Hth; simpl; f_equal|done]].
  - apply tview_restat_nosusp; [done..|]. apply is_susp_false. by rewrite suspended_stat_of, Htst.
  - rewrite Heq. destruct need.
    + unfold tview. f_equal. assert (stat_of th = RT_THREAD_RUNNING) as Hrun by (by apply Hneed).
      transitivity false; [apply is_susp_false; rewrite suspended_stat_of|symmetry; apply is_susp_false;
        rewrite suspended_stat_of; by rewrite Hrun].
      change (stat_of (with_stat (stat th') th)) with (stat_of th'). by rewrite Hst.
    + by apply tview_with_stat.
Qed.

Lemma kwf_schedule k : kwf k -> kwf (kschedule k).
Proof. intros Hk. apply kwf_ks; [done|apply rt_schedule_swf_lemma, Hk|]. intros t. apply view_schedule, Hk. Qed.
#[export] Hint Resolve kwf_schedule : rt.

Lemma kwf_unlock_n_resched k : kwf k -> kwf (on_ks rt_sched_unlock_n_resched k).
Proof.
  intros Hk. unfold on_ks, rt_sched_unlock_n_resched. case_match; [by apply kwf_schedule|].
  by destruct k.
Qed.
#[export] Hint Resolve kwf_unlock_n_resched : rt.

(** ** Waking *)
Lemma threads_wake t s th t' :
  threads s !! t = Some th ->
  threads (wake t s) !! t' =
    if decide (t = t') then Some (restat (if decide (rt_current_thread s = Some t) then RT_THREAD_RUNNING
                                          else RT_THREAD_READY) th)
    else threads s !! t'.
Proof.
  intros Hth. unfold wake. rewrite lookup_insert_thread. cbn [threads tlist_remove with_tlists rt_current_thread].
  by rewrite Hth.
Qed.

Lemma view_wake t s th t' :
  threads s !! t = Some th ->
  view (wake t s) t' = if decide (t = t') then Some (false, sched_flag_ttmr_set th) else view s t'.
Proof.
  intros Hth. unfold view. rewrite (threads_wake _ _ th) by done. case_decide; [|done]. simpl.
  f_equal. unfold tview. f_equal. apply is_susp_false. rewrite suspended_stat_of, stat_of_restat.
  - by case_decide.
  - by case_decide.
Qed.

Lemma tactive_flag_clear s t t' :
  tactive (flag_clear RT_TIMER_FLAG_ACTIVATED (TmThread t) s) t' =
    if decide (t = t') then false else tactive s t'.
Proof.
  unfold tactive, timer_has, get_timer. rewrite lookup_flag_clear.
  destruct (decide (TmThread t = TmThread t')) as [E|E].
  - injection E as ->. rewrite decide_True by done.
    destruct (timers s !! TmThread t') as [tm|]; simpl; [|done]. flag_simpl. done.
  - rewrite decide_False; [done|]. intros ->. done.
Qed.

Lemma timers_unlink s x t :
  timers (timer_unlink x s) !! t =
    if decide (x = t) then (fun tm => with_flag (clear_flag (timer_flag tm) RT_TIMER_FLAG_ACTIVATED) tm)
                             <$> timers s !! t else timers s !! t.
Proof. unfold timer_unlink. by rewrite lookup_flag_clear. Qed.

Lemma twf_timer_unlink x s : twf s -> twf (timer_unlink x s).
Proof.
  intros Hw. apply (twf_unlinked s _ x); try done.
  - intros y Hy. by rewrite timers_unlink, decide_False.
  - intros tm'. rewrite timers_unlink, decide_True by done.
    destruct (timers s !! x) as [tm|]; simpl; [|done]. intros [= <-]. apply clear_active_flags.
  - intros l. unfold row. simpl. apply qget_unlink.
  - apply qwf_qunlink, Hw.
Qed.

Lemma thread_timer_clear tm :
  thread_timer tm -> thread_timer (with_flag (clear_flag (timer_flag tm) RT_TIMER_FLAG_ACTIVATED) tm).
Proof.
  unfold thread_timer. intros (H1 & H2 & H3 & H4 & H5). simpl. split; [done|].
  revert H2 H3 H4 H5. flag_simpl. done.
Qed.

Lemma kwf_wakeable k t th :
  kwf k -> threads (ks k) !! t = Some th -> suspended th -> wakeable k t.
Proof.
  intros Hk Hth Hsu. exists th. split; [done|]. split; [done|]. intros Hf.
  apply (kw_link _ Hk). rewrite (view_lookup _ _ th) by done. unfold tview.
  by rewrite Hf, (proj2 (is_susp_spec th)).
Qed.

Lemma kwf_ready_state k t th :
  kwf k -> threads (ks k) !! t = Some th -> suspended th -> kwf (ready_state t k).
Proof.
  intros Hk Hth Hsu. pose proof Hk as [Hs Ht Hl Hsh].
  assert (Hth' : threads (upd_thread t (with_ttmr_set false) (ks k)) !! t = Some (with_ttmr_set false th))
    by (by apply lookup_upd_eq).
  assert (Hget : thr k t = th) by (by apply get_thread_lookup).
  assert (Hv : forall t', view (ks (ready_state t k)) t' = if decide (t = t') then Some (false, false) else view (ks k) t').
  { intros t'. unfold ready_state. cbn [ks with_ks]. rewrite (view_wake _ _ _ t' Hth').
    case_decide; [done|]. rewrite view_upd. by rewrite decide_False. }
  assert (Hts : forall t', tactive (kt (ready_state t k)) t' = if decide (t = t') then false else tactive (kt k) t').
  { intros t'. unfold ready_state. rewrite Hget. cbn [kt with_ks].
    destruct (sched_flag_ttmr_set th) eqn:Hf; cbn [kt on_kt with_kt].
    - unfold timer_unlink. rewrite tactive_flag_clear. by case_decide.
    - destruct (decide (t = t')) as [<-|]; [|done]. apply not_true_is_false. rewrite Hl, (view_lookup _ _ th) by done.
      unfold tview. rewrite Hf. by intros [=]. }
  constructor.
  - by eapply ready_state_swf.
  - unfold ready_state. cbn [kt with_ks]. destruct (sched_flag_ttmr_set (thr k t)); [|done].
    by apply twf_timer_unlink.
  - intros t'. rewrite Hts, Hv. case_decide; [|apply Hl]. by split; intros [=].
  - intros t' Hin. rewrite <- view_is_Some, Hv in Hin.
    assert (is_Some (threads (ks k) !! t')) as Hin'.
    { destruct (decide (t = t')) as [<-|]; [by exists th|by apply view_is_Some]. }
    destruct (Hsh t' Hin') as (tm & Htm & Hok). unfold ready_state. cbn [kt with_ks].
    destruct (sched_flag_ttmr_set (thr k t)); cbn [kt on_kt with_kt]; [|by eauto].
    rewrite timers_unlink. rewrite Htm. destruct (decide (TmThread t = TmThread t')); [|by exists tm]. simpl.
    eexists. split; [done|]. by apply thread_timer_clear.
Qed.

Lemma kwf_thread_ready k t : kwf k -> kwf (rt_sched_thread_ready t k).1.
Proof.
  intros Hk. destruct (threads (ks k) !! t) as [th|] eqn:Hth.
  2:{ unfold rt_sched_thread_ready, rt_sched_thread_is_suspended, get_thread. by rewrite Hth. }
  destruct (decide (suspended th)) as [Hsu|Hsu].
  - rewrite thread_ready_ok by (by eapply kwf_wakeable). by eapply kwf_ready_state.
  - by rewrite (thread_ready_not_suspended _ _ th).
Qed.

Lemma kwf_dequeue l e k : kwf k -> kwf (rt_susp_list_dequeue l e k).1.
Proof.
  intros Hk. unfold rt_susp_list_dequeue. destruct (susp_list k l) as [|t rest]; [done|].
  pose proof (kwf_thread_ready k t Hk) as H. destruct (rt_sched_thread_ready t k) as [k1 err].
  case_match; [done|]. case_match; [|done]. by apply kwf_upd_error.
Qed.

Lemma kwf_resume_all_loop f l e k : kwf k -> kwf (resume_all_loop f l e k).
Proof.
  revert k. induction f as [|f IH]; intros k Hk; [done|]. simpl.
  pose proof (kwf_dequeue l e k Hk) as H. destruct (rt_susp_list_dequeue l e k) as [k1 [t|]]; auto.
Qed.
Lemma kwf_resume_all l e k : kwf k -> kwf (rt_susp_list_resume_all l e k).
Proof. apply kwf_resume_all_loop. Qed.
#[export] Hint Resolve kwf_thread_ready kwf_dequeue kwf_resume_all : rt.

Lemma kwf_thread_resume t k : kwf k -> kwf (rt_thread_resume t k).1.
Proof.
  intros Hk. unfold rt_thread_resume. pose proof (kwf_thread_ready k t Hk) as H.
  destruct (rt_sched_thread_ready t k) as [k1 err]. case_match; [|done]. by apply kwf_unlock_n_resched.
Qed.
#[export] Hint Resolve kwf_thread_resume : rt.

(** ** What a dequeue does *)
Lemma tlist_wake t s th l :
  threads s !! t = Some th ->
  tlist (wake t s) l =
    if decide (rt_current_thread s <> Some t /\ l = LReady (current_priority th))
    then insert_pos th t (unlink t (tlist s l)) else unlink t (tlist s l).
Proof.
  intros Hth. unfold wake. assert (Hu : forall l, tlist (tlist_remove t s) l = unlink t (tlist s l)).
  { intros l'. unfold tlist. simpl. apply qget_unlink. }
  destruct (decide (rt_current_thread s = Some t)) as [Hc|Hc].
  - rewrite insert_thread_current by done. rewrite decide_False by tauto. apply Hu.
  - rewrite (insert_thread_eq _ _ th) by done. unfold tlist at 1. cbn [tlists with_group with_tlists].
    rewrite qget_set. destruct (decide (LReady (current_priority th) = l)) as [<-|Hne].
    + rewrite decide_True by done. by rewrite Hu.
    + rewrite decide_False by (intros [_ ?]; congruence). apply Hu.
Qed.

Lemma current_wake t s : rt_current_thread (wake t s) = rt_current_thread s.
Proof. unfold wake. by rewrite current_insert. Qed.

Lemma waiter_suspended k l t :
  kwf k -> wait_list l -> t ∈ susp_list k l ->
  exists th, threads (ks k) !! t = Some th /\ suspended th.
Proof.
  intros Hk Hl Hin. destruct (sw_link _ _ (swf_core _ (kw_s _ Hk)) l t Hin) as (th & Hth & Hlk).
  exists th. split; [done|]. by destruct l.
Qed.

(** The head of a wait list is woken, with [thread_error] if it is not
    negative. *)
Definition dequeued (t : tid) (e : Z) (k : kstate) : kstate :=
  let k := ready_state t k in if 0 <=? e then upd_thr t (with_error e) k else k.

Lemma dequeue_eq k l t rest e :
  kwf k -> wait_list l -> susp_list k l = (t :: rest) ->
  rt_susp_list_dequeue l e k = (dequeued t e k, Some t).
Proof.
  intros Hk Hl Hr. destruct (waiter_suspended k l t) as (th & Hth & Hsu); [done|done|rewrite Hr; left|].
  unfold rt_susp_list_dequeue. rewrite Hr, thread_ready_ok by (by eapply kwf_wakeable). reflexivity.
Qed.

(** A woken thread leaves every wait list. *)
Lemma dequeued_unlink k t th e l' :
  threads (ks k) !! t = Some th -> wait_list l' -> susp_list (dequeued t e k) l' = unlink t (susp_list k l').
Proof.
  intros Hth Hl'. unfold dequeued, susp_list. assert (forall k0, tlist (ks (if 0 <=? e then upd_thr t (with_error e) k0 else k0)) l'
      = tlist (ks k0) l') as -> by (intros; by case_match).
  unfold ready_state. cbn [ks with_ks].
  rewrite (tlist_wake _ _ (with_ttmr_set false th)) by (by apply lookup_upd_eq).
  rewrite decide_False; [done|]. intros [_ ->]. done.
Qed.
Lemma dequeued_list k l t rest e l' :
  kwf k -> wait_list l -> susp_list k l = (t :: rest) -> wait_list l' ->
  susp_list (dequeued t e k) l' = if decide (l' = l) then rest else susp_list k l'.
Proof.
  intros Hk Hl Hr Hl'. destruct (waiter_suspended k l t) as (th & Hth & Hsu); [done|done|rewrite Hr; left|].
  rewrite (dequeued_unlink k t th e l') by done.
  pose proof (sw_q _ _ (swf_core _ (kw_s _ Hk))) as Hq. case_decide; subst.
  - rewrite Hr. apply unlink_head. pose proof (qwf_nodup _ Hq l) as Hnd.
    unfold susp_list, tlist in Hr. rewrite Hr in Hnd. by apply NoDup_cons in Hnd as [? _].
  - apply unlink_not_in. intros Hin. apply H. apply (qwf_uniq _ Hq _ _ t); [done|].
    change (t ∈ susp_list k l). rewrite Hr. left.
Qed.

Lemma dequeued_thread k t th e t' :
  threads (ks k) !! t = Some th ->
  threads (ks (dequeued t e k)) !! t' =
    if decide (t = t') then
      Some ((if 0 <=? e then with_error e else id)
             (restat (if decide (self k = Some t) then RT_THREAD_RUNNING else RT_THREAD_READY)
                (with_ttmr_set false th)))
    else threads (ks k) !! t'.
Proof.
  intros Hth. unfold dequeued.
  assert (H1 : forall t', threads (ks (ready_state t k)) !! t' = if decide (t = t')
    then Some (restat (if decide (self k = Some t) then RT_THREAD_RUNNING else RT_THREAD_READY)
                 (with_ttmr_set false th)) else threads (ks k) !! t').
  { intros t0. unfold ready_state. cbn [ks with_ks].
    rewrite (threads_wake _ _ (with_ttmr_set false th)) by (by apply lookup_upd_eq).
    case_decide; [done|]. by rewrite lookup_upd_ne. }
  destruct (0 <=? e); [|by rewrite H1; case_decide]. cbn [ks upd_thr on_ks with_ks].
  rewrite lookup_upd, H1. by destruct (decide (t = t')).
Qed.

Lemma dequeued_current k t e : self (dequeued t e k) = self k.
Proof.
  unfold dequeued, self. destruct (0 <=? e); cbn [ks upd_thr on_ks with_ks rt_current_thread upd_thread with_threads];
    unfold ready_state; cbn [ks with_ks]; by rewrite current_wake.
Qed.

(** [rt_susp_list_resume_all] empties the list. *)
Lemma resume_all_empty k l e :
  kwf k -> wait_list l -> susp_list (rt_susp_list_resume_all l e k) l = [].
Proof.
  intros Hk Hl. unfold rt_susp_list_resume_all.
  remember (susp_list k l) as xs eqn:Hxs. symmetry in Hxs. revert k Hk Hxs.
  induction xs as [|t xs IH]; intros k Hk Hxs; cbn [resume_all_loop length].
  - unfold rt_susp_list_dequeue. by rewrite Hxs.
  - rewrite (dequeue_eq k l t xs) by done. apply IH.
    + pose proof (kwf_dequeue l e k Hk) as H. by rewrite (dequeue_eq k l t xs) in H.
    + rewrite (dequeued_list k l t xs) by done. by rewrite decide_True.
Qed.

(** ** Suspending *)
Lemma suspend_to_list_kwf_eq t l fl sf k th :
  kwf k -> threads (ks k) !! t = Some th ->
  stat_of th = RT_THREAD_READY \/ stat_of th = RT_THREAD_RUNNING ->
  rt_thread_suspend_to_list t l fl sf k =
    (with_ks (upd_thread t (with_ttmr_set false) (ks (suspend_state t l fl sf k))) k, RT_EOK).
Proof.
  intros Hk Hth Hst. rewrite (suspend_to_list_eq _ _ _ _ _ th) by done. f_equal.
  assert (Hns : ~ suspended th) by (rewrite suspended_stat_of; by destruct Hst as [-> | ->]).
  assert (Hta : tactive (kt k) t = false).
  { apply not_true_is_false. rewrite (kw_link _ Hk), (view_lookup _ _ th) by done. unfold tview.
    by rewrite (proj2 (is_susp_false th)). }
  assert (Hkt : with_ks (ks (suspend_state t l fl sf k)) k = suspend_state t l fl sf k).
  { unfold suspend_state. destruct l; [|by destruct k]. unfold rt_susp_list_enqueue.
    repeat case_match; by destruct k. }
  assert (Hth' : threads (ks (suspend_state t l fl sf k)) !! t = Some (restat (suspend_stat sf) th)).
  { rewrite (suspend_state_thread _ _ _ _ _ th) by done. by rewrite decide_True. }
  rewrite <- Hkt. unfold rt_sched_thread_timer_stop, thr. cbn [ks with_ks].
  rewrite (get_thread_lookup _ _ (restat (suspend_stat sf) th)) by done.
  destruct (sched_flag_ttmr_set (restat (suspend_stat sf) th)) eqn:Hf.
  - unfold rt_timer_stop. cbn [kt with_ks]. unfold tactive in Hta. rewrite Hta. reflexivity.
  - cbn [fst]. by rewrite (upd_thread_id _ _ _ _ Hth') by (by apply with_ttmr_set_id).
Qed.

Lemma view_suspended t l fl sf k th t' :
  threads (ks k) !! t = Some th ->
  view (upd_thread t (with_ttmr_set false) (ks (suspend_state t l fl sf k))) t' =
    if decide (t = t') then Some (true, false) else view (ks k) t'.
Proof.
  intros Hth. rewrite view_upd. unfold view. rewrite (suspend_state_thread _ _ _ _ _ th) by done.
  case_decide; [|done]. simpl. unfold tview. f_equal. f_equal.
  apply (is_susp_spec (restat (suspend_stat sf) th)). apply suspend_stat_spec.
Qed.

Lemma kwf_suspend_to_list t l fl sf k th :
  kwf k -> threads (ks k) !! t = Some th ->
  match l with Some l => wait_list l | None => True end ->
  kwf (rt_thread_suspend_to_list t l fl sf k).1.
Proof.
  intros Hk Hth Hl.
  destruct (decide (stat_of th = RT_THREAD_READY \/ stat_of th = RT_THREAD_RUNNING)) as [Hst|Hst].
  2:{ rewrite (suspend_to_list_fail _ _ _ _ _ th); [done|done|tauto..]. }
  pose proof (suspend_to_list_swf t l fl sf k th (kw_s _ Hk) Hth Hl) as Hs.
  rewrite (suspend_to_list_kwf_eq _ _ _ _ _ th) in * by done. cbn [fst] in *.
  pose proof (fun t' => view_suspended t l fl sf k th t' Hth) as Hv.
  constructor; cbn [ks kt with_ks]; [exact Hs|apply Hk| |].
  - intros t'. rewrite Hv. destruct (decide (t = t')) as [<-|]; [|apply Hk].
    rewrite (kw_link _ Hk), (view_lookup _ _ th) by done. unfold tview.
    rewrite (proj2 (is_susp_false th)); [by split; intros [=]|].
    rewrite suspended_stat_of. by destruct Hst as [-> | ->].
  - intros t' Hin. apply (kw_shape _ Hk). apply view_is_Some. rewrite <- view_is_Some, Hv in Hin.
    destruct (decide (t = t')) as [<-|]; [|done]. rewrite (view_lookup _ _ th) by done. by eexists.
Qed.

(** ** Arming the timer of a suspended thread

    [thread_timer_arm] is the pair of calls every timed wait makes. *)
Lemma set_time_spec x v s tm :
  twf s -> timers s !! x = Some tm ->
  let s' := (rt_timer_control x (RT_TIMER_CTRL_SET_TIME v) s).1.1 in
  twf s' /\ rt_tick s' = rt_tick s /\
  exists tm', timers s' !! x = Some tm' /\ is_active tm' = false /\ timer_init_tick tm' = v /\
    timeout_func tm' = timeout_func tm /\
    (forall m, 0 < m -> has_flag (timer_flag tm') (2 ^ m) = has_flag (timer_flag tm) (2 ^ m)) /\
    (forall y, y <> x -> timers s' !! y = timers s !! y) /\
    (forall l, row s' l = unlink x (row s l) \/ row s' l = row s l).
Proof.
  intros Hw Ht. cbn [rt_timer_control fst]. unfold timer_has. rewrite (get_timer_lookup _ _ tm) by done.
  destruct (is_active tm) eqn:Ha; cbn [fst].
  - change (flag_clear RT_TIMER_FLAG_ACTIVATED x (_timer_remove x s)) with (timer_unlink x s).
    assert (Hl : forall y, timers (upd_timer x (with_init_tick v) (timer_unlink x s)) !! y =
      if decide (x = y) then Some (with_init_tick v (with_flag (clear_flag (timer_flag tm) RT_TIMER_FLAG_ACTIVATED) tm))
      else timers s !! y).
    { intros y. rewrite lookup_upd_timer, timers_unlink. case_decide; subst; [|done]. by rewrite Ht. }
    split; [|split; [done|]].
    + apply (twf_unlinked s _ x); try done.
      * intros y Hy. by rewrite Hl, decide_False.
      * intros tm'. rewrite Hl, decide_True by done. intros [= <-]. apply clear_active_flags.
      * intros l. unfold row. simpl. apply qget_unlink.
      * apply qwf_qunlink, Hw.
    + eexists. rewrite Hl, decide_True by done. split; [done|]. simpl. split; [apply clear_active_flags|].
      split; [done|]. split; [done|]. split; [intros m Hm; change RT_TIMER_FLAG_ACTIVATED with (2 ^ 0);
        rewrite has_clear by lia; by rewrite bool_decide_false by lia|].
      split; [intros y Hy; by rewrite Hl, decide_False|]. intros l. left. unfold row. simpl. apply qget_unlink.
  - assert (Hl : forall y, timers (upd_timer x (with_init_tick v) s) !! y =
      if decide (x = y) then Some (with_init_tick v tm) else timers s !! y).
    { intros y. rewrite lookup_upd_timer. case_decide; subst; [|done]. by rewrite Ht. }
    split; [|split; [done|]].
    + destruct Hw as [Hq Hlv Hls Hac]. constructor; try done.
      * intros l y Hy. rewrite Hl. case_decide; [by eexists|eauto].
      * intros l y tmy Hll Hy. rewrite Hl. case_decide; subst; [|eauto].
        intros [= <-]. by apply (Hls l y tm).
      * intros y tmy. rewrite Hl. case_decide; subst; [|eauto]. intros [= <-] H. by apply (Hac y tm).
    + eexists. rewrite Hl, decide_True by done. split_and!; try done.
      * intros y Hy. by rewrite Hl, decide_False.
      * intros l. by right.
Qed.

(** The arming call on a thread timer: the timer is listed with expiry
    [tick + timeout]. *)
Lemma thread_timer_arm_spec t timeout k tm :
  twf (kt k) -> timers (kt k) !! TmThread t = Some tm -> thread_timer tm ->
  exists s' tm', thread_timer_arm t timeout k = with_kt s' (upd_thr t (with_ttmr_set true) k) /\
    twf s' /\ rt_tick s' = rt_tick (kt k) /\
    timers s' !! TmThread t = Some tm' /\ thread_timer tm' /\ is_active tm' = true /\
    timeout_tick tm' = u32 (rt_tick (kt k) + u32 timeout) /\
    (forall y, y <> TmThread t -> timers s' !! y = timers (kt k) !! y).
Proof.
  intros Hw Ht (Hf1 & Hf2 & Hf3 & Hf4 & Hf5). unfold thread_timer_arm.
  destruct (set_time_spec (TmThread t) (u32 timeout) (kt k) tm Hw Ht)
    as (Hw1 & Hk1 & tm1 & Ht1 & Ha1 & Hi1 & Hfn & Hfl & Hy & _).
  set (s1 := (rt_timer_control (TmThread t) (RT_TIMER_CTRL_SET_TIME (u32 timeout)) (kt k)).1.1) in *.
  assert (Hp1 : is_processing tm1 = false) by (rewrite <- Hf5; apply (Hfl 1); lia).
  destruct (timer_start_spec THard (TmThread t) s1 tm1 Ht1 Hp1) as (s' & Est & Hk' & Htm & _).
  unfold rt_timer_start, timer_has. cbn [kt ks with_kt].
  rewrite (get_timer_lookup _ _ tm1) by done.
  assert (has_flag (timer_flag tm1) RT_TIMER_FLAG_SOFT_TIMER = false) as ->
    by (rewrite <- Hf3; apply (Hfl 3); lia).
  assert (has_flag (timer_flag tm1) RT_TIMER_FLAG_THREAD_TIMER = true) as ->
    by (rewrite <- Hf2; apply (Hfl 4); lia).
  cbn [kt on_ks with_ks with_kt]. rewrite Est. cbn [kt with_kt].
  assert (Ht' : timers s' !! TmThread t = Some (started (rt_tick s1) tm1)) by (by rewrite Htm, decide_True).
  rewrite (get_timer_lookup _ _ _ Ht').
  assert (Hs' : forall m, 0 < m -> has_flag (timer_flag (started (rt_tick s1) tm1)) (2 ^ m) =
            has_flag (timer_flag tm) (2 ^ m)).
  { intros m Hm. rewrite <- Hfl by done. simpl. change RT_TIMER_FLAG_ACTIVATED with (2 ^ 0).
    rewrite has_set, has_clear, bool_decide_false by lia. done. }
  assert (has_flag (timer_flag (started (rt_tick s1) tm1)) RT_TIMER_FLAG_SOFT_TIMER = false) as ->
    by (rewrite <- Hf3; apply (Hs' 3); lia).
  cbn [fst].
  exists s', (started (rt_tick s1) tm1). split; [done|]. split_and!; try done.
  - by apply (timer_start_twf THard (TmThread t) s1 s' tm1).
  - by rewrite Hk', Hk1.
  - split; [simpl; by rewrite Hfn|]. split; [rewrite <- Hf2; apply (Hs' 4); lia|].
    split; [rewrite <- Hf3; apply (Hs' 3); lia|]. split; [rewrite <- Hf4; apply (Hs' 2); lia|].
    rewrite <- Hf5. apply (Hs' 1). lia.
  - apply started_flags.
  - unfold started. cbn [timeout_tick]. by rewrite Hk1, Hi1.
  - intros y Hy'. rewrite Htm, decide_False by done. by apply Hy.
Qed.

Lemma kwf_thread_timer_arm t timeout k th :
  kwf k -> threads (ks k) !! t = Some th -> suspended th -> kwf (thread_timer_arm t timeout k).
Proof.
  intros Hk Hth Hsu. destruct (kw_shape _ Hk t) as (tm & Htm & Hsh); [by eexists|].
  destruct (thread_timer_arm_spec t timeout k tm (kw_t _ Hk) Htm Hsh)
    as (s' & tm' & -> & Hw & Htk & Ht' & Hsh' & Hact & _ & Hy).
  assert (Hv : forall t', view (upd_thread t (with_ttmr_set true) (ks k)) t' =
     if decide (t = t') then Some (true, true) else view (ks k) t').
  { intros t'. rewrite view_upd. destruct (decide (t = t')) as [<-|]; [|done]. rewrite Hth.
    apply (f_equal Some). unfold tview. f_equal. by apply is_susp_spec. }
  constructor; cbn [ks kt with_kt upd_thr on_ks with_ks]; [by apply upd_ttmr_swf, Hk|done| |].
  - intros t'. rewrite Hv. unfold tactive, timer_has, get_timer.
    destruct (decide (t = t')) as [<-|Hne].
    + rewrite Ht'. simpl. rewrite Hact. done.
    + rewrite Hy by congruence. apply (kw_link _ Hk).
  - intros t' Hin. destruct (decide (t = t')) as [<-|Hne]; [by eexists|].
    rewrite Hy by congruence. apply (kw_shape _ Hk). by rewrite lookup_upd_ne in Hin.
Qed.

(** ** The tick *)
Lemma twf_timer_pop tmp t s tm :
  twf s -> tmp = THardTmp \/ tmp = TSoftTmp -> timers s !! t = Some tm -> is_active tm = true ->
  twf (timer_pop tmp t s).
Proof.
  intros [Hq Hlv Hls Ha] Htmp Ht Hact.
  assert (Hr : forall l, row (timer_pop tmp t s) l =
     if decide (tmp = l) then t :: unlink t (row s tmp) else unlink t (row s l)).
  { intros l. unfold row, timer_pop. cbn [rows with_rows flag_set upd_timer with_timers].
    unfold qpush_front. rewrite qget_set. by destruct (negb _); simpl; rewrite !qget_unlink. }
  assert (Hx : forall x, x <> t -> timers (timer_pop tmp t s) !! x = timers s !! x).
  { intros x Hne. unfold timer_pop. cbn [timers with_rows]. rewrite lookup_flag_set, decide_False by done.
    destruct (negb _); [|done]. by rewrite lookup_flag_clear, decide_False. }
  constructor.
  - unfold timer_pop. cbn [rows with_rows flag_set upd_timer with_timers].
    assert (E : forall b : bool, rows (if b then flag_clear RT_TIMER_FLAG_ACTIVATED t (_timer_remove t s)
      else _timer_remove t s) = qunlink t (rows s)) by (by intros []). rewrite E.
    apply qwf_push_front; [by apply qwf_qunlink|apply qfresh_qunlink].
  - intros l x. rewrite Hr. intros Hin. destruct (decide (x = t)) as [->|Hne].
    + unfold timer_pop. cbn [timers with_rows]. rewrite lookup_flag_set, decide_True by done.
      destruct (negb _); rewrite ?lookup_flag_clear, ?decide_True by done;
        cbn [timers _timer_remove with_rows]; rewrite Ht; by eexists.
    + rewrite Hx by done. destruct (decide (tmp = l)) as [<-|].
      * apply elem_of_cons in Hin as [?|[_ Hin]%elem_of_unlink]; [done|eauto].
      * apply elem_of_unlink in Hin as [_ Hin]. eauto.
  - intros l x tmx Hl. rewrite Hr, decide_False by (intros ->; by destruct Htmp as [-> | ->], Hl).
    intros [Hne Hin]%elem_of_unlink. rewrite Hx by done. eauto.
  - intros x tmx. destruct (decide (x = t)) as [->|Hne].
    + intros _ _. exists tmp. rewrite Hr, decide_True by done. left.
    + rewrite Hx by done. intros H1 H2. destruct (Ha x tmx H1 H2) as [l Hl]. exists l. rewrite Hr.
      case_decide; subst; [right|]; by apply elem_of_unlink.
Qed.

Lemma tactive_ext s s' t :
  timers s' !! TmThread t = timers s !! TmThread t -> tactive s' t = tactive s t.
Proof. unfold tactive, timer_has, get_timer. by intros ->. Qed.

Lemma kwf_pop_obj k n tm :
  kwf k -> timers (kt k) !! TmObj n = Some tm -> is_active tm = true -> kwf (on_kt (timer_pop THardTmp (TmObj n)) k).
Proof.
  intros Hk Ht Hact. constructor; cbn [ks kt on_kt with_kt].
  - apply Hk.
  - apply (twf_timer_pop _ _ _ tm); [apply Hk|by left|done|done].
  - intros t. rewrite (tactive_ext (kt k)); [apply Hk|]. unfold timer_pop. cbn [timers with_rows].
    rewrite lookup_flag_set, decide_False by done. destruct (negb _); [|done].
    by rewrite lookup_flag_clear, decide_False.
  - intros t Hin. destruct (kw_shape _ Hk t Hin) as (tmt & H1 & H2). exists tmt. split; [|done].
    rewrite <- H1. unfold timer_pop. cbn [timers with_rows].
    rewrite lookup_flag_set, decide_False by done. destruct (negb _); [|done].
    by rewrite lookup_flag_clear, decide_False.
Qed.

Section tick.
Context (user_timeout : Z -> Z -> kstate -> kstate).
Context (Huser : forall f p k, kt (user_timeout f p k) = kt k).
Context (Huser_kwf : forall f p k, kwf k -> kwf (user_timeout f p k)).

(** The expiry of a timer of the application. *)
Lemma kwf_turn_obj k n rest :
  kwf k -> row (kt k) THard = (TmObj n :: rest) -> row (kt k) THardTmp = [] ->
  kwf (turn user_timeout (TmObj n) k).
Proof.
  intros Hk Hr Htmp. destruct (tw_live _ (kw_t _ Hk) THard (TmObj n)) as [tm Ht]; [rewrite Hr; left|].
  assert (Hact : is_active tm = true).
  { apply (tw_listed _ (kw_t _ Hk) THard (TmObj n) tm); [by left|rewrite Hr; left|done]. }
  destruct (turn_kt_spec THard THardTmp (TmObj n) (kt k) tm rest (kw_t _ Hk) ltac:(by left) ltac:(done) Hr Htmp Ht)
    as (Hw & _ & _ & Hx & _).
  pose proof (kwf_pop_obj k n tm Hk Ht Hact) as Hpop.
  assert (Hcall : kwf (call_timeout user_timeout (TmObj n) (on_kt (timer_pop THardTmp (TmObj n)) k))).
  { unfold call_timeout. by case_match; [|apply Huser_kwf]. }
  pose proof (kt_turn user_timeout Huser (TmObj n) k) as Ekt.
  assert (Eks : ks (turn user_timeout (TmObj n) k)
     = ks (call_timeout user_timeout (TmObj n) (on_kt (timer_pop THardTmp (TmObj n)) k))) by done.
  assert (Htm : forall t, timers (kt (turn user_timeout (TmObj n) k)) !! TmThread t =
     timers (kt (call_timeout user_timeout (TmObj n) (on_kt (timer_pop THardTmp (TmObj n)) k))) !! TmThread t).
  { intros t. rewrite Ekt, Hx, kt_call_timeout by done. cbn [kt on_kt with_kt]. unfold timer_pop.
    cbn [timers with_rows]. rewrite lookup_flag_set, decide_False by done. destruct (negb _); [|done].
    by rewrite lookup_flag_clear, decide_False. }
  constructor.
  - rewrite Eks. apply Hcall.
  - by rewrite Ekt.
  - intros t. rewrite (tactive_ext _ _ t (Htm t)), Eks. apply Hcall.
  - intros t. rewrite Eks, Htm. apply Hcall.
Qed.

(** The expiry of a thread timer: the thread is suspended and is woken. *)
Lemma kwf_turn_thread k t rest :
  kwf k -> row (kt k) THard = (TmThread t :: rest) -> row (kt k) THardTmp = [] ->
  exists th, threads (ks k) !! t = Some th /\ suspended th /\ sched_flag_ttmr_set th = true /\
    turn user_timeout (TmThread t) k =
      on_ks rt_sched_unlock_n_resched
        (KState (wake t (upd_thread t (with_error (- RT_ETIMEOUT)) (ks k)))
           (turn_kt THard THardTmp (TmThread t) (kt k)) (ko k) (sems k) (mutexes k)
           (taken_object_list k) (events k) (mbs k) (mqs k)) /\
    kwf (turn user_timeout (TmThread t) k).
Proof.
  intros Hk Hr Htmp. destruct (tw_live _ (kw_t _ Hk) THard (TmThread t)) as [tm Ht]; [rewrite Hr; left|].
  assert (Hact : is_active tm = true).
  { apply (tw_listed _ (kw_t _ Hk) THard (TmThread t) tm); [by left|rewrite Hr; left|done]. }
  assert (Hvt : view (ks k) t = Some (true, true)).
  { apply (kw_link _ Hk). unfold tactive, timer_has. by rewrite (get_timer_lookup _ _ tm). }
  destruct (threads (ks k) !! t) as [th|] eqn:Hth; [|unfold view in Hvt; by rewrite Hth in Hvt].
  rewrite (view_lookup _ _ th) in Hvt by done. injection Hvt as Hsu Hf. apply is_susp_spec in Hsu.
  destruct (kw_shape _ Hk t) as (tm' & Ht' & Hsh); [by eexists|]. simplify_eq.
  destruct (turn_kt_spec THard THardTmp (TmThread t) (kt k) tm rest (kw_t _ Hk) ltac:(by left) ltac:(done) Hr Htmp Ht)
    as (Hw & _ & _ & Hx & tm' & Ht' & Hp' & Hper' & _ & Hact' & _ & _ & Hfn' & Hfl').
  assert (Hturn : turn user_timeout (TmThread t) k =
      on_ks rt_sched_unlock_n_resched
        (KState (wake t (upd_thread t (with_error (- RT_ETIMEOUT)) (ks k)))
           (turn_kt THard THardTmp (TmThread t) (kt k)) (ko k) (sems k) (mutexes k)
           (taken_object_list k) (events k) (mbs k) (mqs k))).
  { unfold turn, call_timeout.
    assert (timeout_func (get_timer (kt (on_kt (timer_pop THardTmp (TmThread t)) k)) (TmThread t)) = FThreadTimeout) as ->.
    { cbn [kt on_kt with_kt]. unfold get_timer, timer_pop. cbn [timers with_rows].
      rewrite lookup_flag_set, decide_True by done.
      destruct (negb _); rewrite ?lookup_flag_clear, ?decide_True by done;
        cbn [timers _timer_remove with_rows]; rewrite Ht; apply Hsh. }
    reflexivity. }
  exists th. split; [done|]. split; [done|]. split; [done|]. split; [done|]. rewrite Hturn.
  apply kwf_unlock_n_resched.
  assert (Hth' : threads (upd_thread t (with_error (- RT_ETIMEOUT)) (ks k)) !! t
                 = Some (with_error (- RT_ETIMEOUT) th)) by (by apply lookup_upd_eq).
  constructor; cbn [ks kt].
  - apply (wake_swf _ _ (with_error (- RT_ETIMEOUT) th)); [by apply upd_error_swf, Hk|done|done].
  - done.
  - intros t'. rewrite (view_wake _ _ _ t' Hth'). destruct (decide (t = t')) as [<-|Hne].
    + unfold tactive, timer_has. rewrite (get_timer_lookup _ _ tm'), Hact' by done.
      destruct Hsh as (_ & _ & _ & -> & _). by split; intros [=].
    + rewrite (tactive_ext (kt k)) by (apply Hx; congruence). rewrite view_upd, decide_False by done. apply Hk.
  - intros t' Hin. destruct (decide (t = t')) as [<-|Hne].
    + exists tm'. split; [done|]. destruct Hsh as (F1 & F2 & F3 & F4 & F5).
      split; [congruence|]. split; [rewrite <- F2; apply (Hfl' 4); lia|].
      split; [rewrite <- F3; apply (Hfl' 3); lia|]. split; [congruence|done].
    + rewrite Hx by congruence. apply (kw_shape _ Hk).
      rewrite (threads_wake _ _ _ _ Hth'), decide_False, lookup_upd_ne in Hin by done. done.
Qed.
Lemma turn_tmp k t rest :
  kwf k -> row (kt k) THard = (t :: rest) -> row (kt k) THardTmp = [] ->
  row (kt (turn user_timeout t k)) THardTmp = [].
Proof.
  intros Hk Hr Htmp. destruct (tw_live _ (kw_t _ Hk) THard t) as [tm Ht]; [rewrite Hr; left|].
  rewrite (kt_turn user_timeout Huser).
  by apply (turn_kt_spec THard THardTmp t (kt k) tm rest (kw_t _ Hk) ltac:(by left) ltac:(done) Hr Htmp Ht).
Qed.

Lemma kwf_turn k t rest :
  kwf k -> row (kt k) THard = (t :: rest) -> row (kt k) THardTmp = [] -> kwf (turn user_timeout t k).
Proof.
  intros Hk Hr Htmp. destruct t as [t|n].
  - by destruct (kwf_turn_thread k t rest Hk Hr Htmp) as (th & _ & _ & _ & _ & H).
  - by apply (kwf_turn_obj k n rest).
Qed.

Lemma kwf_hard_loop fuel : forall ct k k',
  kwf k -> row (kt k) THardTmp = [] -> hard_loop user_timeout fuel ct k = Some k' ->
  kwf k' /\ row (kt k') THardTmp = [].
Proof.
  induction fuel as [|f IH]; [done|]. intros ct k k' Hk Htmp. simpl.
  destruct (row (kt k) THard) as [|t rest] eqn:Hr; [by intros [= <-]|].
  case_match; [|by intros [= <-]]. fold (turn user_timeout t k). intros Hl.
  apply IH in Hl; [done|by eapply kwf_turn|by eapply turn_tmp].
Qed.

Lemma kwf_clear_tmp k : kwf k -> row (kt k) THardTmp = [] -> kwf (on_kt clear_tmp k).
Proof.
  intros [Hs Ht Hl Hsh] Htmp. constructor; cbn [ks kt on_kt with_kt]; try done. by apply twf_clear_tmp.
Qed.

Lemma kwf_timer_check fuel k k' :
  kwf k -> row (kt k) THardTmp = [] -> rt_timer_check user_timeout fuel k = Some k' ->
  kwf k' /\ row (kt k') THardTmp = [].
Proof.
  intros Hk Htmp Hc. unfold rt_timer_check in Hc. eapply kwf_hard_loop in Hc; [done| |].
  - by apply kwf_clear_tmp.
  - change (row (clear_tmp (kt k)) THardTmp = []). by rewrite clear_tmp_row.
Qed.

Lemma kwf_with_tick k v : kwf k -> kwf (on_kt (with_tick v) k).
Proof.
  intros [Hs [Hq Hlv Hls Ha] Hl Hsh]. constructor; cbn [ks kt on_kt with_kt]; done.
Qed.

Lemma view_tick_increase s t : swf s -> view (rt_sched_tick_increase s) t = view s t.
Proof.
  intros Hs. unfold rt_sched_tick_increase, rt_sched_unlock_n_resched. destruct (rt_thread_self s) as [c|]; [|done].
  set (s1 := upd_thread c (fun th => with_remaining_tick (u32 (remaining_tick th - 1)) th) s).
  assert (H1 : forall t, view s1 t = view s t).
  { intros t'. unfold s1. rewrite view_upd. unfold view. case_decide; [|done].
    by destruct (threads s !! t'). }
  assert (Hs1 : swf s1) by (by apply swf_frame).
  case_match; [done|]. rewrite <- H1.
  assert (H2 : forall t, view (rt_sched_thread_yield c s1) t = view s1 t).
  { intros t'. unfold rt_sched_thread_yield. rewrite view_upd. case_decide; [subst|].
    - rewrite lookup_upd, decide_True by done. unfold view. destruct (threads s1 !! t') as [r|]; [|done]. cbn [fmap option_fmap option_map].
      f_equal. apply (tview_with_stat _ (with_remaining_tick (init_tick r) r)). apply land_set_yield.
    - rewrite view_upd. by rewrite decide_False. }
  case_match; [|done]. rewrite view_schedule by (by apply yield_swf). apply H2.
Qed.

(** The tick interrupt keeps the invariant. *)
Lemma kwf_tick_increase fuel k k' :
  kwf k -> row (kt k) THardTmp = [] -> rt_tick_increase user_timeout fuel k = Some k' ->
  kwf k' /\ row (kt k') THardTmp = [].
Proof.
  intros Hk Htmp. unfold rt_tick_increase. intros Hc. eapply kwf_timer_check in Hc; [done| |done].
  assert (Hk1 : kwf (on_kt (with_tick (u32 (rt_tick (kt k) + 1))) k)) by (by apply kwf_with_tick).
  apply (kwf_ks _ (rt_sched_tick_increase (ks k))) in Hk1; [done|apply tick_increase_swf, Hk|].
  intros t. apply view_tick_increase, Hk.
Qed.
End tick.
