(* ===== verification/IpcInv.v ===== *)
(** * Shared facts on the IPC operations

    What the operations of [Kernel] and [Timer] leave alone ([objs]), and that
    the building blocks of the IPC calls - locks, suspend lists, timed waits -
    keep the kernel invariant. *)
From S2P Require Import Prelude Queue Object Sched SchedFacts TimerCore TimerFacts Kernel KernelFacts Sem Timer KInv.

(** ** What is not the scheduler's or the timers' *)
Definition objs (k : kstate) :=
  (ko k, sems k, mutexes k, taken_object_list k, events k, mbs k, mqs k).

Lemma objs_thread_ready t k : objs (rt_sched_thread_ready t k).1 = objs k.
Proof.
  unfold rt_sched_thread_ready, rt_sched_thread_timer_stop, rt_timer_stop.
  repeat first [reflexivity | case_match]; simplify_eq; reflexivity.
Qed.
Lemma objs_dequeue l e k : objs (rt_susp_list_dequeue l e k).1 = objs k.
Proof.
  unfold rt_susp_list_dequeue. destruct (susp_list k l) as [|t ?]; [done|].
  pose proof (objs_thread_ready t k) as H. destruct (rt_sched_thread_ready t k) as [k1 e1].
  repeat case_match; done.
Qed.
Lemma objs_resume_all l e k : objs (rt_susp_list_resume_all l e k) = objs k.
Proof.
  unfold rt_susp_list_resume_all. generalize (S (length (susp_list k l))) as f. intros f. revert k.
  induction f as [|f IH]; intros k; [done|]. simpl.
  pose proof (objs_dequeue l e k) as H. destruct (rt_susp_list_dequeue l e k) as [k1 [t|]]; [|done].
  by rewrite IH.
Qed.
Lemma objs_enqueue l t fl k : objs (rt_susp_list_enqueue l t fl k) = objs k.
Proof. unfold rt_susp_list_enqueue. by repeat case_match. Qed.
Lemma objs_timer_stop t k : objs (rt_sched_thread_timer_stop t k).1 = objs k.
Proof. unfold rt_sched_thread_timer_stop, rt_timer_stop. by repeat case_match; simplify_eq. Qed.
Lemma objs_suspend_to_list t l fl sf k : objs (rt_thread_suspend_to_list t l fl sf k).1 = objs k.
Proof.
  unfold rt_thread_suspend_to_list. case_match; [done|].
  match goal with |- context [rt_sched_thread_timer_stop t ?x] =>
    pose proof (objs_timer_stop t x) as Hs; destruct (rt_sched_thread_timer_stop t x) as [k1 e1] end.
  cbn [fst] in *. rewrite Hs. destruct l as [l|]; [|done]. by rewrite objs_enqueue.
Qed.
Lemma objs_thread_timer_arm t timeout k th :
  kwf k -> threads (ks k) !! t = Some th -> objs (thread_timer_arm t timeout k) = objs k.
Proof.
  intros Hk Hth. destruct (kw_shape _ Hk t) as (tm & Htm & Hsh); [by eexists|].
  by destruct (thread_timer_arm_spec t timeout k tm (kw_t _ Hk) Htm Hsh) as (s' & tm' & -> & _).
Qed.

(** ** Locks *)
Lemma swf_lock_nest v s : swf s -> swf (with_lock_nest v s).
Proof. intros Hs. by apply (swf_same s). Qed.
Lemma kwf_spin_lock k : kwf k -> kwf (rt_spin_lock k).
Proof. intros Hk. apply kwf_ks; [done| |done]. apply swf_lock_nest, Hk. Qed.
Lemma kwf_spin_unlock k : kwf k -> kwf (spin_unlock k).
Proof.
  intros Hk. unfold spin_unlock. apply kwf_ks; [done| |].
  - unfold exit_critical_nest. case_match; repeat apply swf_lock_nest; apply Hk.
  - intros t. unfold exit_critical_nest. by case_match.
Qed.
#[export] Hint Resolve kwf_spin_lock kwf_spin_unlock : rt.

(** The reschedule of [rt_exit_critical] is the [rt_schedule] of the step after
    [spin_unlock]. *)
Lemma rt_exit_critical_split s t :
  rt_current_thread s = Some t -> rt_exit_critical s = rt_schedule (exit_critical_nest s).
Proof.
  intros Hc. unfold rt_exit_critical, exit_critical_nest.
  set (s1 := with_lock_nest (i16 (rt_scheduler_lock_nest s - 1)) s).
  destruct (rt_scheduler_lock_nest s1 <=? 0) eqn:E.
  - change (rt_current_thread (with_lock_nest 0 s1)) with (rt_current_thread s). by rewrite Hc.
  - unfold rt_schedule. apply Z.leb_gt in E. destruct (Z.eqb_spec (rt_scheduler_lock_nest s1) 0); [lia|done].
Qed.

(** ** Objects *)
Lemma kwf_on_ko f k : kwf k -> kwf (on_ko f k).
Proof. intros. by apply (kwf_other k). Qed.
Lemma kwf_with_ko v k : kwf k -> kwf (with_ko v k).
Proof. intros. by apply (kwf_other k). Qed.
Lemma kwf_set_sem n f k : kwf k -> kwf (set_sem n f k).
Proof. intros. by apply (kwf_other k). Qed.
Lemma kwf_with_sems v k : kwf k -> kwf (with_sems v k).
Proof. intros. by apply (kwf_other k). Qed.
Lemma kwf_with_mutexes v k : kwf k -> kwf (with_mutexes v k).
Proof. intros. by apply (kwf_other k). Qed.
Lemma kwf_with_taken v k : kwf k -> kwf (with_taken v k).
Proof. intros. by apply (kwf_other k). Qed.
Lemma kwf_with_events v k : kwf k -> kwf (with_events v k).
Proof. intros. by apply (kwf_other k). Qed.
Lemma kwf_with_mbs v k : kwf k -> kwf (with_mbs v k).
Proof. intros. by apply (kwf_other k). Qed.
Lemma kwf_with_mqs v k : kwf k -> kwf (with_mqs v k).
Proof. intros. by apply (kwf_other k). Qed.
#[export] Hint Resolve kwf_on_ko kwf_with_ko kwf_set_sem kwf_with_sems kwf_with_mutexes kwf_with_taken
  kwf_with_events kwf_with_mbs kwf_with_mqs : rt.

(** A suspend list made empty: its threads stay suspended, on no list. *)
Lemma swf_clear_list l s : wait_list l -> swf s -> swf (with_tlists (qset l [] (tlists s)) s).
Proof.
  intros Hl [Hs Hc].
  assert (Htl : forall k, tlist (with_tlists (qset l [] (tlists s)) s) k = if decide (l = k) then [] else tlist s k).
  { intros k. unfold tlist. simpl. apply qget_set. }
  assert (Hr : forall p, tlist (with_tlists (qset l [] (tlists s)) s) (LReady p) = tlist s (LReady p)).
  { intros p. rewrite Htl, decide_False; [done|]. by intros ->. }
  split; [|by apply (cur_ok_same s)]. constructor; try done; try by apply Hs.
  - simpl. by apply qwf_clear, Hs.
  - intros k t. rewrite Htl. case_decide; [by intros ?%not_elem_of_nil|]. apply (sw_link _ _ Hs).
  - intros t th Hth Hst Hx. rewrite Hr. by apply (sw_ready _ _ Hs).
  - intros p Hp. rewrite Hr. by apply (sw_group _ _ Hs).
Qed.
Lemma kwf_clear_list l k :
  wait_list l -> kwf k -> kwf (on_ks (fun s => with_tlists (qset l [] (tlists s)) s) k).
Proof. intros Hl Hk. apply kwf_ks; [done| |done]. apply swf_clear_list; [done|apply Hk]. Qed.
Lemma kwf_ipc_object_init o k : kwf k -> kwf (_ipc_object_init o k).
Proof. by apply kwf_clear_list. Qed.
#[export] Hint Resolve kwf_ipc_object_init : rt.

(** ** Timed waits *)
Lemma suspend_to_list_thread t l fl sf k th k1 :
  kwf k -> threads (ks k) !! t = Some th -> rt_thread_suspend_to_list t l fl sf k = (k1, RT_EOK) ->
  exists th', threads (ks k1) !! t = Some th' /\ suspended th' /\ error th' = error th.
Proof.
  intros Hk Hth.
  destruct (decide (stat_of th = RT_THREAD_READY \/ stat_of th = RT_THREAD_RUNNING)) as [Hst|Hst].
  2:{ rewrite (suspend_to_list_fail _ _ _ _ _ th); [done|done|tauto..]. }
  rewrite (suspend_to_list_kwf_eq _ _ _ _ _ th) by done. intros [= <-]. cbn [ks with_ks].
  erewrite lookup_upd_eq by (rewrite (suspend_state_thread _ _ _ _ _ th), decide_True by done; done).
  eexists. split; [done|]. split; [|done]. apply (suspend_stat_spec sf th).
Qed.

Lemma kwf_wait_on t l fl timeout sf k th :
  kwf k -> threads (ks k) !! t = Some th -> wait_list l -> kwf (wait_on t l fl timeout sf k).1.
Proof.
  intros Hk Hth Hl. unfold wait_on.
  pose proof (kwf_suspend_to_list t (Some l) fl sf k th Hk Hth Hl) as H1.
  destruct (rt_thread_suspend_to_list t (Some l) fl sf k) as [k1 ret] eqn:E.
  destruct (Z.eqb_spec ret RT_EOK) as [->|]; [|done]. simpl.
  destruct (suspend_to_list_thread _ _ _ _ _ _ _ Hk Hth E) as (th' & Hth' & Hsu & _).
  case_match; [|done]. by eapply kwf_thread_timer_arm.
Qed.

Lemma objs_wait_on t l fl timeout sf k th :
  kwf k -> threads (ks k) !! t = Some th -> wait_list l -> objs (wait_on t l fl timeout sf k).1 = objs k.
Proof.
  intros Hk Hth Hl. unfold wait_on.
  pose proof (kwf_suspend_to_list t (Some l) fl sf k th Hk Hth Hl) as H1.
  pose proof (objs_suspend_to_list t (Some l) fl sf k) as H2.
  destruct (rt_thread_suspend_to_list t (Some l) fl sf k) as [k1 ret] eqn:E.
  destruct (Z.eqb_spec ret RT_EOK) as [->|]; [|done]. simpl.
  destruct (suspend_to_list_thread _ _ _ _ _ _ _ Hk Hth E) as (th' & Hth' & Hsu & _).
  case_match; [|done]. rewrite <- H2. by apply (objs_thread_timer_arm _ _ _ th').
Qed.

(** The running thread of a well-formed kernel exists. *)
Lemma self_thread k t : kwf k -> self k = Some t -> exists th, threads (ks k) !! t = Some th.
Proof. intros Hk Hs. destruct (co_cur _ (swf_cur _ (kw_s _ Hk)) t Hs) as (th & ? & _). by exists th. Qed.

Lemma kwf_wait_on_self t l fl timeout sf k :
  kwf k -> self k = Some t -> wait_list l -> kwf (wait_on t l fl timeout sf k).1.
Proof. intros Hk Hs Hl. destruct (self_thread _ _ Hk Hs) as [th Hth]. by eapply kwf_wait_on. Qed.
Lemma objs_wait_on_self t l fl timeout sf k :
  kwf k -> self k = Some t -> wait_list l -> objs (wait_on t l fl timeout sf k).1 = objs k.
Proof. intros Hk Hs Hl. destruct (self_thread _ _ Hk Hs) as [th Hth]. by eapply objs_wait_on. Qed.

(** ** The invariant of the calls

    The kernel invariant with the priorities of the mutexes in range: a mutex
    priority or ceiling bounds a thread's priority from above only, so not being
    negative is enough.  And no thread waits for a semaphore that has tokens. *)
Definition minv (k : kstate) : Prop :=
  forall m mx, mutexes k !! m = Some mx -> 0 <= ceiling_priority mx /\ 0 <= mutex_priority mx.
(** Outside [rt_timer_check] its local list is empty. *)
Definition tmp_clear (k : kstate) : Prop := row (kt k) THardTmp = [].
Definition sem_waiters (k : kstate) (n : nat) : list tid := susp_list k (LSusp (OSem n)).
Definition sinv (k : kstate) : Prop := forall n, 0 < sem_value (get_sem k n) -> sem_waiters k n = [].
Record kinv (k : kstate) : Prop :=
  { ki_wf : kwf k; ki_m : minv k; ki_tmp : tmp_clear k; ki_sem : sinv k }.
#[export] Hint Resolve ki_wf ki_m ki_tmp ki_sem : rt.

(** Nothing enters the local list of [rt_timer_check] or the list of a semaphore. *)
Definition quiet (k k' : kstate) : Prop :=
  (tmp_clear k -> tmp_clear k') /\ (forall n, sem_waiters k n = [] -> sem_waiters k' n = []).
Lemma quiet_refl k : quiet k k.
Proof. done. Qed.
Lemma quiet_trans k1 k2 k3 : quiet k1 k2 -> quiet k2 k3 -> quiet k1 k3.
Proof. intros [A1 B1] [A2 B2]. split; auto. Qed.

Lemma minv_objs k k' : objs k' = objs k -> minv k -> minv k'.
Proof. unfold objs. intros [= _ _ E _ _ _ _]. unfold minv. by rewrite E. Qed.
Lemma kinv_objs k k' : kinv k -> kwf k' -> objs k' = objs k -> quiet k k' -> kinv k'.
Proof.
  intros [] Hk He [Ht Hq]. split; [done|by apply (minv_objs k)|by apply Ht|].
  intros n. unfold get_sem. injection He as _ -> _ _ _ _ _. intros Hv. by apply Hq, ki_sem0.
Qed.
Lemma kinv_same_mutexes k k' :
  kinv k -> kwf k' -> mutexes k' = mutexes k -> sems k' = sems k -> quiet k k' -> kinv k'.
Proof.
  intros [_ Hm Ht Hs] Hk E Es [Ht' Hq]. split; [done| |by apply Ht'|].
  - unfold minv. by rewrite E.
  - intros n. unfold get_sem. rewrite Es. intros Hv. by apply Hq, Hs.
Qed.

Lemma tmp_timer_stop t k : tmp_clear k -> tmp_clear (rt_sched_thread_timer_stop t k).1.
Proof.
  unfold rt_sched_thread_timer_stop, rt_timer_stop, tmp_clear. intros H. repeat case_match; simplify_eq; try done.
  unfold row in *. cbn [fst kt upd_thr on_ks with_ks with_kt rows flag_clear upd_timer with_timers _timer_remove with_rows].
  rewrite qget_unlink. by rewrite H.
Qed.
Lemma tmp_thread_ready t k : tmp_clear k -> tmp_clear (rt_sched_thread_ready t k).1.
Proof.
  intros H. unfold rt_sched_thread_ready. case_match; [done|]. pose proof (tmp_timer_stop t k H) as H1.
  destruct (sched_flag_ttmr_set (thr k t)); [|done].
  destruct (rt_sched_thread_timer_stop t k) as [k1 e]. by case_match.
Qed.
Lemma tmp_dequeue l e k : tmp_clear k -> tmp_clear (rt_susp_list_dequeue l e k).1.
Proof.
  intros H. unfold rt_susp_list_dequeue. destruct (susp_list k l) as [|t ?]; [done|].
  pose proof (tmp_thread_ready t k H) as H1. destruct (rt_sched_thread_ready t k) as [k1 e1]. by repeat case_match.
Qed.
Lemma tmp_resume_all l e k : tmp_clear k -> tmp_clear (rt_susp_list_resume_all l e k).
Proof.
  unfold rt_susp_list_resume_all. generalize (S (length (susp_list k l))) as f. intros f. revert k.
  induction f as [|f IH]; intros k H; [done|]. simpl.
  pose proof (tmp_dequeue l e k H) as H1. destruct (rt_susp_list_dequeue l e k) as [k1 [t|]]; [by apply IH|done].
Qed.
Lemma tmp_suspend_to_list t l fl sf k : tmp_clear k -> tmp_clear (rt_thread_suspend_to_list t l fl sf k).1.
Proof.
  intros H. unfold rt_thread_suspend_to_list. case_match; [done|].
  match goal with |- context [rt_sched_thread_timer_stop t ?x] =>
    pose proof (tmp_timer_stop t x) as Hs; destruct (rt_sched_thread_timer_stop t x) as [k1 e1] end.
  apply Hs. destruct l as [l|]; [|done]. unfold rt_susp_list_enqueue. by repeat case_match.
Qed.
Lemma tmp_sem_release n k : tmp_clear k -> tmp_clear (run_atomic (rt_sem_release n k)).1.
Proof.
  intros H. unfold rt_sem_release. destruct (susp_list k (LSusp (OSem n))); [by case_match|].
  pose proof (tmp_dequeue (LSusp (OSem n)) RT_EOK k H) as H1.
  by destruct (rt_susp_list_dequeue (LSusp (OSem n)) RT_EOK k) as [k1 t1].
Qed.
Lemma row_timer_start l x s l' : l <> l' -> row s l' = [] -> row (_timer_start l x s).1 l' = [].
Proof.
  intros Hne H. unfold _timer_start. case_match; [done|]. unfold row in *.
  cbn [fst rows flag_set flag_clear upd_timer with_timers with_rows with_random _timer_remove].
  by rewrite qget_set, decide_False, qget_unlink, H.
Qed.
Lemma tmp_timer_start x k : tmp_clear k -> tmp_clear (rt_timer_start x k).1.
Proof.
  intros H. unfold rt_timer_start. set (l := if timer_has _ _ _ then TSoft else THard).
  set (k1 := if timer_has (kt k) x RT_TIMER_FLAG_THREAD_TIMER then _ else k).
  assert (H1 : tmp_clear k1) by (unfold k1; case_match; [|done]; by destruct x).
  pose proof (row_timer_start l x (kt k1) THardTmp) as H2.
  destruct (_timer_start l x (kt k1)) as [ts err]. cbn [fst] in *.
  assert (H3 : tmp_clear (with_kt ts k1)) by (apply H2; [unfold l; by case_match|done]).
  case_match; [by apply tmp_sem_release|done].
Qed.
Lemma tmp_thread_timer_arm t timeout k : tmp_clear k -> tmp_clear (thread_timer_arm t timeout k).
Proof.
  intros H. unfold thread_timer_arm. apply tmp_timer_start. unfold tmp_clear, row in *. simpl.
  case_match; [|done]. simpl. by rewrite qget_unlink, H.
Qed.
Lemma tmp_wait_on t l fl timeout sf k : tmp_clear k -> tmp_clear (wait_on t l fl timeout sf k).1.
Proof.
  intros H. unfold wait_on. pose proof (tmp_suspend_to_list t (Some l) fl sf k H) as H1.
  destruct (rt_thread_suspend_to_list t (Some l) fl sf k) as [k1 ret]. repeat case_match; try done.
  by apply tmp_thread_timer_arm.
Qed.

Lemma nil_unlink (t : tid) (l : list tid) : l = [] -> unlink t l = [].
Proof. by intros ->. Qed.
Lemma tlist_schedule s l : swf s -> wait_list l -> tlist (rt_schedule s) l = tlist s l.
Proof.
  intros Hs Hl. destruct (rt_current_thread s) as [c|] eqn:Hc.
  2:{ unfold rt_schedule. rewrite Hc. by repeat case_match. }
  destruct (rt_schedule_cases s c Hs Hc) as [[-> _]|(th & top & hp & rest & need & H)]; [done|].
  destruct H as (Hth & Hne & _ & Hr & _ & _ & _ & _ & ->).
  destruct (highest_thread s top hp rest) as (tth & Htop & Htst & _); [apply Hs|done|].
  rewrite (switch_tlists c top hp need s th l) by done. rewrite decide_False by (intros [_ ->]; done).
  apply unlink_not_in. intros Hin. destruct (sw_link _ _ (swf_core _ Hs) l top Hin) as (x & Hx & Hsu).
  simplify_eq. destruct l; simpl in *; try done; apply suspended_not_ready in Hsu; congruence.
Qed.
Lemma waiters_schedule k l : kwf k -> wait_list l -> susp_list (kschedule k) l = susp_list k l.
Proof. intros Hk Hl. apply tlist_schedule; [apply Hk|done]. Qed.
Lemma quiet_schedule k : kwf k -> quiet k (kschedule k).
Proof. intros Hk. split; [done|]. intros n H. unfold sem_waiters. by rewrite waiters_schedule. Qed.
Lemma quiet_unlock_n_resched k : kwf k -> quiet k (on_ks rt_sched_unlock_n_resched k).
Proof.
  intros Hk. unfold on_ks, rt_sched_unlock_n_resched. case_match; [by apply quiet_schedule|]. by destruct k.
Qed.
Lemma quiet_thread_ready t k : kwf k -> quiet k (rt_sched_thread_ready t k).1.
Proof.
  intros Hk. split; [apply tmp_thread_ready|]. intros n Hn.
  destruct (threads (ks k) !! t) as [th|] eqn:Hth.
  2:{ unfold rt_sched_thread_ready, rt_sched_thread_is_suspended, get_thread. by rewrite Hth. }
  destruct (decide (suspended th)) as [Hsu|Hsu]; [|by rewrite (thread_ready_not_suspended _ _ th)].
  rewrite thread_ready_ok by (by eapply kwf_wakeable). unfold sem_waiters, susp_list, ready_state. cbn [fst ks with_ks].
  rewrite (tlist_wake _ _ (with_ttmr_set false th)) by (by apply lookup_upd_eq).
  rewrite decide_False by (by intros [_ ?]). by apply nil_unlink.
Qed.
Lemma quiet_dequeue l e k : kwf k -> quiet k (rt_susp_list_dequeue l e k).1.
Proof.
  intros Hk. unfold rt_susp_list_dequeue. destruct (susp_list k l) as [|t ?]; [done|].
  pose proof (quiet_thread_ready t k Hk) as H1. destruct (rt_sched_thread_ready t k) as [k1 e1].
  case_match; [done|]. by case_match.
Qed.
Lemma quiet_resume_all l e k : kwf k -> quiet k (rt_susp_list_resume_all l e k).
Proof.
  unfold rt_susp_list_resume_all. generalize (S (length (susp_list k l))) as f. intros f. revert k.
  induction f as [|f IH]; intros k Hk; [done|]. simpl.
  pose proof (quiet_dequeue l e k Hk) as H1. pose proof (kwf_dequeue l e k Hk) as H2.
  destruct (rt_susp_list_dequeue l e k) as [k1 [t|]]; [|done]. eapply quiet_trans; [exact H1|by apply IH].
Qed.
Lemma quiet_clear_list l k : quiet k (on_ks (fun s => with_tlists (qset l [] (tlists s)) s) k).
Proof.
  split; [done|]. intros n Hn. unfold sem_waiters, susp_list, tlist in *. cbn. rewrite qget_set. by case_decide.
Qed.
Lemma quiet_spin_unlock k : quiet k (spin_unlock k).
Proof. split; [done|]. intros n. unfold spin_unlock, exit_critical_nest, sem_waiters, susp_list. cbn. by case_match. Qed.
(** A wait on [l] is allowed. *)
Definition may_wait (l : lid) (k : kstate) : Prop :=
  match l with LSusp (OSem n) => sem_value (get_sem k n) <= 0 | LReady _ | LDefunct => False | _ => True end.
Lemma may_wait_wait_list l k : may_wait l k -> wait_list l.
Proof. by destruct l. Qed.
#[export] Hint Resolve quiet_refl quiet_schedule quiet_unlock_n_resched quiet_thread_ready quiet_dequeue
  quiet_resume_all quiet_clear_list quiet_spin_unlock : rt.

Lemma kinv_upd_error k t e : kinv k -> kinv (upd_thr t (with_error e) k).
Proof. intros H. apply (kinv_objs k); [done|apply kwf_upd_error, H|done|by eauto with rt]. Qed.
Lemma kinv_upd_pending k t e : kinv k -> kinv (upd_thr t (with_pending e) k).
Proof. intros H. apply (kinv_objs k); [done|apply kwf_upd_pending, H|done|by eauto with rt]. Qed.
Lemma kinv_upd_event k t a b : kinv k -> kinv (upd_thr t (with_event a b) k).
Proof. intros H. apply (kinv_objs k); [done|apply kwf_upd_event, H|done|by eauto with rt]. Qed.
Lemma kinv_schedule k : kinv k -> kinv (kschedule k).
Proof. intros H. apply (kinv_objs k); [done|apply kwf_schedule, H|done|by eauto with rt]. Qed.
Lemma kinv_unlock_n_resched k : kinv k -> kinv (on_ks rt_sched_unlock_n_resched k).
Proof. intros H. apply (kinv_objs k); [done|apply kwf_unlock_n_resched, H|done|by eauto with rt]. Qed.
Lemma kinv_thread_ready k t : kinv k -> kinv (rt_sched_thread_ready t k).1.
Proof. intros H. apply (kinv_objs k); [done|apply kwf_thread_ready, H|apply objs_thread_ready|by eauto with rt]. Qed.
Lemma kinv_dequeue l e k : kinv k -> kinv (rt_susp_list_dequeue l e k).1.
Proof. intros H. apply (kinv_objs k); [done|apply kwf_dequeue, H|apply objs_dequeue|by eauto with rt]. Qed.
Lemma kinv_resume_all l e k : kinv k -> kinv (rt_susp_list_resume_all l e k).
Proof. intros H. apply (kinv_objs k); [done|apply kwf_resume_all, H|apply objs_resume_all|by eauto with rt]. Qed.
Lemma kinv_spin_lock k : kinv k -> kinv (rt_spin_lock k).
Proof. intros H. apply (kinv_objs k); [done|apply kwf_spin_lock, H|done|by eauto with rt]. Qed.
Lemma kinv_spin_unlock k : kinv k -> kinv (spin_unlock k).
Proof. intros H. apply (kinv_objs k); [done|apply kwf_spin_unlock, H|done|by eauto with rt]. Qed.
Lemma kinv_ipc_object_init o k : kinv k -> kinv (_ipc_object_init o k).
Proof. intros H. apply (kinv_objs k); [done|apply kwf_ipc_object_init, H|done|by eauto with rt]. Qed.
Lemma kinv_clear_send o k : kinv k -> kinv (on_ks (fun s => with_tlists (qset (LSend o) [] (tlists s)) s) k).
Proof. intros H. apply (kinv_objs k); [done|by apply kwf_clear_list; [|apply H]|done|by eauto with rt]. Qed.
Lemma kinv_on_ko f k : kinv k -> kinv (on_ko f k).
Proof. intros H. apply (kinv_same_mutexes k); [done|apply kwf_on_ko, H|done..]. Qed.
Lemma kinv_with_ko v k : kinv k -> kinv (with_ko v k).
Proof. intros H. apply (kinv_same_mutexes k); [done|apply kwf_with_ko, H|done..]. Qed.
(** A change of a semaphore that gives it tokens needs an empty list. *)
Lemma kinv_set_sem n f k :
  (forall s, 0 < sem_value (f s) -> 0 < sem_value s \/ sem_waiters k n = []) -> kinv k -> kinv (set_sem n f k).
Proof.
  intros Hf [H1 H2 H3 H4]. split; [by apply kwf_set_sem|done|done|].
  intros n'. unfold get_sem, set_sem. cbn [sems with_sems]. rewrite lookup_alter.
  change (sem_waiters (with_sems ?v k) n') with (sem_waiters k n').
  destruct (decide (n = n')) as [<-|]; [|apply H4]. specialize (H4 n). unfold get_sem in H4.
  destruct (sems k !! n) as [s|]; simpl in *; [|lia]. intros [Hv|Hv]%Hf; [by apply H4|done].
Qed.
Lemma kinv_with_taken v k : kinv k -> kinv (with_taken v k).
Proof. intros H. apply (kinv_same_mutexes k); [done|apply kwf_with_taken, H|done..]. Qed.
Lemma kinv_with_events v k : kinv k -> kinv (with_events v k).
Proof. intros H. apply (kinv_same_mutexes k); [done|apply kwf_with_events, H|done..]. Qed.
Lemma kinv_with_mbs v k : kinv k -> kinv (with_mbs v k).
Proof. intros H. apply (kinv_same_mutexes k); [done|apply kwf_with_mbs, H|done..]. Qed.
Lemma kinv_with_mqs v k : kinv k -> kinv (with_mqs v k).
Proof. intros H. apply (kinv_same_mutexes k); [done|apply kwf_with_mqs, H|done..]. Qed.
#[export] Hint Resolve kinv_upd_error kinv_upd_pending kinv_upd_event kinv_schedule kinv_unlock_n_resched
  kinv_thread_ready kinv_dequeue kinv_resume_all kinv_spin_lock kinv_spin_unlock kinv_ipc_object_init
  kinv_clear_send kinv_on_ko kinv_with_ko kinv_with_taken kinv_with_events
  kinv_with_mbs kinv_with_mqs : rt.

(** Waiting on a list that is not that of a semaphore with tokens. *)
Lemma waiters_suspend t l fl sf k n :
  l <> Some (LSusp (OSem n)) -> sem_waiters k n = [] -> sem_waiters (rt_thread_suspend_to_list t l fl sf k).1 n = [].
Proof.
  intros Hl Hn. unfold rt_thread_suspend_to_list. case_match; [done|].
  set (k1 := _thread_set_suspend_state t sf _).
  assert (H1 : sem_waiters k1 n = []).
  { unfold sem_waiters, susp_list, tlist, k1. cbn. rewrite tlists_remove, qget_unlink. by apply nil_unlink. }
  set (k2 := match l with Some l => rt_susp_list_enqueue l t fl k1 | None => k1 end).
  assert (H2 : sem_waiters k2 n = []).
  { unfold k2. destruct l as [l|]; [|done]. assert (Hne : l <> LSusp (OSem n)) by congruence.
    unfold rt_susp_list_enqueue, sem_waiters, susp_list, tlist.
    destruct (fl =? RT_IPC_FLAG_FIFO); [|destruct (fl =? RT_IPC_FLAG_PRIO); [|done]];
      cbn [ks with_ks tlists with_tlists]; unfold qpush_back; rewrite qget_set;
      (destruct (decide (l = LSusp (OSem n))); [done|exact H1]). }
  unfold rt_sched_thread_timer_stop, rt_timer_stop.
  destruct (sched_flag_ttmr_set (thr k2 t)); [|exact H2].
  destruct (negb (timer_has _ _ _)); exact H2.
Qed.
Lemma kinv_suspend_on t l fl sf k :
  kinv k -> is_Some (threads (ks k) !! t) -> match l with Some l => may_wait l k | None => True end ->
  kinv (rt_thread_suspend_to_list t l fl sf k).1.
Proof.
  intros Hk [th Hth] Hl. pose proof (objs_suspend_to_list t l fl sf k) as Ho.
  split.
  - eapply kwf_suspend_to_list; [apply Hk|done|]. destruct l; [|done]. by eapply may_wait_wait_list.
  - apply (minv_objs k); [done|apply Hk].
  - apply tmp_suspend_to_list, Hk.
  - intros n. unfold get_sem. injection Ho as _ -> _ _ _ _ _. intros Hv.
    apply waiters_suspend; [|by apply (ki_sem _ Hk)]. intros ->. unfold may_wait, get_sem in Hl. lia.
Qed.
Lemma quiet_thread_timer_arm t timeout k th :
  kwf k -> threads (ks k) !! t = Some th -> quiet k (thread_timer_arm t timeout k).
Proof.
  intros Hk Hth. split; [apply tmp_thread_timer_arm|]. intros n Hn.
  destruct (kw_shape _ Hk t) as (tm & Htm & Hsh); [by eexists|].
  by destruct (thread_timer_arm_spec t timeout k tm (kw_t _ Hk) Htm Hsh) as (s' & tm' & -> & _).
Qed.
Lemma kinv_thread_timer_arm t timeout k :
  is_susp (thr k t) = true -> kinv k -> kinv (thread_timer_arm t timeout k).
Proof.
  intros Hsu Hk. destruct (threads (ks k) !! t) as [th|] eqn:Hth.
  2:{ unfold thr, get_thread, is_susp in Hsu. by rewrite Hth in Hsu. }
  unfold thr in Hsu. rewrite (get_thread_lookup _ _ th), is_susp_spec in Hsu by done.
  apply (kinv_objs k); [done|eapply kwf_thread_timer_arm; [apply Hk|done..]| |by eapply quiet_thread_timer_arm; [apply Hk|]].
  eapply objs_thread_timer_arm; [apply Hk|done].
Qed.
Lemma kinv_wait_on t l fl timeout sf k th :
  kinv k -> threads (ks k) !! t = Some th -> may_wait l k -> kinv (wait_on t l fl timeout sf k).1.
Proof.
  intros Hk Hth Hl. unfold wait_on. pose proof (kinv_suspend_on t (Some l) fl sf k Hk (mk_is_Some _ _ Hth) Hl) as H1.
  destruct (rt_thread_suspend_to_list t (Some l) fl sf k) as [k1 ret] eqn:E. cbn [fst] in H1.
  destruct (Z.eqb_spec ret RT_EOK) as [->|]; [|done]. simpl. case_match; [|done].
  destruct (suspend_to_list_thread _ _ _ _ _ _ _ (ki_wf _ Hk) Hth E) as (th' & Hth' & Hsu & _).
  apply kinv_thread_timer_arm; [|done]. apply is_susp_spec. unfold thr. by rewrite (get_thread_lookup _ _ th').
Qed.
Lemma kinv_wait_on_self t l fl timeout sf k :
  kinv k -> self k = Some t -> may_wait l k -> kinv (wait_on t l fl timeout sf k).1.
Proof. intros Hk Hs Hl. destruct (self_thread _ _ (ki_wf _ Hk) Hs) as [th Hth]. by eapply kinv_wait_on. Qed.
Lemma kinv_set_rt_errno e k : kinv k -> kinv (rt_set_errno e k).
Proof. intros. unfold rt_set_errno. repeat case_match; eauto with rt. Qed.
#[export] Hint Resolve kinv_set_rt_errno : rt.

(** ** Outcomes *)
Definition outcome_state (o : outcome) : kstate :=
  match o with Done k _ _ | Resched k _ | Enable k _ => k end.
Definition outcome_kinv (o : outcome) : Prop := kinv (outcome_state o).

Lemma kinv_run_atomic o : outcome_kinv o -> kinv (run_atomic o).1.
Proof. destruct o as [| ? [] |]; simpl; try done; apply kinv_schedule. Qed.

(** One step of a proof that a call keeps the invariant. *)
Ltac kinv_step :=
  lazymatch goal with
  | |- outcome_kinv (let '(_, _) := ?x in _) => let E := fresh "E" in destruct x as [? ?] eqn:E
  | |- outcome_kinv (if ?b then _ else _) => destruct b eqn:?
  | |- outcome_kinv (match ?x with _ => _ end) => destruct x eqn:?
  | |- outcome_kinv (Done _ _ _) => unfold outcome_kinv; cbn [outcome_state]
  | |- outcome_kinv (Resched _ _) => unfold outcome_kinv; cbn [outcome_state]
  | |- outcome_kinv (Enable _ _) => unfold outcome_kinv; cbn [outcome_state]
  | |- kinv (if ?b then _ else _) => destruct b eqn:?
  | |- kinv (match ?x with _ => _ end) => destruct x eqn:?
  | H : (if ?b then _ else _) = (_, _) |- _ => destruct b eqn:?
  | H : (match ?x with _ => _ end) = (_, _) |- _ => destruct x eqn:?
  | H : (_, _) = (_, _) |- _ => simplify_eq
  | H : rt_susp_list_dequeue ?l ?e ?k = (?k', _) |- kinv ?k' =>
      replace k' with (rt_susp_list_dequeue l e k).1 by (by rewrite H); apply kinv_dequeue
  | H : rt_sched_thread_ready ?t ?k = (?k', _) |- kinv ?k' =>
      replace k' with (rt_sched_thread_ready t k).1 by (by rewrite H); apply kinv_thread_ready
  | H : wait_on ?t ?l ?fl ?ti ?sf ?k = (?k', _) |- kinv ?k' =>
      replace k' with (wait_on t l fl ti sf k).1 by (by rewrite H);
      apply kinv_wait_on_self; [|assumption|first [exact I | assumption |
        match goal with H : (0 <? _) = false |- _ => exact (proj1 (Z.ltb_ge _ _) H) end]]
  end.
Ltac kinv_auto := repeat (kinv_step; eauto 6 with rt).
