(* ===== verification/WaitFacts.v ===== *)
(** * Timed waits and hand-overs in full

    [wait_on_spec]: what a call that waits does to the running thread, its list
    and its timer; [wake_first_spec]: what waking the first waiter does. *)
From S2P Require Import Prelude Queue Object Sched SchedFacts TimerCore TimerFacts Kernel KernelFacts Sem Timer KInv IpcInv.

(** The place a waiter takes. *)
Definition enqueued (fl : Z) (s : sstate) (t : tid) (xs : list tid) : list tid :=
  if fl =? RT_IPC_FLAG_FIFO then xs ++ [t] else if fl =? RT_IPC_FLAG_PRIO then prio_insert s t xs else xs.

Lemma prio_insert_ext s s' t xs :
  (forall x, rt_sched_thread_get_curr_prio s' x = rt_sched_thread_get_curr_prio s x) ->
  prio_insert s' t xs = prio_insert s t xs.
Proof. intros H. induction xs as [|x xs IH]; simpl; [done|]. by rewrite !H, IH. Qed.
Lemma enqueued_ext fl s s' t xs :
  (forall x, rt_sched_thread_get_curr_prio s' x = rt_sched_thread_get_curr_prio s x) ->
  enqueued fl s' t xs = enqueued fl s t xs.
Proof. intros H. unfold enqueued. by rewrite (prio_insert_ext s s'). Qed.

Lemma susp_list_enqueue l t fl k l' :
  susp_list (rt_susp_list_enqueue l t fl k) l' =
    if decide (l = l') then enqueued fl (ks k) t (susp_list k l) else susp_list k l'.
Proof.
  unfold rt_susp_list_enqueue, enqueued, susp_list, tlist.
  destruct (fl =? RT_IPC_FLAG_FIFO); [|destruct (fl =? RT_IPC_FLAG_PRIO)]; cbn [ks with_ks tlists with_tlists];
    unfold qpush_back; rewrite ?qget_set; case_decide; by subst.
Qed.

Lemma suspend_state_list t l fl sf k th l' :
  swf (ks k) -> threads (ks k) !! t = Some th -> stat_of th = RT_THREAD_RUNNING ->
  susp_list (suspend_state t (Some l) fl sf k) l' =
    if decide (l = l') then enqueued fl (ks k) t (susp_list k l) else susp_list k l'.
Proof.
  intros Hs Hth Hst. unfold suspend_state. rewrite susp_list_enqueue.
  pose proof (running_fresh _ _ _ _ (swf_core _ Hs) Hth Hst) as Hf.
  assert (E : forall l', susp_list (_thread_set_suspend_state t sf (on_ks (rt_sched_remove_thread t) k)) l' = susp_list k l').
  { intros l0. unfold susp_list, tlist. cbn. rewrite tlists_remove. by rewrite qunlink_fresh. }
  rewrite !E. case_decide; [|done]. apply enqueued_ext. intros x.
  unfold rt_sched_thread_get_curr_prio, get_thread. cbn. rewrite lookup_alter.
  case_decide; [subst x|by rewrite threads_remove]. rewrite threads_remove, Hth. done.
Qed.

Lemma wait_on_spec t l fl timeout sf k th :
  kinv k -> threads (ks k) !! t = Some th -> stat_of th = RT_THREAD_RUNNING -> may_wait l k ->
  exists k' th', wait_on t l fl timeout sf k = (k', RT_EOK) /\ kinv k' /\ objs k' = objs k /\ self k' = self k /\
    (forall l', susp_list k' l' = if decide (l = l') then enqueued fl (ks k) t (susp_list k l) else susp_list k l') /\
    (forall t', threads (ks k') !! t' = if decide (t = t') then Some th' else threads (ks k) !! t') /\
    stat_of th' = suspend_stat sf /\ suspended th' /\ error th' = error th /\
    current_priority th' = current_priority th /\
    sched_flag_ttmr_set th' = (0 <? timeout) /\ rt_tick (kt k') = rt_tick (kt k) /\
    if 0 <? timeout then
      exists tm, timers (kt k') !! TmThread t = Some tm /\ is_active tm = true /\
        timeout_tick tm = u32 (rt_tick (kt k) + u32 timeout)
    else kt k' = kt k.
Proof.
  intros Hk Hth Hst Hl0. pose proof (ki_wf _ Hk) as Hw. pose proof (may_wait_wait_list _ _ Hl0) as Hl.
  assert (Hkw : kwf (wait_on t l fl timeout sf k).1) by (by eapply kwf_wait_on).
  assert (Hob : objs (wait_on t l fl timeout sf k).1 = objs k) by (by eapply objs_wait_on).
  assert (Hk' : kinv (wait_on t l fl timeout sf k).1) by (by eapply kinv_wait_on).
  unfold wait_on in *. rewrite (suspend_to_list_kwf_eq _ _ _ _ _ th) in * by (done || tauto).
  set (k1 := with_ks _ k) in *. cbn [negb Z.eqb RT_EOK fst] in *.
  change (negb (RT_EOK =? RT_EOK)) with false in *. cbn [fst] in *.
  assert (Hth1 : forall t', threads (ks k1) !! t' = if decide (t = t') then
     Some (with_ttmr_set false (restat (suspend_stat sf) th)) else threads (ks k) !! t').
  { intros t'. unfold k1. cbn [ks with_ks]. rewrite lookup_upd, (suspend_state_thread _ _ _ _ _ th) by done.
    by case_decide. }
  assert (Hl1 : forall l', susp_list k1 l' = if decide (l = l') then enqueued fl (ks k) t (susp_list k l) else susp_list k l').
  { intros l'. rewrite <- (suspend_state_list t l fl sf k th l') by (done || apply Hw). done. }
  assert (Hs1 : self k1 = self k) by (apply suspend_state_current).
  destruct (suspend_stat_spec sf th) as [Hsu Hss].
  destruct (0 <? timeout) eqn:Ht.
  - destruct (kw_shape _ Hw t) as (tm & Htm & Hsh); [by eexists|].
    destruct (thread_timer_arm_spec t timeout k1 tm) as (s' & tm' & E & _ & Htk & Htm' & _ & Hact & Hexp & _); [apply Hw|done|done|].
    rewrite E in *. cbn [fst] in *.
    exists (with_kt s' (upd_thr t (with_ttmr_set true) k1)), (with_ttmr_set true (restat (suspend_stat sf) th)).
    split; [done|]. split; [done|]. split; [done|]. split; [done|]. split; [done|]. split.
    { intros t'. cbn [ks with_kt upd_thr on_ks with_ks]. rewrite lookup_upd, Hth1. by case_decide. }
    split; [done|]. split; [done|]. split; [done|]. split; [done|]. split; [done|]. split; [done|].
    by exists tm'.
  - exists k1, (with_ttmr_set false (restat (suspend_stat sf) th)). by split_and!.
Qed.

(** Waking the first waiter of a list. *)
Lemma wake_first_spec l e t rest k :
  kinv k -> wait_list l -> susp_list k l = (t :: rest) -> 0 <= e ->
  exists k' th', rt_susp_list_dequeue l e k = (k', Some t) /\ kinv k' /\ objs k' = objs k /\ self k' = self k /\
    (forall l', wait_list l' -> susp_list k' l' = if decide (l' = l) then rest else susp_list k l') /\
    (forall t', threads (ks k') !! t' = if decide (t = t') then Some th' else threads (ks k) !! t') /\
    stat_of th' = (if decide (self k = Some t) then RT_THREAD_RUNNING else RT_THREAD_READY) /\ error th' = e /\
    timer_has (kt k') (TmThread t) RT_TIMER_FLAG_ACTIVATED = false.
Proof.
  intros Hk Hl Hr He. pose proof (ki_wf _ Hk) as Hw.
  destruct (waiter_suspended k l t) as (th & Hth & Hsu); [done|done|rewrite Hr; left|].
  pose proof (kinv_dequeue l e k Hk) as Hk'. pose proof (objs_dequeue l e k) as Hob.
  rewrite (dequeue_eq k l t rest) in * by done. cbn [fst] in *.
  eexists _, _. split; [done|]. split; [done|]. split; [done|]. split; [apply dequeued_current|].
  split; [intros l' Hl'; by apply dequeued_list|]. split; [intros t'; by apply dequeued_thread|].
  rewrite (proj2 (Z.leb_le 0 e)) by done. split; [|split; [done|]].
  - change (stat_of (with_error e ?x)) with (stat_of x). rewrite stat_of_restat by (by case_decide). done.
  - apply not_true_is_false. pose proof (kw_link _ (ki_wf _ Hk') t) as E. unfold tactive in E. rewrite E.
    unfold view. rewrite (dequeued_thread _ _ th), decide_True, (proj2 (Z.leb_le 0 e)) by done.
    unfold tview. by intros [=].
Qed.

(** ** What the calls promise

    [waiting]: from [k] to [k'] the running thread [t] started to wait on [l],
    its [error] set to [e]; [woken]: the first waiter [t] of [l] was made ready
    with [RT_EOK]. *)
Definition waiting (l : lid) (fl : Z) (t : tid) (timeout e : Z) (k k' : kstate) : Prop :=
  kinv k' /\ objs k' = objs k /\ self k' = self k /\
  (forall l', susp_list k' l' = if decide (l = l') then enqueued fl (ks k) t (susp_list k l) else susp_list k l') /\
  (forall t', t' <> t -> threads (ks k') !! t' = threads (ks k) !! t') /\
  (exists th', threads (ks k') !! t = Some th' /\ suspended th' /\ error th' = e) /\
  if 0 <? timeout then
    exists tm, timers (kt k') !! TmThread t = Some tm /\ is_active tm = true /\
      timeout_tick tm = u32 (rt_tick (kt k) + u32 timeout)
  else kt k' = kt k.

Definition woken (l : lid) (t : tid) (rest : list tid) (k k' : kstate) : Prop :=
  kinv k' /\ objs k' = objs k /\ self k' = self k /\
  (forall l', wait_list l' -> susp_list k' l' = if decide (l' = l) then rest else susp_list k l') /\
  (forall t', t' <> t -> threads (ks k') !! t' = threads (ks k) !! t') /\
  (exists th', threads (ks k') !! t = Some th' /\ error th' = RT_EOK /\
     stat_of th' = if decide (self k = Some t) then RT_THREAD_RUNNING else RT_THREAD_READY) /\
  timer_has (kt k') (TmThread t) RT_TIMER_FLAG_ACTIVATED = false.

(** [f] changes neither the list, the state nor the priority of the thread. *)
Lemma wait_on_waiting t l fl timeout sf f k th :
  kinv k -> kinv (upd_thr t f k) -> threads (ks k) !! t = Some th -> stat_of th = RT_THREAD_RUNNING ->
  stat_of (f th) = stat_of th -> current_priority (f th) = current_priority th -> may_wait l k ->
  exists k', wait_on t l fl timeout sf (upd_thr t f k) = (k', RT_EOK) /\ waiting l fl t timeout (error (f th)) k k'.
Proof.
  intros Hk Hk1 Hth Hst Hfst Hfp Hmay. set (k1 := upd_thr t f k).
  assert (Hth1 : threads (ks k1) !! t = Some (f th)) by (by apply lookup_upd_eq).
  destruct (wait_on_spec t l fl timeout sf k1 (f th) Hk1 Hth1) as
    (k' & th' & -> & Hk' & Ho & Hs' & Hl & Ht & _ & Hsu & He & _ & _ & _ & Hto); [congruence|exact Hmay|].
  exists k'. split; [done|]. split; [done|]. split; [done|]. split; [done|]. split; [|split; [|split]].
  - intros l'. rewrite Hl. case_decide; [|done]. apply enqueued_ext. intros x.
    unfold rt_sched_thread_get_curr_prio, get_thread, k1, upd_thr, on_ks. cbn [ks with_ks]. rewrite lookup_upd.
    case_decide; [subst x|done]. rewrite Hth. done.
  - intros t' Hne. rewrite Ht, decide_False by done. unfold k1, upd_thr, on_ks. cbn [ks with_ks].
    by rewrite lookup_upd_ne.
  - exists th'. rewrite Ht, decide_True by done. done.
  - exact Hto.
Qed.

Lemma wake_first_woken l t rest k :
  kinv k -> wait_list l -> susp_list k l = (t :: rest) ->
  exists k', rt_susp_list_dequeue l RT_EOK k = (k', Some t) /\ woken l t rest k k'.
Proof.
  intros Hk Hl Hr.
  destruct (wake_first_spec l RT_EOK t rest k Hk Hl Hr ltac:(done)) as
    (k' & th' & -> & Hk' & Ho & Hs & Hls & Ht & Hst & He & Hta).
  exists k'. split; [done|]. split; [done|]. split; [done|]. split; [done|]. split; [done|]. split; [|split; [|done]].
  - intros t' Hne. by rewrite Ht, decide_False.
  - exists th'. by rewrite Ht, decide_True.
Qed.

(** The end of a send or a receive: the first waiter, if there is one, is woken. *)
Lemma wake_or_done l k rc out :
  kinv k -> wait_list l ->
  match susp_list k l with
  | [] => match susp_list k l with
          | _ :: _ => let '(k, _) := rt_susp_list_dequeue l RT_EOK k in Resched k (PcRet rc out)
          | [] => Done k rc out end = Done k rc out
  | t :: rest => exists k', match susp_list k l with
          | _ :: _ => let '(k, _) := rt_susp_list_dequeue l RT_EOK k in Resched k (PcRet rc out)
          | [] => Done k rc out end = Resched k' (PcRet rc out) /\ woken l t rest k k'
  end.
Proof.
  intros Hk Hl. destruct (susp_list k l) as [|t rest] eqn:E; [done|].
  destruct (wake_first_woken l t rest k Hk Hl E) as (k' & -> & Hw). by exists k'.
Qed.
