(* ===== verification/SemTake.v ===== *)
(** * Taking a semaphore ([src/rt-thread/src/ipc.c])

    The call runs with interrupts disabled up to its [rt_schedule] and goes on at
    [sem_take_after]. *)
From S2P Require Import Prelude Queue Object Sched TimerCore Kernel Sem Timer.

Definition RT_WAITING_NO : Z := 0.

(** [return error > 0 ? -error : error] *)
Definition neg_error (e : Z) : Z := if 0 <? e then - e else e.

(** From the return of [rt_schedule]. *)
Definition sem_take_after (thread : tid) (k : kstate) : outcome :=
  let e := error (thr k thread) in
  if negb (e =? RT_EOK) then Done k (neg_error e) [] else Done k RT_EOK [].

Definition _rt_sem_take (n : nat) (timeout suspend_flag : Z) (k : kstate) : outcome :=
  if 0 <? sem_value (get_sem k n) then
    Done (set_sem n (fun s => with_value (u16 (sem_value s - 1)) s) k) RT_EOK []
  else if timeout =? 0 then Done k (- RT_ETIMEOUT) []
  else
    match self k with
    | None => Done k (- RT_ERROR) []   (* only called by threads *)
    | Some thread =>
        let k := upd_thr thread (with_error RT_EINTR) k in
        let '(k, ret) := wait_on thread (LSusp (OSem n)) (sem_flag (get_sem k n)) timeout suspend_flag k in
        if negb (ret =? RT_EOK) then Done k ret [] else Resched k (PcSemTake n)
    end.

Definition rt_sem_take (n : nat) (time : Z) : kstate -> outcome := _rt_sem_take n time RT_UNINTERRUPTIBLE.
Definition rt_sem_take_interruptible (n : nat) (time : Z) : kstate -> outcome := _rt_sem_take n time RT_INTERRUPTIBLE.
Definition rt_sem_take_killable (n : nat) (time : Z) : kstate -> outcome := _rt_sem_take n time RT_KILLABLE.
Definition rt_sem_trytake (n : nat) : kstate -> outcome := rt_sem_take n RT_WAITING_NO.
