(* ===== verification/MutexOps.v ===== *)
(** * Mutexes ([src/rt-thread/src/ipc.c])

    Recursive mutexes with priority inheritance and priority ceilings.  The
    functions hold [mutex->spinlock], the scheduler lock: the part between two
    reschedules is one atomic segment for the threads. *)
From S2P Require Import Prelude Queue Object Sched TimerCore Kernel Sem Timer SemTake.

Definition RT_MUTEX_HOLD_MAX : Z := 255.

Definition get_mutex (k : kstate) (m : nat) : rt_mutex := default (Mutex 0 0 0 0 None) (mutexes k !! m).
Definition set_mutex (m : nat) (f : rt_mutex -> rt_mutex) (k : kstate) : kstate :=
  with_mutexes (alter f m (mutexes k)) k.
Definition with_ceiling (v : Z) (m : rt_mutex) : rt_mutex :=
  Mutex (mutex_flag m) v (mutex_priority m) (hold m) (owner m).
Definition with_mpriority (v : Z) (m : rt_mutex) : rt_mutex :=
  Mutex (mutex_flag m) (ceiling_priority m) v (hold m) (owner m).
Definition with_hold (v : Z) (m : rt_mutex) : rt_mutex :=
  Mutex (mutex_flag m) (ceiling_priority m) (mutex_priority m) v (owner m).
Definition with_owner (v : option tid) (m : rt_mutex) : rt_mutex :=
  Mutex (mutex_flag m) (ceiling_priority m) (mutex_priority m) (hold m) v.

Definition msusp (k : kstate) (m : nat) : list tid := susp_list k (LSusp (OMutex m)).
Definition taken (k : kstate) (t : tid) : list nat := qget (taken_object_list k) t.
(** [rt_list_remove(&mutex->taken_list)] and
    [rt_list_insert_after(&thread->taken_object_list, &mutex->taken_list)] *)
Definition taken_remove (m : nat) (k : kstate) : kstate := with_taken (qunlink m (taken_object_list k)) k.
Definition taken_insert (t : tid) (m : nat) (k : kstate) : kstate :=
  with_taken (qpush_front t m (taken_object_list k)) k.

(** ** Priorities *)
Definition _mutex_update_priority (m : nat) (k : kstate) : kstate :=
  match msusp k m with
  | t :: _ => set_mutex m (with_mpriority (rt_sched_thread_get_curr_prio (ks k) t)) k
  | [] => set_mutex m (with_mpriority 0xff) k
  end.

Definition _thread_get_mutex_priority (t : tid) (k : kstate) : Z :=
  foldl (fun priority m =>
      let mx := get_mutex k m in
      let mutex_prio := if mutex_priority mx <? ceiling_priority mx
                        then mutex_priority mx else ceiling_priority mx in
      if mutex_prio <? priority then mutex_prio else priority)
    (rt_sched_thread_get_init_prio (ks k) t) (taken k t).

(** The loop of [_thread_update_priority]: from a thread to the mutex it waits
    for and on to its owner. *)
Fixpoint update_priority_loop (fuel : nat) (thread : tid) (k : kstate) : kstate :=
  match fuel with
  | O => k
  | S f =>
      if rt_sched_thread_is_suspended (ks k) thread then
        match pending_object (thr k thread) with
        | Some (OMutex m) =>
            if rt_object_get_type (ko k) (KIpc (OMutex m)) =? RT_Object_Class_Mutex then
              (* re-insert the thread to re-sort the suspend list *)
              let k := on_ks (tlist_remove thread) k in
              let k := rt_susp_list_enqueue (LSusp (OMutex m)) thread (mutex_flag (get_mutex k m)) k in
              let k := _mutex_update_priority m k in
              match owner (get_mutex k m) with
              | Some o =>
                  let priority := _thread_get_mutex_priority o k in
                  if negb (priority =? rt_sched_thread_get_curr_prio (ks k) o)
                  then update_priority_loop f o (on_ks (rt_sched_thread_change_priority o priority) k)
                  else k
              | None => k
              end
            else k
        | _ => k
        end
      else k
  end.

(** A chain of waiting threads without a deadlock visits no thread twice. *)
Definition update_fuel (k : kstate) : nat := S (size (threads (ks k))).
Definition _thread_update_priority (thread : tid) (priority : Z) (k : kstate) : kstate :=
  update_priority_loop (update_fuel k) thread (on_ks (rt_sched_thread_change_priority thread priority) k).

Definition _check_and_update_prio (t : tid) (m : nat) (k : kstate) : kstate * bool :=
  if negb (ceiling_priority (get_mutex k m) =? 0xff)
     || (rt_sched_thread_get_curr_prio (ks k) t =? mutex_priority (get_mutex k m)) then
    let priority := _thread_get_mutex_priority t k in
    (on_ks (rt_sched_thread_change_priority t priority) k, true)
  else (k, false).

(** What [rt_mutex_drop_thread] and a timed out [_rt_mutex_take] do once [thread]
    is off the suspend list. *)
Definition waiter_left (thread : tid) (m : nat) (k : kstate) : kstate :=
  let need_update :=
    match owner (get_mutex k m) with
    | Some o => rt_sched_thread_get_curr_prio (ks k) o =? rt_sched_thread_get_curr_prio (ks k) thread
    | None => false
    end in
  let k := _mutex_update_priority m k in
  match owner (get_mutex k m) with
  | Some o =>
      if need_update then
        let priority := _thread_get_mutex_priority o k in
        if negb (priority =? rt_sched_thread_get_curr_prio (ks k) o)
        then _thread_update_priority o priority k else k
      else k
  | None => k
  end.

(** ** Initialisation and removal *)
Definition _mutex_object_init (m : nat) (k : kstate) : kstate :=
  let k := _ipc_object_init (OMutex m) k in
  let k := with_mutexes (<[m := Mutex RT_IPC_FLAG_PRIO 0xff 0xff 0 None]> (mutexes k)) k in
  taken_remove m k.

Definition rt_mutex_init (m : nat) (name : list Z) (flag : Z) (k : kstate) : kstate * Z :=
  let k := on_ko (rt_object_init (KIpc (OMutex m)) RT_Object_Class_Mutex name) k in
  (_mutex_object_init m k, RT_EOK).

Definition rt_mutex_create (alloc : option nat) (name : list Z) (flag : Z) (k : kstate)
    : kstate * option nat :=
  let '(o, r) := rt_object_allocate ((fun m => KIpc (OMutex m)) <$> alloc) RT_Object_Class_Mutex name (ko k) in
  let k := with_ko o k in
  match alloc with
  | None => (k, None)
  | Some m => (_mutex_object_init m k, Some m)
  end.

(** Up to the reschedule at its end. *)
Definition _mutex_before_delete_detach (m : nat) (k : kstate) : kstate :=
  let k := rt_spin_lock k in
  let k := rt_susp_list_resume_all (LSusp (OMutex m)) RT_ERROR k in
  let k := taken_remove m k in
  let k := match owner (get_mutex k m) with
           | Some o =>
               let '(k, need_schedule) := _check_and_update_prio o m k in
               if (need_schedule : bool) then on_ks rt_sched_unlock_n_resched k else k
           | None => k
           end in
  spin_unlock k.
Definition rt_mutex_detach (m : nat) (k : kstate) : outcome :=
  Resched (_mutex_before_delete_detach m k) (PcMutexDetach m).
Definition mutex_detach_after (m : nat) (k : kstate) : outcome :=
  Done (on_ko (rt_object_detach (KIpc (OMutex m))) k) RT_EOK [].
Definition rt_mutex_delete (m : nat) (k : kstate) : outcome :=
  Resched (_mutex_before_delete_detach m k) (PcMutexDelete m).
Definition mutex_delete_after (m : nat) (k : kstate) : outcome :=
  Done (on_ko (rt_object_delete (KIpc (OMutex m))) k) RT_EOK [].

Definition rt_mutex_drop_thread (m : nat) (thread : tid) (k : kstate) : outcome :=
  let k := rt_spin_lock k in
  let k := on_ks (tlist_remove thread) k in
  let k := waiter_left thread m k in
  Resched (spin_unlock k) (PcRet RT_EOK []).

Definition rt_mutex_setprioceiling (m : nat) (priority : Z) (k : kstate) : outcome :=
  if priority <? RT_THREAD_PRIORITY_MAX then
    let k := rt_spin_lock k in
    let ret_priority := ceiling_priority (get_mutex k m) in
    let k := set_mutex m (with_ceiling priority) k in
    let k := match owner (get_mutex k m) with
             | Some o =>
                 let highest_prio := _thread_get_mutex_priority o k in
                 if negb (highest_prio =? rt_sched_thread_get_curr_prio (ks k) o)
                 then _thread_update_priority o highest_prio k else k
             | None => k
             end in
    Resched (spin_unlock k) (PcRet ret_priority [])
  else Done (rt_set_errno (- RT_EINVAL) k) 0xff [].

Definition rt_mutex_getprioceiling (m : nat) (k : kstate) : outcome :=
  let k := rt_spin_lock k in
  let prio := ceiling_priority (get_mutex k m) in
  Resched (spin_unlock k) (PcRet prio []).

(** ** Taking and releasing *)
Definition _rt_mutex_take (m : nat) (timeout suspend_flag : Z) (k : kstate) : outcome :=
  match self k with
  | None => Done k (- RT_ERROR) []   (* only called by threads *)
  | Some thread =>
      let k := rt_spin_lock k in
      let k := upd_thr thread (with_error RT_EOK) k in
      let mx := get_mutex k m in
      if decide (owner mx = Some thread) then
        if hold mx <? RT_MUTEX_HOLD_MAX then
          Resched (spin_unlock (set_mutex m (fun x => with_hold (u8 (hold x + 1)) x) k)) (PcRet RT_EOK [])
        else Resched (spin_unlock k) (PcRet (- RT_EFULL) [])
      else
        match owner mx with
        | None =>
            let k := set_mutex m (fun x => with_hold 1 (with_mpriority 0xff (with_owner (Some thread) x))) k in
            let ceiling := ceiling_priority (get_mutex k m) in
            let k := if negb (ceiling =? 0xff)
                        && (ceiling <? rt_sched_thread_get_curr_prio (ks k) thread)
                     then _thread_update_priority thread ceiling k else k in
            Resched (spin_unlock (taken_insert thread m k)) (PcRet RT_EOK [])
        | Some o =>
            if timeout =? 0 then
              Resched (spin_unlock (upd_thr thread (with_error RT_ETIMEOUT) k)) (PcRet (- RT_ETIMEOUT) [])
            else
              let '(k, ret) := rt_thread_suspend_to_list thread (Some (LSusp (OMutex m)))
                                 (mutex_flag mx) suspend_flag k in
              if negb (ret =? RT_EOK) then Resched (spin_unlock k) (PcRet ret [])
              else
                let k := upd_thr thread (with_pending (Some (OMutex m))) k in
                let priority := rt_sched_thread_get_curr_prio (ks k) thread in
                let k :=
                  if priority <? mutex_priority (get_mutex k m) then
                    let k := set_mutex m (with_mpriority priority) k in
                    if mutex_priority (get_mutex k m) <? rt_sched_thread_get_curr_prio (ks k) o
                    then _thread_update_priority o priority k else k
                  else k in
                let k := if 0 <? timeout then thread_timer_arm thread timeout k else k in
                Resched (spin_unlock k) (PcMutexWait m)
        end
  end.

(** The [rt_schedule] after the one of [rt_spin_unlock], ... *)
Definition mutex_take_wait (m : nat) (k : kstate) : outcome := Resched k (PcMutexTake m).
(** ... and the rest of the call. *)
Definition mutex_take_after (thread : tid) (m : nat) (k : kstate) : outcome :=
  let k := rt_spin_lock k in
  let ret := error (thr k thread) in
  if ret =? RT_EOK then Resched (spin_unlock k) (PcRet RT_EOK [])
  else
    let k := waiter_left thread m k in
    let k := spin_unlock k in
    Resched k (PcMutexFail ret).
(** [thread->pending_object = RT_NULL] comes after the reschedule. *)
Definition mutex_take_fail (thread : tid) (ret : Z) (k : kstate) : outcome :=
  Done (upd_thr thread (with_pending None) k) (neg_error ret) [].

Definition rt_mutex_take (m : nat) (time : Z) : kstate -> outcome := _rt_mutex_take m time RT_UNINTERRUPTIBLE.
Definition rt_mutex_take_interruptible (m : nat) (time : Z) : kstate -> outcome := _rt_mutex_take m time RT_INTERRUPTIBLE.
Definition rt_mutex_take_killable (m : nat) (time : Z) : kstate -> outcome := _rt_mutex_take m time RT_KILLABLE.
Definition rt_mutex_trytake (m : nat) : kstate -> outcome := rt_mutex_take m RT_WAITING_NO.

(** The loop of [rt_mutex_release]: the first waiter that can be made ready.
    Every turn takes a thread off the list. *)
Fixpoint release_loop (fuel : nat) (m : nat) (k : kstate) : kstate * option tid :=
  match fuel with
  | O => (k, None)
  | S f =>
      match msusp k m with
      | [] => (k, None)
      | next :: _ =>
          let k := on_ks (tlist_remove next) k in
          let '(k, e) := rt_sched_thread_ready next k in
          if negb (e =? RT_EOK) then release_loop f m k else (k, Some next)
      end
  end.

(** The mutex passed on or freed once its hold count is 0. *)
Definition mutex_handover (m : nat) (k : kstate) : kstate * bool :=
  let '(k, next_thread) := release_loop (length (msusp k m)) m k in
  match next_thread with
  | Some next =>
      let k := set_mutex m (fun x => with_hold 1 (with_owner (Some next) x)) k in
      let k := taken_insert next m k in
      let k := upd_thr next (with_pending None) k in
      (_mutex_update_priority m k, true)
  | None => (set_mutex m (fun x => with_mpriority 0xff (with_owner None x)) k, false)
  end.

Definition rt_mutex_release (m : nat) (k : kstate) : outcome :=
  match self k with
  | None => Done k (- RT_ERROR) []   (* only called by threads *)
  | Some thread =>
      let k := rt_spin_lock k in
      if decide (owner (get_mutex k m) <> Some thread) then
        Resched (spin_unlock (upd_thr thread (with_error (- RT_ERROR)) k)) (PcRet (- RT_ERROR) [])
      else
        let k := set_mutex m (fun x => with_hold (u8 (hold x - 1)) x) k in
        if hold (get_mutex k m) =? 0 then
          let k := taken_remove m k in
          let '(k, need_schedule) := _check_and_update_prio thread m k in
          let '(k, handed) := mutex_handover m k in
          if (need_schedule || handed : bool)
          then Resched (spin_unlock k) (PcSchedule RT_EOK)
          else Resched (spin_unlock k) (PcRet RT_EOK [])
        else Resched (spin_unlock k) (PcRet RT_EOK [])
  end.

Definition rt_mutex_control (m : nat) (cmd arg : Z) (k : kstate) : outcome := Done k (- RT_EINVAL) [].
