(* ===== verification/MutexInv.v ===== *)
(** * The mutex operations keep the invariant of the kernel *)
From S2P Require Import Prelude Queue Object Sched SchedFacts TimerCore TimerFacts Kernel KernelFacts.
From S2P Require Import Sem Timer KInv IpcInv SemTake MutexOps.

(** ** Ranges of priorities *)
Lemma curr_prio_range k t :
  kinv k -> 0 <= rt_sched_thread_get_curr_prio (ks k) t < RT_THREAD_PRIORITY_MAX.
Proof.
  intros Hk. unfold rt_sched_thread_get_curr_prio, get_thread. destruct (threads (ks k) !! t) as [th|] eqn:Hth; [|done].
  by apply (sw_prio _ _ (swf_core _ (kw_s _ (ki_wf _ Hk))) t th Hth).
Qed.
Lemma get_mutex_inv k m : kinv k -> 0 <= ceiling_priority (get_mutex k m) /\ 0 <= mutex_priority (get_mutex k m).
Proof.
  intros Hk. unfold get_mutex. destruct (mutexes k !! m) as [mx|] eqn:E; [|done]. by apply (ki_m _ Hk m mx).
Qed.
Lemma mutex_prio_range k t : kinv k -> 0 <= _thread_get_mutex_priority t k < RT_THREAD_PRIORITY_MAX.
Proof.
  intros Hk. unfold _thread_get_mutex_priority.
  assert (H0 : 0 <= rt_sched_thread_get_init_prio (ks k) t < RT_THREAD_PRIORITY_MAX).
  { unfold rt_sched_thread_get_init_prio, get_thread. destruct (threads (ks k) !! t) as [th|] eqn:Hth; [|done].
    by apply (sw_prio _ _ (swf_core _ (kw_s _ (ki_wf _ Hk))) t th Hth). }
  revert H0. generalize (rt_sched_thread_get_init_prio (ks k) t). induction (taken k t) as [|m l IH]; intros p Hp; [done|].
  simpl. apply IH. destruct (get_mutex_inv k m Hk). repeat case_match; rt_bool; lia.
Qed.

(** ** Changing a priority *)
Lemma view_change_priority t p s t' :
  swf s -> view (rt_sched_thread_change_priority t p s) t' = view s t'.
Proof.
  intros Hs. unfold rt_sched_thread_change_priority.
  destruct (stat_of (get_thread s t) =? RT_THREAD_READY) eqn:Hst; rt_bool.
  2:{ rewrite view_upd. unfold view. case_decide; [|done]. by destruct (threads s !! t'). }
  destruct (threads s !! t) as [th|] eqn:Hth; [|by unfold get_thread in Hst; rewrite Hth in Hst].
  rewrite (get_thread_lookup _ _ th) in Hst by done.
  set (s2 := upd_thread t (with_stat RT_THREAD_INIT) (upd_thread t (with_priority p) (rt_sched_remove_thread t s))).
  unfold view. rewrite lookup_insert_thread. unfold s2. rewrite !lookup_upd, threads_remove.
  destruct (decide (t = t')) as [<-|]; [|done]. rewrite Hth, !(decide_True (P := t = t)) by done. apply (f_equal Some). unfold tview.
  apply f_equal2; [|done]. transitivity false; [|symmetry]; apply is_susp_false; rewrite suspended_stat_of.
  - rewrite stat_of_restat; by case_decide.
  - by rewrite Hst.
Qed.
Lemma waiters_change_priority t p k n :
  sem_waiters k n = [] -> sem_waiters (on_ks (rt_sched_thread_change_priority t p) k) n = [].
Proof.
  intros Hn. unfold rt_sched_thread_change_priority, sem_waiters, susp_list. cbn [ks on_ks with_ks].
  destruct (stat_of _ =? _); [|done]. unfold rt_sched_insert_thread.
  assert (Hu : qget (qunlink t (tlists (ks k))) (LSusp (OSem n)) = []) by (rewrite qget_unlink; by apply nil_unlink).
  destruct (decide (rt_current_thread _ = Some t)).
  - unfold tlist. cbn. by rewrite tlists_remove.
  - destruct (has_flag _ _); unfold tlist, qpush_back, qpush_front; cbn; rewrite tlists_remove;
      unfold qget; rewrite lookup_insert_ne by done; exact Hu.
Qed.
Lemma kinv_change_priority t p k :
  0 <= p < RT_THREAD_PRIORITY_MAX -> kinv k -> kinv (on_ks (rt_sched_thread_change_priority t p) k).
Proof.
  intros Hp Hk. pose proof (kw_s _ (ki_wf _ Hk)) as Hs.
  apply (kinv_objs k); [done| |done|split; [done|intros n; apply waiters_change_priority]].
  apply kwf_ks; [apply Hk| |intros t'; by apply view_change_priority].
  destruct (threads (ks k) !! t) as [th|] eqn:Hth; [by eapply change_priority_swf|].
  unfold rt_sched_thread_change_priority, get_thread. rewrite Hth. simpl.
  replace (upd_thread t (with_priority p) (ks k)) with (ks k); [done|].
  unfold upd_thread, with_threads. destruct (ks k) as [ts ? ? ? ? ? ?]; simpl in *. f_equal.
  symmetry. apply map_eq. intros i. rewrite lookup_alter. case_decide; [subst; by rewrite Hth|done].
Qed.

(** ** The suspend list of a mutex *)
Lemma kinv_unlink_suspended t k :
  is_susp (thr k t) = true -> kinv k -> kinv (on_ks (tlist_remove t) k).
Proof.
  intros Hsu Hk. pose proof (kw_s _ (ki_wf _ Hk)) as [Hs Hc].
  apply (kinv_objs k); [done| |done|split; [done|]].
  2:{ intros n Hn. unfold sem_waiters, susp_list, tlist. cbn. rewrite qget_unlink. by apply nil_unlink. }
  apply kwf_ks; [apply Hk| |done].
  destruct (threads (ks k) !! t) as [th|] eqn:Hth.
  2:{ unfold thr, get_thread, is_susp in Hsu. by rewrite Hth in Hsu. }
  unfold thr in Hsu. rewrite (get_thread_lookup _ _ th), is_susp_spec in Hsu by done.
  split; [|by apply cur_ok_tlist_remove].
  apply (swfx_attach t); [eapply swfx_tlist_remove; eauto with rt|]. intros th' Hth'. simpl in Hth'. simplify_eq.
  by apply suspended_not_ready.
Qed.
Lemma kinv_requeue t m fl k :
  is_susp (thr k t) = true -> kinv k ->
  kinv (rt_susp_list_enqueue (LSusp (OMutex m)) t fl (on_ks (tlist_remove t) k)).
Proof.
  intros Hsu Hk. set (l := LSusp (OMutex m)). pose proof (kinv_unlink_suspended t k Hsu Hk) as Hk1.
  pose proof (kw_s _ (ki_wf _ Hk)) as [Hs Hc].
  destruct (threads (ks k) !! t) as [th|] eqn:Hth.
  2:{ unfold thr, get_thread, is_susp in Hsu. by rewrite Hth in Hsu. }
  unfold thr in Hsu. rewrite (get_thread_lookup _ _ th), is_susp_spec in Hsu by done.
  assert (Hv : with_ks (ks (rt_susp_list_enqueue l t fl (on_ks (tlist_remove t) k))) (on_ks (tlist_remove t) k)
    = rt_susp_list_enqueue l t fl (on_ks (tlist_remove t) k)).
  { unfold rt_susp_list_enqueue. by repeat case_match. }
  rewrite <- Hv. apply (kinv_objs (on_ks (tlist_remove t) k)); [done| |done|].
  2:{ split; [done|]. intros n Hn. unfold rt_susp_list_enqueue, sem_waiters, susp_list, tlist in *. cbn in *.
      destruct (fl =? RT_IPC_FLAG_FIFO); [|destruct (fl =? RT_IPC_FLAG_PRIO); [|done]];
        cbn; unfold qpush_back, qget; by rewrite lookup_insert_ne. }
  apply kwf_ks; [apply Hk1| |].
  - split.
    + apply (enqueue_swf l t fl _ th); [eapply swfx_tlist_remove; eauto with rt|done..].
    + apply (cur_ok_same (ks k)); [by rewrite threads_enqueue|by rewrite current_enqueue|done].
  - intros t'. unfold view. by rewrite threads_enqueue.
Qed.

(** ** Priorities of mutexes and their owners *)
Lemma minv_alter m f k :
  (forall mx, 0 <= ceiling_priority mx /\ 0 <= mutex_priority mx ->
              0 <= ceiling_priority (f mx) /\ 0 <= mutex_priority (f mx)) ->
  minv k -> minv (set_mutex m f k).
Proof.
  intros Hf Hm m' mx. unfold set_mutex. cbn [mutexes with_mutexes]. rewrite lookup_alter.
  case_decide; [subst m'|apply Hm]. destruct (mutexes k !! m) as [mx0|] eqn:E; [|done].
  intros [= <-]. apply Hf. by apply (Hm m).
Qed.
Lemma kinv_set_mutex m f k :
  (forall mx, 0 <= ceiling_priority mx /\ 0 <= mutex_priority mx ->
              0 <= ceiling_priority (f mx) /\ 0 <= mutex_priority (f mx)) ->
  kinv k -> kinv (set_mutex m f k).
Proof. intros Hf [H1 H2 H3 H4]. split; [by apply kwf_with_mutexes|by apply minv_alter|done|done]. Qed.
Ltac mutex_field := intros ? [? ?]; cbn; split; lia.

Lemma kinv_mutex_update_priority m k : kinv k -> kinv (_mutex_update_priority m k).
Proof.
  intros Hk. unfold _mutex_update_priority. destruct (msusp k m) as [|t l].
  - apply kinv_set_mutex; [mutex_field|done].
  - pose proof (curr_prio_range k t Hk). apply kinv_set_mutex; [mutex_field|done].
Qed.
#[export] Hint Resolve kinv_mutex_update_priority : rt.

Lemma kinv_update_priority_loop fuel : forall t k, kinv k -> kinv (update_priority_loop fuel t k).
Proof.
  induction fuel as [|f IH]; [done|]. intros t k Hk. simpl.
  destruct (rt_sched_thread_is_suspended (ks k) t) eqn:Hsu; [|done].
  destruct (pending_object (thr k t)) as [[| m | | | |]|]; try done. case_match; [|done].
  set (k1 := _mutex_update_priority m _). assert (Hk1 : kinv k1).
  { apply kinv_mutex_update_priority. by apply kinv_requeue. }
  destruct (owner (get_mutex k1 m)) as [o|]; [|done]. case_match; [|done].
  apply IH. apply kinv_change_priority; [by apply mutex_prio_range|done].
Qed.
Lemma kinv_thread_update_priority t p k :
  0 <= p < RT_THREAD_PRIORITY_MAX -> kinv k -> kinv (_thread_update_priority t p k).
Proof. intros Hp Hk. apply kinv_update_priority_loop. by apply kinv_change_priority. Qed.
Lemma kinv_check_and_update_prio t m k : kinv k -> kinv (_check_and_update_prio t m k).1.
Proof.
  intros Hk. unfold _check_and_update_prio. case_match; [|done].
  apply kinv_change_priority; [by apply mutex_prio_range|done].
Qed.
Lemma kinv_waiter_left t m k : kinv k -> kinv (waiter_left t m k).
Proof.
  intros Hk. unfold waiter_left. set (k1 := _mutex_update_priority m k).
  assert (Hk1 : kinv k1) by (by apply kinv_mutex_update_priority).
  destruct (owner (get_mutex k1 m)) as [o|]; [|done]. repeat (case_match; [|done]).
  apply kinv_thread_update_priority; [by apply mutex_prio_range|done].
Qed.
Lemma kinv_taken_remove m k : kinv k -> kinv (taken_remove m k).
Proof. intros. unfold taken_remove. eauto with rt. Qed.
Lemma kinv_taken_insert t m k : kinv k -> kinv (taken_insert t m k).
Proof. intros. unfold taken_insert. eauto with rt. Qed.
#[export] Hint Resolve kinv_check_and_update_prio kinv_waiter_left kinv_taken_remove kinv_taken_insert : rt.

(** ** The calls *)
Lemma kinv_mutex_object_init m k : kinv k -> kinv (_mutex_object_init m k).
Proof.
  intros Hk. unfold _mutex_object_init. apply kinv_taken_remove.
  pose proof (kinv_ipc_object_init (OMutex m) k Hk) as [H1 H2 H3 H4]. split; [by apply kwf_with_mutexes| |done|done].
  intros m' mx. cbn [mutexes with_mutexes]. rewrite lookup_insert. case_decide; [intros [= <-]; by simpl|apply H2].
Qed.
#[export] Hint Resolve kinv_mutex_object_init : rt.
Lemma kinv_mutex_init m name fl k : kinv k -> kinv (rt_mutex_init m name fl k).1.
Proof. intros. unfold rt_mutex_init. simpl. eauto with rt. Qed.
Lemma kinv_mutex_create al name fl k : kinv k -> kinv (rt_mutex_create al name fl k).1.
Proof.
  intros. unfold rt_mutex_create. destruct (rt_object_allocate _ _ _ _) as [o r].
  destruct al; simpl; eauto with rt.
Qed.
Lemma kinv_mutex_before_delete_detach m k : kinv k -> kinv (_mutex_before_delete_detach m k).
Proof.
  intros Hk. unfold _mutex_before_delete_detach. apply kinv_spin_unlock.
  set (k1 := taken_remove m _). assert (Hk1 : kinv k1) by (unfold k1; eauto with rt).
  destruct (owner (get_mutex k1 m)) as [o|]; [|done].
  pose proof (kinv_check_and_update_prio o m k1 Hk1) as H.
  destruct (_check_and_update_prio o m k1) as [k2 []]; [by apply kinv_unlock_n_resched|done].
Qed.
Lemma kinv_mutex_drop_thread m t k :
  is_susp (thr k t) = true -> kinv k -> outcome_kinv (rt_mutex_drop_thread m t k).
Proof.
  intros Hsu Hk. apply kinv_spin_unlock, kinv_waiter_left. apply kinv_unlink_suspended; [done|].
  by apply kinv_spin_lock.
Qed.
Lemma kinv_mutex_setprioceiling m p k : 0 <= p -> kinv k -> outcome_kinv (rt_mutex_setprioceiling m p k).
Proof.
  intros Hp Hk. unfold rt_mutex_setprioceiling. case_match; [|by apply kinv_set_rt_errno].
  apply kinv_spin_unlock. set (k1 := set_mutex m _ _).
  assert (Hk1 : kinv k1) by (apply kinv_set_mutex; [mutex_field|by apply kinv_spin_lock]).
  destruct (owner (get_mutex k1 m)) as [o|]; [|done]. case_match; [|done].
  apply kinv_thread_update_priority; [by apply mutex_prio_range|done].
Qed.
Lemma kinv_mutex_getprioceiling m k : kinv k -> outcome_kinv (rt_mutex_getprioceiling m k).
Proof. intros. unfold rt_mutex_getprioceiling. kinv_auto. Qed.

(** Threads stay suspended while priorities change. *)
Lemma view_is_susp k k' t : (forall t, view (ks k') t = view (ks k) t) -> is_susp (thr k' t) = is_susp (thr k t).
Proof.
  intros Hv. specialize (Hv t). unfold view, thr, get_thread in *.
  destruct (threads (ks k') !! t), (threads (ks k) !! t); simpl in *; by simplify_eq.
Qed.
Lemma view_update_priority_loop fuel : forall t k t',
  kinv k -> view (ks (update_priority_loop fuel t k)) t' = view (ks k) t'.
Proof.
  induction fuel as [|f IH]; [done|]. intros t k t' Hk. simpl.
  destruct (rt_sched_thread_is_suspended (ks k) t) eqn:Hsu; [|done].
  destruct (pending_object (thr k t)) as [[| m | | | |]|]; try done. case_match; [|done].
  set (k0 := rt_susp_list_enqueue _ _ _ _). set (k1 := _mutex_update_priority m _).
  assert (Hk0 : kinv k0) by (by apply kinv_requeue).
  assert (Hk1 : kinv k1) by (by apply kinv_mutex_update_priority).
  assert (Hv : view (ks k1) t' = view (ks k) t').
  { unfold k1, _mutex_update_priority. transitivity (view (ks k0) t').
    - by case_match.
    - unfold view, k0. by rewrite threads_enqueue. }
  destruct (owner (get_mutex k1 m)) as [o|]; [|done]. case_match; [|done].
  rewrite IH; [|by apply kinv_change_priority; [apply mutex_prio_range|]].
  cbn [on_ks ks with_ks]. rewrite view_change_priority; [done|apply Hk1].
Qed.
Lemma view_thread_update_priority t p k t' :
  0 <= p < RT_THREAD_PRIORITY_MAX -> kinv k -> view (ks (_thread_update_priority t p k)) t' = view (ks k) t'.
Proof.
  intros Hp Hk. unfold _thread_update_priority. rewrite view_update_priority_loop by (by apply kinv_change_priority).
  cbn [on_ks ks with_ks]. apply view_change_priority, Hk.
Qed.

Lemma kinv_suspend_to_list t l fl sf k :
  self k = Some t -> may_wait l k -> kinv k -> kinv (rt_thread_suspend_to_list t (Some l) fl sf k).1.
Proof.
  intros Hs Hl Hk. destruct (self_thread _ _ (ki_wf _ Hk) Hs) as [th Hth]. apply kinv_suspend_on; [done|by eexists|done].
Qed.

Lemma kinv_mutex_take m timeout sf k : kinv k -> outcome_kinv (_rt_mutex_take m timeout sf k).
Proof.
  intros Hk. unfold _rt_mutex_take. destruct (self k) as [t|] eqn:Hself; [|done].
  set (k1 := upd_thr t (with_error RT_EOK) (rt_spin_lock k)).
  assert (Hk1 : kinv k1) by (apply kinv_upd_error; by apply kinv_spin_lock).
  destruct (decide (owner (get_mutex k1 m) = Some t)) as [Ho|Ho].
  { case_match; apply kinv_spin_unlock; [|done]. apply kinv_set_mutex; [mutex_field|done]. }
  destruct (owner (get_mutex k1 m)) as [o|] eqn:Hown.
  2:{ apply kinv_spin_unlock, kinv_taken_insert. set (k2 := set_mutex m _ k1).
      assert (Hk2 : kinv k2) by (apply kinv_set_mutex; [mutex_field|done]).
      case_match; [|done]. rt_bool. pose proof (get_mutex_inv k2 m Hk2). pose proof (curr_prio_range k2 t Hk2).
      apply kinv_thread_update_priority; [lia|done]. }
  case_match; [apply kinv_spin_unlock; by apply kinv_upd_error|].
  pose proof (kinv_suspend_to_list t (LSusp (OMutex m)) (mutex_flag (get_mutex k1 m)) sf k1 Hself I Hk1) as Hk2.
  destruct (self_thread _ _ (ki_wf _ Hk1) Hself) as [th Hth].
  destruct (rt_thread_suspend_to_list _ _ _ _ k1) as [k2 ret] eqn:E. cbn [fst] in Hk2.
  destruct (Z.eqb_spec ret RT_EOK) as [->|]; [|by apply kinv_spin_unlock]. cbn [negb].
  destruct (suspend_to_list_thread _ _ _ _ _ _ _ (ki_wf _ Hk1) Hth E) as (th' & Hth' & Hsu & _).
  set (k3 := upd_thr t (with_pending _) k2). assert (Hk3 : kinv k3) by (by apply kinv_upd_pending).
  assert (Hs3 : is_susp (thr k3 t) = true).
  { apply is_susp_spec. unfold thr. by rewrite (get_thread_lookup _ _ (with_pending (Some (OMutex m)) th')) by (by apply lookup_upd_eq). }
  set (pr := rt_sched_thread_get_curr_prio (ks k3) t).
  assert (Hpr : 0 <= pr < RT_THREAD_PRIORITY_MAX) by (by apply curr_prio_range).
  match goal with |- context [if pr <? _ then ?x else k3] => set (k4 := if pr <? _ then x else k3) end.
  assert (Hk4 : kinv k4 /\ is_susp (thr k4 t) = true).
  { unfold k4. case_match; [|done].
    assert (Hk5 : kinv (set_mutex m (with_mpriority pr) k3)) by (apply kinv_set_mutex; [mutex_field|done]).
    case_match; [|done]. split; [by apply kinv_thread_update_priority|].
    rewrite (view_is_susp (set_mutex m (with_mpriority pr) k3)); [done|].
    intros t'. by apply view_thread_update_priority. }
  destruct Hk4 as [Hk4 Hs4]. apply kinv_spin_unlock. case_match; [by apply kinv_thread_timer_arm|done].
Qed.
Lemma kinv_mutex_take_wait m k : kinv k -> outcome_kinv (mutex_take_wait m k).
Proof. done. Qed.
Lemma kinv_mutex_take_after t m k : kinv k -> outcome_kinv (mutex_take_after t m k).
Proof. intros. unfold mutex_take_after. kinv_auto. Qed.
Lemma kinv_mutex_take_fail t ret k : kinv k -> outcome_kinv (mutex_take_fail t ret k).
Proof. intros. unfold mutex_take_fail. kinv_auto. Qed.

Lemma kinv_release_loop fuel : forall m k, kinv k -> kinv (release_loop fuel m k).1.
Proof.
  induction fuel as [|f IH]; [done|]. intros m k Hk. simpl.
  destruct (msusp k m) as [|t l] eqn:Hl; [done|].
  assert (Hsu : is_susp (thr k t) = true).
  { destruct (sw_link _ _ (swf_core _ (kw_s _ (ki_wf _ Hk))) (LSusp (OMutex m)) t) as (th & Hth & Hsu).
    - change (t ∈ msusp k m). rewrite Hl. left.
    - unfold thr. rewrite (get_thread_lookup _ _ th) by done. by apply is_susp_spec. }
  pose proof (kinv_thread_ready _ t (kinv_unlink_suspended t k Hsu Hk)) as H.
  destruct (rt_sched_thread_ready t (on_ks (tlist_remove t) k)) as [k1 e]. case_match; [by apply IH|done].
Qed.
Lemma kinv_mutex_handover m k : kinv k -> kinv (mutex_handover m k).1.
Proof.
  intros Hk. unfold mutex_handover. pose proof (kinv_release_loop (length (msusp k m)) m k Hk) as H.
  destruct (release_loop _ m k) as [k1 [next|]]; cbn [fst] in *.
  - apply kinv_mutex_update_priority, kinv_upd_pending, kinv_taken_insert. apply kinv_set_mutex; [mutex_field|done].
  - apply kinv_set_mutex; [mutex_field|done].
Qed.
Lemma kinv_mutex_release m k : kinv k -> outcome_kinv (rt_mutex_release m k).
Proof.
  intros Hk. unfold rt_mutex_release. destruct (self k) as [t|]; [|done].
  case_match; [apply kinv_spin_unlock, kinv_upd_error; by apply kinv_spin_lock|].
  set (k1 := set_mutex m _ _).
  assert (Hk1 : kinv k1) by (apply kinv_set_mutex; [mutex_field|by apply kinv_spin_lock]).
  case_match; [|by apply kinv_spin_unlock].
  pose proof (kinv_check_and_update_prio t m _ (kinv_taken_remove m _ Hk1)) as Hk2.
  destruct (_check_and_update_prio t m (taken_remove m k1)) as [k2 b].
  pose proof (kinv_mutex_handover m k2 Hk2) as Hk3. destruct (mutex_handover m k2) as [k3 b'].
  case_match; by apply kinv_spin_unlock.
Qed.
