(* ===== verification/MutexInherit.v ===== *)
(** * Priority inheritance

    [inherit]: the waiters of each mutex are in order of priority, the priority
    of a mutex bounds those of its waiters, and its owner runs at least at that
    priority.  [_thread_update_priority] restores it along the chain of owners
    after a change of a priority. *)
From Stdlib Require Import Sorting.
From S2P Require Import Prelude Queue Object Sched SchedFacts TimerCore TimerFacts Kernel KernelFacts.
From S2P Require Import Sem Timer KInv IpcInv WaitFacts SemTake MutexOps MutexInv.

Notation cur k := (rt_sched_thread_get_curr_prio (ks k)) (only parsing).
Definition waits (k : kstate) (t : tid) (m : nat) : Prop :=
  is_susp (thr k t) = true /\ pending_object (thr k t) = Some (OMutex m).

(** The waiter [skip] may be out of order, the owner of [bad] may not have the
    priority of the mutex yet. *)
Record inherit_but (k : kstate) (skip : option tid) (bad : option nat) : Prop := {
  ih_waits : forall m x, x ∈ msusp k m <-> waits k x m;
  ih_mutex : forall m x, x ∈ msusp k m -> mutex_flag (get_mutex k m) = RT_IPC_FLAG_PRIO /\
    rt_object_get_type (ko k) (KIpc (OMutex m)) = RT_Object_Class_Mutex;
  ih_sorted : forall m, StronglySorted (fun x y => cur k x <= cur k y) (filter (fun x => Some x <> skip) (msusp k m));
  ih_mprio : forall m x, x ∈ msusp k m -> Some x <> skip -> mutex_priority (get_mutex k m) <= cur k x;
  ih_owner : forall m o, owner (get_mutex k m) = Some o ->
    is_Some (threads (ks k) !! o) /\ m ∈ taken k o /\
    (Some m <> bad -> cur k o <= mutex_priority (get_mutex k m));
}.
Definition inherit (k : kstate) : Prop := inherit_but k None None.

(** Every owner runs at least at the priority of each of its waiters. *)
Lemma inherit_owner k m x o :
  inherit k -> x ∈ msusp k m -> owner (get_mutex k m) = Some o -> cur k o <= cur k x.
Proof.
  intros H Hx Ho. destruct (ih_owner _ _ _ H m o Ho) as (_ & _ & H1). specialize (H1 ltac:(done)).
  pose proof (ih_mprio _ _ _ H m x Hx ltac:(done)). lia.
Qed.

(** ** Changing the priority of a thread *)
Lemma change_priority_thread t p s t' th :
  swf s -> threads s !! t' = Some th ->
  exists th', threads (rt_sched_thread_change_priority t p s) !! t' = Some th' /\
    current_priority th' = (if decide (t = t') then p else current_priority th) /\
    pending_object th' = pending_object th /\ error th' = error th.
Proof.
  intros Hs Hth. unfold rt_sched_thread_change_priority.
  destruct (stat_of (get_thread s t) =? RT_THREAD_READY) eqn:Hst.
  - rewrite lookup_insert_thread, !lookup_upd, threads_remove. destruct (decide (t = t')) as [<-|].
    + rewrite !(decide_True (P := t = t)) by done. rewrite Hth. by eexists.
    + by exists th.
  - rewrite lookup_upd. destruct (decide (t = t')) as [<-|]; [rewrite Hth; by eexists|by exists th].
Qed.
Lemma change_priority_none t p s t' :
  threads s !! t' = None -> threads (rt_sched_thread_change_priority t p s) !! t' = None.
Proof.
  intros Hth. unfold rt_sched_thread_change_priority.
  destruct (stat_of (get_thread s t) =? RT_THREAD_READY).
  - rewrite lookup_insert_thread, !lookup_upd, threads_remove. destruct (decide (t = t')) as [<-|]; [|done].
    rewrite !(decide_True (P := t = t)) by done. by rewrite Hth.
  - rewrite lookup_upd. destruct (decide (t = t')) as [<-|]; by rewrite Hth.
Qed.
Lemma tlist_change_priority t p s l :
  swf s -> wait_list l -> tlist (rt_sched_thread_change_priority t p s) l = tlist s l.
Proof.
  intros Hs Hl. unfold rt_sched_thread_change_priority.
  destruct (stat_of (get_thread s t) =? RT_THREAD_READY) eqn:Hst; [|done]. rt_bool.
  destruct (threads s !! t) as [th|] eqn:Hth; [|unfold get_thread in Hst; by rewrite Hth in Hst].
  rewrite (get_thread_lookup _ _ th) in Hst by done.
  pose proof (ready_not_current _ _ _ (swf_cur _ Hs) Hth Hst) as Hnc.
  rewrite (insert_thread_eq _ _ (with_stat RT_THREAD_INIT (with_priority p th))).
  - unfold tlist. cbn [tlists with_group with_tlists upd_thread with_threads]. rewrite qget_set_ne by (by destruct l).
    rewrite tlists_remove, qget_unlink. apply unlink_not_in. intros Hin.
    destruct (sw_link _ _ (swf_core _ Hs) l t Hin) as (th' & Hth' & Hok). rewrite Hth in Hth'. injection Hth' as <-.
    apply (suspended_not_ready th); [|done]. by destruct l.
  - cbn. by rewrite current_remove.
  - erewrite lookup_upd_eq; [done|]. apply lookup_upd_eq. by rewrite threads_remove.
Qed.

Section change.
Context (t : tid) (p : Z) (k : kstate).
Let k' := on_ks (rt_sched_thread_change_priority t p) k.

Lemma cur_change x : kinv k -> is_Some (threads (ks k) !! t) -> cur k' x = if decide (t = x) then p else cur k x.
Proof.
  intros Hk [th0 Hth0]. unfold rt_sched_thread_get_curr_prio, get_thread, k', on_ks. cbn [ks with_ks].
  pose proof (kw_s _ (ki_wf _ Hk)) as Hs. destruct (threads (ks k) !! x) as [th|] eqn:Hx.
  - by destruct (change_priority_thread t p (ks k) x th Hs Hx) as (th' & -> & ? & _).
  - rewrite change_priority_none by done. case_decide; [congruence|done].
Qed.
Lemma msusp_change m : kinv k -> msusp k' m = msusp k m.
Proof. intros Hk. apply tlist_change_priority; [apply Hk|done]. Qed.
Lemma thr_change x : kinv k -> is_susp (thr k' x) = is_susp (thr k x) /\ pending_object (thr k' x) = pending_object (thr k x).
Proof.
  intros Hk. pose proof (kw_s _ (ki_wf _ Hk)) as Hs. split.
  - apply view_is_susp. intros t'. by apply view_change_priority.
  - unfold thr, get_thread, k', on_ks. cbn [ks with_ks]. destruct (threads (ks k) !! x) as [th|] eqn:Hx.
    + by destruct (change_priority_thread t p (ks k) x th Hs Hx) as (th' & -> & _ & ? & _).
    + by rewrite change_priority_none.
Qed.
Lemma is_Some_change x : kinv k -> is_Some (threads (ks k') !! x) <-> is_Some (threads (ks k) !! x).
Proof.
  intros Hk. rewrite <- !view_is_Some. unfold k', on_ks. cbn [ks with_ks]. rewrite view_change_priority; [done|apply Hk].
Qed.
End change.

(** ** Sorted lists of waiters *)
Notation by_prio c := (StronglySorted (fun x y : tid => c x <= c y)).
Lemma by_prio_ext (c c' : tid -> Z) l : (forall x, x ∈ l -> c' x = c x) -> by_prio c l -> by_prio c' l.
Proof.
  intros He. induction 1 as [|x l Hl IH Hx]; [constructor|]. constructor; [apply IH; intros; apply He; by right|].
  rewrite Forall_forall in *. intros y Hy. rewrite !He by (by constructor). by apply Hx.
Qed.
Lemma by_prio_filter c (P : tid -> Prop) `{forall x, Decision (P x)} l : by_prio c l -> by_prio c (filter P l).
Proof.
  induction 1 as [|x l Hl IH Hx]; [constructor|]. rewrite filter_cons. case_decide; [|done]. constructor; [done|].
  rewrite Forall_forall in *. intros y [_ Hy]%list_elem_of_filter. by apply Hx.
Qed.
Lemma by_prio_insert s t l :
  by_prio (rt_sched_thread_get_curr_prio s) l -> by_prio (rt_sched_thread_get_curr_prio s) (prio_insert s t l).
Proof.
  induction 1 as [|x l Hl IH Hx]; simpl; [repeat constructor|]. case_match; rt_bool.
  - constructor; [by constructor|]. constructor; [lia|]. rewrite Forall_forall in *. intros y Hy. specialize (Hx y Hy). lia.
  - constructor; [done|]. rewrite prio_insert_perm. constructor; [lia|done].
Qed.
Lemma by_prio_head c x l y : by_prio c (x :: l) -> y ∈ x :: l -> c x <= c y.
Proof.
  intros [_ Hx]%StronglySorted_inv [->|Hy]%elem_of_cons; [lia|]. rewrite Forall_forall in Hx. by apply Hx.
Qed.

(** ** The priority computed from the mutexes of a thread *)
Definition prio_step (k : kstate) (priority : Z) (m : nat) : Z :=
  let mx := get_mutex k m in
  let mutex_prio := if mutex_priority mx <? ceiling_priority mx then mutex_priority mx else ceiling_priority mx in
  if mutex_prio <? priority then mutex_prio else priority.
Lemma prio_step_le k p m : prio_step k p m <= p /\ prio_step k p m <= mutex_priority (get_mutex k m).
Proof.
  unfold prio_step. destruct (Z.ltb_spec (mutex_priority (get_mutex k m)) (ceiling_priority (get_mutex k m)));
    match goal with |- context [?a <? p] => destruct (Z.ltb_spec a p) end; lia.
Qed.
Lemma fold_prio_le k l : forall p0 m,
  foldl (prio_step k) p0 l <= p0 /\ (m ∈ l -> foldl (prio_step k) p0 l <= mutex_priority (get_mutex k m)).
Proof.
  induction l as [|a l IH]; intros p0 m; cbn [foldl]; [split; [lia|by intros ?%not_elem_of_nil]|].
  destruct (prio_step_le k p0 a) as [H1 H2]. destruct (IH (prio_step k p0 a) m) as [I1 I2].
  split; [lia|]. intros [->|Hm]%elem_of_cons; [lia|by apply I2].
Qed.
Lemma mutex_prio_le k o m : m ∈ taken k o -> _thread_get_mutex_priority o k <= mutex_priority (get_mutex k m).
Proof. apply (fold_prio_le k (taken k o)). Qed.

(** ** Steps of the loop *)
Lemma inherit_change t p k bad :
  kinv k -> inherit_but k None bad -> is_Some (threads (ks k) !! t) ->
  (forall m, owner (get_mutex k m) = Some t -> p <= mutex_priority (get_mutex k m)) ->
  (forall m, bad = Some m -> owner (get_mutex k m) = Some t) ->
  inherit_but (on_ks (rt_sched_thread_change_priority t p) k) (Some t) None.
Proof.
  intros Hk [Hw Hmx Hs Hmp Ho] Ht Hp Hbad. set (k' := on_ks _ k).
  assert (Hc : forall x, cur k' x = if decide (t = x) then p else cur k x) by (intros x; by apply cur_change).
  assert (Hl : forall m, msusp k' m = msusp k m) by (intros m; by apply msusp_change).
  constructor.
  - intros m x. rewrite Hl, Hw. unfold waits. destruct (thr_change t p k x Hk) as [E1 E2]. fold k' in E1, E2. by rewrite E1, E2.
  - intros m x. rewrite Hl. apply Hmx.
  - intros m. rewrite Hl. apply (by_prio_ext (cur k)).
    + intros x [Hx _]%list_elem_of_filter. rewrite Hc, decide_False; [done|]. by intros ->.
    + specialize (Hs m). rewrite filter_all in Hs by done. by apply by_prio_filter.
  - intros m x. rewrite Hl. intros Hx Hne. rewrite Hc, decide_False by (by intros ->). by apply (Hmp m x).
  - intros m o Hmo. destruct (Ho m o Hmo) as (Hth & Htk & Hle). split; [by apply is_Some_change|]. split; [done|].
    intros _. rewrite Hc. case_decide as Hd; [subst o; by apply Hp|]. apply Hle. intros E. apply Hd.
    specialize (Hbad m (eq_sym E)). change (owner (get_mutex k m) = Some o) in Hmo. congruence.
Qed.

Lemma inherit_free t k bad : inherit_but k (Some t) bad -> (forall m, ~ waits k t m) -> inherit_but k None bad.
Proof.
  intros [Hw Hmx Hs Hmp Ho] Hn. assert (Hne : forall m x, x ∈ msusp k m -> Some x <> Some t).
  { intros m x Hx [= ->]. apply (Hn m). by apply Hw. }
  constructor; try done.
  - intros m. specialize (Hs m). rewrite filter_all in Hs by (intros; by eapply Hne). by rewrite filter_all.
  - intros m x Hx _. apply Hmp; [done|by eapply Hne].
Qed.

(** The waiter [t] is put at its place and the priority of its mutex follows. *)
Definition requeued (t : tid) (m : nat) (k : kstate) : kstate :=
  _mutex_update_priority m (rt_susp_list_enqueue (LSusp (OMutex m)) t (mutex_flag (get_mutex (on_ks (tlist_remove t) k) m))
    (on_ks (tlist_remove t) k)).
Lemma mutex_update_frame m k :
  ks (_mutex_update_priority m k) = ks k /\ ko (_mutex_update_priority m k) = ko k /\
  taken_object_list (_mutex_update_priority m k) = taken_object_list k.
Proof. unfold _mutex_update_priority. by destruct (msusp k m). Qed.
Lemma get_set_mutex m f k m' :
  get_mutex (set_mutex m f k) m' =
    if decide (m = m') then (if mutexes k !! m then f (get_mutex k m) else get_mutex k m) else get_mutex k m'.
Proof.
  unfold get_mutex, set_mutex. cbn. rewrite lookup_alter. case_decide; [subst m'|done]. by destruct (mutexes k !! m).
Qed.
Lemma mutex_update_get m k m' :
  get_mutex (_mutex_update_priority m k) m' =
    if decide (m = m') then (if mutexes k !! m then with_mpriority (match msusp k m with t :: _ => cur k t | [] => 0xff end)
      (get_mutex k m) else get_mutex k m) else get_mutex k m'.
Proof. unfold _mutex_update_priority. by destruct (msusp k m); rewrite get_set_mutex. Qed.

Lemma ks_requeued t m k :
  threads (ks (requeued t m k)) = threads (ks k) /\ ko (requeued t m k) = ko k /\
  taken_object_list (requeued t m k) = taken_object_list k.
Proof.
  unfold requeued. set (k2 := rt_susp_list_enqueue _ _ _ _).
  destruct (mutex_update_frame m k2) as (-> & -> & ->). pose proof (objs_enqueue (LSusp (OMutex m)) t
    (mutex_flag (get_mutex (on_ks (tlist_remove t) k) m)) (on_ks (tlist_remove t) k)) as Ho. fold k2 in Ho.
  split; [by unfold k2; rewrite threads_enqueue|]. by injection Ho as -> _ _ -> _ _ _.
Qed.
Lemma mutexes_enqueue l t fl k : mutexes (rt_susp_list_enqueue l t fl k) = mutexes k.
Proof. pose proof (objs_enqueue l t fl k) as H. by injection H. Qed.
Lemma msusp_requeued t m k m' :
  mutex_flag (get_mutex k m) = RT_IPC_FLAG_PRIO ->
  msusp (requeued t m k) m' =
    if decide (m = m') then prio_insert (ks k) t (unlink t (msusp k m)) else unlink t (msusp k m').
Proof.
  intros Hfl. unfold requeued, msusp. change (get_mutex (on_ks (tlist_remove t) k) m) with (get_mutex k m). rewrite Hfl.
  set (k2 := rt_susp_list_enqueue _ _ _ _). unfold susp_list at 1.
  destruct (mutex_update_frame m k2) as (-> & _ & _). change (tlist (ks k2)) with (susp_list k2).
  unfold k2. rewrite susp_list_enqueue.
  assert (E : forall l, susp_list (on_ks (tlist_remove t) k) l = unlink t (susp_list k l)).
  { intros l. unfold susp_list, tlist. cbn. apply qget_unlink. }
  rewrite !E. destruct (decide (m = m')) as [<-|Hne].
  - rewrite !decide_True by done. unfold enqueued. by apply prio_insert_ext.
  - rewrite decide_False by congruence. done.
Qed.

Lemma inherit_requeued t m k :
  kinv k -> inherit_but k (Some t) None -> waits k t m -> inherit_but (requeued t m k) None (Some m).
Proof.
  intros Hk [Hw Hmx Hs Hmp Ho] Hwt. assert (Hin : t ∈ msusp k m) by (by apply Hw).
  destruct (Hmx m t Hin) as [Hfl Hty]. destruct (ks_requeued t m k) as (Eth & Eko & Etk).
  pose proof (fun m' => msusp_requeued t m k m' Hfl) as Hl. set (k' := requeued t m k) in *.
  assert (Hthr : forall x, thr k' x = thr k x) by (intros x; unfold thr, get_thread; by rewrite Eth).
  assert (Hc : forall x, cur k' x = cur k x) by (intros x; unfold rt_sched_thread_get_curr_prio, get_thread; by rewrite Eth).
  assert (Hother : forall m' , m <> m' -> unlink t (msusp k m') = msusp k m').
  { intros m' Hne. apply unlink_not_in. intros Hx. apply Hw in Hx as [_ Hx]. destruct Hwt as [_ Hy]. congruence. }
  assert (Hexist : exists mx, mutexes k !! m = Some mx).
  { destruct (mutexes k !! m) as [mx|] eqn:E; [by eexists|]. unfold get_mutex in Hfl. by rewrite E in Hfl. }
  destruct Hexist as [mx Hmx0].
  assert (Hg : forall m', get_mutex k' m' = if decide (m = m') then
     with_mpriority (match msusp k' m with x :: _ => cur k x | [] => 0xff end) (get_mutex k m) else get_mutex k m').
  { intros m'. unfold k', requeued. rewrite mutex_update_get, mutexes_enqueue.
    change (mutexes (on_ks (tlist_remove t) k)) with (mutexes k). rewrite Hmx0. case_decide; [|].
    - f_equal; [|unfold get_mutex; by rewrite mutexes_enqueue]. unfold msusp at 2, susp_list.
      destruct (mutex_update_frame m (rt_susp_list_enqueue (LSusp (OMutex m)) t
        (mutex_flag (get_mutex (on_ks (tlist_remove t) k) m)) (on_ks (tlist_remove t) k))) as (-> & _ & _).
      unfold msusp, susp_list. case_match; [done|]. unfold rt_sched_thread_get_curr_prio, get_thread.
      by rewrite threads_enqueue.
    - unfold get_mutex. by rewrite mutexes_enqueue. }
  assert (Helem : forall m' x, x ∈ msusp k' m' <-> x ∈ msusp k m').
  { intros m' x. rewrite Hl. destruct (decide (m = m')) as [<-|Hne]; [|by rewrite Hother].
    rewrite prio_insert_perm, elem_of_cons, elem_of_unlink. destruct (decide (x = t)) as [->|]; tauto. }
  assert (Hsorted : forall m', by_prio (rt_sched_thread_get_curr_prio (ks k)) (msusp k' m')).
  { intros m'. rewrite Hl. destruct (decide (m = m')) as [<-|Hne].
    - apply by_prio_insert. specialize (Hs m). unfold unlink.
      rewrite (list_filter_iff _ (fun x => Some x <> Some t)); [done|]. intros x. split; congruence.
    - rewrite Hother by done. specialize (Hs m'). rewrite filter_all in Hs; [done|].
      intros x Hx [= ->]. rewrite <- (Hother m' Hne) in Hx. by apply elem_of_unlink in Hx as [? _]. }
  constructor.
  - intros m' x. rewrite Helem, Hw. unfold waits. by rewrite Hthr.
  - intros m' x. rewrite Helem, Eko, Hg. intros Hx. destruct (Hmx m' x Hx). by destruct (decide (m = m')) as [<-|].
  - intros m'. rewrite filter_all by done. apply (by_prio_ext (cur k)); [intros; apply Hc|apply Hsorted].
  - intros m' x Hx _. rewrite Hc, Hg. destruct (decide (m = m')) as [<-|Hne]; cbn [mutex_priority with_mpriority].
    + pose proof (Hsorted m) as Hsm. destruct (msusp k' m) as [|y l]; [by apply not_elem_of_nil in Hx|].
      by apply (by_prio_head _ y l x Hsm).
    + apply Hmp; [by apply Helem|]. intros [= ->]. apply Helem in Hx. rewrite <- (Hother m' Hne) in Hx.
      by apply elem_of_unlink in Hx as [? _].
  - intros m' o. rewrite Hg, Eth, Hc. unfold taken. rewrite Etk. intros Hmo.
    destruct (Ho m' o) as (H1 & H2 & H3); [by destruct (decide (m = m')) as [<-|]|].
    split; [done|]. split; [done|]. intros Hne. rewrite decide_False by congruence. by apply H3.
Qed.

(** ** The loop *)

(** What the walk along the owners leaves alone. *)
Definition mutex_frame (k k' : kstate) : Prop :=
  (forall m, owner (get_mutex k' m) = owner (get_mutex k m) /\ hold (get_mutex k' m) = hold (get_mutex k m) /\
     ceiling_priority (get_mutex k' m) = ceiling_priority (get_mutex k m)) /\
  (forall m x, x ∈ msusp k' m <-> x ∈ msusp k m) /\
  taken_object_list k' = taken_object_list k.
Lemma mutex_frame_refl k : mutex_frame k k.
Proof. done. Qed.
Lemma mutex_frame_trans k1 k2 k3 : mutex_frame k1 k2 -> mutex_frame k2 k3 -> mutex_frame k1 k3.
Proof.
  intros (A1 & A2 & A3) (B1 & B2 & B3). split; [|split; [|congruence]].
  - intros m. destruct (A1 m) as (? & ? & ?), (B1 m) as (? & ? & ?). split_and!; congruence.
  - intros m x. by rewrite B2.
Qed.
Lemma mutex_frame_change t p k : kinv k -> mutex_frame k (on_ks (rt_sched_thread_change_priority t p) k).
Proof. intros Hk. split; [done|]. split; [|done]. intros m x. by rewrite msusp_change. Qed.
Lemma mutex_frame_requeued t m k :
  t ∈ msusp k m -> mutex_flag (get_mutex k m) = RT_IPC_FLAG_PRIO -> (forall m', t ∈ msusp k m' -> m' = m) ->
  mutex_frame k (requeued t m k).
Proof.
  intros Hin Hfl Hu. split; [|split].
  - intros m'. unfold requeued. set (k2 := rt_susp_list_enqueue _ _ _ _).
    assert (E : mutexes k2 = mutexes k) by (unfold k2; by rewrite mutexes_enqueue).
    assert (Eg : forall m0, get_mutex k2 m0 = get_mutex k m0) by (intros m0; unfold get_mutex; by rewrite E).
    rewrite mutex_update_get, E, !Eg. destruct (decide (m = m')) as [<-|]; [|done]. by destruct (mutexes k !! m).
  - intros m' x. rewrite msusp_requeued by done. destruct (decide (m = m')) as [<-|Hne].
    + rewrite prio_insert_perm, elem_of_cons, elem_of_unlink. destruct (decide (x = t)) as [->|]; tauto.
    + rewrite elem_of_unlink. split; [tauto|]. intros Hx. split; [|done]. intros ->. by apply Hne, eq_sym, Hu.
  - by destruct (ks_requeued t m k) as (_ & _ & ->).
Qed.

(** A rank that falls from each waiter to the owner it waits for: no deadlock. *)
Definition ranked (k : kstate) (rank : tid -> nat) : Prop :=
  forall m x o, x ∈ msusp k m -> owner (get_mutex k m) = Some o -> (rank o < rank x)%nat.
Definition acyclic (k : kstate) : Prop :=
  exists rank, ranked k rank /\ forall t, (rank t <= size (threads (ks k)))%nat.
Lemma ranked_frame k k' rank : mutex_frame k k' -> ranked k rank -> ranked k' rank.
Proof.
  intros (H1 & H2 & _) Hr m x o Hx Ho. destruct (H1 m) as (E & _). rewrite E in Ho. apply H2 in Hx. by apply (Hr m).
Qed.

Lemma update_loop_eq f t m k :
  waits k t m -> inherit_but k (Some t) None ->
  update_priority_loop (S f) t k =
    let k1 := requeued t m k in
    match owner (get_mutex k1 m) with
    | Some o =>
        let priority := _thread_get_mutex_priority o k1 in
        if negb (priority =? rt_sched_thread_get_curr_prio (ks k1) o)
        then update_priority_loop f o (on_ks (rt_sched_thread_change_priority o priority) k1) else k1
    | None => k1
    end.
Proof.
  intros Hw Hi. assert (Hin : t ∈ msusp k m) by (by apply (ih_waits _ _ _ Hi)).
  destruct (ih_mutex _ _ _ Hi m t Hin) as [_ Hty]. destruct Hw as [Hsu Hp]. cbn [update_priority_loop].
  assert (E : rt_sched_thread_is_suspended (ks k) t = is_susp (thr k t)) by done.
  rewrite E, Hsu, Hp. change (ko k) with (ko k) in Hty. rewrite Hty. done.
Qed.
Lemma update_loop_free f t k :
  (forall m, ~ waits k t m) -> update_priority_loop (S f) t k = k.
Proof.
  intros Hn. cbn [update_priority_loop]. destruct (rt_sched_thread_is_suspended (ks k) t) eqn:Hsu; [|done].
  destruct (pending_object (thr k t)) as [[| m | | | |]|] eqn:Hp; try done. exfalso. by apply (Hn m).
Qed.
Lemma waits_dec k t : (exists m, waits k t m) \/ (forall m, ~ waits k t m).
Proof.
  unfold waits. destruct (is_susp (thr k t)); [|by right; intros m [? _]].
  destruct (pending_object (thr k t)) as [[| m | | | |]|]; try (right; by intros m' [_ ?]). left. by exists m.
Qed.

Lemma update_loop_inherits fuel : forall t k rank,
  kinv k -> inherit_but k (Some t) None -> ranked k rank -> (rank t < fuel)%nat ->
  inherit (update_priority_loop fuel t k) /\ mutex_frame k (update_priority_loop fuel t k).
Proof.
  induction fuel as [|f IH]; intros t k rank Hk Hi Hr Hf; [lia|]. destruct (waits_dec k t) as [[m Hw]|Hn].
  2:{ rewrite update_loop_free by done. split; [by apply (inherit_free t)|apply mutex_frame_refl]. }
  rewrite (update_loop_eq f t m k) by done. cbv zeta.
  assert (Hin : t ∈ msusp k m) by (by apply (ih_waits _ _ _ Hi)).
  pose proof (inherit_requeued t m k Hk Hi Hw) as Hi1.
  destruct (ih_mutex _ _ _ Hi m t Hin) as [Hfl _].
  assert (Hfr : mutex_frame k (requeued t m k)).
  { apply mutex_frame_requeued; [done..|]. intros m' Hx. apply (ih_waits _ _ _ Hi) in Hx as [_ Hx]. destruct Hw as [_ Hy].
    congruence. }
  assert (Hk1 : kinv (requeued t m k)).
  { apply kinv_mutex_update_priority, kinv_requeue; [|done]. by destruct Hw. }
  set (k1 := requeued t m k) in *. assert (Hr1 : ranked k1 rank) by (by apply (ranked_frame k)).
  destruct (owner (get_mutex k1 m)) as [o|] eqn:Ho.
  2:{ split; [|done]. destruct Hi1 as [A B C D E]. constructor; try done. intros m' o' Hmo. destruct (E m' o' Hmo) as (? & ? & H).
      split; [done|]. split; [done|]. intros _. apply H. congruence. }
  assert (Hle : forall m', owner (get_mutex k1 m') = Some o ->
    _thread_get_mutex_priority o k1 <= mutex_priority (get_mutex k1 m')).
  { intros m' Hmo. apply mutex_prio_le. by apply (ih_owner _ _ _ Hi1 m' o). }
  destruct (Z.eqb_spec (_thread_get_mutex_priority o k1) (cur k1 o)) as [E|E]; cbn [negb].
  - split; [|done]. destruct Hi1 as [A B C D F]. constructor; try done. intros m' o' Hmo.
    destruct (F m' o' Hmo) as (H1 & H2 & H3). split; [done|]. split; [done|]. intros _.
    destruct (decide (m' = m)) as [->|Hne]; [|apply H3; congruence]. rewrite Ho in Hmo. injection Hmo as <-. rewrite <- E.
    by apply Hle.
  - assert (Hkc : kinv (on_ks (rt_sched_thread_change_priority o (_thread_get_mutex_priority o k1)) k1)).
    { apply kinv_change_priority; [by apply mutex_prio_range|done]. }
    assert (Hfc := mutex_frame_change o (_thread_get_mutex_priority o k1) k1 Hk1).
    destruct (IH o _ rank Hkc) as [H1 H2].
    + apply (inherit_change _ _ _ (Some m)); try done.
      * by apply (ih_owner _ _ _ Hi1 m o).
      * by intros m' [= <-].
    + by apply (ranked_frame k1).
    + assert (t ∈ msusp k1 m) by (by apply Hfr). specialize (Hr1 m t o ltac:(done) Ho). lia.
    + split; [done|]. eapply mutex_frame_trans; [exact Hfr|]. eapply mutex_frame_trans; [exact Hfc|exact H2].
Qed.

Lemma thread_update_inherits_but t p k bad :
  kinv k -> inherit_but k None bad -> (forall m, bad = Some m -> owner (get_mutex k m) = Some t) -> acyclic k ->
  is_Some (threads (ks k) !! t) -> 0 <= p < RT_THREAD_PRIORITY_MAX ->
  (forall m, owner (get_mutex k m) = Some t -> p <= mutex_priority (get_mutex k m)) ->
  inherit (_thread_update_priority t p k) /\ mutex_frame k (_thread_update_priority t p k).
Proof.
  intros Hk Hi Hbad (rank & Hr & Hb) Ht Hp Hm. unfold _thread_update_priority.
  pose proof (mutex_frame_change t p k Hk) as Hf.
  destruct (update_loop_inherits (update_fuel k) t (on_ks (rt_sched_thread_change_priority t p) k) rank) as [H1 H2].
  - by apply kinv_change_priority.
  - by apply (inherit_change t p k bad).
  - by apply (ranked_frame k).
  - unfold update_fuel. specialize (Hb t). lia.
  - split; [done|]. by eapply mutex_frame_trans.
Qed.

(** ** States that agree on what inheritance is about *)
Definition inherit_same (k k' : kstate) : Prop :=
  (forall x, is_susp (thr k' x) = is_susp (thr k x) /\ pending_object (thr k' x) = pending_object (thr k x) /\
     cur k' x = cur k x /\ (is_Some (threads (ks k) !! x) -> is_Some (threads (ks k') !! x))) /\
  (forall m, msusp k' m = msusp k m) /\ mutexes k' = mutexes k /\ taken_object_list k' = taken_object_list k /\ ko k' = ko k.
Lemma inherit_same_but k k' skip bad : inherit_same k k' -> inherit_but k skip bad -> inherit_but k' skip bad.
Proof.
  intros (Ht & Hl & Em & Et & Eo) [A B C D E].
  assert (Eg : forall m, get_mutex k' m = get_mutex k m) by (intros m; unfold get_mutex; by rewrite Em). constructor.
  - intros m x. rewrite Hl, A. unfold waits. destruct (Ht x) as (-> & -> & _). done.
  - intros m x. rewrite Hl, Eg, Eo. apply B.
  - intros m. rewrite Hl. apply (by_prio_ext (cur k)); [|apply C]. intros x _. apply Ht.
  - intros m x. rewrite Hl, Eg. intros Hx Hn. destruct (Ht x) as (_ & _ & -> & _). by apply D.
  - intros m o. rewrite Eg. intros Ho. destruct (Ht o) as (_ & _ & -> & H4), (E m o Ho) as (H1 & H2 & H3).
    split; [by apply H4|]. split; [|done]. unfold taken. by rewrite Et.
Qed.
Lemma inherit_same_trans k1 k2 k3 : inherit_same k1 k2 -> inherit_same k2 k3 -> inherit_same k1 k3.
Proof.
  intros (A1 & A2 & A3 & A4 & A5) (B1 & B2 & B3 & B4 & B5). split; [|split_and!; congruence].
  intros x. destruct (A1 x) as (? & ? & ? & ?), (B1 x) as (? & ? & ? & ?). split_and!; try congruence; auto.
Qed.
(** Updates of a thread that keep its state and priority. *)
Lemma inherit_same_upd t f k :
  (forall th, is_susp (f th) = is_susp th /\ pending_object (f th) = pending_object th /\
     current_priority (f th) = current_priority th) -> inherit_same k (upd_thr t f k).
Proof.
  intros Hf. split; [|done]. intros x. unfold thr, rt_sched_thread_get_curr_prio, get_thread, upd_thr, on_ks. cbn [ks with_ks].
  rewrite lookup_upd. destruct (decide (t = x)) as [<-|]; [|done].
  destruct (threads (ks k) !! t) as [th|]; simpl; [|done]. destruct (Hf th) as (-> & -> & ->). by split_and!.
Qed.
Lemma inherit_same_lock k : inherit_same k (rt_spin_lock k).
Proof. done. Qed.
Lemma inherit_same_unlock k : inherit_same k (spin_unlock k).
Proof.
  unfold spin_unlock, exit_critical_nest, on_ks. case_match; done.
Qed.
Lemma inherit_same_arm t timeout k :
  kwf k -> is_Some (threads (ks k) !! t) -> inherit_same k (thread_timer_arm t timeout k).
Proof.
  intros Hk Ht. destruct (kw_shape _ Hk t Ht) as (tm & Htm & Hsh).
  destruct (thread_timer_arm_spec t timeout k tm (kw_t _ Hk) Htm Hsh) as (s' & tm' & -> & _).
  apply (inherit_same_trans k (upd_thr t (with_ttmr_set true) k)); [by apply inherit_same_upd|done].
Qed.
