(* ===== verification/EventOps.v ===== *)
(** * Event sets ([src/rt-thread/src/ipc.c]) *)
From S2P Require Import Prelude Queue Object Sched TimerCore Kernel Sem Timer SemTake.

Definition RT_EVENT_FLAG_AND : Z := 0x01.
Definition RT_EVENT_FLAG_OR : Z := 0x02.
Definition RT_EVENT_FLAG_CLEAR : Z := 0x04.

Definition get_event (k : kstate) (e : nat) : rt_event := default (Event 0 0) (events k !! e).
Definition set_event (e : nat) (f : rt_event -> rt_event) (k : kstate) : kstate :=
  with_events (alter f e (events k)) k.
Definition with_bits (v : Z) (e : rt_event) : rt_event := Event (event_flag e) v.

(** [&] with the complement of a 32-bit word. *)
Definition bits_clear (v mask : Z) : Z := Z.ldiff v mask.

Definition _event_object_init (e : nat) (flag : Z) (k : kstate) : kstate :=
  let k := _ipc_object_init (OEvent e) k in
  with_events (<[e := Event (u8 flag) 0]> (events k)) k.

Definition rt_event_init (e : nat) (name : list Z) (flag : Z) (k : kstate) : kstate * Z :=
  let k := on_ko (rt_object_init (KIpc (OEvent e)) RT_Object_Class_Event name) k in
  (_event_object_init e flag k, RT_EOK).

Definition rt_event_detach (e : nat) (k : kstate) : kstate * Z :=
  let k := rt_susp_list_resume_all (LSusp (OEvent e)) RT_ERROR k in
  (on_ko (rt_object_detach (KIpc (OEvent e))) k, RT_EOK).

Definition rt_event_create (alloc : option nat) (name : list Z) (flag : Z) (k : kstate)
    : kstate * option nat :=
  let '(o, r) := rt_object_allocate ((fun e => KIpc (OEvent e)) <$> alloc) RT_Object_Class_Event name (ko k) in
  let k := with_ko o k in
  match alloc with
  | None => (k, None)
  | Some e => (_event_object_init e flag k, Some e)
  end.

(** Under the scheduler lock, not with interrupts disabled as in the other
    removals. *)
Definition rt_event_delete (e : nat) (k : kstate) : outcome :=
  let k := rt_spin_lock k in
  let k := rt_susp_list_resume_all (LSusp (OEvent e)) RT_ERROR k in
  Resched (spin_unlock k) (PcEventDelete e).
Definition event_delete_after (e : nat) (k : kstate) : outcome :=
  Done (on_ko (rt_object_delete (KIpc (OEvent e))) k) RT_EOK [].

(** One waiter of the loop of [rt_event_send]: whether its condition holds for
    the bits [v] and what its [event_set] becomes; [None]: neither AND nor OR. *)
Definition event_match (th : rt_thread) (v : Z) : option (bool * Z) :=
  if has_flag (event_info th) RT_EVENT_FLAG_AND then
    Some (Z.land (event_set th) v =? event_set th, event_set th)
  else if has_flag (event_info th) RT_EVENT_FLAG_OR then
    if negb (Z.land (event_set th) v =? 0) then Some (true, Z.land (event_set th) v)
    else Some (false, event_set th)
  else None.

(** The loop over the waiters: [inl] is the early return. *)
Fixpoint event_scan (e : nat) (l : list tid) (need_clear_set : Z) (need_schedule : bool) (k : kstate)
    : kstate + kstate * Z * bool :=
  match l with
  | [] => inr (k, need_clear_set, need_schedule)
  | thread :: l' =>
      let th := thr k thread in
      match event_match th (event_bits (get_event k e)) with
      | None => inl k
      | Some (status, set) =>
          if status then
            let k := upd_thr thread (with_event set (event_info th)) k in
            let need_clear_set := if has_flag (event_info th) RT_EVENT_FLAG_CLEAR
                                  then Z.lor need_clear_set set else need_clear_set in
            let '(k, _) := rt_sched_thread_ready thread k in
            let k := upd_thr thread (with_error RT_EOK) k in
            event_scan e l' need_clear_set true k
          else event_scan e l' need_clear_set need_schedule k
      end
  end.

Definition rt_event_send (e : nat) (set : Z) (k : kstate) : outcome :=
  if set =? 0 then Done k (- RT_ERROR) []
  else
    let k := set_event e (fun ev => with_bits (Z.lor (event_bits ev) set) ev) k in
    match event_scan e (susp_list k (LSusp (OEvent e))) 0 false k with
    | inl k => Done k (- RT_EINVAL) []
    | inr (k, need_clear_set, need_schedule) =>
        let k := if negb (need_clear_set =? 0)
                 then set_event e (fun ev => with_bits (bits_clear (event_bits ev) need_clear_set) ev) k
                 else k in
        if need_schedule then Resched k (PcRet RT_EOK []) else Done k RT_EOK []
    end.

(** Whether the bits [v] satisfy a request. *)
Definition event_test (v set option : Z) : bool :=
  if has_flag option RT_EVENT_FLAG_AND then Z.land v set =? set
  else if has_flag option RT_EVENT_FLAG_OR then negb (Z.land v set =? 0)
  else false.

Definition _rt_event_recv (e : nat) (set option timeout suspend_flag : Z) (k : kstate) : outcome :=
  if set =? 0 then Done k (- RT_ERROR) []
  else
    match self k with
    | None => Done k (- RT_ERROR) []   (* only called by threads *)
    | Some thread =>
        let k := upd_thr thread (with_error (- RT_EINTR)) k in
        let v := event_bits (get_event k e) in
        if event_test v set option then
          let k := upd_thr thread (with_error RT_EOK) k in
          let k := upd_thr thread (with_event (Z.land v set) option) k in
          let k := if has_flag option RT_EVENT_FLAG_CLEAR
                   then set_event e (with_bits (bits_clear v set)) k else k in
          Done k (error (thr k thread)) [Z.land v set]
        else if timeout =? 0 then
          Done (upd_thr thread (with_error (- RT_ETIMEOUT)) k) (- RT_ETIMEOUT) []
        else
          let k := upd_thr thread (with_event set option) k in
          let '(k, ret) := wait_on thread (LSusp (OEvent e)) (event_flag (get_event k e)) timeout suspend_flag k in
          if negb (ret =? RT_EOK) then Done k ret [] else Resched k (PcEventRecv e)
    end.
Definition event_recv_after (thread : tid) (k : kstate) : outcome :=
  if negb (error (thr k thread) =? RT_EOK) then Done k (error (thr k thread)) []
  else Done k (error (thr k thread)) [event_set (thr k thread)].

Definition rt_event_recv (e : nat) (set option timeout : Z) : kstate -> outcome :=
  _rt_event_recv e set option timeout RT_UNINTERRUPTIBLE.
Definition rt_event_recv_interruptible (e : nat) (set option timeout : Z) : kstate -> outcome :=
  _rt_event_recv e set option timeout RT_INTERRUPTIBLE.
Definition rt_event_recv_killable (e : nat) (set option timeout : Z) : kstate -> outcome :=
  _rt_event_recv e set option timeout RT_KILLABLE.

Definition rt_event_control (e : nat) (cmd arg : Z) (k : kstate) : outcome :=
  if cmd =? RT_IPC_CMD_RESET then
    let k := rt_susp_list_resume_all (LSusp (OEvent e)) RT_ERROR k in
    let k := set_event e (with_bits 0) k in
    Resched k (PcRet RT_EOK [])
  else Done k (- RT_ERROR) [].
