(* ===== verification/MailboxOps.v ===== *)
(** * Mailboxes ([src/rt-thread/src/ipc.c])

    A mailbox is a circular buffer of words; [msg_pool] is a list indexed by the
    offsets. *)
From S2P Require Import Prelude Queue Object Sched TimerCore Kernel Sem Timer SemTake.

Definition RT_MB_ENTRY_MAX : Z := 65535.

Definition mailbox0 : rt_mailbox := Mailbox 0 [] 0 0 0 0.
Definition get_mb (k : kstate) (m : nat) : rt_mailbox := default mailbox0 (mbs k !! m).
Definition set_mb (m : nat) (f : rt_mailbox -> rt_mailbox) (k : kstate) : kstate :=
  with_mbs (alter f m (mbs k)) k.

(** ** The buffer *)

(** [mb->msg_pool[mb->in_offset] = value] with the offset stepped. *)
Definition mb_put (value : Z) (mb : rt_mailbox) : rt_mailbox :=
  let pool := <[Z.to_nat (in_offset mb) := value]> (mb_pool mb) in
  let in' := u16 (in_offset mb + 1) in
  let in' := if mb_size mb <=? in' then 0 else in' in
  Mailbox (mb_flag mb) pool (mb_size mb) (mb_entry mb) in' (out_offset mb).
Definition mb_set_entry (v : Z) (mb : rt_mailbox) : rt_mailbox :=
  Mailbox (mb_flag mb) (mb_pool mb) (mb_size mb) v (in_offset mb) (out_offset mb).
(** The same before [out_offset], and one more entry. *)
Definition mb_put_front (value : Z) (mb : rt_mailbox) : rt_mailbox :=
  let out := if 0 <? out_offset mb then u16 (out_offset mb - 1) else u16 (mb_size mb - 1) in
  Mailbox (mb_flag mb) (<[Z.to_nat out := value]> (mb_pool mb)) (mb_size mb) (u16 (mb_entry mb + 1))
    (in_offset mb) out.
Definition mb_first (mb : rt_mailbox) : Z := nth (Z.to_nat (out_offset mb)) (mb_pool mb) 0.
Definition mb_get (mb : rt_mailbox) : rt_mailbox :=
  let out := u16 (out_offset mb + 1) in
  let out := if mb_size mb <=? out then 0 else out in
  let entry := if 0 <? mb_entry mb then u16 (mb_entry mb - 1) else mb_entry mb in
  Mailbox (mb_flag mb) (mb_pool mb) (mb_size mb) entry (in_offset mb) out.

(** ** Initialisation and removal *)
Definition rt_mb_init (m : nat) (name : list Z) (msgpool : list Z) (size flag : Z) (k : kstate) : kstate * Z :=
  let k := on_ko (rt_object_init (KIpc (OMb m)) RT_Object_Class_MailBox name) k in
  let k := _ipc_object_init (OMb m) k in
  let k := with_mbs (<[m := Mailbox (u8 flag) msgpool (u16 size) 0 0 0]> (mbs k)) k in
  (on_ks (fun s => with_tlists (qset (LSend (OMb m)) [] (tlists s)) s) k, RT_EOK).

Definition mb_resume_all (m : nat) (k : kstate) : kstate :=
  let k := rt_susp_list_resume_all (LSusp (OMb m)) RT_ERROR k in
  rt_susp_list_resume_all (LSend (OMb m)) RT_ERROR k.

Definition rt_mb_detach (m : nat) (k : kstate) : kstate * Z :=
  (on_ko (rt_object_detach (KIpc (OMb m))) (mb_resume_all m k), RT_EOK).

(** [pool]: the memory [RT_KERNEL_MALLOC] returns. *)
Definition rt_mb_create (alloc : option nat) (pool : option (list Z)) (name : list Z) (size flag : Z)
    (k : kstate) : kstate * option nat :=
  let '(o, r) := rt_object_allocate ((fun m => KIpc (OMb m)) <$> alloc) RT_Object_Class_MailBox name (ko k) in
  let k := with_ko o k in
  match alloc with
  | None => (k, None)
  | Some m =>
      let k := _ipc_object_init (OMb m) k in
      match pool with
      | None => (on_ko (rt_object_delete (KIpc (OMb m))) k, None)
      | Some p =>
          let k := with_mbs (<[m := Mailbox (u8 flag) p (u16 size) 0 0 0]> (mbs k)) k in
          (on_ks (fun s => with_tlists (qset (LSend (OMb m)) [] (tlists s)) s) k, Some m)
      end
  end.

Definition rt_mb_delete (m : nat) (k : kstate) : outcome :=
  Resched (spin_unlock (mb_resume_all m (rt_spin_lock k))) (PcMbDelete m).
Definition mb_delete_after (m : nat) (k : kstate) : outcome :=
  Done (on_ko (rt_object_delete (KIpc (OMb m))) k) RT_EOK [].

(** ** Sending *)

(** Once there is room. *)
Definition mb_send_put (m : nat) (value : Z) (k : kstate) : outcome :=
  let k := set_mb m (mb_put value) k in
  if mb_entry (get_mb k m) <? RT_MB_ENTRY_MAX then
    let k := set_mb m (fun mb => mb_set_entry (u16 (mb_entry mb + 1)) mb) k in
    match susp_list k (LSusp (OMb m)) with
    | _ :: _ => let '(k, _) := rt_susp_list_dequeue (LSusp (OMb m)) RT_EOK k in Resched k (PcRet RT_EOK [])
    | [] => Done k RT_EOK []
    end
  else Done k (- RT_EFULL) [].

(** From the test of the [while] loop. *)
Definition mb_send_loop (m : nat) (value timeout tick_delta suspend_flag : Z) (k : kstate) : outcome :=
  if mb_entry (get_mb k m) =? mb_size (get_mb k m) then
    match self k with
    | None => Done k (- RT_ERROR) []   (* only threads wait *)
    | Some thread =>
        let k := upd_thr thread (with_error (- RT_EINTR)) k in
        if timeout =? 0 then Done k (- RT_EFULL) []
        else
          let tick_delta := if 0 <? timeout then rt_tick_get (kt k) else tick_delta in
          let '(k, ret) := wait_on thread (LSend (OMb m)) (mb_flag (get_mb k m)) timeout suspend_flag k in
          if negb (ret =? RT_EOK) then Done k ret []
          else Resched k (PcMbSend m value timeout tick_delta suspend_flag)
    end
  else mb_send_put m value k.

Definition _rt_mb_send_wait (m : nat) (value timeout suspend_flag : Z) (k : kstate) : outcome :=
  if (mb_entry (get_mb k m) =? mb_size (get_mb k m)) && (timeout =? 0) then Done k (- RT_EFULL) []
  else mb_send_loop m value timeout 0 suspend_flag k.
Definition mb_send_after (thread : tid) (m : nat) (value timeout tick_delta suspend_flag : Z) (k : kstate)
    : outcome :=
  if negb (error (thr k thread) =? RT_EOK) then Done k (error (thr k thread)) []
  else mb_send_loop m value (wait_remaining k timeout tick_delta)
         (if 0 <? timeout then u32 (rt_tick_get (kt k) - tick_delta) else tick_delta) suspend_flag k.

Definition rt_mb_send_wait (m : nat) (value timeout : Z) : kstate -> outcome :=
  _rt_mb_send_wait m value timeout RT_UNINTERRUPTIBLE.
Definition rt_mb_send_wait_interruptible (m : nat) (value timeout : Z) : kstate -> outcome :=
  _rt_mb_send_wait m value timeout RT_INTERRUPTIBLE.
Definition rt_mb_send_wait_killable (m : nat) (value timeout : Z) : kstate -> outcome :=
  _rt_mb_send_wait m value timeout RT_KILLABLE.
Definition rt_mb_send (m : nat) (value : Z) : kstate -> outcome := rt_mb_send_wait m value 0.
Definition rt_mb_send_interruptible (m : nat) (value : Z) : kstate -> outcome :=
  rt_mb_send_wait_interruptible m value 0.
Definition rt_mb_send_killable (m : nat) (value : Z) : kstate -> outcome := rt_mb_send_wait_killable m value 0.

Definition rt_mb_urgent (m : nat) (value : Z) (k : kstate) : outcome :=
  if mb_entry (get_mb k m) =? mb_size (get_mb k m) then Done k (- RT_EFULL) []
  else
    let k := set_mb m (mb_put_front value) k in
    match susp_list k (LSusp (OMb m)) with
    | _ :: _ => let '(k, _) := rt_susp_list_dequeue (LSusp (OMb m)) RT_EOK k in Resched k (PcRet RT_EOK [])
    | [] => Done k RT_EOK []
    end.

(** ** Receiving *)
Definition mb_recv_get (m : nat) (k : kstate) : outcome :=
  let value := mb_first (get_mb k m) in
  let k := set_mb m mb_get k in
  match susp_list k (LSend (OMb m)) with
  | _ :: _ => let '(k, _) := rt_susp_list_dequeue (LSend (OMb m)) RT_EOK k in Resched k (PcRet RT_EOK [value])
  | [] => Done k RT_EOK [value]
  end.

Definition mb_recv_loop (m : nat) (timeout tick_delta suspend_flag : Z) (k : kstate) : outcome :=
  if mb_entry (get_mb k m) =? 0 then
    match self k with
    | None => Done k (- RT_ERROR) []   (* only threads wait *)
    | Some thread =>
        let k := upd_thr thread (with_error (- RT_EINTR)) k in
        if timeout =? 0 then Done (upd_thr thread (with_error (- RT_ETIMEOUT)) k) (- RT_ETIMEOUT) []
        else
          let tick_delta := if 0 <? timeout then rt_tick_get (kt k) else tick_delta in
          let '(k, ret) := wait_on thread (LSusp (OMb m)) (mb_flag (get_mb k m)) timeout suspend_flag k in
          if negb (ret =? RT_EOK) then Done k ret []
          else Resched k (PcMbRecv m timeout tick_delta suspend_flag)
    end
  else mb_recv_get m k.

Definition _rt_mb_recv (m : nat) (timeout suspend_flag : Z) (k : kstate) : outcome :=
  if (mb_entry (get_mb k m) =? 0) && (timeout =? 0) then Done k (- RT_ETIMEOUT) []
  else mb_recv_loop m timeout 0 suspend_flag k.
Definition mb_recv_after (thread : tid) (m : nat) (timeout tick_delta suspend_flag : Z) (k : kstate) : outcome :=
  if negb (error (thr k thread) =? RT_EOK) then Done k (error (thr k thread)) []
  else mb_recv_loop m (wait_remaining k timeout tick_delta)
         (if 0 <? timeout then u32 (rt_tick_get (kt k) - tick_delta) else tick_delta) suspend_flag k.

Definition rt_mb_recv (m : nat) (timeout : Z) : kstate -> outcome := _rt_mb_recv m timeout RT_UNINTERRUPTIBLE.
Definition rt_mb_recv_interruptible (m : nat) (timeout : Z) : kstate -> outcome := _rt_mb_recv m timeout RT_INTERRUPTIBLE.
Definition rt_mb_recv_killable (m : nat) (timeout : Z) : kstate -> outcome := _rt_mb_recv m timeout RT_KILLABLE.

Definition rt_mb_control (m : nat) (cmd arg : Z) (k : kstate) : outcome :=
  if cmd =? RT_IPC_CMD_RESET then
    let k := mb_resume_all m k in
    let k := set_mb m (fun mb => Mailbox (mb_flag mb) (mb_pool mb) (mb_size mb) 0 0 0) k in
    Resched k (PcRet RT_EOK [])
  else Done k (- RT_ERROR) [].
