(* ===== verification/MbFacts.v ===== *)
(** * The circular buffer of a mailbox

    [mb_contents] is the abstract value of a mailbox, the sequence of the words
    sent and not yet received. *)
From S2P Require Import Prelude Ring Queue Object Sched TimerCore Kernel Sem Timer SemTake MailboxOps.

Record mb_ok (mb : rt_mailbox) : Prop := {
  mo_size : 0 < mb_size mb < 2^16;
  mo_pool : Z.of_nat (length (mb_pool mb)) = mb_size mb;
  mo_entry : 0 <= mb_entry mb <= mb_size mb;
  mo_out : 0 <= out_offset mb < mb_size mb;
  mo_in : Z.to_nat (in_offset mb) = ring_idx (Z.to_nat (mb_size mb)) (Z.to_nat (out_offset mb)) (Z.to_nat (mb_entry mb));
  mo_in_range : 0 <= in_offset mb;
}.
Definition mb_contents (mb : rt_mailbox) : list Z :=
  ring_contents 0 (Z.to_nat (mb_size mb)) (Z.to_nat (out_offset mb)) (Z.to_nat (mb_entry mb)) (mb_pool mb).

Lemma length_mb_contents mb : mb_ok mb -> Z.of_nat (length (mb_contents mb)) = mb_entry mb.
Proof. intros []. unfold mb_contents. rewrite length_ring. lia. Qed.

Ltac mb_idx := unfold ring_idx in *; repeat match goal with
  | H : context [Nat.leb ?a ?b] |- _ => destruct (Nat.leb_spec a b)
  | |- context [Nat.leb ?a ?b] => destruct (Nat.leb_spec a b)
  | |- context [Z.leb ?a ?b] => destruct (Z.leb_spec a b)
  | |- context [Z.ltb ?a ?b] => destruct (Z.ltb_spec a b)
  end; try lia.


(** Storing at the end and counting the entry. *)
Definition mb_append (v : Z) (mb : rt_mailbox) : rt_mailbox := mb_set_entry (u16 (mb_entry mb + 1)) (mb_put v mb).
Lemma mb_append_ok v mb :
  mb_ok mb -> mb_entry mb < mb_size mb -> mb_ok (mb_append v mb) /\ mb_contents (mb_append v mb) = mb_contents mb ++ [v].
Proof.
  intros [] Hlt. assert (Hin : 0 <= in_offset mb < mb_size mb) by (split; [done|mb_idx]).
  unfold mb_append, mb_put, mb_set_entry. rewrite !u16_small by lia. split.
  - constructor; cbn; try rewrite length_insert; try lia; mb_idx.
  - unfold mb_contents. cbn. rewrite mo_in0. replace (Z.to_nat (mb_entry mb + 1)) with (S (Z.to_nat (mb_entry mb))) by lia.
    rewrite ring_put; [done|lia..].
Qed.
Lemma mb_put_front_ok v mb :
  mb_ok mb -> mb_entry mb < mb_size mb ->
  mb_ok (mb_put_front v mb) /\ mb_contents (mb_put_front v mb) = v :: mb_contents mb.
Proof.
  intros [] Hlt. unfold mb_put_front.
  assert (E : exists out, (if 0 <? out_offset mb then u16 (out_offset mb - 1) else u16 (mb_size mb - 1)) = out /\
     0 <= out < mb_size mb /\ ring_idx (Z.to_nat (mb_size mb)) (Z.to_nat out) 1 = Z.to_nat (out_offset mb)).
  { eexists. split; [done|]. destruct (Z.ltb_spec 0 (out_offset mb)); rewrite u16_small by lia; split; mb_idx. }
  destruct E as (out & -> & Hout & Hidx). rewrite u16_small by lia. split.
  - constructor; cbn; try rewrite length_insert; try lia; mb_idx.
  - unfold mb_contents. cbn. replace (Z.to_nat (mb_entry mb + 1)) with (S (Z.to_nat (mb_entry mb))) by lia.
    apply ring_put_front; lia.
Qed.
Lemma mb_get_ok mb :
  mb_ok mb -> 0 < mb_entry mb -> mb_ok (mb_get mb) /\ mb_contents mb = mb_first mb :: mb_contents (mb_get mb).
Proof.
  intros [] Hlt. unfold mb_get. rewrite (proj2 (Z.ltb_lt _ _)), !u16_small by lia. split.
  - constructor; cbn; try lia; mb_idx.
  - unfold mb_contents, mb_first. cbn. replace (Z.to_nat (mb_entry mb)) with (S (Z.to_nat (mb_entry mb - 1))) by lia.
    rewrite ring_get by lia. do 2 f_equal. mb_idx.
Qed.

(** ** The calls *)
Definition store_mb (m : nat) (mb : rt_mailbox) (k : kstate) : kstate := with_mbs (<[m := mb]> (mbs k)) k.
Lemma get_mb_lookup k m mb : mbs k !! m = Some mb -> get_mb k m = mb.
Proof. unfold get_mb. by intros ->. Qed.
Lemma set_mb_store k m mb f : mbs k !! m = Some mb -> set_mb m f k = store_mb m (f mb) k.
Proof.
  intros H. unfold set_mb, store_mb. f_equal. apply map_eq. intros i. rewrite lookup_alter, lookup_insert.
  case_decide; [subst; by rewrite H|done].
Qed.
Lemma get_store_mb k m mb : get_mb (store_mb m mb k) m = mb.
Proof. apply get_mb_lookup. unfold store_mb. cbn. by rewrite lookup_insert_eq. Qed.

Lemma mb_send_put_eq m v k mb :
  mbs k !! m = Some mb -> mb_ok mb -> mb_entry mb < mb_size mb ->
  mb_send_put m v k =
    let k := store_mb m (mb_append v mb) k in
    match susp_list k (LSusp (OMb m)) with
    | _ :: _ => let '(k, _) := rt_susp_list_dequeue (LSusp (OMb m)) RT_EOK k in Resched k (PcRet RT_EOK [])
    | [] => Done k RT_EOK []
    end.
Proof.
  intros Hm [] Hlt. unfold mb_send_put. rewrite (set_mb_store _ _ mb) by done. rewrite get_store_mb.
  change (mb_entry (mb_put v mb)) with (mb_entry mb). rewrite (proj2 (Z.ltb_lt _ _)) by (unfold RT_MB_ENTRY_MAX; lia).
  rewrite (set_mb_store _ _ (mb_put v mb)) by (unfold store_mb; cbn; by rewrite lookup_insert_eq).
  unfold store_mb. cbn. by rewrite insert_insert_eq.
Qed.
