(* ===== verification/MqOps.v ===== *)
(** * Message queues ([src/rt-thread/src/ipc.c])

    The message slots of the pool are numbered; [msg_queue_head], [msg_queue_tail]
    and [msg_queue_free] are slot numbers and every slot has its [next] pointer.
    Sending and receiving copy a message with interrupts enabled, so each has a
    segment that takes a slot off a list and one that puts it on the other. *)
From S2P Require Import Prelude Queue Object Sched TimerCore Kernel Sem Timer SemTake.

Definition RT_MQ_ENTRY_MAX : Z := 65535.
(** [sizeof(struct rt_mq_message)]: a pointer and a length. *)
Definition sizeof_rt_mq_message : Z := 8.

Definition messagequeue0 : rt_messagequeue := Messagequeue 0 0 0 0 None None None ∅.
Definition get_mq (k : kstate) (m : nat) : rt_messagequeue := default messagequeue0 (mqs k !! m).
Definition set_mq (m : nat) (f : rt_messagequeue -> rt_messagequeue) (k : kstate) : kstate :=
  with_mqs (alter f m (mqs k)) k.

Definition mq_with_entry v q := Messagequeue (mq_flag q) (msg_size q) (max_msgs q) v
  (msg_queue_head q) (msg_queue_tail q) (msg_queue_free q) (mq_pool q).
Definition mq_with_head v q := Messagequeue (mq_flag q) (msg_size q) (max_msgs q) (mq_entry q)
  v (msg_queue_tail q) (msg_queue_free q) (mq_pool q).
Definition mq_with_tail v q := Messagequeue (mq_flag q) (msg_size q) (max_msgs q) (mq_entry q)
  (msg_queue_head q) v (msg_queue_free q) (mq_pool q).
Definition mq_with_free v q := Messagequeue (mq_flag q) (msg_size q) (max_msgs q) (mq_entry q)
  (msg_queue_head q) (msg_queue_tail q) v (mq_pool q).
Definition mq_with_pool v q := Messagequeue (mq_flag q) (msg_size q) (max_msgs q) (mq_entry q)
  (msg_queue_head q) (msg_queue_tail q) (msg_queue_free q) v.

Definition slot (q : rt_messagequeue) (i : nat) : rt_mq_message := default (MqMessage None 0 []) (mq_pool q !! i).
(** [msg->next = n] and the length and bytes of a message. *)
Definition set_next (i : nat) (n : option nat) (q : rt_messagequeue) : rt_messagequeue :=
  mq_with_pool (alter (fun s => MqMessage n (mq_length s) (mq_data s)) i (mq_pool q)) q.
Definition set_message (i : nat) (buffer : list Z) (q : rt_messagequeue) : rt_messagequeue :=
  mq_with_pool (alter (fun s => MqMessage (mq_next s) (Z.of_nat (length buffer))
     (buffer ++ drop (length buffer) (mq_data s))) i (mq_pool q)) q.

(** ** The lists of slots *)
Definition pop_free (i : nat) (q : rt_messagequeue) : rt_messagequeue := mq_with_free (mq_next (slot q i)) q.
Definition push_free (i : nat) (q : rt_messagequeue) : rt_messagequeue :=
  mq_with_free (Some i) (set_next i (msg_queue_free q) q).
Definition link_tail (i : nat) (q : rt_messagequeue) : rt_messagequeue :=
  let q := match msg_queue_tail q with Some t => set_next t (Some i) q | None => q end in
  let q := mq_with_tail (Some i) q in
  match msg_queue_head q with None => mq_with_head (Some i) q | Some _ => q end.
Definition link_head (i : nat) (q : rt_messagequeue) : rt_messagequeue :=
  let q := set_next i (msg_queue_head q) q in
  let q := mq_with_head (Some i) q in
  match msg_queue_tail q with None => mq_with_tail (Some i) q | Some _ => q end.
Definition pop_head (i : nat) (q : rt_messagequeue) : rt_messagequeue :=
  let q := mq_with_head (mq_next (slot q i)) q in
  if decide (msg_queue_tail q = Some i) then mq_with_tail None q else q.

(** ** Initialisation and removal *)

(** The loop that links all slots into the free list, slot [n - 1] first. *)
Fixpoint init_free (garbage : nat -> Z * list Z) (n : nat) : gmap nat rt_mq_message * option nat :=
  match n with
  | O => (∅, None)
  | S i => let '(pool, free) := init_free garbage i in
           (<[i := MqMessage free (fst (garbage i)) (snd (garbage i))]> pool, Some i)
  end.

(** [garbage]: the length and the bytes the memory of each slot holds. *)
Definition rt_mq_init (m : nat) (name : list Z) (garbage : nat -> Z * list Z) (size pool_size flag : Z)
    (k : kstate) : kstate * Z :=
  let k := on_ko (rt_object_init (KIpc (OMq m)) RT_Object_Class_MessageQueue name) k in
  let k := _ipc_object_init (OMq m) k in
  let msg_align_size := RT_ALIGN size RT_ALIGN_SIZE in
  let max := u16 (pool_size / u32 (msg_align_size + sizeof_rt_mq_message)) in
  let old := get_mq k m in
  if 0 =? max then
    (with_mqs (<[m := Messagequeue (u8 flag) (u16 size) max (mq_entry old) (msg_queue_head old)
                        (msg_queue_tail old) (msg_queue_free old) (mq_pool old)]> (mqs k)) k, - RT_EINVAL)
  else
    let '(pool, free) := init_free garbage (Z.to_nat max) in
    let k := with_mqs (<[m := Messagequeue (u8 flag) (u16 size) max 0 None None free pool]> (mqs k)) k in
    (on_ks (fun s => with_tlists (qset (LSend (OMq m)) [] (tlists s)) s) k, RT_EOK).

Definition mq_resume_all (m : nat) (k : kstate) : kstate :=
  let k := rt_susp_list_resume_all (LSusp (OMq m)) RT_ERROR k in
  rt_susp_list_resume_all (LSend (OMq m)) RT_ERROR k.

Definition rt_mq_detach (m : nat) (k : kstate) : kstate * Z :=
  (on_ko (rt_object_detach (KIpc (OMq m))) (mq_resume_all m k), RT_EOK).

(** [pool]: what the memory [RT_KERNEL_MALLOC] returns holds. *)
Definition rt_mq_create (alloc : option nat) (pool : option (nat -> Z * list Z)) (name : list Z)
    (size max_msgs flag : Z) (k : kstate) : kstate * option nat :=
  let '(o, r) := rt_object_allocate ((fun m => KIpc (OMq m)) <$> alloc) RT_Object_Class_MessageQueue name (ko k) in
  let k := with_ko o k in
  match alloc with
  | None => (k, None)
  | Some m =>
      let k := _ipc_object_init (OMq m) k in
      match pool with
      | None => (on_ko (rt_object_delete (KIpc (OMq m))) k, None)
      | Some garbage =>
          let max := u16 max_msgs in
          let '(p, free) := init_free garbage (Z.to_nat max) in
          let k := with_mqs (<[m := Messagequeue (u8 flag) (u16 size) max 0 None None free p]> (mqs k)) k in
          (on_ks (fun s => with_tlists (qset (LSend (OMq m)) [] (tlists s)) s) k, Some m)
      end
  end.

Definition rt_mq_delete (m : nat) (k : kstate) : outcome :=
  Resched (spin_unlock (mq_resume_all m (rt_spin_lock k))) (PcMqDelete m).
Definition mq_delete_after (m : nat) (k : kstate) : outcome :=
  Done (on_ko (rt_object_delete (KIpc (OMq m))) k) RT_EOK [].

(** ** Sending *)

(** The part of a send after the message is linked. *)
Definition mq_sent (m : nat) (k : kstate) : outcome :=
  if mq_entry (get_mq k m) <? RT_MQ_ENTRY_MAX then
    let k := set_mq m (fun q => mq_with_entry (u16 (mq_entry q + 1)) q) k in
    match susp_list k (LSusp (OMq m)) with
    | _ :: _ => let '(k, _) := rt_susp_list_dequeue (LSusp (OMq m)) RT_EOK k in Resched k (PcRet RT_EOK [])
    | [] => Done k RT_EOK []
    end
  else Done k (- RT_EFULL) [].

(** The message filled and linked: the second segment of a send. *)
Definition mq_send_link (m msg : nat) (buffer : list Z) (k : kstate) : outcome :=
  mq_sent m (set_mq m (fun q => link_tail msg (set_message msg buffer (set_next msg None q))) k).
Definition mq_urgent_link (m msg : nat) (buffer : list Z) (k : kstate) : outcome :=
  mq_sent m (set_mq m (fun q => link_head msg (set_message msg buffer q)) k).

(** From the test of the [while] loop. *)
Definition mq_send_loop (m : nat) (buffer : list Z) (timeout tick_delta suspend_flag : Z) (k : kstate)
    : outcome :=
  match msg_queue_free (get_mq k m) with
  | Some msg => Enable (set_mq m (pop_free msg) k) (PcMqLink m msg buffer)
  | None =>
      match self k with
      | None => Done k (- RT_ERROR) []   (* only threads wait *)
      | Some thread =>
          let k := upd_thr thread (with_error (- RT_EINTR)) k in
          if timeout =? 0 then Done k (- RT_EFULL) []
          else
            let tick_delta := if 0 <? timeout then rt_tick_get (kt k) else tick_delta in
            let '(k, ret) := wait_on thread (LSend (OMq m)) (mq_flag (get_mq k m)) timeout suspend_flag k in
            if negb (ret =? RT_EOK) then Done k ret []
            else Resched k (PcMqSend m buffer timeout tick_delta suspend_flag)
      end
  end.

Definition _rt_mq_send_wait (m : nat) (buffer : list Z) (timeout suspend_flag : Z) (k : kstate) : outcome :=
  if msg_size (get_mq k m) <? Z.of_nat (length buffer) then Done k (- RT_ERROR) []
  else
    match msg_queue_free (get_mq k m) with
    | None => if timeout =? 0 then Done k (- RT_EFULL) [] else mq_send_loop m buffer timeout 0 suspend_flag k
    | Some _ => mq_send_loop m buffer timeout 0 suspend_flag k
    end.
Definition mq_send_after (thread : tid) (m : nat) (buffer : list Z) (timeout tick_delta suspend_flag : Z)
    (k : kstate) : outcome :=
  if negb (error (thr k thread) =? RT_EOK) then Done k (error (thr k thread)) []
  else mq_send_loop m buffer (wait_remaining k timeout tick_delta)
         (if 0 <? timeout then u32 (rt_tick_get (kt k) - tick_delta) else tick_delta) suspend_flag k.

Definition rt_mq_send_wait (m : nat) (buffer : list Z) (timeout : Z) : kstate -> outcome :=
  _rt_mq_send_wait m buffer timeout RT_UNINTERRUPTIBLE.
Definition rt_mq_send_wait_interruptible (m : nat) (buffer : list Z) (timeout : Z) : kstate -> outcome :=
  _rt_mq_send_wait m buffer timeout RT_INTERRUPTIBLE.
Definition rt_mq_send_wait_killable (m : nat) (buffer : list Z) (timeout : Z) : kstate -> outcome :=
  _rt_mq_send_wait m buffer timeout RT_KILLABLE.
Definition rt_mq_send (m : nat) (buffer : list Z) : kstate -> outcome := rt_mq_send_wait m buffer 0.
Definition rt_mq_send_interruptible (m : nat) (buffer : list Z) : kstate -> outcome :=
  rt_mq_send_wait_interruptible m buffer 0.
Definition rt_mq_send_killable (m : nat) (buffer : list Z) : kstate -> outcome :=
  rt_mq_send_wait_killable m buffer 0.

Definition rt_mq_urgent (m : nat) (buffer : list Z) (k : kstate) : outcome :=
  if msg_size (get_mq k m) <? Z.of_nat (length buffer) then Done k (- RT_ERROR) []
  else
    match msg_queue_free (get_mq k m) with
    | None => Done k (- RT_EFULL) []
    | Some msg => Enable (set_mq m (pop_free msg) k) (PcMqUrgent m msg buffer)
    end.

(** ** Receiving *)

(** The message taken off the queue; the copy and the release of its slot are
    the second segment. *)
Definition mq_recv_take (m : nat) (size : Z) (k : kstate) : outcome :=
  match msg_queue_head (get_mq k m) with
  | None => Done k (- RT_ERROR) []   (* an empty queue has no entry *)
  | Some msg =>
      let k := set_mq m (pop_head msg) k in
      let k := if 0 <? mq_entry (get_mq k m)
               then set_mq m (fun q => mq_with_entry (u16 (mq_entry q - 1)) q) k else k in
      Enable k (PcMqFree m msg size)
  end.
Definition mq_recv_free (m msg : nat) (size : Z) (k : kstate) : outcome :=
  let s := slot (get_mq k m) msg in
  let len := if size <? mq_length s then size else mq_length s in
  let buffer := take (Z.to_nat len) (mq_data s) in
  let k := set_mq m (push_free msg) k in
  match susp_list k (LSend (OMq m)) with
  | _ :: _ => let '(k, _) := rt_susp_list_dequeue (LSend (OMq m)) RT_EOK k in Resched k (PcRet len buffer)
  | [] => Done k len buffer
  end.

Definition mq_recv_loop (m : nat) (size timeout tick_delta suspend_flag : Z) (k : kstate) : outcome :=
  if mq_entry (get_mq k m) =? 0 then
    match self k with
    | None => Done k (- RT_ERROR) []   (* only threads wait *)
    | Some thread =>
        let k := upd_thr thread (with_error (- RT_EINTR)) k in
        if timeout =? 0 then Done (upd_thr thread (with_error (- RT_ETIMEOUT)) k) (- RT_ETIMEOUT) []
        else
          let tick_delta := if 0 <? timeout then rt_tick_get (kt k) else tick_delta in
          let '(k, ret) := wait_on thread (LSusp (OMq m)) (mq_flag (get_mq k m)) timeout suspend_flag k in
          if negb (ret =? RT_EOK) then Done k ret []
          else Resched k (PcMqRecv m size timeout tick_delta suspend_flag)
    end
  else mq_recv_take m size k.

Definition _rt_mq_recv (m : nat) (size timeout suspend_flag : Z) (k : kstate) : outcome :=
  if (mq_entry (get_mq k m) =? 0) && (timeout =? 0) then Done k (- RT_ETIMEOUT) []
  else mq_recv_loop m size timeout 0 suspend_flag k.
Definition mq_recv_after (thread : tid) (m : nat) (size timeout tick_delta suspend_flag : Z) (k : kstate)
    : outcome :=
  if negb (error (thr k thread) =? RT_EOK) then Done k (error (thr k thread)) []
  else mq_recv_loop m size (wait_remaining k timeout tick_delta)
         (if 0 <? timeout then u32 (rt_tick_get (kt k) - tick_delta) else tick_delta) suspend_flag k.

Definition rt_mq_recv (m : nat) (size timeout : Z) : kstate -> outcome := _rt_mq_recv m size timeout RT_UNINTERRUPTIBLE.
Definition rt_mq_recv_interruptible (m : nat) (size timeout : Z) : kstate -> outcome :=
  _rt_mq_recv m size timeout RT_INTERRUPTIBLE.
Definition rt_mq_recv_killable (m : nat) (size timeout : Z) : kstate -> outcome :=
  _rt_mq_recv m size timeout RT_KILLABLE.

(** ** Reset: every queued message goes to the free list *)
Fixpoint reset_loop (fuel : nat) (q : rt_messagequeue) : rt_messagequeue :=
  match fuel with
  | O => q
  | S f => match msg_queue_head q with
           | None => q
           | Some msg => reset_loop f (push_free msg (pop_head msg q))
           end
  end.
Definition rt_mq_control (m : nat) (cmd arg : Z) (k : kstate) : outcome :=
  if cmd =? RT_IPC_CMD_RESET then
    let k := mq_resume_all m k in
    (* at most [max_msgs] messages are queued *)
    let k := set_mq m (fun q => mq_with_entry 0 (reset_loop (S (Z.to_nat (max_msgs q))) q)) k in
    Resched k (PcRet RT_EOK [])
  else Done k (- RT_ERROR) [].
