(* ===== verification/MqFacts.v ===== *)
(** * The slots of a message queue

    The slots of the pool are divided into the free list, the queue and the slots
    in flight, which a call has taken off one list and not yet put on the other.
    [mq_lists q F Q X]: [F] are the free slots, [Q] the queued ones, [X] those in
    flight. *)
From S2P Require Import Prelude Queue Object Sched TimerCore Kernel Sem Timer SemTake MqOps.

(** From [p] along [next] through the slots [l]. *)
Fixpoint chain (q : rt_messagequeue) (p : option nat) (l : list nat) : Prop :=
  match l with
  | [] => p = None
  | i :: l' => p = Some i /\ chain q (mq_next (slot q i)) l'
  end.
(** The bytes of the message in a slot. *)
Definition message (q : rt_messagequeue) (i : nat) : list Z :=
  take (Z.to_nat (mq_length (slot q i))) (mq_data (slot q i)).

Record mq_lists (q : rt_messagequeue) (F Q X : list nat) : Prop := {
  ql_max : 0 <= max_msgs q < 2^16;
  ql_pool : forall i, (i < Z.to_nat (max_msgs q))%nat -> is_Some (mq_pool q !! i);
  ql_part : F ++ Q ++ X ≡ₚ seq 0 (Z.to_nat (max_msgs q));
  ql_free : chain q (msg_queue_free q) F;
  ql_head : chain q (msg_queue_head q) Q;
  ql_tail : msg_queue_tail q = last Q;
}.
Record mq_ok (q : rt_messagequeue) (F Q X : list nat) : Prop := {
  qo_lists : mq_lists q F Q X;
  qo_entry : mq_entry q = Z.of_nat (length Q);
}.

(** ** Chains *)
Lemma chain_ext q q' p l :
  (forall i, i ∈ l -> mq_next (slot q' i) = mq_next (slot q i)) -> chain q p l -> chain q' p l.
Proof.
  revert p. induction l as [|i l IH]; intros p H; simpl; [done|]. intros [-> Hc]. split; [done|].
  rewrite H by left. apply IH; [|done]. intros j Hj. apply H. by right.
Qed.
Lemma slot_set_next i n q j :
  is_Some (mq_pool q !! i) ->
  slot (set_next i n q) j = if decide (i = j) then MqMessage n (mq_length (slot q i)) (mq_data (slot q i)) else slot q j.
Proof.
  intros [s Hs]. unfold slot, set_next, mq_with_pool. cbn. rewrite lookup_alter. case_decide; [subst|done].
  by rewrite Hs.
Qed.
Lemma slot_set_message i b q j :
  is_Some (mq_pool q !! i) ->
  slot (set_message i b q) j =
    if decide (i = j) then MqMessage (mq_next (slot q i)) (Z.of_nat (length b)) (b ++ drop (length b) (mq_data (slot q i)))
    else slot q j.
Proof.
  intros [s Hs]. unfold slot, set_message, mq_with_pool. cbn. rewrite lookup_alter. case_decide; [subst|done].
  by rewrite Hs.
Qed.
Lemma slot_is_Some_set_next i n q j : is_Some (mq_pool (set_next i n q) !! j) <-> is_Some (mq_pool q !! j).
Proof. unfold set_next. cbn. rewrite lookup_alter. case_decide; [subst|done]. by rewrite fmap_is_Some. Qed.
Lemma slot_is_Some_set_message i b q j : is_Some (mq_pool (set_message i b q) !! j) <-> is_Some (mq_pool q !! j).
Proof. unfold set_message. cbn. rewrite lookup_alter. case_decide; [subst|done]. by rewrite fmap_is_Some. Qed.
Lemma chain_set_next i n q p l :
  is_Some (mq_pool q !! i) -> i ∉ l -> chain q p l -> chain (set_next i n q) p l.
Proof.
  intros Hi Hn. apply chain_ext. intros j Hj. rewrite slot_set_next by done. case_decide; [by subst|done].
Qed.
Lemma chain_set_message i b q p l : is_Some (mq_pool q !! i) -> chain q p l -> chain (set_message i b q) p l.
Proof. intros Hi. apply chain_ext. intros j Hj. rewrite slot_set_message by done. case_decide; [by subst|done]. Qed.
(** A chain made longer at its end. *)
Lemma chain_snoc q p l t i :
  is_Some (mq_pool q !! t) -> NoDup l -> last l = Some t -> i ∉ l -> mq_next (slot q i) = None -> chain q p l ->
  chain (set_next t (Some i) q) p (l ++ [i]).
Proof.
  intros Ht. revert p. induction l as [|j l IH]; intros p Hnd Hlast Hi Hn; [done|].
  apply NoDup_cons in Hnd as [Hj Hnd]. apply not_elem_of_cons in Hi as [Hij Hi].
  simpl. intros [-> Hc]. split; [done|]. rewrite slot_set_next by done. destruct l as [|j' l].
  - simpl in Hlast. injection Hlast as ->. rewrite decide_True by done. simpl. split; [done|].
    rewrite slot_set_next by done. rewrite decide_False by congruence. done.
  - assert (j <> t).
    { intros ->. apply Hj. apply last_Some_elem_of. done. }
    rewrite decide_False by done. by apply IH.
Qed.
Lemma message_ext q q' i : slot q' i = slot q i -> message q' i = message q i.
Proof. unfold message. by intros ->. Qed.

(** ** The operations on the lists *)
Section lists.
Context (q : rt_messagequeue) (F Q X : list nat).

Lemma mq_nodup : mq_lists q F Q X -> NoDup (F ++ Q ++ X).
Proof. intros H. rewrite (ql_part _ _ _ _ H). apply NoDup_seq. Qed.
Lemma mq_slot i : mq_lists q F Q X -> i ∈ F ++ Q ++ X -> is_Some (mq_pool q !! i).
Proof.
  intros H Hi. apply (ql_pool _ _ _ _ H). rewrite (ql_part _ _ _ _ H) in Hi. apply elem_of_seq in Hi. lia.
Qed.
Lemma mq_lists_perm X' : X ≡ₚ X' -> mq_lists q F Q X -> mq_lists q F Q X'.
Proof. intros HX []. constructor; try done. by rewrite <- HX. Qed.
Lemma mq_lists_entry v : mq_lists q F Q X -> mq_lists (mq_with_entry v q) F Q X.
Proof.
  intros []. constructor; try done; [apply (chain_ext q)|apply (chain_ext q)]; done.
Qed.
(** At most [max_msgs] messages are queued. *)
Lemma mq_bound : mq_lists q F Q X -> Z.of_nat (length F) + Z.of_nat (length Q) + Z.of_nat (length X) = max_msgs q.
Proof.
  intros H. pose proof (Permutation_length (ql_part _ _ _ _ H)) as E. rewrite !length_app, length_seq in E.
  pose proof (ql_max _ _ _ _ H). lia.
Qed.
End lists.
Lemma mq_ok_perm q F Q X X' : X ≡ₚ X' -> mq_ok q F Q X -> mq_ok q F Q X'.
Proof. intros HX [H1 H2]. split; [by apply (mq_lists_perm q F Q X)|done]. Qed.
Lemma message_entry v q i : message (mq_with_entry v q) i = message q i.
Proof. done. Qed.

Lemma pop_free_lists q F Q X i : mq_lists q (i :: F) Q X -> mq_lists (pop_free i q) F Q (i :: X).
Proof.
  intros [Hm Hp Hpart [Hfr Hfc] Hh Ht]. constructor; try done.
  - cbn. rewrite <- Hpart. simpl. rewrite !app_assoc. symmetry. apply Permutation_middle.
  - by apply (chain_ext q).
  - by apply (chain_ext q).
Qed.
Lemma push_free_lists q F Q X i : mq_lists q F Q (i :: X) -> mq_lists (push_free i q) (i :: F) Q X.
Proof.
  intros H. pose proof (mq_nodup _ _ _ _ H) as Hnd. pose proof (mq_slot _ _ _ _ i H) as Hi.
  destruct H as [Hm Hp Hpart Hf Hh Ht].
  assert (Hs : is_Some (mq_pool q !! i)) by (apply Hi; set_solver).
  apply NoDup_app in Hnd as (_ & HF & Hnd). apply NoDup_app in Hnd as (_ & HQ & _).
  assert (HiF : i ∉ F) by (intros Hx; apply (HF i Hx); set_solver).
  assert (HiQ : i ∉ Q) by (intros Hx; apply (HQ i Hx); set_solver).
  unfold push_free. constructor.
  - done.
  - intros j Hj. cbn. apply slot_is_Some_set_next. by apply Hp.
  - cbn. rewrite <- Hpart. rewrite !app_assoc. rewrite Permutation_middle. done.
  - cbn. split; [done|]. change (slot (mq_with_free (Some i) ?x) i) with (slot x i).
    rewrite slot_set_next, decide_True by done. cbn. apply (chain_ext (set_next i (msg_queue_free q) q)); [done|].
    by apply chain_set_next.
  - apply (chain_ext (set_next i (msg_queue_free q) q)); [done|]. by apply chain_set_next.
  - exact Ht.
Qed.
Lemma message_push_free q i j : i <> j -> message (push_free i q) j = message q j.
Proof.
  intros H. apply message_ext. unfold push_free, slot, set_next. cbn. by rewrite lookup_alter_ne.
Qed.

Lemma pop_head_lists q F Q X i : mq_lists q F (i :: Q) X -> mq_lists (pop_head i q) F Q (i :: X).
Proof.
  intros H. pose proof (mq_nodup _ _ _ _ H) as Hnd. destruct H as [Hm Hp Hpart Hf [Hhr Hhc] Ht].
  apply NoDup_app in Hnd as (_ & _ & Hnd). apply NoDup_app in Hnd as (Hnd & _ & _). apply NoDup_cons in Hnd as [HiQ _].
  assert (E : pop_head i q = mq_with_tail (last Q) (mq_with_head (mq_next (slot q i)) q)).
  { unfold pop_head. cbn. rewrite Ht. destruct Q as [|j Q].
    - simpl. by rewrite decide_True.
    - change (last (i :: j :: Q)) with (last (j :: Q)). rewrite decide_False.
      + unfold mq_with_tail, mq_with_head. cbn. by rewrite Ht.
      + intros Hl. apply HiQ. by apply last_Some_elem_of. }
  rewrite E. constructor; try done.
  - cbn. rewrite <- Hpart. apply Permutation_app_head. simpl. symmetry. apply Permutation_middle.
  - by apply (chain_ext q).
  - by apply (chain_ext q).
Qed.
Lemma message_pop_head q i j : message (pop_head i q) j = message q j.
Proof. apply message_ext. unfold pop_head. by case_decide. Qed.

Lemma link_head_lists q F Q X i : mq_lists q F Q (i :: X) -> mq_lists (link_head i q) F (i :: Q) X.
Proof.
  intros H. pose proof (mq_nodup _ _ _ _ H) as Hnd. pose proof (mq_slot _ _ _ _ i H) as Hi.
  destruct H as [Hm Hp Hpart Hf Hh Ht].
  assert (Hs : is_Some (mq_pool q !! i)) by (apply Hi; set_solver).
  apply NoDup_app in Hnd as (_ & HF & Hnd). apply NoDup_app in Hnd as (_ & HQ & _).
  assert (HiF : i ∉ F) by (intros Hx; apply (HF i Hx); set_solver).
  assert (HiQ : i ∉ Q) by (intros Hx; apply (HQ i Hx); set_solver).
  assert (E : link_head i q = mq_with_tail (last (i :: Q)) (mq_with_head (Some i) (set_next i (msg_queue_head q) q))).
  { unfold link_head. cbn. rewrite Ht. destruct Q as [|j Q]; [done|].
    change (last (i :: j :: Q)) with (last (j :: Q)). destruct (last (j :: Q)) as [t|] eqn:E.
    - unfold mq_with_tail, mq_with_head, set_next. cbn. by rewrite Ht.
    - by apply last_None in E. }
  rewrite E. constructor; try done.
  - intros j Hj. cbn. apply slot_is_Some_set_next. by apply Hp.
  - cbn. rewrite <- Hpart. apply Permutation_app_head. simpl. apply Permutation_middle.
  - by apply (chain_ext (set_next i (msg_queue_head q) q)); [|apply chain_set_next].
  - cbn [chain]. split; [done|]. change (slot (mq_with_tail _ (mq_with_head _ ?x)) i) with (slot x i).
    rewrite slot_set_next, decide_True by done. cbn [mq_next].
    by apply (chain_ext (set_next i (msg_queue_head q) q)); [|apply chain_set_next].
Qed.
Lemma link_tail_lists q F Q X i :
  mq_lists q F Q (i :: X) -> mq_next (slot q i) = None -> mq_lists (link_tail i q) F (Q ++ [i]) X.
Proof.
  intros H Hnx. pose proof (mq_nodup _ _ _ _ H) as Hnd. pose proof (fun j => mq_slot _ _ _ _ j H) as Hsl.
  destruct H as [Hm Hp Hpart Hf Hh Ht].
  apply NoDup_app in Hnd as (_ & HF & Hnd). apply NoDup_app in Hnd as (HQn & HQ & _).
  assert (HiF : i ∉ F) by (intros Hx; apply (HF i Hx); set_solver).
  assert (HiQ : i ∉ Q) by (intros Hx; apply (HQ i Hx); set_solver).
  assert (Hpart' : F ++ (Q ++ [i]) ++ X ≡ₚ seq 0 (Z.to_nat (max_msgs q))) by (by rewrite <- Hpart, <- app_assoc).
  unfold link_tail. rewrite Ht. destruct (last Q) as [t|] eqn:Hlast.
  - assert (HtQ : t ∈ Q) by (by apply last_Some_elem_of).
    assert (HtF : t ∉ F) by (intros Hx; apply (HF t Hx); set_solver).
    assert (Hs : is_Some (mq_pool q !! t)) by (apply Hsl; set_solver).
    assert (E : exists h, msg_queue_head q = Some h) by (destruct Q; [done|]; destruct Hh as [-> _]; by eexists).
    destruct E as [h Hhd]. cbn. rewrite Hhd. constructor; try done.
    + intros j Hj. cbn. apply slot_is_Some_set_next. by apply Hp.
    + by apply (chain_ext (set_next t (Some i) q)); [|apply chain_set_next].
    + cbn. apply (chain_ext (set_next t (Some i) q)); [done|]. apply chain_snoc; try done.
    + cbn. by rewrite last_snoc.
  - apply last_None in Hlast as ->. simpl in Hh. cbn. rewrite Hh. constructor; try done.
    by apply (chain_ext q).
Qed.
Lemma message_link_head q i j : is_Some (mq_pool q !! i) -> message (link_head i q) j = message q j.
Proof.
  intros Hi. assert (E : slot (link_head i q) j = slot (set_next i (msg_queue_head q) q) j).
  { unfold link_head. by destruct (msg_queue_tail _). }
  unfold message. rewrite E, slot_set_next by done. by case_decide; subst.
Qed.
Lemma message_link_tail q i j :
  (forall t, msg_queue_tail q = Some t -> is_Some (mq_pool q !! t)) -> message (link_tail i q) j = message q j.
Proof.
  intros Hp. unfold link_tail. destruct (msg_queue_tail q) as [t|] eqn:Ht.
  - assert (E : forall o : option nat, slot (match o with None => mq_with_head (Some i) (mq_with_tail (Some i) (set_next t (Some i) q))
      | Some _ => mq_with_tail (Some i) (set_next t (Some i) q) end) j = slot (set_next t (Some i) q) j) by (by intros []).
    unfold message. rewrite E, slot_set_next by (by apply Hp). by case_decide; subst.
  - by destruct (msg_queue_head _).
Qed.

(** ** What the calls do to a queue *)

(** Filling a slot in flight and linking it, the entry counted. *)
Definition mq_enqueue (i : nat) (b : list Z) (q : rt_messagequeue) : rt_messagequeue :=
  let q := link_tail i (set_message i b (set_next i None q)) in mq_with_entry (u16 (mq_entry q + 1)) q.
Definition mq_enqueue_front (i : nat) (b : list Z) (q : rt_messagequeue) : rt_messagequeue :=
  let q := link_head i (set_message i b q) in mq_with_entry (u16 (mq_entry q + 1)) q.
Definition mq_dequeue (i : nat) (q : rt_messagequeue) : rt_messagequeue :=
  let q := pop_head i q in mq_with_entry (u16 (mq_entry q - 1)) q.

Lemma set_next_lists q F Q X i n : mq_lists q F Q (i :: X) -> mq_lists (set_next i n q) F Q (i :: X).
Proof.
  intros H. pose proof (mq_nodup _ _ _ _ H) as Hnd. pose proof (mq_slot _ _ _ _ i H) as Hi.
  destruct H as [Hm Hp Hpart Hf Hh Ht].
  apply NoDup_app in Hnd as (_ & HF & Hnd). apply NoDup_app in Hnd as (_ & HQ & _).
  constructor; try done.
  - intros j Hj. apply slot_is_Some_set_next. by apply Hp.
  - apply chain_set_next; [apply Hi; set_solver| |done]. intros Hx. apply (HF i Hx). set_solver.
  - apply chain_set_next; [apply Hi; set_solver| |done]. intros Hx. apply (HQ i Hx). set_solver.
Qed.
Lemma set_message_lists q F Q X i b : is_Some (mq_pool q !! i) -> mq_lists q F Q X -> mq_lists (set_message i b q) F Q X.
Proof.
  intros Hi [Hm Hp Hpart Hf Hh Ht]. constructor; try done.
  - intros j Hj. apply slot_is_Some_set_message. by apply Hp.
  - by apply chain_set_message.
  - by apply chain_set_message.
Qed.
Lemma message_set_message q i b j :
  is_Some (mq_pool q !! i) -> message (set_message i b q) j = if decide (i = j) then b else message q j.
Proof.
  intros Hi. unfold message. rewrite slot_set_message by done. case_decide; [|done]. cbn.
  rewrite Nat2Z.id. by rewrite take_app_length.
Qed.
Lemma mq_in_flight q F Q X i : mq_lists q F Q (i :: X) -> is_Some (mq_pool q !! i) /\ i ∉ Q.
Proof.
  intros H. split; [apply (mq_slot _ _ _ _ i H); set_solver|]. pose proof (mq_nodup _ _ _ _ H) as Hnd.
  apply NoDup_app in Hnd as (_ & _ & Hnd). apply NoDup_app in Hnd as (_ & HQ & _). intros Hx. apply (HQ i Hx). set_solver.
Qed.
Lemma mq_tail_slot q F Q X t : mq_lists q F Q X -> msg_queue_tail q = Some t -> is_Some (mq_pool q !! t).
Proof.
  intros H. rewrite (ql_tail _ _ _ _ H). intros Hl. apply (mq_slot q F Q X); [done|]. apply last_Some_elem_of in Hl. set_solver.
Qed.
Lemma messages_ext q q' Q : (forall j, j ∈ Q -> message q' j = message q j) -> map (message q') Q = map (message q) Q.
Proof. intros H. apply map_ext_in. intros j Hj. apply H. by apply list_elem_of_In. Qed.

Lemma u16_entry q F Q X : mq_ok q F Q X -> (0 < length F + length X)%nat -> u16 (mq_entry q + 1) = Z.of_nat (S (length Q)).
Proof.
  intros [Hl He] Hlt. pose proof (mq_bound _ _ _ _ Hl). pose proof (ql_max _ _ _ _ Hl). rewrite He.
  unfold u16. rewrite Z.mod_small by lia. lia.
Qed.
Lemma mq_enqueue_ok q F Q X i b :
  mq_ok q F Q (i :: X) ->
  mq_ok (mq_enqueue i b q) F (Q ++ [i]) X /\
  map (message (mq_enqueue i b q)) (Q ++ [i]) = map (message q) Q ++ [b].
Proof.
  intros Hok. pose proof (u16_entry _ _ _ _ Hok) as Hu. destruct Hok as [Hl He].
  destruct (mq_in_flight _ _ _ _ _ Hl) as [Hi HiQ].
  pose proof (set_next_lists _ _ _ _ _ None Hl) as H1.
  assert (Hi1 : is_Some (mq_pool (set_next i None q) !! i)) by (by apply slot_is_Some_set_next).
  pose proof (set_message_lists _ _ _ _ _ b Hi1 H1) as H2.
  assert (H3 : mq_lists (link_tail i (set_message i b (set_next i None q))) F (Q ++ [i]) X).
  { apply link_tail_lists; [done|]. rewrite slot_set_message, decide_True by done. cbn.
    by rewrite slot_set_next, decide_True. }
  assert (Hen : mq_entry (link_tail i (set_message i b (set_next i None q))) = mq_entry q).
  { unfold link_tail. by repeat case_match. }
  assert (Hmsg : forall j, message (mq_enqueue i b q) j = if decide (i = j) then b else message q j).
  { intros j. unfold mq_enqueue. rewrite message_entry.
    rewrite message_link_tail by (intros t; apply (mq_tail_slot _ _ _ _ _ H2)).
    rewrite message_set_message by done. case_decide; [done|]. apply message_ext.
    by rewrite slot_set_next, decide_False. }
  split.
  - unfold mq_enqueue. rewrite Hen, Hu by (simpl; lia). split; [by apply mq_lists_entry|]. cbn. rewrite length_app. simpl. lia.
  - rewrite map_app. f_equal; [|simpl; by rewrite Hmsg, decide_True].
    apply messages_ext. intros j Hj. rewrite Hmsg, decide_False; [done|]. by intros ->.
Qed.
Lemma mq_enqueue_front_ok q F Q X i b :
  mq_ok q F Q (i :: X) ->
  mq_ok (mq_enqueue_front i b q) F (i :: Q) X /\
  map (message (mq_enqueue_front i b q)) (i :: Q) = b :: map (message q) Q.
Proof.
  intros Hok. pose proof (u16_entry _ _ _ _ Hok) as Hu. destruct Hok as [Hl He].
  destruct (mq_in_flight _ _ _ _ _ Hl) as [Hi HiQ].
  pose proof (set_message_lists _ _ _ _ _ b Hi Hl) as H2.
  pose proof (link_head_lists _ _ _ _ _ H2) as H3.
  assert (Hen : mq_entry (link_head i (set_message i b q)) = mq_entry q).
  { unfold link_head. by repeat case_match. }
  assert (Hmsg : forall j, message (mq_enqueue_front i b q) j = if decide (i = j) then b else message q j).
  { intros j. unfold mq_enqueue_front. rewrite message_entry, message_link_head by (by apply slot_is_Some_set_message).
    by rewrite message_set_message. }
  split.
  - unfold mq_enqueue_front. rewrite Hen, Hu by (simpl; lia). split; [by apply mq_lists_entry|]. cbn. lia.
  - simpl. f_equal; [by rewrite Hmsg, decide_True|].
    apply messages_ext. intros j Hj. rewrite Hmsg, decide_False; [done|]. by intros ->.
Qed.
Lemma mq_dequeue_ok q F Q X i :
  mq_ok q F (i :: Q) X -> mq_ok (mq_dequeue i q) F Q (i :: X) /\ forall j, message (mq_dequeue i q) j = message q j.
Proof.
  intros [Hl He]. pose proof (mq_bound _ _ _ _ Hl). pose proof (ql_max _ _ _ _ Hl). simpl in *.
  assert (Hen : mq_entry (pop_head i q) = mq_entry q) by (unfold pop_head; by case_decide). split.
  - unfold mq_dequeue. split; [apply mq_lists_entry; by apply pop_head_lists|]. cbn. rewrite Hen, He.
    unfold u16. rewrite Z.mod_small by lia. lia.
  - intros j. unfold mq_dequeue. by rewrite message_entry, message_pop_head.
Qed.
Lemma push_free_ok q F Q X i :
  mq_ok q F Q (i :: X) -> mq_ok (push_free i q) (i :: F) Q X /\ map (message (push_free i q)) Q = map (message q) Q.
Proof.
  intros [Hl He]. destruct (mq_in_flight _ _ _ _ _ Hl) as [Hi HiQ]. split.
  - split; [by apply push_free_lists|exact He].
  - apply messages_ext. intros j Hj. apply message_push_free. by intros ->.
Qed.
Lemma pop_free_ok q F Q X i :
  mq_ok q (i :: F) Q X -> mq_ok (pop_free i q) F Q (i :: X) /\ map (message (pop_free i q)) Q = map (message q) Q.
Proof. intros [Hl He]. split; [split; [by apply pop_free_lists|exact He]|done]. Qed.

(** The loop of a reset empties the queue. *)
Lemma reset_loop_lists fuel : forall q F Q X,
  mq_lists q F Q X -> (length Q <= fuel)%nat -> mq_lists (reset_loop fuel q) (rev Q ++ F) [] X.
Proof.
  induction fuel as [|f IH]; intros q F Q X H Hle; simpl.
  - by destruct Q; [|simpl in Hle; lia].
  - pose proof (ql_head _ _ _ _ H) as Hh. destruct Q as [|i Q]; simpl in Hh; [by rewrite Hh|].
    destruct Hh as [-> _]. simpl. rewrite <- app_assoc. apply IH; [|simpl in Hle; lia].
    by apply push_free_lists, pop_head_lists.
Qed.
Lemma reset_ok q F Q X :
  mq_ok q F Q X -> mq_ok (mq_with_entry 0 (reset_loop (S (Z.to_nat (max_msgs q))) q)) (rev Q ++ F) [] X.
Proof.
  intros [Hl He]. pose proof (mq_bound _ _ _ _ Hl). split; [|done]. apply mq_lists_entry, reset_loop_lists; [done|lia].
Qed.

(** Initialisation: all slots are free. *)
Lemma init_free_spec g n :
  let '(pool, free) := init_free g n in
  (forall i, is_Some (pool !! i) <-> (i < n)%nat) /\
  forall q, mq_pool q = pool -> chain q free (rev (seq 0 n)).
Proof.
  induction n as [|n IH]; cbn [init_free].
  - split; [|done]. intros i. rewrite lookup_empty. split; [by intros [? ?]|lia].
  - destruct (init_free g n) as [pool free]. destruct IH as [H1 H2]. split.
    + intros i. destruct (decide (n = i)) as [<-|Hne].
      * rewrite lookup_insert_eq. split; [lia|by eexists].
      * rewrite lookup_insert_ne, H1 by done. lia.
    + intros q Hq. rewrite seq_S, rev_app_distr. simpl. split; [done|].
      assert (Es : slot q n = MqMessage free (fst (g n)) (snd (g n))) by (unfold slot; by rewrite Hq, lookup_insert_eq).
      rewrite Es. simpl. apply (chain_ext (mq_with_pool pool q)); [|by apply H2].
      intros i Hi. rewrite list_elem_of_In, <- in_rev, in_seq in Hi. unfold slot. rewrite Hq. cbn.
      by rewrite lookup_insert_ne by lia.
Qed.
Lemma mq_init_ok g fl size mx :
  0 <= mx < 2^16 ->
  let '(pool, free) := init_free g (Z.to_nat mx) in
  mq_ok (Messagequeue fl size mx 0 None None free pool) (rev (seq 0 (Z.to_nat mx))) [] [].
Proof.
  intros Hm. pose proof (init_free_spec g (Z.to_nat mx)) as H. destruct (init_free g (Z.to_nat mx)) as [pool free].
  destruct H as [H1 H2]. split; [|done]. constructor; try done.
  - cbn. intros i Hi. by apply H1.
  - rewrite app_nil_r. cbn. symmetry. apply Permutation_rev.
  - by apply H2.
Qed.

(** ** In the kernel *)
Definition store_mq (m : nat) (q : rt_messagequeue) (k : kstate) : kstate := with_mqs (<[m := q]> (mqs k)) k.
Lemma get_mq_lookup k m q : mqs k !! m = Some q -> get_mq k m = q.
Proof. unfold get_mq. by intros ->. Qed.
Lemma set_mq_store k m q f : mqs k !! m = Some q -> set_mq m f k = store_mq m (f q) k.
Proof.
  intros H. unfold set_mq, store_mq. f_equal. apply map_eq. intros i. rewrite lookup_alter, lookup_insert.
  case_decide; [subst; by rewrite H|done].
Qed.
Lemma set_store_mq k m q f : set_mq m f (store_mq m q k) = store_mq m (f q) k.
Proof.
  rewrite (set_mq_store _ m q) by (unfold store_mq; cbn; by rewrite lookup_insert_eq).
  unfold store_mq. cbn. by rewrite insert_insert_eq.
Qed.
Lemma get_store_mq k m q : get_mq (store_mq m q k) m = q.
Proof. apply get_mq_lookup. unfold store_mq. cbn. by rewrite lookup_insert_eq. Qed.
Lemma set_mq_none m f k : mqs k !! m = None -> set_mq m f k = k.
Proof. intros H. unfold set_mq. rewrite alter_id; [by destruct k|by rewrite H]. Qed.

(** The second half of a send: the entry counted, the first receiver woken. *)
Lemma mq_sent_eq m k q :
  mqs k !! m = Some q -> mq_entry q < RT_MQ_ENTRY_MAX ->
  mq_sent m k =
    let k := store_mq m (mq_with_entry (u16 (mq_entry q + 1)) q) k in
    match susp_list k (LSusp (OMq m)) with
    | _ :: _ => let '(k, _) := rt_susp_list_dequeue (LSusp (OMq m)) RT_EOK k in Resched k (PcRet RT_EOK [])
    | [] => Done k RT_EOK []
    end.
Proof.
  intros Hm Hlt. unfold mq_sent. rewrite (get_mq_lookup _ _ q), (proj2 (Z.ltb_lt _ _)) by done.
  by rewrite (set_mq_store _ _ q).
Qed.
Lemma entry_link_tail i q : mq_entry (link_tail i q) = mq_entry q.
Proof. unfold link_tail. by repeat case_match. Qed.
Lemma entry_link_head i q : mq_entry (link_head i q) = mq_entry q.
Proof. unfold link_head. by repeat case_match. Qed.
Lemma mq_entry_max q F Q X : mq_ok q F Q X -> (0 < length F + length X)%nat -> mq_entry q < RT_MQ_ENTRY_MAX.
Proof.
  intros [Hl He] Hlt. pose proof (mq_bound _ _ _ _ Hl). pose proof (ql_max _ _ _ _ Hl). unfold RT_MQ_ENTRY_MAX. lia.
Qed.
Lemma mq_send_link_eq m i b k q F Q X :
  mqs k !! m = Some q -> mq_ok q F Q (i :: X) ->
  mq_send_link m i b k =
    let k := store_mq m (mq_enqueue i b q) k in
    match susp_list k (LSusp (OMq m)) with
    | _ :: _ => let '(k, _) := rt_susp_list_dequeue (LSusp (OMq m)) RT_EOK k in Resched k (PcRet RT_EOK [])
    | [] => Done k RT_EOK []
    end.
Proof.
  intros Hm Hok. unfold mq_send_link. rewrite (set_mq_store _ _ q) by done.
  rewrite (mq_sent_eq m _ (link_tail i (set_message i b (set_next i None q)))).
  - unfold store_mq, mq_enqueue. cbn. by rewrite insert_insert_eq.
  - unfold store_mq. cbn. apply lookup_insert_eq.
  - rewrite entry_link_tail. apply (mq_entry_max q F Q (i :: X)); [done|simpl; lia].
Qed.
Lemma mq_urgent_link_eq m i b k q F Q X :
  mqs k !! m = Some q -> mq_ok q F Q (i :: X) ->
  mq_urgent_link m i b k =
    let k := store_mq m (mq_enqueue_front i b q) k in
    match susp_list k (LSusp (OMq m)) with
    | _ :: _ => let '(k, _) := rt_susp_list_dequeue (LSusp (OMq m)) RT_EOK k in Resched k (PcRet RT_EOK [])
    | [] => Done k RT_EOK []
    end.
Proof.
  intros Hm Hok. unfold mq_urgent_link. rewrite (set_mq_store _ _ q) by done.
  rewrite (mq_sent_eq m _ (link_head i (set_message i b q))).
  - unfold store_mq, mq_enqueue_front. cbn. by rewrite insert_insert_eq.
  - unfold store_mq. cbn. apply lookup_insert_eq.
  - rewrite entry_link_head. apply (mq_entry_max q F Q (i :: X)); [done|simpl; lia].
Qed.
Lemma mq_recv_take_eq m size k q F i Q X :
  mqs k !! m = Some q -> mq_ok q F (i :: Q) X ->
  mq_recv_take m size k = Enable (store_mq m (mq_dequeue i q) k) (PcMqFree m i size).
Proof.
  intros Hm [Hl He]. pose proof (ql_head _ _ _ _ Hl) as [Hh _]. unfold mq_recv_take.
  rewrite (get_mq_lookup _ _ q), Hh, (set_mq_store _ _ q) by done. rewrite get_store_mq, set_store_mq.
  assert (E : mq_entry (pop_head i q) = mq_entry q) by (unfold pop_head; by case_decide).
  rewrite (proj2 (Z.ltb_lt _ _)) by (rewrite E, He; simpl; lia). done.
Qed.
