(* ===== verification/ThreadOps.v ===== *)
(** * Threads ([src/rt-thread/src/thread.c], the defunct list of [idle.c])

    Creation, start, delays and removal of threads.  A thread's stack and entry
    are not part of the state. *)
From S2P Require Import Prelude Queue Object Sched TimerCore Kernel Sem Timer SemTake MutexOps.

(** ** Creation *)

(** The control block of [t]: new memory, or a block that is initialised again. *)
Definition _thread_init (t : tid) (priority tick : Z) (k : kstate) : kstate * Z :=
  let k := on_ks (rt_sched_thread_init_ctx t tick priority) k in
  let k := with_taken (qset t [] (taken_object_list k)) k in
  let k := upd_thr t (with_pending None) k in
  let k := upd_thr t (with_event 0 0) k in
  let k := upd_thr t (with_error RT_EOK) k in
  let k := rt_timer_init (TmThread t) (name_of (ko k) (KThread t)) FThreadTimeout (Z.of_nat t) 0
             (Z.lor RT_TIMER_FLAG_ONE_SHOT RT_TIMER_FLAG_THREAD_TIMER) k in
  (k, RT_EOK).

(** The memory of a control block. *)
Definition thread_memory (t : tid) (th : rt_thread) (k : kstate) : kstate :=
  on_ks (fun s => with_threads (<[t := th]> (threads s)) s) k.

Definition rt_thread_init (t : tid) (name : list Z) (priority tick : Z) (k : kstate) : kstate * Z :=
  let k := on_ko (rt_object_init (KThread t) RT_Object_Class_Thread name) k in
  _thread_init t priority tick k.

(** [stack]: whether [RT_KERNEL_MALLOC] finds memory for the stack. *)
Definition rt_thread_create (alloc : option tid) (stack : bool) (name : list Z) (priority tick : Z) (k : kstate)
    : kstate * option tid :=
  let '(o, r) := rt_object_allocate (KThread <$> alloc) RT_Object_Class_Thread name (ko k) in
  let k := with_ko o k in
  match alloc with
  | None => (k, None)
  | Some t =>
      (* the block is zeroed *)
      let k := thread_memory t thread0 k in
      if stack then let '(k, _) := _thread_init t priority tick k in (k, Some t)
      else (on_ko (rt_object_delete (KThread t)) k, None)
  end.

(** ** The defunct list *)
Definition rt_thread_defunct_enqueue (t : tid) (k : kstate) : kstate :=
  on_ks (fun s => with_tlists (qpush_front LDefunct t (tlists s)) s) k.
Definition rt_thread_defunct_dequeue (k : kstate) : kstate * option tid :=
  match susp_list k LDefunct with
  | t :: _ => (on_ks (tlist_remove t) k, Some t)
  | [] => (k, None)
  end.

Section defunct.
(** [thread->cleanup], a function of the application. *)
Context (cleanup : tid -> kstate -> kstate).

(** One turn of [rt_defunct_execute]; [None]: no dead thread is left. *)
Definition defunct_turn (k : kstate) : option kstate :=
  let '(k, thread) := rt_thread_defunct_dequeue k in
  match thread with
  | None => None
  | Some t =>
      let object_is_systemobject := rt_object_is_systemobject (ko k) (KThread t) in
      let k := if object_is_systemobject then on_ko (rt_object_detach (KThread t)) k else k in
      let k := cleanup t k in
      Some (if object_is_systemobject then k else on_ko (rt_object_delete (KThread t)) k)
  end.
Fixpoint rt_defunct_execute (fuel : nat) (k : kstate) : option kstate :=
  match fuel with
  | O => None
  | S f => match defunct_turn k with
           | None => Some k
           | Some k => rt_defunct_execute f k
           end
  end.
End defunct.

(** ** Removal *)

(** The end of a thread's entry function; the thread never runs again. *)
Definition _thread_exit (k : kstate) : outcome :=
  match self k with
  | None => Done k (- RT_ERROR) []   (* only threads exit *)
  | Some thread =>
      let k := rt_spin_lock k in
      let k := on_ks (rt_sched_remove_thread thread) k in
      let '(k, _) := rt_timer_detach (TmThread thread) k in
      let k := on_ks (rt_sched_thread_close thread) k in
      let k := rt_thread_defunct_enqueue thread k in
      Resched (spin_unlock k) (PcSchedule RT_EOK)
  end.

(** A call inside a critical section: its reschedules do nothing. *)
Definition nested (f : kstate -> outcome) (k : kstate) : kstate := fst (run_atomic (f k)).

Definition _thread_detach_from_mutex (t : tid) (k : kstate) : kstate :=
  let k := match pending_object (thr k t) with
           | Some (OMutex m) =>
               if rt_object_get_type (ko k) (KIpc (OMutex m)) =? RT_Object_Class_Mutex then
                 upd_thr t (with_pending None) (nested (rt_mutex_drop_thread m t) k)
               else k
           | _ => k
           end in
  foldl (fun k m => nested (rt_mutex_release m) k) k (taken k t).

Definition _thread_detach (t : tid) (k : kstate) : outcome :=
  let k := rt_spin_lock k in
  let thread_status := rt_sched_thread_get_stat (ks k) t in
  if negb (thread_status =? RT_THREAD_CLOSE) then
    let k := if negb (thread_status =? RT_THREAD_INIT) then on_ks (rt_sched_remove_thread t) k else k in
    let '(k, _) := rt_timer_detach (TmThread t) k in
    let k := on_ks (rt_sched_thread_close t) k in
    let k := _thread_detach_from_mutex t k in
    let k := rt_thread_defunct_enqueue t k in
    Resched (spin_unlock k) (PcRet RT_EOK [])
  else Resched (spin_unlock k) (PcRet RT_EOK []).
Definition rt_thread_detach (t : tid) : kstate -> outcome := _thread_detach t.
Definition rt_thread_delete (t : tid) : kstate -> outcome := _thread_detach t.

(** ** Delays *)
Definition _thread_sleep (tick : Z) (k : kstate) : outcome :=
  if tick =? 0 then Done k (- RT_EINVAL) []
  else
    match self k with
    | None => Done k (- RT_ERROR) []   (* only called by threads *)
    | Some thread =>
        let k := upd_thr thread (with_error RT_EOK) k in
        let k := rt_spin_lock k in
        let '(k, err) := rt_thread_suspend_with_flag thread RT_INTERRUPTIBLE k in
        if err =? RT_EOK then
          let k := thread_timer_arm thread tick k in
          let k := upd_thr thread (with_error (- RT_EINTR)) k in
          let k := kschedule k in
          Resched (spin_unlock k) (PcSleep err)
        else Resched (spin_unlock k) (PcRet err [])
    end.
Definition thread_sleep_after (thread : tid) (err : Z) (k : kstate) : outcome :=
  Done (if error (thr k thread) =? - RT_ETIMEOUT then upd_thr thread (with_error RT_EOK) k else k) err [].
Definition rt_thread_delay (tick : Z) : kstate -> outcome := _thread_sleep tick.
Definition rt_thread_mdelay (ms : Z) : kstate -> outcome := _thread_sleep (rt_tick_from_millisecond ms).

(** The value left in [*tick] is the output. *)
Definition rt_thread_delay_until (tick inc_tick : Z) (k : kstate) : outcome :=
  match self k with
  | None => Done k (- RT_ERROR) []   (* only called by threads *)
  | Some thread =>
      let k := upd_thr thread (with_error RT_EOK) k in
      let k := rt_spin_lock k in
      let cur_tick := rt_tick_get (kt k) in
      if u32 (cur_tick - tick) <? inc_tick then
        let tick := u32 (tick + inc_tick) in
        let left_tick := u32 (tick - cur_tick) in
        let '(k, _) := rt_thread_suspend_with_flag thread RT_UNINTERRUPTIBLE k in
        let k := thread_timer_arm thread left_tick k in
        Resched (spin_unlock k) (PcDelayUntil tick)
      else Resched (spin_unlock k) (PcDelayUntilLate cur_tick)
  end.
(** The [rt_schedule] after the critical section, ... *)
Definition delay_until_schedule (tick : Z) (k : kstate) : outcome := Resched k (PcDelayUntilEnd tick).
(** ... the return after it, and the return after no delay. *)
Definition delay_until_end (thread : tid) (tick : Z) (k : kstate) : outcome :=
  let k := if error (thr k thread) =? - RT_ETIMEOUT then upd_thr thread (with_error RT_EOK) k else k in
  Done k (error (thr k thread)) [tick].
Definition delay_until_late (thread : tid) (tick : Z) (k : kstate) : outcome :=
  Done k (error (thr k thread)) [tick].

(** ** [rt_thread_control] *)
Definition RT_THREAD_CTRL_STARTUP : Z := 0x00.
Definition RT_THREAD_CTRL_CLOSE : Z := 0x01.
Definition RT_THREAD_CTRL_CHANGE_PRIORITY : Z := 0x02.
Definition RT_THREAD_CTRL_BIND_CPU : Z := 0x04.
(** [arg]: the value behind the argument pointer. *)
Definition rt_thread_control (t : tid) (cmd arg : Z) (k : kstate) : outcome :=
  if cmd =? RT_THREAD_CTRL_CHANGE_PRIORITY then
    Done (on_ks (rt_sched_thread_change_priority t (u8 arg)) k) RT_EOK []
  else if cmd =? RT_THREAD_CTRL_STARTUP then
    let '(k, rc) := rt_thread_startup t k in Done k rc []
  else if cmd =? RT_THREAD_CTRL_CLOSE then
    match (if rt_object_is_systemobject (ko k) (KThread t) then rt_thread_detach t k else rt_thread_delete t k) with
    | Resched k _ => Resched k (PcSchedule RT_EOK)
    | o => o
    end
  else if cmd =? RT_THREAD_CTRL_BIND_CPU then Done k (rt_sched_thread_bind_cpu t (u8 arg)) []
  else Done k RT_EOK [].

Definition rt_thread_find (k : kstate) (name : list Z) : option kobj :=
  rt_object_find (ko k) (Some name) RT_Object_Class_Thread.
Definition rt_thread_get_name (k : kstate) (t : option tid) (name_size : Z) : Z * list Z :=
  match t with
  | None => (- RT_EINVAL, [])
  | Some t => rt_object_get_name (ko k) (Some (KThread t)) name_size
  end.

Definition IDLE_THREAD_PRIORITY : Z := RT_THREAD_PRIORITY_MAX - 1.
Definition rt_thread_idle_init (t : tid) (name : list Z) (k : kstate) : kstate :=
  let '(k, _) := rt_thread_init t name IDLE_THREAD_PRIORITY 32 k in
  let '(k, _) := rt_thread_startup t k in k.
