(* ===== verification/ThreadInv.v ===== *)
(** * The thread operations keep the invariant of the kernel *)
From S2P Require Import Prelude Queue Object Sched SchedFacts TimerCore TimerFacts Kernel KernelFacts.
From S2P Require Import Sem Timer KInv IpcInv SemTake MutexOps MutexInv ThreadOps.

(** ** Ending a thread *)
Lemma swfx_link_defunct t s th :
  swfx (Some t) s -> threads s !! t = Some th -> stat_of th = RT_THREAD_CLOSE ->
  swfx None (with_tlists (qpush_front LDefunct t (tlists s)) s).
Proof.
  intros Hs Hth Hst.
  assert (Htl : forall l, tlist (with_tlists (qpush_front LDefunct t (tlists s)) s) l =
            if decide (LDefunct = l) then t :: tlist s l else tlist s l).
  { intros l. unfold tlist, qpush_front. simpl. rewrite qget_set. by case_decide; subst. }
  constructor; try done; try by apply Hs.
  - simpl. apply qwf_push_front; [apply Hs|by apply (sw_fresh _ _ Hs)].
  - intros l t'. rewrite Htl. case_decide; [subst l|by apply (sw_link _ _ Hs)].
    intros [->|Hin]%elem_of_cons; [by exists th|by apply (sw_link _ _ Hs)].
  - intros t' th' Hth' Hst' _. rewrite Htl, decide_False by done. apply (sw_ready _ _ Hs); [done..|].
    intros [= ->]. simpl in Hth'. simplify_eq. by rewrite Hst in Hst'.
  - intros p Hp. rewrite Htl, decide_False by done. by apply (sw_group _ _ Hs).
Qed.
Lemma cur_ok_close t s : cur_ok s -> cur_ok (upd_thread t (with_stat RT_THREAD_CLOSE) s).
Proof.
  intros [Hc Hr]. constructor.
  - intros t' Ht'. destruct (Hc t' Ht') as (th & Hth & H1 & H2). rewrite lookup_upd, Hth.
    case_decide; simpl; eexists; (split; [done|]); done.
  - intros t' th' (th & Hth & ->)%lookup_upd_inv Hst. case_decide; [done|]. by apply (Hr t' th).
Qed.

(** A thread taken from the scheduler, closed and put on the defunct list. *)
Definition retire (t : tid) (s : sstate) : sstate :=
  let s := rt_sched_thread_close t (rt_sched_remove_thread t s) in
  with_tlists (qpush_front LDefunct t (tlists s)) s.
Lemma swf_retire t s th :
  swf s -> threads s !! t = Some th -> stat_of th <> RT_THREAD_INIT -> swf (retire t s).
Proof.
  intros [Hs Hc] Hth Hst. unfold retire, rt_sched_thread_close.
  set (s1 := rt_sched_remove_thread t s).
  assert (Hth1 : threads s1 !! t = Some th) by (unfold s1; by rewrite threads_remove).
  assert (Hp : prio_ok th) by (by eapply (sw_prio None s)).
  split.
  - apply (swfx_link_defunct t _ (with_stat RT_THREAD_CLOSE th)); [|by apply lookup_upd_eq|done].
    apply swfx_upd_detached; [by apply (swfx_remove None _ _ th)|].
    intros th' Hth'. simplify_eq. apply prio_ok_stat; [done|]. by apply prio_ok_mask_nz.
  - apply (cur_ok_same (upd_thread t (with_stat RT_THREAD_CLOSE) s1)); [done..|]. apply cur_ok_close.
    apply (cur_ok_same s); [apply threads_remove|apply current_remove|done].
Qed.
Lemma view_retire t s t' : view (retire t s) t' =
  if decide (t = t') then (fun th => (false, sched_flag_ttmr_set th)) <$> threads s !! t' else view s t'.
Proof.
  unfold retire, rt_sched_thread_close.
  transitivity (view (upd_thread t (with_stat RT_THREAD_CLOSE) (rt_sched_remove_thread t s)) t'); [done|].
  rewrite view_upd. unfold view. rewrite threads_remove. case_decide; [|done]. by destruct (threads s !! t').
Qed.

(** The same with its timer detached. *)
Definition retire_thread (t : tid) (k : kstate) : kstate :=
  on_ks (retire t) (rt_timer_detach (TmThread t) k).1.
Lemma kwf_retire_thread t k th :
  kwf k -> threads (ks k) !! t = Some th -> stat_of th <> RT_THREAD_INIT -> kwf (retire_thread t k).
Proof.
  intros [Hs Ht Hl Hsh] Hth Hst. unfold retire_thread, rt_timer_detach.
  constructor; cbn [fst ks kt on_ks with_ks on_ko with_ko on_kt with_kt].
  - by eapply swf_retire.
  - by apply twf_timer_unlink.
  - intros t'. rewrite view_retire. unfold timer_unlink. rewrite tactive_flag_clear.
    destruct (decide (t = t')) as [<-|]; [rewrite Hth; by split; intros [=]|apply Hl].
  - intros t' Hin. apply view_is_Some in Hin. rewrite view_retire in Hin.
    assert (is_Some (threads (ks k) !! t')) as Hin'.
    { destruct (decide (t = t')); [by apply fmap_is_Some in Hin|by apply view_is_Some]. }
    destruct (Hsh t' Hin') as (tm & Htm & Hok). rewrite timers_unlink, Htm.
    destruct (decide (TmThread t = TmThread t')); [|by exists tm]. eexists. split; [done|]. by apply thread_timer_clear.
Qed.
Lemma kinv_retire_thread t k th :
  kinv k -> threads (ks k) !! t = Some th -> stat_of th <> RT_THREAD_INIT -> kinv (retire_thread t k).
Proof.
  intros Hk Hth Hst. apply (kinv_same_mutexes k); [done|eapply kwf_retire_thread; [apply Hk|done..]|done|done|].
  split.
  - unfold tmp_clear, row. simpl. rewrite qget_unlink. by intros ->.
  - intros n Hn. unfold sem_waiters, susp_list, tlist, retire_thread, retire, rt_sched_thread_close, qpush_front. simpl.
    rewrite qget_set, tlists_remove. case_decide; [done|]. rewrite qget_unlink. by apply nil_unlink.
Qed.

Lemma running_not_init k t th : kinv k -> self k = Some t -> threads (ks k) !! t = Some th -> stat_of th <> RT_THREAD_INIT.
Proof.
  intros Hk Hs Hth. destruct (co_cur _ (swf_cur _ (kw_s _ (ki_wf _ Hk))) t Hs) as (th' & Hth' & _ & Hi). by simplify_eq.
Qed.
Lemma kinv_thread_exit k : kinv k -> outcome_kinv (_thread_exit k).
Proof.
  intros Hk. unfold _thread_exit. destruct (self k) as [t|] eqn:Hs; [|done].
  destruct (self_thread _ _ (ki_wf _ Hk) Hs) as [th Hth].
  apply kinv_spin_unlock. change (kinv (retire_thread t (rt_spin_lock k))).
  eapply kinv_retire_thread; [by apply kinv_spin_lock|done|]. by eapply (running_not_init k).
Qed.

(** A thread that neither waits for nor holds a mutex. *)
Lemma kinv_thread_detach t k th :
  kinv k -> threads (ks k) !! t = Some th -> stat_of th <> RT_THREAD_INIT ->
  pending_object th = None -> taken k t = [] -> outcome_kinv (_thread_detach t k).
Proof.
  intros Hk Hth Hst Hp Htk. unfold _thread_detach. case_match; [|by apply kinv_spin_unlock, kinv_spin_lock].
  apply kinv_spin_unlock.
  assert (negb (rt_sched_thread_get_stat (ks (rt_spin_lock k)) t =? RT_THREAD_INIT) = true) as ->.
  { unfold rt_sched_thread_get_stat. rewrite (get_thread_lookup _ _ th) by done. by apply negb_true_iff, Z.eqb_neq. }
  set (k1 := on_ks (rt_sched_thread_close t) _).
  assert (_thread_detach_from_mutex t k1 = k1) as ->.
  { unfold _thread_detach_from_mutex.
    assert (pending_object (thr k1 t) = None) as ->.
    { unfold thr. rewrite (get_thread_lookup _ _ (with_stat RT_THREAD_CLOSE th)); [done|].
      unfold k1. cbn [on_ks ks with_ks]. unfold rt_sched_thread_close. apply lookup_upd_eq.
      cbn. by rewrite threads_remove. }
    change (taken k1 t) with (taken k t). by rewrite Htk. }
  change (kinv (retire_thread t (rt_spin_lock k))).
  eapply kinv_retire_thread; [by apply kinv_spin_lock|done|done].
Qed.

(** ** Suspending, resuming, starting *)
Lemma kinv_thread_suspend t sf k : kinv k -> kinv (rt_thread_suspend_with_flag t sf k).1.
Proof.
  intros Hk. unfold rt_thread_suspend_with_flag. destruct (threads (ks k) !! t) as [th|] eqn:Hth.
  - by apply kinv_suspend_on; [|eexists|].
  - unfold rt_thread_suspend_to_list, rt_sched_thread_get_stat, get_thread. by rewrite Hth.
Qed.
Lemma kinv_thread_resume t k : kinv k -> kinv (rt_thread_resume t k).1.
Proof.
  intros Hk. unfold rt_thread_resume. pose proof (kinv_thread_ready k t Hk) as H1.
  destruct (rt_sched_thread_ready t k) as [k1 e]. case_match; [by apply kinv_unlock_n_resched|done].
Qed.
#[export] Hint Resolve kinv_thread_suspend kinv_thread_resume : rt.

(** Starting a new thread whose control block was never armed: see
    [restart_after_timeout] for the other ones. *)
Lemma kinv_thread_startup t k th :
  kinv k -> threads (ks k) !! t = Some th -> stat_of th = RT_THREAD_INIT -> sched_flag_ttmr_set th = false ->
  kinv (rt_thread_startup t k).1.
Proof.
  intros Hk Hth Hst Htt. unfold rt_thread_startup. set (k1 := on_ks (rt_sched_thread_startup t) k).
  assert (Hk1 : kinv k1).
  { pose proof (ki_wf _ Hk) as [Hs Ht Hl Hsh]. apply (kinv_objs k); [done| |done|done].
    assert (Hv : forall t', view (rt_sched_thread_startup t (ks k)) t' =
              if decide (t = t') then Some (true, false) else view (ks k) t').
    { intros t'. unfold rt_sched_thread_startup. rewrite view_upd, lookup_upd. destruct (decide (t = t')) as [<-|Hne].
      - rewrite Hth. apply (f_equal Some). unfold tview, is_susp. simpl. by rewrite Htt.
      - rewrite view_upd. by rewrite decide_False. }
    constructor; cbn [k1 ks kt on_ks with_ks]; [by eapply startup_swf|done| |].
    - intros t'. rewrite Hv. case_decide; [subst t'|apply Hl]. rewrite Hl, (view_lookup _ _ th) by done.
      unfold tview. rewrite Htt. by split; intros [=].
    - intros t' Hin. apply Hsh. apply view_is_Some. rewrite <- view_is_Some in Hin. cbn [k1 ks on_ks with_ks] in Hin.
      rewrite Hv in Hin. case_decide; [subst|done]. rewrite (view_lookup _ _ th) by done. by eexists. }
  pose proof (kinv_thread_resume t k1 Hk1) as H. by destruct (rt_thread_resume t k1) as [k2 e].
Qed.

(** ** Delays *)
Lemma suspend_ok t sf k th :
  kinv k -> threads (ks k) !! t = Some th -> stat_of th = RT_THREAD_RUNNING ->
  exists k', rt_thread_suspend_with_flag t sf k = (k', RT_EOK) /\ kinv k' /\ is_susp (thr k' t) = true.
Proof.
  intros Hk Hth Hst. pose proof (kinv_thread_suspend t sf k Hk) as H. unfold rt_thread_suspend_with_flag in *.
  rewrite (suspend_to_list_kwf_eq _ _ _ _ _ th) in * by (apply Hk || tauto).
  eexists. split; [done|]. split; [exact H|]. apply is_susp_spec. unfold thr. cbn [ks with_ks].
  erewrite get_thread_lookup; [|apply lookup_upd_eq; rewrite (suspend_state_thread _ _ _ _ _ th), decide_True by done; done].
  apply (suspend_stat_spec sf th).
Qed.
Lemma suspend_eok t sf k k1 :
  kinv k -> rt_thread_suspend_with_flag t sf k = (k1, RT_EOK) -> is_susp (thr k1 t) = true.
Proof.
  intros Hk. unfold rt_thread_suspend_with_flag. destruct (threads (ks k) !! t) as [th|] eqn:Hth.
  - intros E. destruct (suspend_to_list_thread _ _ _ _ _ _ _ (ki_wf _ Hk) Hth E) as (th' & Hth' & Hsu & _).
    unfold thr. rewrite (get_thread_lookup _ _ th') by done. by apply is_susp_spec.
  - unfold rt_thread_suspend_to_list, rt_sched_thread_get_stat, get_thread. by rewrite Hth.
Qed.
Lemma kinv_thread_sleep tick k : kinv k -> outcome_kinv (_thread_sleep tick k).
Proof.
  intros Hk. unfold _thread_sleep. case_match; [done|]. destruct (self k) as [t|] eqn:Hs; [|done].
  set (k1 := rt_spin_lock _). assert (Hk1 : kinv k1) by (by apply kinv_spin_lock, kinv_upd_error).
  pose proof (kinv_thread_suspend t RT_INTERRUPTIBLE k1 Hk1) as Hk2.
  destruct (rt_thread_suspend_with_flag t RT_INTERRUPTIBLE k1) as [k2 e] eqn:E. cbn [fst] in Hk2.
  destruct (Z.eqb_spec e RT_EOK) as [->|]; [|by apply kinv_spin_unlock].
  apply kinv_spin_unlock, kinv_schedule, kinv_upd_error, kinv_thread_timer_arm; [|done].
  exact (suspend_eok _ _ _ _ Hk1 E).
Qed.
Lemma kinv_thread_sleep_after t e k : kinv k -> outcome_kinv (thread_sleep_after t e k).
Proof. intros. unfold thread_sleep_after. kinv_auto. Qed.
Lemma kinv_delay_until tick inc k t th :
  kinv k -> self k = Some t -> threads (ks k) !! t = Some th -> stat_of th = RT_THREAD_RUNNING ->
  outcome_kinv (rt_thread_delay_until tick inc k).
Proof.
  intros Hk Hs Hth Hst. unfold rt_thread_delay_until. rewrite Hs.
  set (k1 := rt_spin_lock _). assert (Hk1 : kinv k1) by (by apply kinv_spin_lock, kinv_upd_error).
  destruct (u32 (rt_tick_get (kt k1) - tick) <? inc); [|by apply kinv_spin_unlock].
  destruct (suspend_ok t RT_UNINTERRUPTIBLE k1 (with_error RT_EOK th)) as (k2 & E & Hk2 & Hsu); [done|by apply lookup_upd_eq|done|].
  rewrite E. apply kinv_spin_unlock. by apply kinv_thread_timer_arm.
Qed.
Lemma kinv_delay_until_end t tick k : kinv k -> outcome_kinv (delay_until_end t tick k).
Proof. intros. unfold delay_until_end. kinv_auto. Qed.
