(* ===== verification/CallInv.v ===== *)
(** * Every call keeps the invariant of the kernel *)
From S2P Require Import Prelude Queue Object Sched SchedFacts TimerCore TimerFacts Kernel KernelFacts Sem Timer KInv IpcInv SemTake MutexOps EventOps MailboxOps MqOps ThreadOps.

Lemma kinv_sem_release n k : kinv k -> outcome_kinv (rt_sem_release n k).
Proof.
  intros Hk. unfold rt_sem_release. destruct (susp_list k (LSusp (OSem n))) as [|t l] eqn:E.
  - case_match; [|done]. apply kinv_set_sem; [|done]. intros s _. by right.
  - kinv_auto.
Qed.
Lemma kinv_sem_control n cmd arg k : kinv k -> outcome_kinv (rt_sem_control n cmd arg k).
Proof.
  intros Hk. unfold rt_sem_control. destruct (cmd =? RT_IPC_CMD_RESET).
  { apply kinv_set_sem; [|by apply kinv_resume_all]. intros s _. right. apply resume_all_empty; [apply Hk|done]. }
  destruct (cmd =? RT_IPC_CMD_SET_VLIMIT); [|done]. case_match; [done|].
  set (r := if u16 arg <? sem_value (get_sem k n) then _ else (k, false)).
  assert (Hr : kinv r.1).
  { unfold r. case_match; [|done]. case_match; [done|]. by apply kinv_resume_all. }
  destruct r as [k1 b]. assert (Hk1 : kinv (set_sem n (with_max_value (u16 arg)) k1)).
  { apply kinv_set_sem; [|done]. intros s Hv. by left. }
  by destruct b.
Qed.
Lemma kinv_sem_detach n k : kinv k -> kinv (rt_sem_detach n k).1.
Proof. intros. unfold rt_sem_detach. simpl. eauto with rt. Qed.
Lemma kinv_sem_delete n k : kinv k -> kinv (rt_sem_delete n k).1.
Proof. intros. unfold rt_sem_delete. simpl. eauto with rt. Qed.
Lemma kinv_sem_object_init n v fl mx k : kinv k -> kinv (_sem_object_init n v fl mx k).
Proof.
  intros Hk. unfold _sem_object_init. pose proof (kinv_ipc_object_init (OSem n) k Hk) as [H1 H2 H3 H4].
  split; [by apply kwf_with_sems|done|done|]. intros n'. unfold get_sem. cbn [sems with_sems].
  destruct (decide (n = n')) as [<-|Hne].
  - intros _. unfold sem_waiters, susp_list, tlist. cbn. apply qget_set_eq.
  - rewrite lookup_insert_ne by done. apply H4.
Qed.
Lemma kinv_sem_init n name v fl k : kinv k -> kinv (rt_sem_init n name v fl k).1.
Proof. intros. unfold rt_sem_init. apply kinv_sem_object_init. eauto with rt. Qed.
Lemma kinv_sem_create al name v fl k : kinv k -> kinv (rt_sem_create al name v fl k).1.
Proof.
  intros. unfold rt_sem_create. destruct (rt_object_allocate _ _ _ _) as [o r].
  destruct al; simpl; [apply kinv_sem_object_init|]; eauto with rt.
Qed.
Lemma kinv_sem_take n timeout sf k : kinv k -> outcome_kinv (_rt_sem_take n timeout sf k).
Proof.
  intros Hk. unfold _rt_sem_take. destruct (0 <? sem_value (get_sem k n)) eqn:Hv.
  - apply kinv_set_sem; [|done]. intros s _. right. apply (ki_sem _ Hk). by apply Z.ltb_lt.
  - kinv_auto.
Qed.
Lemma kinv_sem_take_after t k : kinv k -> outcome_kinv (sem_take_after t k).
Proof. intros. unfold sem_take_after. kinv_auto. Qed.

(** ** Event sets *)
Lemma kinv_set_event e f k : kinv k -> kinv (set_event e f k).
Proof. intros H. by destruct H; split; [apply (kwf_other k)|..]. Qed.
Lemma kinv_set_mb m f k : kinv k -> kinv (set_mb m f k).
Proof. intros H. by destruct H; split; [apply (kwf_other k)|..]. Qed.
Lemma kinv_set_mq m f k : kinv k -> kinv (set_mq m f k).
Proof. intros H. by destruct H; split; [apply (kwf_other k)|..]. Qed.
#[export] Hint Resolve kinv_set_event kinv_set_mb kinv_set_mq : rt.

Lemma kinv_event_scan e l : forall c b k, kinv k ->
  match event_scan e l c b k with inl k' => kinv k' | inr (k', _, _) => kinv k' end.
Proof.
  induction l as [|t l IH]; intros c b k Hk; simpl; [done|].
  destruct (event_match _ _) as [[[] set]|]; [|by apply IH|done].
  match goal with |- context [rt_sched_thread_ready t ?x] =>
    pose proof (kinv_thread_ready x t) as H; destruct (rt_sched_thread_ready t x) as [k1 e1] end.
  apply IH. eauto with rt.
Qed.
Lemma kinv_event_send e set k : kinv k -> outcome_kinv (rt_event_send e set k).
Proof.
  intros Hk. unfold rt_event_send. case_match; [done|].
  match goal with |- context [event_scan e ?l ?c ?b ?x] =>
    pose proof (kinv_event_scan e l c b x) as H1; destruct (event_scan e l c b x) as [k1|[[k1 c1] b1]] end.
  - apply H1. eauto with rt.
  - assert (kinv k1) by (apply H1; eauto with rt). kinv_auto.
Qed.
Lemma kinv_event_recv e set opt timeout sf k : kinv k -> outcome_kinv (_rt_event_recv e set opt timeout sf k).
Proof. intros. unfold _rt_event_recv. kinv_auto. Qed.
Lemma kinv_event_recv_after t k : kinv k -> outcome_kinv (event_recv_after t k).
Proof. intros. unfold event_recv_after. kinv_auto. Qed.
Lemma kinv_event_control e cmd arg k : kinv k -> outcome_kinv (rt_event_control e cmd arg k).
Proof. intros. unfold rt_event_control. kinv_auto. Qed.
Lemma kinv_event_delete e k : kinv k -> outcome_kinv (rt_event_delete e k).
Proof. intros. unfold rt_event_delete. kinv_auto. Qed.

(** ** Mailboxes *)
Lemma kinv_mb_resume_all m k : kinv k -> kinv (mb_resume_all m k).
Proof. intros. unfold mb_resume_all. eauto with rt. Qed.
#[export] Hint Resolve kinv_mb_resume_all : rt.
Lemma kinv_mb_send_put m v k : kinv k -> outcome_kinv (mb_send_put m v k).
Proof. intros. unfold mb_send_put. kinv_auto. Qed.
#[export] Hint Resolve kinv_mb_send_put : rt.
Lemma kinv_mb_send_loop m v timeout d sf k : kinv k -> outcome_kinv (mb_send_loop m v timeout d sf k).
Proof. intros. unfold mb_send_loop. kinv_auto. Qed.
#[export] Hint Resolve kinv_mb_send_loop : rt.
Lemma kinv_mb_send_wait m v timeout sf k : kinv k -> outcome_kinv (_rt_mb_send_wait m v timeout sf k).
Proof. intros. unfold _rt_mb_send_wait. kinv_auto. Qed.
Lemma kinv_mb_send_after t m v timeout d sf k : kinv k -> outcome_kinv (mb_send_after t m v timeout d sf k).
Proof. intros. unfold mb_send_after. kinv_auto. Qed.
Lemma kinv_mb_urgent m v k : kinv k -> outcome_kinv (rt_mb_urgent m v k).
Proof. intros. unfold rt_mb_urgent. kinv_auto. Qed.
Lemma kinv_mb_recv_get m k : kinv k -> outcome_kinv (mb_recv_get m k).
Proof. intros. unfold mb_recv_get. kinv_auto. Qed.
#[export] Hint Resolve kinv_mb_recv_get : rt.
Lemma kinv_mb_recv_loop m timeout d sf k : kinv k -> outcome_kinv (mb_recv_loop m timeout d sf k).
Proof. intros. unfold mb_recv_loop. kinv_auto. Qed.
#[export] Hint Resolve kinv_mb_recv_loop : rt.
Lemma kinv_mb_recv m timeout sf k : kinv k -> outcome_kinv (_rt_mb_recv m timeout sf k).
Proof. intros. unfold _rt_mb_recv. kinv_auto. Qed.
Lemma kinv_mb_recv_after t m timeout d sf k : kinv k -> outcome_kinv (mb_recv_after t m timeout d sf k).
Proof. intros. unfold mb_recv_after. kinv_auto. Qed.
Lemma kinv_mb_control m cmd arg k : kinv k -> outcome_kinv (rt_mb_control m cmd arg k).
Proof. intros. unfold rt_mb_control. kinv_auto. Qed.

(** ** Message queues *)
Lemma kinv_mq_resume_all m k : kinv k -> kinv (mq_resume_all m k).
Proof. intros. unfold mq_resume_all. eauto with rt. Qed.
#[export] Hint Resolve kinv_mq_resume_all : rt.
Lemma kinv_mq_sent m k : kinv k -> outcome_kinv (mq_sent m k).
Proof. intros. unfold mq_sent. kinv_auto. Qed.
#[export] Hint Resolve kinv_mq_sent : rt.
Lemma kinv_mq_send_link m i b k : kinv k -> outcome_kinv (mq_send_link m i b k).
Proof. intros. unfold mq_send_link. eauto with rt. Qed.
Lemma kinv_mq_urgent_link m i b k : kinv k -> outcome_kinv (mq_urgent_link m i b k).
Proof. intros. unfold mq_urgent_link. eauto with rt. Qed.
Lemma kinv_mq_send_loop m b timeout d sf k : kinv k -> outcome_kinv (mq_send_loop m b timeout d sf k).
Proof. intros. unfold mq_send_loop. kinv_auto. Qed.
#[export] Hint Resolve kinv_mq_send_loop : rt.
Lemma kinv_mq_send_wait m b timeout sf k : kinv k -> outcome_kinv (_rt_mq_send_wait m b timeout sf k).
Proof. intros. unfold _rt_mq_send_wait. kinv_auto. Qed.
Lemma kinv_mq_send_after t m b timeout d sf k : kinv k -> outcome_kinv (mq_send_after t m b timeout d sf k).
Proof. intros. unfold mq_send_after. kinv_auto. Qed.
Lemma kinv_mq_urgent m b k : kinv k -> outcome_kinv (rt_mq_urgent m b k).
Proof. intros. unfold rt_mq_urgent. kinv_auto. Qed.
Lemma kinv_mq_recv_take m size k : kinv k -> outcome_kinv (mq_recv_take m size k).
Proof. intros. unfold mq_recv_take. kinv_auto. Qed.
Lemma kinv_mq_recv_free m i size k : kinv k -> outcome_kinv (mq_recv_free m i size k).
Proof. intros. unfold mq_recv_free. kinv_auto. Qed.
#[export] Hint Resolve kinv_mq_recv_take : rt.
Lemma kinv_mq_recv_loop m size timeout d sf k : kinv k -> outcome_kinv (mq_recv_loop m size timeout d sf k).
Proof. intros. unfold mq_recv_loop. kinv_auto. Qed.
#[export] Hint Resolve kinv_mq_recv_loop : rt.
Lemma kinv_mq_recv m size timeout sf k : kinv k -> outcome_kinv (_rt_mq_recv m size timeout sf k).
Proof. intros. unfold _rt_mq_recv. kinv_auto. Qed.
Lemma kinv_mq_recv_after t m size timeout d sf k : kinv k -> outcome_kinv (mq_recv_after t m size timeout d sf k).
Proof. intros. unfold mq_recv_after. kinv_auto. Qed.
Lemma kinv_mq_control m cmd arg k : kinv k -> outcome_kinv (rt_mq_control m cmd arg k).
Proof. intros. unfold rt_mq_control. kinv_auto. Qed.
