(* ===== verification/BoxFrame.v ===== *)
(** * What leaves the mailboxes and message queues alone

    Every call that is not of a mailbox or a message queue, the scheduler and the
    tick.  [boxes] is the part of the state they keep. *)
From S2P Require Import Prelude Queue Object Sched TimerCore Kernel Sem Timer IpcInv SemTake MutexOps EventOps.
From S2P Require Import MailboxOps MqOps ThreadOps.

Definition boxes (k : kstate) := (mbs k, mqs k).

(** ** The proofs

    [frame] follows the code of the goal [boxes (f k) = boxes k]: it splits on
    the conditions, turns the equations of pairs into facts on [boxes] and
    rewrites with the lemmas of the database. *)
Create HintDb boxes.
Lemma boxes_on_ks f k : boxes (on_ks f k) = boxes k.
Proof. done. Qed.
Lemma boxes_on_kt f k : boxes (on_kt f k) = boxes k.
Proof. done. Qed.
Lemma boxes_on_ko f k : boxes (on_ko f k) = boxes k.
Proof. done. Qed.
Lemma boxes_with_ks v k : boxes (with_ks v k) = boxes k.
Proof. done. Qed.
Lemma boxes_with_kt v k : boxes (with_kt v k) = boxes k.
Proof. done. Qed.
Lemma boxes_with_ko v k : boxes (with_ko v k) = boxes k.
Proof. done. Qed.
Lemma boxes_with_sems v k : boxes (with_sems v k) = boxes k.
Proof. done. Qed.
Lemma boxes_with_mutexes v k : boxes (with_mutexes v k) = boxes k.
Proof. done. Qed.
Lemma boxes_with_taken v k : boxes (with_taken v k) = boxes k.
Proof. done. Qed.
Lemma boxes_with_events v k : boxes (with_events v k) = boxes k.
Proof. done. Qed.
Lemma boxes_upd_thr t f k : boxes (upd_thr t f k) = boxes k.
Proof. done. Qed.
Lemma boxes_set_sem n f k : boxes (set_sem n f k) = boxes k.
Proof. done. Qed.
Lemma boxes_set_mutex n f k : boxes (set_mutex n f k) = boxes k.
Proof. done. Qed.
Lemma boxes_set_event n f k : boxes (set_event n f k) = boxes k.
Proof. done. Qed.
Lemma boxes_schedule k : boxes (kschedule k) = boxes k.
Proof. done. Qed.
Lemma boxes_spin_lock k : boxes (rt_spin_lock k) = boxes k.
Proof. done. Qed.
Lemma boxes_spin_unlock k : boxes (spin_unlock k) = boxes k.
Proof. done. Qed.
Lemma boxes_taken_remove m k : boxes (taken_remove m k) = boxes k.
Proof. done. Qed.
Lemma boxes_taken_insert t m k : boxes (taken_insert t m k) = boxes k.
Proof. done. Qed.
Lemma boxes_ipc_object_init o k : boxes (_ipc_object_init o k) = boxes k.
Proof. done. Qed.
#[export] Hint Rewrite boxes_on_ks boxes_on_kt boxes_on_ko boxes_with_ks boxes_with_kt boxes_with_ko boxes_with_sems
  boxes_with_mutexes boxes_with_taken boxes_with_events boxes_upd_thr boxes_set_sem boxes_set_mutex boxes_set_event
  boxes_schedule boxes_spin_lock boxes_spin_unlock boxes_taken_remove boxes_taken_insert boxes_ipc_object_init : boxes.

Ltac frame_pair E := apply (f_equal (fun r => boxes r.1)) in E; cbn [fst] in E; autorewrite with boxes in E.
Ltac frame_split x :=
  lazymatch type of x with
  | prod kstate _ => let E := fresh "E" in destruct x as [? ?] eqn:E; frame_pair E
  | _ => destruct x eqn:?
  end.
Ltac frame_step :=
  cbn [outcome_state fst]; autorewrite with boxes;
  lazymatch goal with
  | |- ?x = ?x => reflexivity
  | |- boxes (outcome_state (match ?x with _ => _ end)) = _ => frame_split x
  | |- boxes (fst (match ?x with _ => _ end)) = _ => frame_split x
  | |- boxes (match ?x with _ => _ end) = _ => frame_split x
  | H : boxes (fst (match ?x with _ => _ end)) = _ |- _ => frame_split x; cbn [fst] in H; autorewrite with boxes in H
  | H : boxes (match ?x with _ => _ end) = _ |- _ => frame_split x; autorewrite with boxes in H
  | _ => congruence
  end.
Ltac frame := repeat frame_step.

(** ** The scheduler and the suspend lists *)
Lemma boxes_thread_timer_stop t k : boxes (rt_sched_thread_timer_stop t k).1 = boxes k.
Proof. unfold rt_sched_thread_timer_stop. frame. Qed.
#[export] Hint Rewrite boxes_thread_timer_stop : boxes.
Lemma boxes_of_objs k k' : objs k' = objs k -> boxes k' = boxes k.
Proof. unfold objs, boxes. by intros [= _ _ _ _ _ -> ->]. Qed.
Lemma boxes_thread_ready t k : boxes (rt_sched_thread_ready t k).1 = boxes k.
Proof. apply boxes_of_objs, objs_thread_ready. Qed.
Lemma boxes_dequeue l e k : boxes (rt_susp_list_dequeue l e k).1 = boxes k.
Proof. apply boxes_of_objs, objs_dequeue. Qed.
Lemma boxes_resume_all l e k : boxes (rt_susp_list_resume_all l e k) = boxes k.
Proof. apply boxes_of_objs, objs_resume_all. Qed.
Lemma boxes_enqueue l t fl k : boxes (rt_susp_list_enqueue l t fl k) = boxes k.
Proof. apply boxes_of_objs, objs_enqueue. Qed.
Lemma boxes_suspend_to_list t l fl sf k : boxes (rt_thread_suspend_to_list t l fl sf k).1 = boxes k.
Proof. apply boxes_of_objs, objs_suspend_to_list. Qed.
#[export] Hint Rewrite boxes_thread_ready boxes_dequeue boxes_resume_all boxes_enqueue boxes_suspend_to_list : boxes.
Lemma boxes_suspend_with_flag t sf k : boxes (rt_thread_suspend_with_flag t sf k).1 = boxes k.
Proof. apply boxes_suspend_to_list. Qed.
Lemma boxes_thread_resume t k : boxes (rt_thread_resume t k).1 = boxes k.
Proof. unfold rt_thread_resume. frame. Qed.
#[export] Hint Rewrite boxes_suspend_with_flag boxes_thread_resume : boxes.
Lemma boxes_thread_startup t k : boxes (rt_thread_startup t k).1 = boxes k.
Proof. unfold rt_thread_startup. frame. Qed.
#[export] Hint Rewrite boxes_thread_startup : boxes.
Lemma boxes_thread_timeout t k : boxes (_thread_timeout t k) = boxes k.
Proof. done. Qed.

(** ** Semaphores and timers *)
Lemma boxes_run_atomic o : boxes (run_atomic o).1 = boxes (outcome_state o).
Proof. by destruct o as [| ? [] |]. Qed.
Lemma boxes_sem_release n k : boxes (outcome_state (rt_sem_release n k)) = boxes k.
Proof. unfold rt_sem_release. frame. Qed.
#[export] Hint Rewrite boxes_run_atomic boxes_sem_release : boxes.
Lemma boxes_timer_start t k : boxes (rt_timer_start t k).1 = boxes k.
Proof.
  unfold rt_timer_start. destruct (_timer_start _ t _) as [ts err]. cbn [fst].
  case_match; case_match; try destruct t; frame.
Qed.
#[export] Hint Rewrite boxes_timer_start : boxes.
Lemma boxes_thread_timer_arm t timeout k : boxes (thread_timer_arm t timeout k) = boxes k.
Proof. unfold thread_timer_arm. frame. Qed.
#[export] Hint Rewrite boxes_thread_timer_arm : boxes.
Lemma boxes_wait_on t l fl timeout sf k : boxes (wait_on t l fl timeout sf k).1 = boxes k.
Proof. unfold wait_on. frame. Qed.
#[export] Hint Rewrite boxes_wait_on : boxes.
Lemma boxes_sem_take n timeout sf k : boxes (outcome_state (_rt_sem_take n timeout sf k)) = boxes k.
Proof. unfold _rt_sem_take. frame. Qed.
Lemma boxes_sem_take_after t k : boxes (outcome_state (sem_take_after t k)) = boxes k.
Proof. unfold sem_take_after. frame. Qed.
Lemma boxes_sem_init n name v fl k : boxes (rt_sem_init n name v fl k).1 = boxes k.
Proof. done. Qed.
Lemma boxes_sem_detach n k : boxes (rt_sem_detach n k).1 = boxes k.
Proof. unfold rt_sem_detach. frame. Qed.
Lemma boxes_sem_control n cmd arg k : boxes (outcome_state (rt_sem_control n cmd arg k)) = boxes k.
Proof. unfold rt_sem_control. frame. Qed.
#[export] Hint Rewrite boxes_sem_take boxes_sem_take_after boxes_sem_init boxes_sem_detach boxes_sem_control : boxes.

(** ** Mutexes *)
Lemma boxes_mutex_update_priority m k : boxes (_mutex_update_priority m k) = boxes k.
Proof. unfold _mutex_update_priority. frame. Qed.
#[export] Hint Rewrite boxes_mutex_update_priority : boxes.
Lemma boxes_update_priority_loop fuel : forall t k, boxes (update_priority_loop fuel t k) = boxes k.
Proof. induction fuel as [|f IH]; intros t k; [done|]. simpl. repeat (frame_step || rewrite IH). Qed.
Lemma boxes_thread_update_priority t p k : boxes (_thread_update_priority t p k) = boxes k.
Proof. unfold _thread_update_priority. by rewrite boxes_update_priority_loop. Qed.
#[export] Hint Rewrite boxes_thread_update_priority : boxes.
Lemma boxes_check_and_update_prio t m k : boxes (_check_and_update_prio t m k).1 = boxes k.
Proof. unfold _check_and_update_prio. frame. Qed.
Lemma boxes_waiter_left t m k : boxes (waiter_left t m k) = boxes k.
Proof. unfold waiter_left. frame. Qed.
#[export] Hint Rewrite boxes_check_and_update_prio boxes_waiter_left : boxes.
Lemma boxes_mutex_before_delete_detach m k : boxes (_mutex_before_delete_detach m k) = boxes k.
Proof. unfold _mutex_before_delete_detach. frame. Qed.
Lemma boxes_mutex_drop_thread m t k : boxes (outcome_state (rt_mutex_drop_thread m t k)) = boxes k.
Proof. unfold rt_mutex_drop_thread. frame. Qed.
Lemma boxes_set_errno e k : boxes (rt_set_errno e k) = boxes k.
Proof. unfold rt_set_errno. frame. Qed.
#[export] Hint Rewrite boxes_mutex_before_delete_detach boxes_mutex_drop_thread boxes_set_errno : boxes.
Lemma boxes_mutex_setprioceiling m p k : boxes (outcome_state (rt_mutex_setprioceiling m p k)) = boxes k.
Proof. unfold rt_mutex_setprioceiling. frame. Qed.
Lemma boxes_mutex_take m timeout sf k : boxes (outcome_state (_rt_mutex_take m timeout sf k)) = boxes k.
Proof. unfold _rt_mutex_take. frame. Qed.
Lemma boxes_mutex_take_after t m k : boxes (outcome_state (mutex_take_after t m k)) = boxes k.
Proof. unfold mutex_take_after. frame. Qed.
Lemma boxes_release_loop fuel : forall m k, boxes (release_loop fuel m k).1 = boxes k.
Proof. induction fuel as [|f IH]; intros m k; [done|]. simpl. repeat (frame_step || rewrite IH). Qed.
#[export] Hint Rewrite boxes_mutex_setprioceiling boxes_mutex_take boxes_mutex_take_after boxes_release_loop : boxes.
Lemma boxes_mutex_handover m k : boxes (mutex_handover m k).1 = boxes k.
Proof. unfold mutex_handover. frame. Qed.
#[export] Hint Rewrite boxes_mutex_handover : boxes.
Lemma boxes_mutex_release m k : boxes (outcome_state (rt_mutex_release m k)) = boxes k.
Proof. unfold rt_mutex_release. frame. Qed.
#[export] Hint Rewrite boxes_mutex_release : boxes.

(** ** Events *)
Lemma boxes_event_scan e l : forall c b k,
  match event_scan e l c b k with inl k' => boxes k' | inr (k', _, _) => boxes k' end = boxes k.
Proof.
  induction l as [|t l IH]; intros c b k; simpl; [done|].
  destruct (event_match _ _) as [[[] set]|]; [|by apply IH|done].
  match goal with |- context [rt_sched_thread_ready t ?x] =>
    pose proof (boxes_thread_ready t x) as H; destruct (rt_sched_thread_ready t x) as [k1 e1] end.
  by rewrite IH.
Qed.
Lemma boxes_event_send e set k : boxes (outcome_state (rt_event_send e set k)) = boxes k.
Proof.
  unfold rt_event_send. case_match; [done|].
  match goal with |- context [event_scan e ?l ?c ?b ?x] =>
    pose proof (boxes_event_scan e l c b x) as H1; destruct (event_scan e l c b x) as [k1|[[k1 c1] b1]] end; autorewrite with boxes in H1; frame.
Qed.
Lemma boxes_event_recv e set opt timeout sf k : boxes (outcome_state (_rt_event_recv e set opt timeout sf k)) = boxes k.
Proof. unfold _rt_event_recv. frame. Qed.
Lemma boxes_event_recv_after t k : boxes (outcome_state (event_recv_after t k)) = boxes k.
Proof. unfold event_recv_after. frame. Qed.
Lemma boxes_event_control e cmd arg k : boxes (outcome_state (rt_event_control e cmd arg k)) = boxes k.
Proof. unfold rt_event_control. frame. Qed.
Lemma boxes_event_delete e k : boxes (outcome_state (rt_event_delete e k)) = boxes k.
Proof. unfold rt_event_delete. frame. Qed.
#[export] Hint Rewrite boxes_event_send boxes_event_recv boxes_event_recv_after boxes_event_control boxes_event_delete : boxes.

(** ** Threads *)
Lemma boxes_thread_sleep tick k : boxes (outcome_state (_thread_sleep tick k)) = boxes k.
Proof. unfold _thread_sleep. frame. Qed.
Lemma boxes_thread_sleep_after t e k : boxes (outcome_state (thread_sleep_after t e k)) = boxes k.
Proof. unfold thread_sleep_after. frame. Qed.
Lemma boxes_delay_until tick inc k : boxes (outcome_state (rt_thread_delay_until tick inc k)) = boxes k.
Proof. unfold rt_thread_delay_until. frame. Qed.
Lemma boxes_delay_until_end t tick k : boxes (outcome_state (delay_until_end t tick k)) = boxes k.
Proof. unfold delay_until_end. frame. Qed.
Lemma boxes_timer_detach t k : boxes (rt_timer_detach t k).1 = boxes k.
Proof. done. Qed.
Lemma boxes_defunct_enqueue t k : boxes (rt_thread_defunct_enqueue t k) = boxes k.
Proof. done. Qed.
#[export] Hint Rewrite boxes_timer_detach boxes_defunct_enqueue : boxes.
Lemma boxes_thread_exit k : boxes (outcome_state (_thread_exit k)) = boxes k.
Proof. unfold _thread_exit. frame. Qed.
Lemma boxes_detach_from_mutex t k : boxes (_thread_detach_from_mutex t k) = boxes k.
Proof.
  unfold _thread_detach_from_mutex. set (k1 := match pending_object (thr k t) with Some _ => _ | None => _ end).
  assert (E : boxes k1 = boxes k) by (unfold k1, nested; frame). generalize (taken k1 t) as l. revert E.
  generalize k1 as k2. clear k1. intros k2 E l. revert k2 E.
  induction l as [|m l IH]; intros k2 E; simpl; [done|]. apply IH. unfold nested. by autorewrite with boxes.
Qed.
#[export] Hint Rewrite boxes_thread_sleep boxes_thread_sleep_after boxes_delay_until boxes_delay_until_end boxes_thread_exit
  boxes_detach_from_mutex : boxes.
Lemma boxes_thread_detach t k : boxes (outcome_state (_thread_detach t k)) = boxes k.
Proof. unfold _thread_detach. frame. Qed.
Lemma boxes_thread_control t cmd arg k : boxes (outcome_state (rt_thread_control t cmd arg k)) = boxes k.
Proof.
  unfold rt_thread_control, rt_thread_detach, rt_thread_delete. pose proof (boxes_thread_detach t k) as H.
  assert (E : forall b : bool, (if b then _thread_detach t k else _thread_detach t k) = _thread_detach t k) by (by intros []).
  rewrite E. destruct (_thread_detach t k); cbn [outcome_state] in H; frame.
Qed.
#[export] Hint Rewrite boxes_thread_detach boxes_thread_control : boxes.
