(* ===== verification/BoxInv.v ===== *)
(** * The invariant of mailboxes and message queues

    Every mailbox is a well-formed circular buffer; the slots of every message
    queue are divided into free, queued and in flight.  The slots in flight are
    those named by the labels the calls stand at. *)
From S2P Require Import Prelude Ring Queue Object Sched TimerCore Kernel Sem Timer IpcInv SemTake MutexOps EventOps.
From S2P Require Import MailboxOps MbFacts MqOps MqFacts ThreadOps BoxFrame.

Definition pc_slots (p : pc) (m : nat) : list nat :=
  match p with
  | PcMqLink m' i _ | PcMqUrgent m' i _ | PcMqFree m' i _ => if decide (m = m') then [i] else []
  | _ => []
  end.
Definition outcome_slots (o : outcome) (m : nat) : list nat :=
  match o with Done _ _ _ => [] | Resched _ p | Enable _ p => pc_slots p m end.
Definition boxes_ok (X : nat -> list nat) (k : kstate) : Prop :=
  (forall m mb, mbs k !! m = Some mb -> mb_ok mb) /\
  (forall m q, mqs k !! m = Some q -> exists F Q, mq_ok q F Q (X m)).
(** What a call does with [X] in flight elsewhere. *)
Definition outcome_boxes (X : nat -> list nat) (o : outcome) : Prop :=
  boxes_ok (fun m => outcome_slots o m ++ X m) (outcome_state o).

Lemma boxes_ok_same X k k' : boxes k' = boxes k -> boxes_ok X k -> boxes_ok X k'.
Proof. unfold boxes, boxes_ok. by intros [= -> ->]. Qed.
Lemma boxes_ok_perm X Y k : (forall m, X m ≡ₚ Y m) -> boxes_ok X k -> boxes_ok Y k.
Proof.
  intros HX [H1 H2]. split; [done|]. intros m q Hq. destruct (H2 m q Hq) as (F & Q & H). exists F, Q.
  by apply (mq_ok_perm q F Q (X m)).
Qed.
Lemma outcome_boxes_same X o k :
  boxes (outcome_state o) = boxes k -> (forall m, outcome_slots o m = []) -> boxes_ok X k -> outcome_boxes X o.
Proof.
  intros E Hs Hk. unfold outcome_boxes. apply (boxes_ok_same _ k); [done|].
  eapply boxes_ok_perm; [|exact Hk]. intros m. by rewrite Hs.
Qed.

(** ** Mailboxes *)
Lemma boxes_ok_set_mb X m f k :
  (forall mb, mbs k !! m = Some mb -> mb_ok (f mb)) -> boxes_ok X k -> boxes_ok X (set_mb m f k).
Proof.
  intros Hf [H1 H2]. split; [|exact H2]. intros m' mb'. unfold set_mb. cbn. rewrite lookup_alter.
  case_decide; [subst m'|apply H1]. destruct (mbs k !! m) as [mb|] eqn:Hm; [|done]. intros [= <-]. by apply Hf.
Qed.
Lemma set_mb_none m f k : mbs k !! m = None -> set_mb m f k = k.
Proof. intros H. unfold set_mb. rewrite alter_id; [by destruct k|by rewrite H]. Qed.
Ltac boxes_leaf :=
  match goal with
  | |- boxes_ok ?X ?k => assumption
  | E : _ = boxes ?k |- boxes_ok ?X ?k => apply (boxes_ok_same X _ k (eq_sym E))
  | |- boxes_ok ?X (upd_thr ?t ?f ?k) => change (boxes_ok X k)
  | |- boxes_ok ?X (rt_susp_list_resume_all ?l ?e ?k) => apply (boxes_ok_same X k); [apply boxes_resume_all|]
  | |- boxes_ok ?X (spin_unlock ?k) => change (boxes_ok X k)
  | |- boxes_ok ?X (rt_spin_lock ?k) => change (boxes_ok X k)
  end.
Ltac boxes_step :=
  lazymatch goal with
  | |- outcome_boxes _ (match ?x with _ => _ end) => frame_split x
  | |- outcome_boxes ?X (Done ?k _ _) => change (boxes_ok X k); repeat boxes_leaf
  | |- outcome_boxes ?X (Resched ?k (PcRet _ _)) => change (boxes_ok X k); repeat boxes_leaf
  | |- outcome_boxes ?X (Resched ?k (PcMbSend _ _ _ _ _)) => change (boxes_ok X k); repeat boxes_leaf
  | |- outcome_boxes ?X (Resched ?k (PcMbRecv _ _ _ _)) => change (boxes_ok X k); repeat boxes_leaf
  | |- outcome_boxes ?X (Resched ?k (PcMbDelete _)) => change (boxes_ok X k); repeat boxes_leaf
  | |- outcome_boxes ?X (Resched ?k (PcMqSend _ _ _ _ _)) => change (boxes_ok X k); repeat boxes_leaf
  | |- outcome_boxes ?X (Resched ?k (PcMqRecv _ _ _ _ _)) => change (boxes_ok X k); repeat boxes_leaf
  | |- outcome_boxes ?X (Resched ?k (PcMqDelete _)) => change (boxes_ok X k); repeat boxes_leaf
  end.
Ltac boxes_auto := repeat boxes_step.

Section mailboxes.
Context (X : nat -> list nat).

Lemma boxes_mb_send_put m v k :
  mb_entry (get_mb k m) <> mb_size (get_mb k m) -> boxes_ok X k -> outcome_boxes X (mb_send_put m v k).
Proof.
  intros Hne Hk. destruct (mbs k !! m) as [mb|] eqn:Hm.
  - assert (Hok : mb_ok mb) by (by eapply Hk). rewrite (get_mb_lookup _ _ mb) in Hne by done.
    assert (Hlt : mb_entry mb < mb_size mb) by (destruct Hok; lia).
    rewrite (mb_send_put_eq m v k mb) by done. cbv zeta.
    assert (H1 : boxes_ok X (store_mb m (mb_append v mb) k)).
    { rewrite <- (set_mb_store k m mb (mb_append v)) by done. apply boxes_ok_set_mb; [|done].
      intros mb'. rewrite Hm. intros [= <-]. by apply mb_append_ok. }
    boxes_auto.
  - unfold mb_send_put. rewrite !(set_mb_none m) by done. boxes_auto.
Qed.
Lemma boxes_mb_send_loop m v timeout d sf k : boxes_ok X k -> outcome_boxes X (mb_send_loop m v timeout d sf k).
Proof.
  intros Hk. unfold mb_send_loop. destruct (Z.eqb_spec (mb_entry (get_mb k m)) (mb_size (get_mb k m))) as [|Hne].
  - boxes_auto.
  - by apply boxes_mb_send_put.
Qed.
Lemma boxes_mb_send_wait m v timeout sf k : boxes_ok X k -> outcome_boxes X (_rt_mb_send_wait m v timeout sf k).
Proof. intros Hk. unfold _rt_mb_send_wait. boxes_step; [boxes_auto|by apply boxes_mb_send_loop]. Qed.
Lemma boxes_mb_send_after t m v timeout d sf k : boxes_ok X k -> outcome_boxes X (mb_send_after t m v timeout d sf k).
Proof. intros Hk. unfold mb_send_after. boxes_step; [boxes_auto|by apply boxes_mb_send_loop]. Qed.
Lemma boxes_mb_urgent m v k : boxes_ok X k -> outcome_boxes X (rt_mb_urgent m v k).
Proof.
  intros Hk. unfold rt_mb_urgent. destruct (Z.eqb_spec (mb_entry (get_mb k m)) (mb_size (get_mb k m))) as [|Hne]; [boxes_auto|].
  assert (H1 : boxes_ok X (set_mb m (mb_put_front v) k)).
  { apply boxes_ok_set_mb; [|done]. intros mb Hm. assert (Hok : mb_ok mb) by (by eapply Hk).
    rewrite (get_mb_lookup _ _ mb) in Hne by done. apply mb_put_front_ok; [done|]. destruct Hok; lia. }
  cbv zeta. boxes_auto.
Qed.
Lemma boxes_mb_recv_get m k :
  mb_entry (get_mb k m) <> 0 -> boxes_ok X k -> outcome_boxes X (mb_recv_get m k).
Proof.
  intros Hne Hk. assert (H1 : boxes_ok X (set_mb m mb_get k)).
  { apply boxes_ok_set_mb; [|done]. intros mb Hm. assert (Hok : mb_ok mb) by (by eapply Hk).
    rewrite (get_mb_lookup _ _ mb) in Hne by done. apply mb_get_ok; [done|]. destruct Hok; lia. }
  unfold mb_recv_get. cbv zeta. boxes_auto.
Qed.
Lemma boxes_mb_recv_loop m timeout d sf k : boxes_ok X k -> outcome_boxes X (mb_recv_loop m timeout d sf k).
Proof.
  intros Hk. unfold mb_recv_loop. destruct (Z.eqb_spec (mb_entry (get_mb k m)) 0) as [|Hne].
  - boxes_auto.
  - by apply boxes_mb_recv_get.
Qed.
Lemma boxes_mb_recv m timeout sf k : boxes_ok X k -> outcome_boxes X (_rt_mb_recv m timeout sf k).
Proof. intros Hk. unfold _rt_mb_recv. boxes_step; [boxes_auto|by apply boxes_mb_recv_loop]. Qed.
Lemma boxes_mb_recv_after t m timeout d sf k : boxes_ok X k -> outcome_boxes X (mb_recv_after t m timeout d sf k).
Proof. intros Hk. unfold mb_recv_after. boxes_step; [boxes_auto|by apply boxes_mb_recv_loop]. Qed.
Lemma boxes_mb_resume_all m k : boxes (mb_resume_all m k) = boxes k.
Proof. unfold mb_resume_all. frame. Qed.
Lemma boxes_mb_control m cmd arg k : boxes_ok X k -> outcome_boxes X (rt_mb_control m cmd arg k).
Proof.
  intros Hk. unfold rt_mb_control. destruct (cmd =? RT_IPC_CMD_RESET); [|boxes_auto].
  match goal with |- outcome_boxes X (Resched ?k' _) => change (boxes_ok X k') end.
  assert (H1 : boxes_ok X (mb_resume_all m k)) by (apply (boxes_ok_same _ k); [apply boxes_mb_resume_all|done]).
  apply boxes_ok_set_mb; [|done]. intros mb Hm. assert (Hok : mb_ok mb) by (by eapply H1).
  destruct Hok. constructor; cbn; try lia. symmetry. apply ring_idx_0. lia.
Qed.
Lemma boxes_mb_delete m k : boxes_ok X k -> outcome_boxes X (rt_mb_delete m k).
Proof.
  intros Hk. unfold rt_mb_delete. boxes_step. apply (boxes_ok_same X k); [|done].
  by rewrite boxes_mb_resume_all.
Qed.
End mailboxes.

(** ** Message queues *)
Lemma boxes_ok_set_mq X Y m f k :
  boxes_ok X k ->
  (forall q F Q, mqs k !! m = Some q -> mq_ok q F Q (X m) -> exists F' Q', mq_ok (f q) F' Q' (Y m)) ->
  (forall m', m' <> m -> Y m' = X m') -> boxes_ok Y (set_mq m f k).
Proof.
  intros [H1 H2] Hf HY. split; [exact H1|]. intros m' q'. unfold set_mq. cbn. rewrite lookup_alter.
  case_decide; [subst m'|rewrite HY by done; apply H2]. destruct (mqs k !! m) as [q|] eqn:Hm; [|done]. intros [= <-].
  destruct (H2 m q Hm) as (F & Q & H). by apply (Hf q F Q).
Qed.
(** The queue [m] with the slot [i] in flight. *)
Definition fly (m i : nat) (X : nat -> list nat) (m' : nat) : list nat := (if decide (m' = m) then [i] else []) ++ X m'.
Lemma fly_eq m i X : fly m i X m = i :: X m.
Proof. unfold fly. by rewrite decide_True. Qed.
Lemma fly_ne m i X m' : m' <> m -> fly m i X m' = X m'.
Proof. intros. unfold fly. by rewrite decide_False. Qed.

Section queues.
Context (X : nat -> list nat).

Lemma boxes_mq_send_loop m b timeout d sf k : boxes_ok X k -> outcome_boxes X (mq_send_loop m b timeout d sf k).
Proof.
  intros Hk. unfold mq_send_loop. destruct (msg_queue_free (get_mq k m)) as [i|] eqn:Hf; [|boxes_auto].
  change (boxes_ok (fly m i X) (set_mq m (pop_free i) k)). apply (boxes_ok_set_mq X); [done| |by apply fly_ne].
  intros q F Q Hm Hok. rewrite (get_mq_lookup _ _ q) in Hf by done. rewrite fly_eq.
  pose proof (ql_free _ _ _ _ (qo_lists _ _ _ _ Hok)) as Hc. rewrite Hf in Hc. destruct F as [|j F]; [done|].
  destruct Hc as [[= ->] _]. exists F, Q. by apply pop_free_ok.
Qed.
Lemma boxes_mq_send_wait m b timeout sf k : boxes_ok X k -> outcome_boxes X (_rt_mq_send_wait m b timeout sf k).
Proof.
  intros Hk. unfold _rt_mq_send_wait. pose proof (boxes_mq_send_loop m b timeout 0 sf k Hk) as H.
  boxes_step; [boxes_auto|]. boxes_step; [done|]. boxes_step; [boxes_auto|done].
Qed.
Lemma boxes_mq_send_after t m b timeout d sf k : boxes_ok X k -> outcome_boxes X (mq_send_after t m b timeout d sf k).
Proof. intros Hk. unfold mq_send_after. boxes_step; [boxes_auto|by apply boxes_mq_send_loop]. Qed.
Lemma boxes_mq_urgent m b k : boxes_ok X k -> outcome_boxes X (rt_mq_urgent m b k).
Proof.
  intros Hk. unfold rt_mq_urgent. boxes_step; [boxes_auto|].
  destruct (msg_queue_free (get_mq k m)) as [i|] eqn:Hf; [|boxes_auto].
  change (boxes_ok (fly m i X) (set_mq m (pop_free i) k)). apply (boxes_ok_set_mq X); [done| |by apply fly_ne].
  intros q F Q Hm Hok. rewrite (get_mq_lookup _ _ q) in Hf by done. rewrite fly_eq.
  pose proof (ql_free _ _ _ _ (qo_lists _ _ _ _ Hok)) as Hc. rewrite Hf in Hc. destruct F as [|j F]; [done|].
  destruct Hc as [[= ->] _]. exists F, Q. by apply pop_free_ok.
Qed.
Lemma boxes_store_mq Y m q k F Q :
  boxes_ok Y k -> mq_ok q F Q (X m) -> (forall m', m' <> m -> X m' = Y m') -> boxes_ok X (store_mq m q k).
Proof.
  intros [H1 H2] Hq HY. split; [exact H1|]. intros m' q'. unfold store_mq. cbn. rewrite lookup_insert.
  case_decide; [subst m'|rewrite HY by done; apply H2]. intros [= <-]. by exists F, Q.
Qed.
Lemma boxes_mq_sent_none m k : mqs k !! m = None -> boxes_ok X k -> outcome_boxes X (mq_sent m k).
Proof. intros Hm Hk. unfold mq_sent. rewrite (set_mq_none m) by done. boxes_auto. Qed.
Lemma boxes_ok_fly m i k : boxes_ok (fly m i X) k -> mqs k !! m = None -> boxes_ok X k.
Proof.
  intros [H1 H2] Hm. split; [done|]. intros m' q Hq. destruct (decide (m' = m)) as [->|]; [congruence|].
  rewrite <- (fly_ne m i X m') by done. by apply H2.
Qed.
Lemma boxes_mq_send_link m i b k : boxes_ok (fly m i X) k -> outcome_boxes X (mq_send_link m i b k).
Proof.
  intros Hk. destruct (mqs k !! m) as [q|] eqn:Hm.
  - destruct (proj2 Hk m q Hm) as (F & Q & Hok). rewrite fly_eq in Hok.
    rewrite (mq_send_link_eq m i b k q F Q (X m)) by done. destruct (mq_enqueue_ok q F Q (X m) i b Hok) as [Hok' _].
    assert (H1 : boxes_ok X (store_mq m (mq_enqueue i b q) k)).
    { eapply boxes_store_mq; [exact Hk|exact Hok'|]. intros m' Hne. by rewrite fly_ne. }
    cbv zeta. boxes_auto.
  - unfold mq_send_link. rewrite (set_mq_none m) by done. apply boxes_mq_sent_none; [done|by apply (boxes_ok_fly m i)].
Qed.
Lemma boxes_mq_urgent_link m i b k : boxes_ok (fly m i X) k -> outcome_boxes X (mq_urgent_link m i b k).
Proof.
  intros Hk. destruct (mqs k !! m) as [q|] eqn:Hm.
  - destruct (proj2 Hk m q Hm) as (F & Q & Hok). rewrite fly_eq in Hok.
    rewrite (mq_urgent_link_eq m i b k q F Q (X m)) by done. destruct (mq_enqueue_front_ok q F Q (X m) i b Hok) as [Hok' _].
    assert (H1 : boxes_ok X (store_mq m (mq_enqueue_front i b q) k)).
    { eapply boxes_store_mq; [exact Hk|exact Hok'|]. intros m' Hne. by rewrite fly_ne. }
    cbv zeta. boxes_auto.
  - unfold mq_urgent_link. rewrite (set_mq_none m) by done. apply boxes_mq_sent_none; [done|by apply (boxes_ok_fly m i)].
Qed.
Lemma boxes_mq_recv_take m size k :
  mq_entry (get_mq k m) <> 0 -> boxes_ok X k -> outcome_boxes X (mq_recv_take m size k).
Proof.
  intros Hne Hk. destruct (mqs k !! m) as [q|] eqn:Hm; [|by unfold get_mq in Hne; rewrite Hm in Hne].
  rewrite (get_mq_lookup _ _ q) in Hne by done. destruct (proj2 Hk m q Hm) as (F & Q & Hok).
  destruct Q as [|i Q]; [by destruct Hok as [_ He]; rewrite He in Hne|].
  rewrite (mq_recv_take_eq m size k q F i Q (X m)) by done. destruct (mq_dequeue_ok q F Q (X m) i Hok) as [Hok' _].
  change (boxes_ok (fly m i X) (store_mq m (mq_dequeue i q) k)).
  destruct Hk as [H1 H2]. split; [exact H1|]. intros m' q'. unfold store_mq. cbn. rewrite lookup_insert.
  case_decide; [subst m'|rewrite fly_ne by done; apply H2]. intros [= <-]. rewrite fly_eq. by exists F, Q.
Qed.
Lemma boxes_mq_recv_free m i size k : boxes_ok (fly m i X) k -> outcome_boxes X (mq_recv_free m i size k).
Proof.
  intros Hk. assert (H1 : boxes_ok X (set_mq m (push_free i) k)).
  { apply (boxes_ok_set_mq (fly m i X)); [done| |intros m' Hne; by rewrite fly_ne]. intros q F Q Hm. rewrite fly_eq. intros Hok.
    exists (i :: F), Q. by apply push_free_ok. }
  unfold mq_recv_free. cbv zeta. boxes_auto.
Qed.
Lemma boxes_mq_recv_loop m size timeout d sf k : boxes_ok X k -> outcome_boxes X (mq_recv_loop m size timeout d sf k).
Proof.
  intros Hk. unfold mq_recv_loop. destruct (Z.eqb_spec (mq_entry (get_mq k m)) 0) as [|Hne].
  - boxes_auto.
  - by apply boxes_mq_recv_take.
Qed.
Lemma boxes_mq_recv m size timeout sf k : boxes_ok X k -> outcome_boxes X (_rt_mq_recv m size timeout sf k).
Proof. intros Hk. unfold _rt_mq_recv. boxes_step; [boxes_auto|by apply boxes_mq_recv_loop]. Qed.
Lemma boxes_mq_recv_after t m size timeout d sf k : boxes_ok X k -> outcome_boxes X (mq_recv_after t m size timeout d sf k).
Proof. intros Hk. unfold mq_recv_after. boxes_step; [boxes_auto|by apply boxes_mq_recv_loop]. Qed.
Lemma boxes_mq_resume_all m k : boxes (mq_resume_all m k) = boxes k.
Proof. unfold mq_resume_all. frame. Qed.
Lemma boxes_mq_control m cmd arg k : boxes_ok X k -> outcome_boxes X (rt_mq_control m cmd arg k).
Proof.
  intros Hk. unfold rt_mq_control. destruct (cmd =? RT_IPC_CMD_RESET); [|boxes_auto].
  match goal with |- outcome_boxes X (Resched ?k' _) => change (boxes_ok X k') end.
  apply (boxes_ok_set_mq X); [by apply (boxes_ok_same _ k); [apply boxes_mq_resume_all|]| |done].
  intros q F Q Hm Hok. eexists _, _. by apply reset_ok.
Qed.
Lemma boxes_mq_delete m k : boxes_ok X k -> outcome_boxes X (rt_mq_delete m k).
Proof.
  intros Hk. unfold rt_mq_delete. boxes_step. apply (boxes_ok_same X k); [|done].
  by rewrite boxes_mq_resume_all.
Qed.
End queues.
