(* ===== verification/Demo.v ===== *)
(** * A booted kernel

    A small system built with the operations of the library: an idle thread, a
    high and a low priority thread and one object of every kind.  The witnesses
    of the properties start from it.  [kinvb] decides the invariant. *)
From S2P Require Import Prelude Queue Object Sched SchedFacts SchedProps TimerCore TimerFacts Kernel.
From S2P Require Import KernelFacts Sem Timer TimerProps KInv IpcInv SemTake MutexOps EventOps.
From S2P Require Import MailboxOps MqOps ThreadOps.

(** ** Deciding the invariant *)
Definition thread_timerb (tm : rt_timer) : bool :=
  match timeout_func tm with FThreadTimeout => true | _ => false end &&
  has_flag (timer_flag tm) RT_TIMER_FLAG_THREAD_TIMER &&
  negb (has_flag (timer_flag tm) RT_TIMER_FLAG_SOFT_TIMER) && negb (is_periodic tm) && negb (is_processing tm).
Definition kinvb (k : kstate) : bool :=
  swfb (ks k) && twfb (kt k) &&
  forallb (fun '(t, tm) => match t with
     | TmThread t => negb (is_active tm) || bool_decide (view (ks k) t = Some (true, true))
     | TmObj _ => true end) (map_to_list (timers (kt k))) &&
  forallb (fun '(t, th) => match timers (kt k) !! TmThread t with
     | Some tm => thread_timerb tm && (negb (bool_decide (tview th = (true, true))) || is_active tm)
     | None => false end) (map_to_list (threads (ks k))) &&
  forallb (fun '(m, mx) => (0 <=? ceiling_priority mx) && (0 <=? mutex_priority mx)) (map_to_list (mutexes k)) &&
  match row (kt k) THardTmp with [] => true | _ => false end &&
  forallb (fun '(n, s) => (sem_value s <=? 0) || match sem_waiters k n with [] => true | _ => false end)
    (map_to_list (sems k)).

Lemma thread_timerb_spec tm : thread_timerb tm = true -> thread_timer tm.
Proof.
  unfold thread_timerb, thread_timer. rewrite !andb_true_iff, !negb_true_iff.
  destruct (timeout_func tm); [tauto|by intros [[[[? ?] ?] ?] ?]].
Qed.
Lemma kinvb_spec k : kinvb k = true -> kinv k.
Proof.
  unfold kinvb. rewrite !andb_true_iff, !forallb_forall. intros [[[[[[Hs Ht] Ha] Hv] Hm] Hr] Hsem].
  assert (Hv' : forall t th, threads (ks k) !! t = Some th -> exists tm, timers (kt k) !! TmThread t = Some tm /\
     thread_timer tm /\ (tview th = (true, true) -> is_active tm = true)).
  { intros t th Hth. apply elem_of_map_to_list, list_elem_of_In in Hth. specialize (Hv _ Hth). simpl in Hv.
    destruct (timers (kt k) !! TmThread t) as [tm|]; [|done]. exists tm. split; [done|].
    apply andb_true_iff in Hv as [H1 H2]. split; [by apply thread_timerb_spec|].
    intros E. rewrite bool_decide_true in H2 by done. done. }
  assert (Hact : forall t, tactive (kt k) t = true -> view (ks k) t = Some (true, true)).
  { intros t. unfold tactive, timer_has, get_timer. destruct (timers (kt k) !! TmThread t) as [tm|] eqn:E; [|done].
    simpl. intros H. apply elem_of_map_to_list, list_elem_of_In in E. specialize (Ha _ E). simpl in Ha.
    change (has_flag (timer_flag tm) RT_TIMER_FLAG_ACTIVATED) with (is_active tm) in H. rewrite H in Ha. by apply bool_decide_eq_true in Ha. }
  split; [constructor| | |].
  - by apply swfb_spec.
  - by apply twfb_spec.
  - intros t. split; [apply Hact|]. unfold view. destruct (threads (ks k) !! t) as [th|] eqn:Hth; [|done].
    intros [= E]. destruct (Hv' t th Hth) as (tm & Htm & _ & H). unfold tactive, timer_has.
    rewrite (get_timer_lookup _ _ tm) by done. apply H. unfold tview. congruence.
  - intros t [th Hth]. destruct (Hv' t th Hth) as (tm & Htm & H & _). by exists tm.
  - intros m mx Hmx. apply elem_of_map_to_list, list_elem_of_In in Hmx. specialize (Hm _ Hmx). simpl in Hm.
    apply andb_true_iff in Hm as [H1 H2]. rt_bool. done.
  - unfold tmp_clear. by destruct (row (kt k) THardTmp).
  - intros n. unfold get_sem. destruct (sems k !! n) as [s|] eqn:E; simpl; [|lia]. intros Hlt.
    apply elem_of_map_to_list, list_elem_of_In in E. specialize (Hsem _ E). simpl in Hsem.
    apply orb_true_iff in Hsem as [H|H]; [rt_bool; lia|by destruct (sem_waiters k n)].
Qed.

(** ** The booted kernel *)
Definition IDLE : tid := 0%nat.
Definition LOW : tid := 1%nat.
Definition HIGH : tid := 2%nat.
Definition k_reset : kstate :=
  KState (SState (list_to_map [(IDLE, thread0); (LOW, thread0); (HIGH, thread0)]) ∅ 0 None 0 0 0)
    (TState 0 ∅ ∅ 0) (OState ∅ ∅) ∅ ∅ ∅ ∅ ∅ ∅.
Definition boot_objects (k : kstate) : kstate :=
  let '(k, _) := rt_sem_init _soft_timer_sem [116; 105; 109] 0 RT_IPC_FLAG_PRIO k in
  let '(k, _) := rt_sem_init 1 [115; 49] 0 RT_IPC_FLAG_FIFO k in
  let '(k, _) := rt_mutex_init 0 [109; 48] 0 k in
  let '(k, _) := rt_mutex_init 1 [109; 49] 0 k in
  let '(k, _) := rt_event_init 0 [101; 48] RT_IPC_FLAG_FIFO k in
  let '(k, _) := rt_mb_init 0 [109; 98] [0; 0; 0] 3 RT_IPC_FLAG_FIFO k in
  let '(k, _) := rt_mq_init 0 [109; 113] (fun _ => (0, [0; 0; 0; 0])) 4 48 RT_IPC_FLAG_FIFO k in k.
Definition boot_threads (k : kstate) : kstate :=
  let '(k, _) := rt_thread_init HIGH [104] 5 10 k in
  let '(k, _) := rt_thread_init LOW [108] 20 10 k in
  let k := rt_thread_idle_init IDLE [105] k in
  let '(k, _) := rt_thread_startup HIGH k in
  let '(k, _) := rt_thread_startup LOW k in k.
Definition booted : kstate :=
  on_ks rt_system_scheduler_start
    (boot_threads (boot_objects (on_kt rt_system_timer_init (on_ks rt_system_scheduler_init k_reset)))).

Lemma booted_kinv : kinv booted.
Proof. apply kinvb_spec. vm_compute. reflexivity. Qed.
Example booted_runs_high : self booted = Some HIGH.
Proof. vm_compute. reflexivity. Qed.
Lemma booted_high : exists th, threads (ks booted) !! HIGH = Some th /\ stat_of th = RT_THREAD_RUNNING.
Proof. eexists. split; vm_compute; reflexivity. Qed.
