(* ===== verification/SemProps.v ===== *)
(** * Properties of semaphores *)
From S2P Require Import Prelude Queue Object Sched SchedFacts TimerCore TimerFacts Kernel KernelFacts.
From S2P Require Import Sem Timer KInv IpcInv WaitFacts SemTake Demo.

Lemma get_sem_objs k k' n : objs k' = objs k -> get_sem k' n = get_sem k n.
Proof. unfold objs, get_sem. intros [= _ -> _ _ _ _ _]. done. Qed.

(** C4: taking a semaphore with tokens takes one at once and changes nothing
    else; without tokens a call that must not wait fails with [-RT_ETIMEOUT] and
    changes nothing; otherwise the calling thread is suspended - at the end of
    the waiting list, or at its place by priority -, every other list and thread
    is as before, and with a timeout its timer expires that many ticks from
    now. *)
Theorem rt_sem_take_spec (n : nat) (timeout suspend_flag : Z) (k : kstate) (t : tid) (th : rt_thread)
    (Hk : kinv k) (Hs : self k = Some t) (Hth : threads (ks k) !! t = Some th)
    (Hst : stat_of th = RT_THREAD_RUNNING) :
  let s := get_sem k n in
  if 0 <? sem_value s then
    _rt_sem_take n timeout suspend_flag k =
      Done (set_sem n (fun s => with_value (u16 (sem_value s - 1)) s) k) RT_EOK []
  else if timeout =? 0 then _rt_sem_take n timeout suspend_flag k = Done k (- RT_ETIMEOUT) []
  else
    exists k' th', _rt_sem_take n timeout suspend_flag k = Resched k' (PcSemTake n) /\ kinv k' /\
      susp_list k' (LSusp (OSem n)) = enqueued (sem_flag s) (ks k) t (susp_list k (LSusp (OSem n))) /\
      (forall l, l <> LSusp (OSem n) -> susp_list k' l = susp_list k l) /\
      (forall t', threads (ks k') !! t' = if decide (t = t') then Some th' else threads (ks k) !! t') /\
      suspended th' /\ error th' = RT_EINTR /\ sems k' = sems k /\
      if 0 <? timeout then
        exists tm, timers (kt k') !! TmThread t = Some tm /\ is_active tm = true /\
          timeout_tick tm = u32 (rt_tick (kt k) + u32 timeout)
      else kt k' = kt k.
Proof.
  simpl. unfold _rt_sem_take. destruct (0 <? sem_value (get_sem k n)) eqn:Hv; [done|].
  destruct (timeout =? 0); [done|]. rewrite Hs.
  set (k1 := upd_thr t (with_error RT_EINTR) k).
  assert (Hth1 : threads (ks k1) !! t = Some (with_error RT_EINTR th)) by (by apply lookup_upd_eq).
  assert (Hmay : may_wait (LSusp (OSem n)) k1) by exact (proj1 (Z.ltb_ge _ _) Hv).
  destruct (wait_on_spec t (LSusp (OSem n)) (sem_flag (get_sem k1 n)) timeout suspend_flag k1 _
              (kinv_upd_error k t RT_EINTR Hk) Hth1 Hst Hmay)
    as (k' & th' & -> & Hk' & Ho & Hs' & Hl & Ht & _ & Hsu & He & _ & _ & _ & Hto).
  exists k', th'. split; [done|]. split; [done|]. split.
  { rewrite Hl, decide_True by done. apply enqueued_ext. intros x. unfold rt_sched_thread_get_curr_prio, get_thread.
    cbn [k1 upd_thr on_ks ks with_ks]. rewrite lookup_upd. case_decide; [|done]. by destruct (threads (ks k) !! x). }
  split; [intros l Hl'; by rewrite Hl, decide_False|]. split.
  { intros t'. rewrite Ht. case_decide; [done|]. cbn [k1 upd_thr on_ks ks with_ks]. by rewrite lookup_upd_ne. }
  split; [done|]. split; [done|]. split; [by injection Ho|exact Hto].
Qed.
Lemma rt_sem_take_spec_witness :
  exists k', _rt_sem_take 1 3 RT_UNINTERRUPTIBLE booted = Resched k' (PcSemTake 1) /\
    susp_list k' (LSusp (OSem 1)) = [HIGH].
Proof.
  destruct (threads (ks booted) !! HIGH) as [th|] eqn:Hth; [|vm_compute in Hth; discriminate].
  pose proof (rt_sem_take_spec 1 3 RT_UNINTERRUPTIBLE booted HIGH th booted_kinv booted_runs_high Hth) as H.
  destruct H as (k' & th' & E & _ & El & _).
  - vm_compute in Hth. injection Hth as <-. reflexivity.
  - exists k'. split; [exact E|]. rewrite El. vm_compute. reflexivity.
Defined.

(** C5: releasing a semaphore with waiters hands the token to the first of them:
    it leaves the list, becomes ready, its timer is stopped, and its pending
    [rt_sem_take] returns [RT_EOK]; the value is unchanged.  Without waiters the
    value goes up by one, and a semaphore at its limit is left as it is with
    [-RT_EFULL]. *)
Theorem rt_sem_release_spec (n : nat) (k : kstate) (Hk : kinv k) :
  match susp_list k (LSusp (OSem n)) with
  | t :: rest =>
      exists k' th', rt_sem_release n k = Resched k' (PcRet RT_EOK []) /\ kinv k' /\
        susp_list k' (LSusp (OSem n)) = rest /\ sems k' = sems k /\
        threads (ks k') !! t = Some th' /\
        (self k <> Some t -> stat_of th' = RT_THREAD_READY) /\
        timer_has (kt k') (TmThread t) RT_TIMER_FLAG_ACTIVATED = false /\
        (forall t', t' <> t -> threads (ks k') !! t' = threads (ks k) !! t') /\
        sem_take_after t k' = Done k' RT_EOK []
  | [] =>
      if sem_value (get_sem k n) <? sem_max_value (get_sem k n) then
        rt_sem_release n k = Done (set_sem n (fun s => with_value (u16 (sem_value s + 1)) s) k) RT_EOK []
      else rt_sem_release n k = Done k (- RT_EFULL) []
  end.
Proof.
  unfold rt_sem_release. destruct (susp_list k (LSusp (OSem n))) as [|t rest] eqn:Hl; [by case_match|].
  destruct (wake_first_spec (LSusp (OSem n)) RT_EOK t rest k Hk I Hl ltac:(done))
    as (k' & th' & -> & Hk' & Ho & Hs & Hls & Ht & Hst & He & Hta).
  exists k', th'. split; [done|]. split; [done|]. split; [rewrite Hls by done; by rewrite decide_True|].
  split; [by injection Ho|]. split; [by rewrite Ht, decide_True|].
  split; [intros Hn; by rewrite Hst, decide_False|]. split; [done|]. split.
  - intros t' Hne. by rewrite Ht, decide_False.
  - unfold sem_take_after, thr. rewrite (get_thread_lookup _ _ th') by (by rewrite Ht, decide_True). by rewrite He.
Qed.
(** HIGH waits for the semaphore and LOW releases it. *)
Definition high_waits : kstate := kschedule (outcome_state (_rt_sem_take 1 3 RT_UNINTERRUPTIBLE booted)).
Lemma high_waits_kinv : kinv high_waits.
Proof. apply kinvb_spec. vm_compute. reflexivity. Qed.
Lemma rt_sem_release_spec_witness :
  susp_list high_waits (LSusp (OSem 1)) = [HIGH] /\
  exists k', rt_sem_release 1 high_waits = Resched k' (PcRet RT_EOK []) /\ susp_list k' (LSusp (OSem 1)) = [].
Proof.
  assert (E : susp_list high_waits (LSusp (OSem 1)) = [HIGH]) by (vm_compute; reflexivity).
  split; [exact E|]. pose proof (rt_sem_release_spec 1 high_waits high_waits_kinv) as H. rewrite E in H.
  destruct H as (k' & th' & H1 & _ & H2 & _). exists k'. split; [exact H1|exact H2].
Defined.
