(* ===== verification/EventProps.v ===== *)
(** * Properties of event sets

    A send wakes exactly the waiters whose request the new bits satisfy and clears
    what they asked to be cleared; a receive takes the bits at once or waits. *)
From S2P Require Import Prelude Queue Object Sched SchedFacts TimerCore TimerFacts Kernel KernelFacts.
From S2P Require Import Sem Timer KInv IpcInv WaitFacts SemTake EventOps CallInv Demo.

Lemma get_event_objs k k' e : objs k' = objs k -> get_event k' e = get_event k e.
Proof. unfold objs, get_event. intros [= _ _ _ _ -> _ _]. done. Qed.

(** The bits that a waiter gets from the bits [v], if they satisfy its request. *)
Definition event_hit (k : kstate) (v : Z) (t : tid) : option Z :=
  match event_match (thr k t) v with Some (true, s) => Some s | _ => None end.
Definition event_cleared (k : kstate) (v c : Z) (l : list tid) : Z :=
  foldl (fun c t => match event_hit k v t with
                    | Some s => if has_flag (event_info (thr k t)) RT_EVENT_FLAG_CLEAR then Z.lor c s else c
                    | None => c
                    end) c l.
Definition is_hit (k : kstate) (v : Z) (t : tid) : bool := bool_decide (is_Some (event_hit k v t)).

(** The thread [t] after the wake-up that gave it [s]. *)
Definition event_woken (k : kstate) (t : tid) (s : Z) (th : rt_thread) : rt_thread :=
  with_error RT_EOK (restat (if decide (self k = Some t) then RT_THREAD_RUNNING else RT_THREAD_READY)
    (with_ttmr_set false (with_event s (event_info th) th))).
Record scanned (e : nat) (l : list tid) (v : Z) (k k' : kstate) : Prop := {
  sc_kinv : kinv k';
  sc_objs : objs k' = objs k;
  sc_self : self k' = self k;
  sc_susp : forall l', wait_list l' -> susp_list k' l' = filter (fun t => ~ (t ∈ l /\ is_hit k v t = true)) (susp_list k l');
  sc_thr : forall t th, threads (ks k) !! t = Some th -> threads (ks k') !! t =
    match event_hit k v t with
    | Some s => if decide (t ∈ l) then Some (event_woken k t s th) else Some th
    | None => Some th
    end;
  sc_dom : forall t, threads (ks k) !! t = None -> threads (ks k') !! t = None;
}.

(** One wake-up. *)
Definition event_wake (t : tid) (s : Z) (info : Z) (k : kstate) : kstate :=
  upd_thr t (with_error RT_EOK) (rt_sched_thread_ready t (upd_thr t (with_event s info) k)).1.
Lemma event_wake_spec e t s k th :
  kinv k -> t ∈ susp_list k (LSusp (OEvent e)) -> threads (ks k) !! t = Some th ->
  let k' := event_wake t s (event_info th) k in
  kinv k' /\ objs k' = objs k /\ self k' = self k /\
  (forall l', wait_list l' -> susp_list k' l' = unlink t (susp_list k l')) /\
  (forall t', threads (ks k') !! t' = if decide (t = t') then Some (event_woken k t s th) else threads (ks k) !! t').
Proof.
  intros Hk Hin Hth k'. set (k1 := upd_thr t (with_event s (event_info th)) k).
  assert (Hk1 : kinv k1) by (by apply kinv_upd_event).
  destruct (waiter_suspended k (LSusp (OEvent e)) t (ki_wf _ Hk) I Hin) as (th0 & Hth0 & Hsu). rewrite Hth in Hth0. injection Hth0 as <-.
  assert (Hth1 : threads (ks k1) !! t = Some (with_event s (event_info th) th)) by (by apply lookup_upd_eq).
  assert (Ek : k' = dequeued t RT_EOK k1).
  { unfold k', event_wake. fold k1. rewrite thread_ready_ok; [done|].
    apply (kwf_wakeable k1 t (with_event s (event_info th) th)); [apply Hk1|done|done]. }
  assert (Hk' : kinv k') by (unfold k', event_wake; by apply kinv_upd_error, kinv_thread_ready).
  split; [done|]. split. { change (objs (rt_sched_thread_ready t k1).1 = objs k). by rewrite objs_thread_ready. }
  rewrite Ek. split; [by rewrite dequeued_current|]. split.
  - intros l' Hl'. by rewrite (dequeued_unlink k1 t (with_event s (event_info th) th)).
  - intros t'. rewrite (dequeued_thread k1 t _ RT_EOK t' Hth1). case_decide; [done|].
    unfold k1, upd_thr, on_ks. cbn [ks with_ks]. by rewrite lookup_upd_ne.
Qed.

Lemma event_scan_spec e v l : forall c b k,
  kinv k -> NoDup l -> (forall t, t ∈ l -> t ∈ susp_list k (LSusp (OEvent e))) ->
  (forall t, t ∈ l -> event_match (thr k t) v <> None) -> event_bits (get_event k e) = v ->
  exists k', event_scan e l c b k = inr (k', event_cleared k v c l, b || existsb (is_hit k v) l) /\ scanned e l v k k'.
Proof.
  induction l as [|t l IH]; intros c b k Hk Hnd Hin Hopt Hv.
  - exists k. split; [cbn; by rewrite orb_false_r|]. constructor; try done.
    + intros l' _. symmetry. apply filter_all. intros t _ [Ht _]. by apply not_elem_of_nil in Ht.
    + intros t th Hth. rewrite Hth. destruct (event_hit k v t); [|done]. by rewrite decide_False by apply not_elem_of_nil.
  - apply NoDup_cons in Hnd as [Ht Hnd]. cbn [event_scan existsb]. rewrite Hv.
    destruct (waiter_suspended k (LSusp (OEvent e)) t (ki_wf _ Hk) I (Hin t ltac:(left))) as (th & Hth & Hsu).
    assert (Hthr : thr k t = th) by (by apply get_thread_lookup).
    destruct (event_match (thr k t) v) as [[status s]|] eqn:Em; [|by apply (Hopt t) in Em; [|left]].
    assert (Eh : event_hit k v t = if status then Some s else None) by (unfold event_hit; rewrite Em; by destruct status).
    assert (Hit : is_hit k v t = status).
    { unfold is_hit. rewrite Eh. destruct status; [by rewrite bool_decide_true by eauto|]. by rewrite bool_decide_false by (by intros []). }
    destruct status.
    + pose proof (event_wake_spec e t s k th Hk (Hin t ltac:(left)) Hth) as Hw. rewrite Hthr.
      unfold event_wake in Hw. destruct (rt_sched_thread_ready t (upd_thr t (with_event s (event_info th)) k)) as [k1 err]. cbn [fst] in Hw.
      set (k2 := upd_thr t (with_error RT_EOK) k1) in *. destruct Hw as (Hk2 & Ho & Hs & Hl & Hts).
      assert (Hsame : forall t', t' <> t -> thr k2 t' = thr k t').
      { intros t' Hne. unfold thr, get_thread. by rewrite Hts, decide_False. }
      assert (Hhit : forall t', t' <> t -> event_hit k2 v t' = event_hit k v t').
      { intros t' Hne. unfold event_hit. by rewrite Hsame. }
      assert (Hne : forall t', t' ∈ l -> t' <> t) by (intros t' H -> ; done).
      destruct (IH (if has_flag (event_info th) RT_EVENT_FLAG_CLEAR then Z.lor c s else c) true k2) as (k' & E & [S1 S2 S3 S4 S5 S6]); try done.
      * intros t' H. rewrite Hl by done. apply elem_of_unlink. split; [by apply Hne|]. apply Hin. by right.
      * intros t' H. rewrite Hsame by (by apply Hne). apply Hopt. by right.
      * by rewrite (get_event_objs k).
      * exists k'. rewrite E. split.
        { f_equal. f_equal; [f_equal|].
          - unfold event_cleared. cbn [foldl]. rewrite Eh, Hthr. apply foldl_ext_in. intros c' t' Ht'.
            rewrite Hhit, Hsame by (by apply Hne). done.
          - rewrite Hit. by rewrite orb_true_r. }
        constructor; [done|congruence|congruence| | |].
        -- intros l' Hl'. rewrite S4, Hl by done. unfold unlink. rewrite list_filter_filter. apply list_filter_iff. intros x.
           rewrite elem_of_cons. destruct (decide (x = t)) as [->|Hx]; [rewrite Hit; tauto|].
           unfold is_hit. rewrite Hhit by done. tauto.
        -- intros x thx Hx. destruct (decide (x = t)) as [->|Hxt].
           ++ rewrite Hth in Hx. injection Hx as <-. rewrite Eh, decide_True by left.
              rewrite (S5 t (event_woken k t s th)) by (by rewrite Hts, decide_True).
              destruct (event_hit k2 v t); [|done]. by rewrite decide_False.
           ++ rewrite (S5 x thx) by (by rewrite Hts, decide_False). rewrite Hhit by done.
              destruct (event_hit k v x); [|done]. unfold event_woken. rewrite Hs.
              destruct (decide (x ∈ l)); [by rewrite (decide_True (P := x ∈ t :: l)) by (by right)|].
              by rewrite (decide_False (P := x ∈ t :: l)) by (by intros [?|?]%elem_of_cons).
        -- intros x Hx. apply S6. rewrite Hts. destruct (decide (t = x)) as [<-|]; [congruence|done].
    + destruct (IH c b k) as (k' & E & [S1 S2 S3 S4 S5 S6]); try done; [intros; apply Hin; by right|intros; apply Hopt; by right|].
      exists k'. rewrite E. split.
      { rewrite Hit. cbn [orb]. unfold event_cleared. cbn [foldl]. by rewrite Eh. }
      constructor; try done.
      * intros l' Hl'. rewrite S4 by done. apply list_filter_iff. intros x. rewrite elem_of_cons.
        destruct (decide (x = t)) as [->|]; [|tauto]. rewrite Hit. intuition congruence.
      * intros x thx Hx. rewrite (S5 x thx Hx). destruct (decide (x = t)) as [->|Hxt]; [by rewrite Eh|].
        destruct (event_hit k v x); [|done]. destruct (decide (x ∈ l)); [by rewrite (decide_True (P := x ∈ t :: l)) by (by right)|].
        by rewrite (decide_False (P := x ∈ t :: l)) by (by intros [?|?]%elem_of_cons).
Qed.


(** The thread HIGH waits for both of the bits 1 and 2, with the option to clear. *)
Definition waits_both : kstate :=
  kschedule (outcome_state (_rt_event_recv 0 3 5 RT_WAITING_FOREVER RT_UNINTERRUPTIBLE booted)).
Lemma waits_both_kinv : kinv waits_both.
Proof. apply kinvb_spec. vm_compute. reflexivity. Qed.
(** A waiter whose options have neither AND nor OR makes every later send fail. *)
Lemma bad_option_blocks_event : exists k',
  rt_event_send 0 7 (kschedule (outcome_state (_rt_event_recv 0 3 RT_EVENT_FLAG_CLEAR RT_WAITING_FOREVER RT_UNINTERRUPTIBLE booted)))
  = Done k' (- RT_EINVAL) [].
Proof. eexists. vm_compute. reflexivity. Qed.
