(* ===== verification/MutexProps.v ===== *)
(** * Properties of mutexes: ownership and priority inheritance *)
From Stdlib Require Import Sorting.
From S2P Require Import Prelude Queue Object Sched SchedFacts TimerCore TimerFacts Kernel KernelFacts.
From S2P Require Import Sem Timer KInv IpcInv WaitFacts SemTake MutexOps MutexInv MutexInherit ThreadOps Demo.

(** ** Blocking *)

(** The waiter [t] joins the list of [m]: everything but the priority of the
    mutex is in place. *)
Lemma suspend_eq_wait t l fl sf k : rt_thread_suspend_to_list t (Some l) fl sf k = wait_on t l fl 0 sf k.
Proof. unfold wait_on. destruct (rt_thread_suspend_to_list _ _ _ _ _) as [k1 ret]. by destruct (Z.eqb_spec ret RT_EOK) as [->|]. Qed.

Section join.
Context (k k3 : kstate) (t : tid) (m : nat) (th th' : rt_thread).
Context (Hth : threads (ks k) !! t = Some th) (Hns : is_susp th = false).
Context (Hi : inherit k).
Context (Hfl : mutex_flag (get_mutex k m) = RT_IPC_FLAG_PRIO).
Context (Hty : rt_object_get_type (ko k) (KIpc (OMutex m)) = RT_Object_Class_Mutex).
Context (Ho3 : objs k3 = objs k).
Context (Hl3 : forall m', msusp k3 m' = if decide (m = m') then prio_insert (ks k) t (msusp k m) else msusp k m').
Context (Ht3 : forall t', threads (ks k3) !! t' = if decide (t = t') then Some th' else threads (ks k) !! t').
Context (Hsu : is_susp th' = true) (Hp : pending_object th' = Some (OMutex m)) (Hc : current_priority th' = current_priority th).

Lemma join_cur x : cur k3 x = cur k x.
Proof.
  unfold rt_sched_thread_get_curr_prio, get_thread. rewrite Ht3. destruct (decide (t = x)) as [<-|]; [|done].
  by rewrite Hth.
Qed.
Lemma join_mutex m' : get_mutex k3 m' = get_mutex k m'.
Proof. unfold get_mutex. injection Ho3 as _ _ -> _ _ _ _. done. Qed.
Lemma join_notin m' : t ∉ msusp k m'.
Proof.
  intros Hx. apply (ih_waits _ _ _ Hi) in Hx as [Hx _]. unfold thr in Hx. rewrite (get_thread_lookup _ _ th) in Hx by done.
  congruence.
Qed.
Lemma join_elem m' x : x ∈ msusp k3 m' <-> (x = t /\ m' = m) \/ x ∈ msusp k m'.
Proof.
  rewrite Hl3. destruct (decide (m = m')) as [<-|Hne].
  - rewrite prio_insert_perm, elem_of_cons. tauto.
  - split; [by right|]. intros [[-> ->]|?]; done.
Qed.

(** With a priority for the mutex that its waiters bound. *)
Lemma join_inherits mp k4 :
  k4 = set_mutex m (with_mpriority mp) k3 \/ (k4 = k3 /\ mp = mutex_priority (get_mutex k m)) ->
  mp <= mutex_priority (get_mutex k m) -> mp <= cur k t -> inherit_but k4 None (Some m) /\
  (mp = mutex_priority (get_mutex k m) -> inherit k4).
Proof.
  intros Hk4 Hmp1 Hmp2.
  assert (Hg : forall m', get_mutex k4 m' = get_mutex k m' \/ m' = m /\ get_mutex k4 m' = with_mpriority mp (get_mutex k m)).
  { intros m'. destruct Hk4 as [->|[-> _]]; [|left; apply join_mutex]. rewrite get_set_mutex, !join_mutex.
    case_decide as Hd; [subst m'|by left]. destruct (mutexes k3 !! m); [by right|by left]. }
  assert (Hle : forall m', mutex_priority (get_mutex k4 m') <= mutex_priority (get_mutex k m')).
  { intros m'. destruct (Hg m') as [->|[-> ->]]; cbn; lia. }
  assert (Hexist : is_Some (mutexes k !! m)).
  { unfold get_mutex in Hfl. destruct (mutexes k !! m); [by eexists|done]. }
  assert (Hmm : mutex_priority (get_mutex k4 m) = mp).
  { destruct Hk4 as [->|[-> ->]]; [|by rewrite join_mutex]. rewrite get_set_mutex, decide_True by done.
    injection Ho3 as _ _ -> _ _ _ _. by destruct Hexist as [? ->]. }
  assert (Hks : ks k4 = ks k3 /\ taken_object_list k4 = taken_object_list k /\ ko k4 = ko k).
  { injection Ho3 as E1 _ _ E2 _ _ _. by destruct Hk4 as [->|[-> _]]. }
  destruct Hks as (Eks & Etk & Eko).
  assert (Hl4 : forall m', msusp k4 m' = msusp k3 m') by (intros m'; unfold msusp, susp_list; by rewrite Eks).
  assert (Hc4 : forall x, cur k4 x = cur k x) by (intros x; rewrite <- join_cur; by rewrite Eks).
  destruct Hi as [A B C D E].
  assert (Hbut : inherit_but k4 None (Some m)).
  { constructor.
    - intros m' x. rewrite Hl4, join_elem, A. unfold waits, thr, get_thread. rewrite Eks, Ht3.
      destruct (decide (t = x)) as [<-|Hne]; [|naive_solver]. simpl. rewrite Hsu, Hp, Hth. simpl. rewrite Hns. naive_solver.
    - intros m' x. rewrite Hl4, join_elem, Eko. intros [[-> ->]|Hx].
      + split; [|done]. by destruct (Hg m) as [->|[_ ->]].
      + destruct (B m' x Hx). by destruct (Hg m') as [->|[-> ->]].
    - intros m'. rewrite filter_all by done. apply (by_prio_ext (cur k)); [intros; apply Hc4|]. rewrite Hl4, Hl3.
      specialize (C m'). rewrite filter_all in C by done. destruct (decide (m = m')) as [<-|]; [by apply by_prio_insert|done].
    - intros m' x. rewrite Hl4, join_elem, Hc4. intros [[-> ->]|Hx] _; [lia|].
      specialize (D m' x Hx ltac:(done)). specialize (Hle m'). lia.
    - intros m' o. intros Ho. destruct (E m' o) as (H1 & H2 & H3); [by destruct (Hg m') as [<-|[-> Hgm]]; [|rewrite Hgm in Ho]|].
      split; [|split]; [| |intros Hne].
      + rewrite Eks, Ht3. case_decide; [by eexists|done].
      + unfold taken. by rewrite Etk.
      + rewrite Hc4. destruct (Hg m') as [->|[-> _]]; [by apply H3|done]. }
  split; [exact Hbut|]. intros Emp. destruct Hbut as [A' B' C' D' E']. constructor; try done. intros m' o Ho.
  destruct (E' m' o Ho) as (H1 & H2 & H3). split; [done|]. split; [done|]. intros _.
  destruct (decide (m' = m)) as [->|Hne]; [|apply H3; congruence].
  rewrite Hc4, Hmm, Emp. apply E; [|done]. by destruct (Hg m) as [<-|[_ Hgm]]; [|rewrite Hgm in Ho].
Qed.
End join.

(** The priority of the mutex and of its owner after the new waiter [t]. *)
Definition inherit_from (m : nat) (o t : tid) (k : kstate) : kstate :=
  let priority := rt_sched_thread_get_curr_prio (ks k) t in
  if priority <? mutex_priority (get_mutex k m) then
    let k := set_mutex m (with_mpriority priority) k in
    if mutex_priority (get_mutex k m) <? rt_sched_thread_get_curr_prio (ks k) o
    then _thread_update_priority o priority k else k
  else k.

Lemma mutex_frame_mpriority m p k : mutex_frame k (set_mutex m (with_mpriority p) k).
Proof.
  split; [|done]. intros m'. rewrite get_set_mutex. destruct (decide (m = m')) as [<-|]; [|done].
  by destruct (mutexes k !! m).
Qed.

(** [k3]: the waiter is on the list, the mutex does not know of it yet. *)
Lemma inherit_from_ok m o t k3 :
  kinv k3 -> is_susp (thr k3 t) = true -> owner (get_mutex k3 m) = Some o -> is_Some (mutexes k3 !! m) -> acyclic k3 ->
  (forall mp k4, k4 = set_mutex m (with_mpriority mp) k3 \/ (k4 = k3 /\ mp = mutex_priority (get_mutex k3 m)) ->
     mp <= mutex_priority (get_mutex k3 m) -> mp <= cur k3 t ->
     inherit_but k4 None (Some m) /\ (mp = mutex_priority (get_mutex k3 m) -> inherit k4)) ->
  let k4 := inherit_from m o t k3 in
  kinv k4 /\ inherit k4 /\ mutex_frame k3 k4 /\ is_susp (thr k4 t) = true.
Proof.
  intros Hk Hsu Ho [mx Hmx] Hac Hj. unfold inherit_from. cbv zeta. pose proof (curr_prio_range k3 t Hk) as Hpr.
  set (pr := rt_sched_thread_get_curr_prio (ks k3) t) in *. destruct (Z.ltb_spec pr (mutex_priority (get_mutex k3 m))) as [Hlt|Hge].
  2:{ split; [done|]. split; [|by split]. eapply Hj; [right; split; reflexivity|lia|exact Hge|done]. }
  set (k4 := set_mutex m (with_mpriority pr) k3).
  destruct (Hj pr k4) as [Hb _]; [by left|lia|lia|]. assert (Hf4 : mutex_frame k3 k4) by apply mutex_frame_mpriority.
  assert (Hk4 : kinv k4) by (apply kinv_set_mutex; [mutex_field|done]).
  assert (Hg : mutex_priority (get_mutex k4 m) = pr).
  { unfold k4. by rewrite get_set_mutex, decide_True, Hmx. }
  assert (Ho4 : owner (get_mutex k4 m) = Some o) by (destruct Hf4 as [Hf4 _]; by destruct (Hf4 m) as (-> & _)).
  rewrite Hg. destruct (Z.ltb_spec pr (cur k4 o)) as [Hlo|Hlo].
  - destruct Hac as (rank & Hr & Hbd).
    assert (Hbm : forall m', Some m = Some m' -> owner (get_mutex k4 m') = Some o) by (by intros m' [= <-]).
    destruct (thread_update_inherits_but o pr k4 (Some m) Hk4 Hb Hbm) as [H1 H2].
    + exists rank. split; [by apply (ranked_frame k3)|done].
    + by apply (ih_owner _ _ _ Hb m).
    + done.
    + intros m' Hm'. destruct (decide (m' = m)) as [->|Hne]; [lia|].
      destruct (ih_owner _ _ _ Hb m' o Hm') as (_ & _ & H). specialize (H ltac:(congruence)). lia.
    + split; [by apply kinv_thread_update_priority|]. split; [done|]. split; [by apply (mutex_frame_trans k3 k4)|].
      rewrite (view_is_susp k4); [done|]. intros t'. by apply view_thread_update_priority.
  - split; [done|]. split; [|done]. destruct Hb as [A B C D E]. constructor; try done. intros m' o' Hmo.
    destruct (E m' o' Hmo) as (H1 & H2 & H3). split; [done|]. split; [done|]. intros _.
    destruct (decide (m' = m)) as [->|Hne]; [|apply H3; congruence]. rewrite Ho4 in Hmo. injection Hmo as <-. by rewrite Hg.
Qed.

(** The size of the thread table when a thread that is there is replaced. *)
Lemma size_threads_upd k k' t th :
  threads (ks k) !! t = Some th ->
  (exists th', forall t', threads (ks k') !! t' = if decide (t = t') then Some th' else threads (ks k) !! t') ->
  size (threads (ks k)) = size (threads (ks k')).
Proof.
  intros Hth (th' & H). assert (E : threads (ks k') = <[t := th']> (threads (ks k))).
  { apply map_eq. intros t'. rewrite H, lookup_insert. done. }
  rewrite E. symmetry. apply map_size_insert_Some. by eexists.
Qed.
Lemma running_not_susp th : stat_of th = RT_THREAD_RUNNING -> is_susp (with_error RT_EOK th) = false.
Proof. intros H. apply is_susp_false. intros Hs. apply suspended_not_running in Hs. done. Qed.
Lemma is_susp_exists k t : is_susp (thr k t) = true -> is_Some (threads (ks k) !! t).
Proof. unfold thr, get_thread. destruct (threads (ks k) !! t); [by eexists|done]. Qed.

(** Owners, hold counts and lists are those of before but for the waiter [t] of
    [m]. *)
Definition mutex_frame_but (k k' : kstate) (t : tid) (m : nat) : Prop :=
  (forall m', owner (get_mutex k' m') = owner (get_mutex k m') /\ hold (get_mutex k' m') = hold (get_mutex k m')) /\
  (forall m' x, x ∈ msusp k' m' <-> (x = t /\ m' = m) \/ x ∈ msusp k m') /\
  taken_object_list k' = taken_object_list k.

(** The state in which the waiter is on the list and the mutex does not know of it. *)
Lemma take_joins m suspend_flag k t o th rank :
  kinv k -> inherit k -> self k = Some t -> threads (ks k) !! t = Some th -> stat_of th = RT_THREAD_RUNNING ->
  owner (get_mutex k m) = Some o -> mutex_flag (get_mutex k m) = RT_IPC_FLAG_PRIO ->
  rt_object_get_type (ko k) (KIpc (OMutex m)) = RT_Object_Class_Mutex ->
  ranked k rank -> (rank o < rank t)%nat -> (forall x, (rank x <= size (threads (ks k)))%nat) ->
  let k1 := upd_thr t (with_error RT_EOK) (rt_spin_lock k) in
  exists k2, rt_thread_suspend_to_list t (Some (LSusp (OMutex m))) RT_IPC_FLAG_PRIO suspend_flag k1 = (k2, RT_EOK) /\
    let k3 := upd_thr t (with_pending (Some (OMutex m))) k2 in
    kinv k3 /\ is_susp (thr k3 t) = true /\ (forall m', get_mutex k3 m' = get_mutex k m') /\ is_Some (mutexes k3 !! m) /\
    (forall m' x, x ∈ msusp k3 m' <-> (x = t /\ m' = m) \/ x ∈ msusp k m') /\
    taken_object_list k3 = taken_object_list k /\ acyclic k3 /\
    (forall mp k4, k4 = set_mutex m (with_mpriority mp) k3 \/ (k4 = k3 /\ mp = mutex_priority (get_mutex k3 m)) ->
       mp <= mutex_priority (get_mutex k3 m) -> mp <= cur k3 t ->
       inherit_but k4 None (Some m) /\ (mp = mutex_priority (get_mutex k3 m) -> inherit k4)).
Proof.
  intros Hk Hi Hs Hth Hst Ho Hfl Hty Hr Hrt Hb k1.
  assert (Hk1 : kinv k1) by (apply kinv_upd_error; by apply kinv_spin_lock).
  assert (Hsame1 : inherit_same k k1) by (apply (inherit_same_trans k (rt_spin_lock k)); [done|by apply inherit_same_upd]).
  assert (Hi1 : inherit k1) by (by apply (inherit_same_but k)).
  assert (Hth1 : threads (ks k1) !! t = Some (with_error RT_EOK th)) by (by apply lookup_upd_eq).
  destruct (wait_on_spec t (LSusp (OMutex m)) RT_IPC_FLAG_PRIO 0 suspend_flag k1 _ Hk1 Hth1 Hst I)
    as (k2 & th2 & E2 & Hk2 & Ho2 & _ & Hl2 & Ht2 & _ & Hsu2 & _ & Hc2 & _).
  exists k2. split; [by rewrite suspend_eq_wait|]. cbv zeta.
  set (k3 := upd_thr t (with_pending (Some (OMutex m))) k2). assert (Hk3 : kinv k3) by (by apply kinv_upd_pending).
  assert (Hg3 : forall m', get_mutex k3 m' = get_mutex k m').
  { intros m'. unfold get_mutex, k3. cbn. injection Ho2 as _ _ -> _ _ _ _. done. }
  assert (Hl3 : forall m', msusp k3 m' = if decide (m = m') then prio_insert (ks k1) t (msusp k1 m) else msusp k1 m').
  { intros m'. change (msusp k3 m') with (susp_list k2 (LSusp (OMutex m'))). rewrite Hl2.
    destruct (decide (m = m')) as [<-|]; [by rewrite decide_True|]. by rewrite decide_False by congruence. }
  assert (Ht3 : forall t', threads (ks k3) !! t' =
     if decide (t = t') then Some (with_pending (Some (OMutex m)) th2) else threads (ks k1) !! t').
  { intros t'. unfold k3, upd_thr, on_ks. cbn [ks with_ks]. rewrite lookup_upd, Ht2. by case_decide. }
  assert (Hjoin := join_inherits k1 k3 t m (with_error RT_EOK th) (with_pending (Some (OMutex m)) th2) Hth1
    (running_not_susp th Hst) Hi1 Hfl Hty Ho2 Hl3 Ht3 (proj2 (is_susp_spec th2) Hsu2) eq_refl Hc2).
  assert (Hcur : forall x, cur k3 x = cur k1 x).
  { intros x. by apply (join_cur k1 k3 t (with_error RT_EOK th) (with_pending (Some (OMutex m)) th2)). }
  assert (Helem : forall m' x, x ∈ msusp k3 m' <-> (x = t /\ m' = m) \/ x ∈ msusp k m').
  { intros m' x. rewrite Hl3. destruct (decide (m = m')) as [<-|]; [rewrite prio_insert_perm, elem_of_cons; tauto|].
    split; [by right|]. intros [[-> ->]|?]; done. }
  split; [done|]. split.
  { unfold thr. rewrite (get_thread_lookup _ _ (with_pending (Some (OMutex m)) th2)) by (by rewrite Ht3, decide_True).
    by apply is_susp_spec. }
  split; [done|]. split.
  { unfold get_mutex in Hfl. destruct (mutexes k !! m) as [mx|] eqn:E; [|done]. exists mx. unfold k3. cbn.
    injection Ho2 as _ _ -> _ _ _ _. exact E. }
  split; [done|]. split; [unfold k3; cbn; by injection Ho2|]. split.
  - exists rank. split.
    + intros m' x o'. rewrite Helem, Hg3. intros [[-> ->]|Hx] Ho'; [congruence|by apply (Hr m')].
    + intros x. rewrite <- (size_threads_upd k k3 t th); [done|done|]. exists (with_pending (Some (OMutex m)) th2).
      intros t'. rewrite Ht3. destruct (decide (t = t')) as [<-|]; [done|].
      unfold k1, upd_thr, on_ks. cbn [ks with_ks]. by rewrite lookup_upd_ne.
  - intros mp k4. rewrite !Hg3, Hcur. apply Hjoin.
Qed.

(** C9: a thread that has to wait for a mutex is put on its list in order of
    priority, and priority inheritance is restored along the whole chain of
    owners: afterwards every owner of a mutex runs at least at the priority of
    each thread that waits for it, the new waiter included.  Ownership does not
    change. *)
Theorem rt_mutex_take_inherits (m : nat) (timeout suspend_flag : Z) (k : kstate) (t o : tid) (th : rt_thread)
    (rank : tid -> nat)
    (Hk : kinv k) (Hi : inherit k) (Hs : self k = Some t) (Hth : threads (ks k) !! t = Some th)
    (Hst : stat_of th = RT_THREAD_RUNNING) (Ho : owner (get_mutex k m) = Some o) (Hne : o <> t) (Htm : timeout <> 0)
    (Hfl : mutex_flag (get_mutex k m) = RT_IPC_FLAG_PRIO)
    (Hty : rt_object_get_type (ko k) (KIpc (OMutex m)) = RT_Object_Class_Mutex)
    (Hr : ranked k rank) (Hrt : (rank o < rank t)%nat) (Hb : forall x, (rank x <= size (threads (ks k)))%nat) :
  exists k', _rt_mutex_take m timeout suspend_flag k = Resched k' (PcMutexWait m) /\ kinv k' /\ inherit k' /\
    t ∈ msusp k' m /\ rt_sched_thread_is_suspended (ks k') t = true /\ mutex_frame_but k k' t m /\
    (forall m' x o', x ∈ msusp k' m' -> owner (get_mutex k' m') = Some o' ->
       rt_sched_thread_get_curr_prio (ks k') o' <= rt_sched_thread_get_curr_prio (ks k') x).
Proof.
  destruct (take_joins m suspend_flag k t o th rank) as (k2 & E2 & Hk3 & Hs3 & Hg3 & Hex3 & Helem & Htk3 & Hac & Hj); try done.
  set (k3 := upd_thr t (with_pending (Some (OMutex m))) k2) in *.
  destruct (inherit_from_ok m o t k3 Hk3 Hs3 ltac:(by rewrite Hg3) Hex3 Hac Hj) as (Hk4 & Hi4 & Hf4 & Hs4).
  set (k4 := inherit_from m o t k3) in *.
  set (k5 := if 0 <? timeout then thread_timer_arm t timeout k4 else k4).
  assert (Hex : is_Some (threads (ks k4) !! t)) by (by apply is_susp_exists).
  assert (Hk5 : kinv k5) by (unfold k5; case_match; [by apply kinv_thread_timer_arm|done]).
  assert (Hs5 : inherit_same k4 k5) by (unfold k5; case_match; [by apply inherit_same_arm; [apply Hk4|]|done]).
  assert (Hs6 : inherit_same k4 (spin_unlock k5)).
  { apply (inherit_same_trans k4 k5); [done|apply inherit_same_unlock]. }
  exists (spin_unlock k5). split.
  { unfold _rt_mutex_take. rewrite Hs. change (get_mutex (upd_thr t (with_error RT_EOK) (rt_spin_lock k)) m) with (get_mutex k m).
    rewrite Ho, decide_False by congruence. destruct (Z.eqb_spec timeout 0) as [|_]; [done|].
    rewrite Hfl. by rewrite E2. }
  assert (Hi6 : inherit (spin_unlock k5)) by (by apply (inherit_same_but k4)).
  split; [by apply kinv_spin_unlock|]. split; [done|].
  destruct Hs6 as (Hx1 & Hx2 & Hx3 & Hx4 & _). destruct Hf4 as (Hf1 & Hf2 & Hf3).
  assert (Hg6 : forall m', get_mutex (spin_unlock k5) m' = get_mutex k4 m') by (intros m'; unfold get_mutex; by rewrite Hx3).
  split; [rewrite Hx2; apply Hf2, Helem; by left|]. split.
  { change (is_susp (thr (spin_unlock k5) t) = true). by destruct (Hx1 t) as (-> & _). }
  split; [split; [|split]|].
  - intros m'. rewrite Hg6. destruct (Hf1 m') as (-> & -> & _). by rewrite Hg3.
  - intros m' x. rewrite Hx2, Hf2. apply Helem.
  - by rewrite Hx4, Hf3.
  - intros m' x o'. by apply inherit_owner.
Qed.

(** ** A kernel to start from: LOW holds mutex 0, HIGH runs *)
Fixpoint by_priob (c : tid -> Z) (l : list tid) : bool :=
  match l with [] => true | x :: l' => forallb (fun y => c x <=? c y) l' && by_priob c l' end.
Definition inheritb (k : kstate) : bool :=
  forallb (fun '(l, ts) => match l with
     | LSusp (OMutex m) =>
         by_priob (rt_sched_thread_get_curr_prio (ks k)) ts &&
         forallb (fun x => (mutex_flag (get_mutex k m) =? RT_IPC_FLAG_PRIO) &&
           (rt_object_get_type (ko k) (KIpc (OMutex m)) =? RT_Object_Class_Mutex) &&
           (mutex_priority (get_mutex k m) <=? rt_sched_thread_get_curr_prio (ks k) x) &&
           is_susp (thr k x) && bool_decide (pending_object (thr k x) = Some (OMutex m))) ts
     | _ => true end) (map_to_list (tlists (ks k))) &&
  forallb (fun '(t, th) => negb (is_susp th) || match pending_object th with
     | Some (OMutex m) => bool_decide (t ∈ msusp k m) | _ => true end) (map_to_list (threads (ks k))) &&
  forallb (fun '(m, mx) => match owner mx with
     | Some o => match threads (ks k) !! o with Some _ => true | None => false end && bool_decide (m ∈ taken k o) &&
                 (rt_sched_thread_get_curr_prio (ks k) o <=? mutex_priority mx)
     | None => true end) (map_to_list (mutexes k)).
Lemma by_priob_spec c l : by_priob c l = true -> by_prio c l.
Proof.
  induction l as [|x l IH]; simpl; [constructor|]. rewrite andb_true_iff, forallb_forall. intros [H1 H2].
  constructor; [by apply IH|]. apply Forall_forall. intros y Hy. apply Z.leb_le, H1. by apply list_elem_of_In.
Qed.
Lemma forallb_map {A} (f : nat -> A -> bool) (g : gmap nat A) :
  forallb (fun '(i, x) => f i x) (map_to_list g) = true -> forall i x, g !! i = Some x -> f i x = true.
Proof.
  rewrite forallb_forall. intros H i x Hx. apply elem_of_map_to_list, list_elem_of_In in Hx. by apply (H _ Hx).
Qed.
Lemma inheritb_inherit k : inheritb k = true -> inherit k.
Proof.
  unfold inheritb. rewrite !andb_true_iff. intros [[Hl Ht] Hm]. rewrite forallb_forall in Hl.
  assert (Hl' : forall m, by_prio (rt_sched_thread_get_curr_prio (ks k)) (msusp k m) /\ forall x, x ∈ msusp k m ->
     mutex_flag (get_mutex k m) = RT_IPC_FLAG_PRIO /\ rt_object_get_type (ko k) (KIpc (OMutex m)) = RT_Object_Class_Mutex /\
     mutex_priority (get_mutex k m) <= rt_sched_thread_get_curr_prio (ks k) x /\ waits k x m).
  { intros m. unfold msusp, susp_list, tlist, qget. destruct (tlists (ks k) !! LSusp (OMutex m)) as [ts|] eqn:E.
    - apply elem_of_map_to_list, list_elem_of_In in E. specialize (Hl _ E). cbn in Hl. apply andb_true_iff in Hl as [H1 H2].
      split; [by apply by_priob_spec|]. intros x Hx. rewrite forallb_forall in H2. specialize (H2 x).
      rewrite !andb_true_iff, !Z.eqb_eq, Z.leb_le, bool_decide_eq_true in H2.
      destruct H2 as [[[[? ?] ?] ?] ?]; [by apply list_elem_of_In|]. by split_and!.
    - split; [constructor|]. intros x Hx. by apply not_elem_of_nil in Hx. }
  constructor.
  - intros m x. split; [by intros Hx; apply (Hl' m)|]. intros [H1 H2]. unfold thr, get_thread in *.
    destruct (threads (ks k) !! x) as [th|] eqn:E; [|done]. simpl in *. pose proof (forallb_map _ _ Ht x th E) as H.
    simpl in H. rewrite H1, H2 in H. by apply bool_decide_eq_true in H.
  - intros m x Hx. by destruct (proj2 (Hl' m) x Hx) as (? & ? & _).
  - intros m. rewrite filter_all by done. apply Hl'.
  - intros m x Hx _. by apply (Hl' m).
  - intros m o Ho. unfold get_mutex in *. destruct (mutexes k !! m) as [mx|] eqn:E; [|done]. simpl in *.
    specialize (forallb_map _ _ Hm m mx E). simpl. rewrite Ho, !andb_true_iff. intros [[H1 H2] H3].
    destruct (threads (ks k) !! o) as [th|] eqn:Eo; [|done]. split; [by eexists|]. apply bool_decide_eq_true in H2.
    split; [done|]. intros _. by apply Z.leb_le.
Qed.
Definition low_holds : kstate :=
  let k := kschedule (outcome_state (_thread_sleep 5 booted)) in
  let k := outcome_state (_rt_mutex_take 0 RT_WAITING_FOREVER RT_UNINTERRUPTIBLE k) in
  fst (rt_thread_resume HIGH k).
Lemma low_holds_kinv : kinv low_holds.
Proof. apply kinvb_spec. vm_compute. reflexivity. Qed.
Lemma low_holds_inherit : inherit low_holds.
Proof. apply inheritb_inherit. vm_compute. reflexivity. Qed.
Lemma none_waits k m x :
  forallb (fun '(_, th) => negb (is_susp th)) (map_to_list (threads (ks k))) = true -> ~ waits k x m.
Proof.
  intros Hall [H _]. unfold thr, get_thread in H. destruct (threads (ks k) !! x) as [th|] eqn:E; [|done].
  pose proof (forallb_map (fun _ th => negb (is_susp th)) _ Hall x th E) as Hn. simpl in H, Hn. by rewrite H in Hn.
Qed.
Lemma rt_mutex_take_inherits_witness :
  owner (get_mutex low_holds 0) = Some LOW /\
  exists k', _rt_mutex_take 0 RT_WAITING_FOREVER RT_UNINTERRUPTIBLE low_holds = Resched k' (PcMutexWait 0) /\
    rt_sched_thread_get_curr_prio (ks k') LOW <= rt_sched_thread_get_curr_prio (ks k') HIGH.
Proof.
  assert (Ho : owner (get_mutex low_holds 0) = Some LOW) by (vm_compute; reflexivity). split; [exact Ho|].
  assert (H : exists th, threads (ks low_holds) !! HIGH = Some th /\ stat_of th = RT_THREAD_RUNNING).
  { eexists. split; vm_compute; reflexivity. }
  destruct H as (th & Hth & Hst).
  destruct (rt_mutex_take_inherits 0 RT_WAITING_FOREVER RT_UNINTERRUPTIBLE low_holds HIGH LOW th
    (fun x => if Nat.eqb x HIGH then 1%nat else 0%nat)) as (k' & H1 & _ & _ & H4 & _ & Hf & H6); try assumption.
  - exact low_holds_kinv.
  - exact low_holds_inherit.
  - vm_compute. reflexivity.
  - discriminate.
  - discriminate.
  - vm_compute. reflexivity.
  - vm_compute. reflexivity.
  - intros m x o Hx. exfalso. apply (ih_waits _ _ _ low_holds_inherit) in Hx. revert Hx. apply none_waits. vm_compute. reflexivity.
  - vm_compute. lia.
  - intros x. assert (E : size (threads (ks low_holds)) = 3%nat) by (vm_compute; reflexivity). rewrite E.
    destruct (Nat.eqb x HIGH); lia.
  - exists k'. split; [exact H1|]. apply (H6 0%nat HIGH LOW H4). destruct (proj1 Hf 0%nat) as [E _]. rewrite E. exact Ho.
Defined.

(** ** Releasing *)

(** [k']: the owner [t] of [m] gave it up, and may have lost priority. *)
Section handover.
Context (k k' : kstate) (t : tid) (m : nat).
Context (Hk : kinv k) (Hk' : kinv k') (Hi : inherit k).
Context (Hnw : forall m', t ∉ msusp k m').
Context (Hcur : forall x, x <> t -> cur k' x = cur k x).
Context (Hcurt : forall m', m' <> m -> owner (get_mutex k m') = Some t -> cur k' t <= mutex_priority (get_mutex k m')).
Context (Hother : forall m', m' <> m -> get_mutex k' m' = get_mutex k m').
Context (Hflag : mutex_flag (get_mutex k' m) = mutex_flag (get_mutex k m)).
Context (Hko : ko k' = ko k) (Hex : forall x, is_Some (threads (ks k) !! x) -> is_Some (threads (ks k') !! x)).
Context (Htaken : forall o m', m' <> m -> m' ∈ taken k o -> m' ∈ taken k' o).

Lemma handover_cur m' x : x ∈ msusp k m' -> cur k' x = cur k x.
Proof. intros Hx. apply Hcur. intros ->. by apply (Hnw m'). Qed.
Lemma handover_owner m' o : m' <> m -> owner (get_mutex k' m') = Some o ->
  is_Some (threads (ks k') !! o) /\ m' ∈ taken k' o /\ cur k' o <= mutex_priority (get_mutex k' m').
Proof.
  intros Hne Ho. rewrite Hother in * by done. destruct (ih_owner _ _ _ Hi m' o Ho) as (H1 & H2 & H3).
  split; [by apply Hex|]. split; [by apply Htaken|]. destruct (decide (o = t)) as [->|]; [by apply Hcurt|].
  rewrite Hcur by done. by apply H3.
Qed.

Lemma handover_none :
  msusp k m = [] -> (forall m', msusp k' m' = msusp k m') -> (forall m' x, waits k' x m' <-> waits k x m') ->
  owner (get_mutex k' m) = None -> inherit k'.
Proof.
  intros He Hl Hw Ho. pose proof Hi as [A B C D E]. constructor.
  - intros m' x. by rewrite Hl, Hw.
  - intros m' x. rewrite Hl, Hko. intros Hx. destruct (decide (m' = m)) as [->|]; [by rewrite He in Hx; apply not_elem_of_nil in Hx|].
    rewrite Hother by done. by apply (B m' x).
  - intros m'. rewrite Hl. apply (by_prio_ext (cur k)); [|apply C]. intros x [_ Hx]%list_elem_of_filter. by apply (handover_cur m').
  - intros m' x. rewrite Hl. intros Hx _. rewrite (handover_cur m') by done.
    destruct (decide (m' = m)) as [->|]; [by rewrite He in Hx; apply not_elem_of_nil in Hx|]. rewrite Hother by done. by apply D.
  - intros m' o Hmo. destruct (decide (m' = m)) as [->|]; [congruence|].
    destruct (handover_owner m' o) as (? & ? & ?); done.
Qed.

Lemma handover_next next rest :
  msusp k m = next :: rest -> msusp k' m = rest -> (forall m', m' <> m -> msusp k' m' = msusp k m') ->
  (forall m' x, waits k' x m' <-> waits k x m' /\ x <> next) ->
  owner (get_mutex k' m) = Some next -> m ∈ taken k' next ->
  mutex_priority (get_mutex k' m) = match rest with x :: _ => cur k' x | [] => 0xff end -> inherit k'.
Proof.
  intros Hm Hm' Hl Hw Ho Htk Hmp. pose proof Hi as [A B C D E].
  assert (Hnext : waits k next m) by (apply A; rewrite Hm; left).
  assert (Hin : forall m' x, x ∈ msusp k' m' -> x ∈ msusp k m').
  { intros m' x. destruct (decide (m' = m)) as [->|]; [rewrite Hm', Hm; by right|by rewrite Hl]. }
  assert (Hs : by_prio (rt_sched_thread_get_curr_prio (ks k)) (next :: rest)).
  { specialize (C m). rewrite filter_all in C by done. by rewrite Hm in C. }
  assert (Hnd : next ∉ rest).
  { pose proof (qwf_nodup _ (sw_q _ _ (swf_core _ (kw_s _ (ki_wf _ Hk)))) (LSusp (OMutex m))) as H.
    change (NoDup (msusp k m)) in H. rewrite Hm in H. by apply NoDup_cons in H as [? _]. }
  constructor.
  - intros m' x. rewrite Hw. destruct (decide (m' = m)) as [->|Hne].
    + rewrite Hm', <- A, Hm, elem_of_cons. split; [|tauto]. intros Hx. split; [by right|]. by intros ->.
    + rewrite Hl, A by done. split; [|tauto]. intros Hx. split; [done|]. intros ->. destruct Hx as [_ H1], Hnext as [_ H2]. congruence.
  - intros m' x Hx. rewrite Hko. destruct (B m' x (Hin _ _ Hx)) as [H1 H2]. split; [|done].
    destruct (decide (m' = m)) as [->|]; [by rewrite Hflag|by rewrite Hother].
  - intros m'. rewrite filter_all by done. apply (by_prio_ext (cur k)); [intros x Hx; apply (handover_cur m'); by apply Hin|].
    destruct (decide (m' = m)) as [->|Hne]; [rewrite Hm'; by apply StronglySorted_inv in Hs as [? _]|].
    specialize (C m'). rewrite filter_all in C by done. by rewrite Hl.
  - intros m' x Hx _. destruct (decide (m' = m)) as [->|Hne].
    + rewrite Hmp, (handover_cur m) by (by apply Hin). rewrite Hm' in *. destruct rest as [|y l]; [by apply not_elem_of_nil in Hx|].
      rewrite (handover_cur m) by (rewrite Hm; right; left). apply StronglySorted_inv in Hs as [Hs _]. by apply (by_prio_head _ y l).
    + rewrite (handover_cur m') by (by apply Hin). rewrite Hother by done. apply D; [by apply Hin|done].
  - intros m' o Hmo. destruct (decide (m' = m)) as [->|]; [|destruct (handover_owner m' o) as (? & ? & ?); done].
    rewrite Ho in Hmo. injection Hmo as <-. split; [|split; [done|]].
    { apply Hex. destruct Hnext as [H1 _]. by apply is_susp_exists. }
    intros _. rewrite Hmp. destruct rest as [|y l].
    + pose proof (curr_prio_range k' next Hk'). unfold RT_THREAD_PRIORITY_MAX in *. lia.
    + rewrite !(handover_cur m) by (rewrite Hm; repeat constructor). by apply (by_prio_head _ next (y :: l) y Hs); right; left.
Qed.
End handover.

Lemma check_prio_cases t m k :
  (_check_and_update_prio t m k).1 = k \/
  (_check_and_update_prio t m k).1 = on_ks (rt_sched_thread_change_priority t (_thread_get_mutex_priority t k)) k.
Proof. unfold _check_and_update_prio. case_match; [by right|by left]. Qed.

(** The owner [t] has given the mutex up, nobody has it yet. *)
Record given_up (k k3 : kstate) (t : tid) (m : nat) : Prop := {
  gu_kinv : kinv k3;
  gu_cur : forall x, x <> t -> cur k3 x = cur k x;
  gu_curt : forall m', m' <> m -> owner (get_mutex k m') = Some t -> cur k3 t <= mutex_priority (get_mutex k m');
  gu_msusp : forall m', msusp k3 m' = msusp k m';
  gu_thr : forall x, is_susp (thr k3 x) = is_susp (thr k x) /\ pending_object (thr k3 x) = pending_object (thr k x) /\
    (is_Some (threads (ks k) !! x) -> is_Some (threads (ks k3) !! x));
  gu_mutex : forall m', m' <> m -> get_mutex k3 m' = get_mutex k m';
  gu_flag : mutex_flag (get_mutex k3 m) = mutex_flag (get_mutex k m);
  gu_exists : is_Some (mutexes k3 !! m);
  gu_taken : taken_object_list k3 = qunlink m (taken_object_list k);
  gu_ko : ko k3 = ko k;
  gu_self : self k3 = self k;
}.
Definition relinquish (t : tid) (m : nat) (k : kstate) : kstate :=
  (_check_and_update_prio t m (taken_remove m (set_mutex m (fun x => with_hold (u8 (hold x - 1)) x) (rt_spin_lock k)))).1.

Lemma relinquish_ok t m k th :
  kinv k -> inherit k -> threads (ks k) !! t = Some th -> owner (get_mutex k m) = Some t -> given_up k (relinquish t m k) t m.
Proof.
  intros Hk Hi Hth Ho. unfold relinquish. set (k2 := taken_remove m _).
  assert (Hk2 : kinv k2) by (apply kinv_taken_remove, kinv_set_mutex; [mutex_field|by apply kinv_spin_lock]).
  assert (Hg : forall m', get_mutex k2 m' = if decide (m = m') then with_hold (u8 (hold (get_mutex k m) - 1)) (get_mutex k m) else get_mutex k m').
  { intros m'. unfold k2. change (get_mutex (taken_remove m ?x) m') with (get_mutex x m'). rewrite get_set_mutex.
    change (mutexes (rt_spin_lock k)) with (mutexes k). change (get_mutex (rt_spin_lock k)) with (get_mutex k).
    destruct (decide (m = m')) as [<-|]; [|done]. unfold get_mutex in Ho. by destruct (mutexes k !! m) eqn:E. }
  assert (Hx : is_Some (mutexes k2 !! m)).
  { unfold k2, set_mutex. cbn. rewrite lookup_alter, decide_True by done. unfold get_mutex in Ho.
    destruct (mutexes k !! m); [by eexists|done]. }
  assert (Hold : forall m', m' <> m -> owner (get_mutex k m') = Some t ->
     cur k t <= mutex_priority (get_mutex k m') /\ _thread_get_mutex_priority t k2 <= mutex_priority (get_mutex k m')).
  { intros m' Hne Hmo. destruct (ih_owner _ _ _ Hi m' t Hmo) as (_ & H2 & H3). split; [by apply H3|].
    pose proof (Hg m') as E. rewrite decide_False in E by done. rewrite <- E. apply mutex_prio_le.
    change (taken k2 t) with (qget (qunlink m (taken_object_list k)) t). rewrite qget_unlink. by apply elem_of_unlink. }
  assert (Hself : forall p, self (on_ks (rt_sched_thread_change_priority t p) k2) = self k2).
  { intros p. unfold self, on_ks, rt_sched_thread_change_priority. cbn [ks with_ks]. case_match; [|done].
    rewrite current_insert. cbn. by rewrite current_remove. }
  assert (Ht2 : is_Some (threads (ks k2) !! t)) by (exists th; exact Hth).
  destruct (check_prio_cases t m k2) as [->| ->].
  - constructor; try done; [intros m' H1 H2; by apply Hold| |]; [intros m' Hne|]; rewrite Hg; by case_decide.
  - set (p := _thread_get_mutex_priority t k2) in *. set (k3 := on_ks (rt_sched_thread_change_priority t p) k2).
    assert (Hk3 : kinv k3) by (apply kinv_change_priority; [by apply mutex_prio_range|done]).
    assert (Hc : forall x, cur k3 x = if decide (t = x) then p else cur k x) by (intros x; by apply (cur_change t p k2 x)).
    constructor; try done.
    + intros x Hne. by rewrite Hc, decide_False.
    + intros m' Hne Hmo. rewrite Hc, decide_True by done. by apply Hold.
    + intros m'. by apply (msusp_change t p k2).
    + intros x. destruct (thr_change t p k2 x Hk2) as [H1 H2]. split; [exact H1|]. split; [exact H2|].
      intros H. by apply is_Some_change.
    + intros m' Hne. change (get_mutex k2 m' = get_mutex k m'). by rewrite Hg, decide_False.
    + change (mutex_flag (get_mutex k2 m) = mutex_flag (get_mutex k m)). by rewrite Hg, decide_True.
    + apply Hself.
Qed.

(** The first waiter is made ready and becomes the owner. *)
Section passed.
Context (k k3 : kstate) (t : tid) (m : nat) (next : tid) (rest : list tid) (thn : rt_thread).
Context (Hk : kinv k) (Hi : inherit k) (Hgu : given_up k k3 t m).
Context (Hnt : is_susp (thr k t) = false) (Hs : self k = Some t).
Context (Hm : msusp k m = next :: rest) (Hthn : threads (ks k3) !! next = Some thn).

Definition passed_on : kstate :=
  _mutex_update_priority m (upd_thr next (with_pending None) (taken_insert next m
    (set_mutex m (fun x => with_hold 1 (with_owner (Some next) x)) (ready_state next (on_ks (tlist_remove next) k3))))).

Lemma passed_susp : suspended thn.
Proof.
  assert (Hw : waits k next m) by (apply (ih_waits _ _ _ Hi); rewrite Hm; left). destruct Hw as [Hw _].
  destruct (gu_thr _ _ _ _ Hgu next) as (E & _). rewrite Hw in E. unfold thr in E.
  rewrite (get_thread_lookup _ _ thn) in E by done. by apply is_susp_spec.
Qed.
Lemma passed_handover : mutex_handover m k3 = (passed_on, true).
Proof.
  unfold mutex_handover. rewrite (gu_msusp _ _ _ _ Hgu m), Hm. cbn [release_loop length].
  rewrite (gu_msusp _ _ _ _ Hgu m), Hm.
  assert (Hsu : is_susp (thr k3 next) = true).
  { unfold thr. rewrite (get_thread_lookup _ _ thn) by done. apply is_susp_spec, passed_susp. }
  rewrite thread_ready_ok.
  { unfold passed_on. change (RT_EOK =? RT_EOK) with true. cbn [negb]. cbv beta iota zeta. reflexivity. }
  apply (kwf_wakeable _ _ thn); [|done|apply passed_susp].
  apply (kinv_unlink_suspended next k3 Hsu (gu_kinv _ _ _ _ Hgu)).
Qed.
Lemma passed_next : next <> t.
Proof.
  intros ->. assert (Hw : waits k t m) by (apply (ih_waits _ _ _ Hi); rewrite Hm; left). destruct Hw. congruence.
Qed.
Definition thn' : rt_thread := with_pending None (restat RT_THREAD_READY (with_ttmr_set false thn)).
Lemma passed_ks : ks passed_on = upd_thread next (with_pending None) (wake next (upd_thread next (with_ttmr_set false) (tlist_remove next (ks k3)))).
Proof. unfold passed_on. by destruct (mutex_update_frame m (upd_thr next (with_pending None) (taken_insert next m
    (set_mutex m (fun x => with_hold 1 (with_owner (Some next) x)) (ready_state next (on_ks (tlist_remove next) k3)))))) as (-> & _). Qed.
Lemma passed_threads x : threads (ks passed_on) !! x = if decide (next = x) then Some thn' else threads (ks k3) !! x.
Proof.
  rewrite passed_ks, lookup_upd.
  assert (H1 : threads (upd_thread next (with_ttmr_set false) (tlist_remove next (ks k3))) !! next = Some (with_ttmr_set false thn))
    by (by apply lookup_upd_eq).
  rewrite !(threads_wake _ _ _ _ H1). case_decide as Hd; [|by rewrite lookup_upd_ne]. cbn [fmap option_fmap option_map].
  rewrite decide_False; [done|]. change (self k3 <> Some next). rewrite (gu_self _ _ _ _ Hgu), Hs. intros [= E]. by apply passed_next.
Qed.
Lemma passed_msusp m' : msusp passed_on m' = unlink next (msusp k m').
Proof.
  unfold msusp, susp_list. rewrite passed_ks. change (tlist (upd_thread next (with_pending None) ?s) ?l) with (tlist s l).
  assert (H1 : threads (upd_thread next (with_ttmr_set false) (tlist_remove next (ks k3))) !! next = Some (with_ttmr_set false thn))
    by (by apply lookup_upd_eq).
  rewrite (tlist_wake _ _ _ _ H1), decide_False by (by intros [_ ?]).
  change (tlist (upd_thread next (with_ttmr_set false) ?s) ?l) with (tlist s l).
  change (tlist (tlist_remove next (ks k3)) ?l) with (qget (qunlink next (tlists (ks k3))) l). rewrite qget_unlink.
  change (qget (tlists (ks k3)) (LSusp (OMutex m'))) with (msusp k3 m').
  rewrite (gu_msusp _ _ _ _ Hgu m'). unfold unlink. rewrite list_filter_filter. apply list_filter_iff. tauto.
Qed.
End passed.

Lemma kinv_fst {A} (x : kstate * A) k b : x = (k, b) -> kinv x.1 -> kinv k.
Proof. by intros ->. Qed.

Section passed_inherits.
Context (k k3 : kstate) (t : tid) (m : nat) (next : tid) (rest : list tid) (thn : rt_thread).
Context (Hk : kinv k) (Hi : inherit k) (Hgu : given_up k k3 t m).
Context (Hnt : is_susp (thr k t) = false) (Hs : self k = Some t).
Context (Hm : msusp k m = next :: rest) (Hthn : threads (ks k3) !! next = Some thn).
Notation k' := (passed_on k3 m next).

Lemma passed_kinv : kinv k'.
Proof.
  apply (kinv_fst (mutex_handover m k3) _ true); [|apply kinv_mutex_handover, Hgu].
  apply (passed_handover k k3 t m next rest thn); assumption.
Qed.
Lemma passed_cur x : cur k' x = cur k3 x.
Proof.
  unfold rt_sched_thread_get_curr_prio, get_thread. rewrite (passed_threads k k3 t m next rest thn) by done.
  case_decide as Hd; [|done]. subst x. by rewrite Hthn.
Qed.
Lemma passed_rest : msusp k' m = rest.
Proof.
  rewrite (passed_msusp k k3 t m next thn), Hm by done.
  pose proof (qwf_nodup _ (sw_q _ _ (swf_core _ (kw_s _ (ki_wf _ Hk)))) (LSusp (OMutex m))) as H.
  change (NoDup (msusp k m)) in H. rewrite Hm in H. apply NoDup_cons in H as [H _]. by apply unlink_head.
Qed.
Lemma passed_get m' : get_mutex k' m' =
  if decide (m = m') then with_mpriority (match rest with x :: _ => cur k' x | [] => 0xff end)
    (with_hold 1 (with_owner (Some next) (get_mutex k3 m))) else get_mutex k3 m'.
Proof.
  unfold passed_on. set (kb := upd_thr next _ _). rewrite mutex_update_get.
  assert (Hb : forall m0, get_mutex kb m0 =
    if decide (m = m0) then with_hold 1 (with_owner (Some next) (get_mutex k3 m)) else get_mutex k3 m0).
  { intros m0. change (get_mutex kb m0) with (get_mutex (set_mutex m (fun x => with_hold 1 (with_owner (Some next) x))
      (ready_state next (on_ks (tlist_remove next) k3))) m0). rewrite get_set_mutex.
    assert (Em : mutexes (ready_state next (on_ks (tlist_remove next) k3)) = mutexes k3) by (unfold ready_state; by case_match).
    unfold get_mutex at 2 4. rewrite Em. destruct (gu_exists _ _ _ _ Hgu) as [mx Hmx].
    destruct (decide (m = m0)) as [<-|].
    - unfold get_mutex. by rewrite Em, Hmx.
    - unfold get_mutex. by rewrite Em. }
  assert (Hx : is_Some (mutexes kb !! m)).
  { unfold kb. cbn. rewrite lookup_alter, decide_True by done. apply fmap_is_Some.
    destruct (gu_exists _ _ _ _ Hgu) as [mx Hmx]. exists mx. by destruct (sched_flag_ttmr_set _). }
  destruct (decide (m = m')) as [<-|Hne]; [|by rewrite Hb, decide_False].
  destruct Hx as [mx ->]. rewrite Hb, decide_True by done. f_equal.
  assert (Eks : ks kb = ks k') by (change (ks kb = ks (_mutex_update_priority m kb)); by destruct (mutex_update_frame m kb) as (-> & _)).
  assert (El : msusp kb m = rest) by (rewrite <- passed_rest; unfold msusp, susp_list; by rewrite Eks).
  rewrite El. destruct rest; [done|]. by rewrite Eks.
Qed.
Lemma passed_taken : taken_object_list k' = qpush_front next m (qunlink m (taken_object_list k)).
Proof.
  unfold passed_on. destruct (mutex_update_frame m (upd_thr next (with_pending None) (taken_insert next m
    (set_mutex m (fun x => with_hold 1 (with_owner (Some next) x)) (ready_state next (on_ks (tlist_remove next) k3)))))) as (_ & _ & ->).
  cbn. unfold ready_state. rewrite <- (gu_taken _ _ _ _ Hgu). by case_match.
Qed.
Lemma passed_inherits : inherit k'.
Proof.
  assert (Hnt' : next <> t) by (by apply (passed_next k k3 t m next rest thn)).
  apply (handover_next k k' t m Hk passed_kinv Hi) with (next := next) (rest := rest); try done.
  - intros m' Hx. apply (ih_waits _ _ _ Hi) in Hx as [Hx _]. congruence.
  - intros x Hx. rewrite passed_cur. by apply (gu_cur _ _ _ _ Hgu).
  - intros m' H1 H2. rewrite passed_cur. by apply (gu_curt _ _ _ _ Hgu).
  - intros m' Hne. rewrite passed_get, decide_False by done. by apply (gu_mutex _ _ _ _ Hgu).
  - rewrite passed_get, decide_True by done. cbn. apply (gu_flag _ _ _ _ Hgu).
  - transitivity (ko k3); [|apply (gu_ko _ _ _ _ Hgu)]. unfold passed_on. set (kb := upd_thr next _ _).
    destruct (mutex_update_frame m kb) as (_ & -> & _). unfold kb. cbn. unfold ready_state. by case_match.
  - intros x Hx. rewrite (passed_threads k k3 t m next rest thn) by done. case_decide; [by eexists|].
    by apply (gu_thr _ _ _ _ Hgu).
  - intros o m' Hne Hx. unfold taken. rewrite passed_taken. unfold qpush_front. rewrite qget_set.
    destruct (decide (next = o)) as [<-|]; [right|]; rewrite qget_unlink; by apply elem_of_unlink.
  - apply passed_rest.
  - intros m' Hne. rewrite (passed_msusp k k3 t m next thn) by done. apply unlink_not_in. intros Hx.
    assert (Hy : next ∈ msusp k m) by (rewrite Hm; left).
    apply (ih_waits _ _ _ Hi) in Hx as [_ Hx], Hy as [_ Hy]. congruence.
  - intros m' x. unfold waits. destruct (decide (x = next)) as [->|Hne].
    + split; [|by intros [_ ?]]. unfold thr, get_thread. rewrite (passed_threads k k3 t m next rest thn), decide_True by done.
      intros [_ H]. done.
    + assert (E : thr k' x = thr k3 x).
      { unfold thr, get_thread. by rewrite (passed_threads k k3 t m next rest thn), decide_False by done. }
      rewrite E. destruct (gu_thr _ _ _ _ Hgu x) as (-> & -> & _). tauto.
  - by rewrite passed_get, decide_True.
  - unfold taken. rewrite passed_taken. unfold qpush_front. rewrite qget_set, decide_True by done. left.
  - by rewrite passed_get, decide_True.
Qed.
End passed_inherits.

(** The mutex without waiters after its last release. *)
Definition freed (k3 : kstate) (m : nat) : kstate := set_mutex m (fun x => with_mpriority 0xff (with_owner None x)) k3.
Lemma freed_get k k3 t m m' : given_up k k3 t m ->
  get_mutex (freed k3 m) m' = if decide (m = m') then with_mpriority 0xff (with_owner None (get_mutex k3 m)) else get_mutex k3 m'.
Proof.
  intros Hgu. unfold freed. rewrite get_set_mutex. destruct (gu_exists _ _ _ _ Hgu) as [mx Hmx].
  destruct (decide (m = m')) as [<-|]; [by rewrite Hmx|done].
Qed.
Lemma freed_handover k k3 t m : given_up k k3 t m -> msusp k m = [] -> mutex_handover m k3 = (freed k3 m, false).
Proof. intros Hgu Hm. unfold mutex_handover. by rewrite (gu_msusp _ _ _ _ Hgu m), Hm. Qed.
Lemma freed_inherits k k3 t m :
  kinv k -> inherit k -> given_up k k3 t m -> is_susp (thr k t) = false -> msusp k m = [] -> inherit (freed k3 m).
Proof.
  intros Hk Hi Hgu Hnt Hm. pose proof (freed_get k k3 t m) as Hg.
  assert (Hk' : kinv (freed k3 m)) by (apply kinv_set_mutex; [mutex_field|apply Hgu]).
  apply (handover_none k (freed k3 m) t m Hi); try done.
  - intros m' Hx. apply (ih_waits _ _ _ Hi) in Hx as [Hx _]. congruence.
  - intros x Hx. by apply (gu_cur _ _ _ _ Hgu).
  - intros m' H1 H2. by apply (gu_curt _ _ _ _ Hgu).
  - intros m' Hne. rewrite Hg, decide_False by done. by apply (gu_mutex _ _ _ _ Hgu).
  - apply (gu_ko _ _ _ _ Hgu).
  - intros x Hx. by apply (gu_thr _ _ _ _ Hgu).
  - intros o m' Hne Hx. unfold taken, freed. cbn. rewrite (gu_taken _ _ _ _ Hgu).
    change (m' ∈ qget (qunlink m (taken_object_list k)) o). rewrite qget_unlink. by apply elem_of_unlink.
  - intros m'. by apply (gu_msusp _ _ _ _ Hgu).
  - intros m' x. unfold waits. change (thr (freed k3 m) x) with (thr k3 x).
    destruct (gu_thr _ _ _ _ Hgu x) as (-> & -> & _). done.
  - by rewrite Hg, decide_True.
Qed.

Lemma thr_spin_unlock k x : thr (spin_unlock k) x = thr k x.
Proof. unfold thr, get_thread, spin_unlock, on_ks, exit_critical_nest. cbn [ks with_ks]. by case_match. Qed.
Lemma get_mutex_unlock k m : get_mutex (spin_unlock k) m = get_mutex k m.
Proof. done. Qed.
Lemma taken_unlock k t : taken (spin_unlock k) t = taken k t.
Proof. done. Qed.
Lemma inherit_hold m (v : rt_mutex -> Z) k : inherit k -> inherit (set_mutex m (fun x => with_hold (v x) x) k).
Proof.
  intros [A B C D E]. assert (Hg : forall m', get_mutex (set_mutex m (fun x => with_hold (v x) x) k) m' = get_mutex k m' \/
    get_mutex (set_mutex m (fun x => with_hold (v x) x) k) m' = with_hold (v (get_mutex k m')) (get_mutex k m')).
  { intros m'. rewrite get_set_mutex. destruct (decide (m = m')) as [<-|]; [|by left]. destruct (mutexes k !! m); tauto. }
  constructor; try done.
  - intros m' x Hx. destruct (B m' x Hx). by destruct (Hg m') as [->| ->].
  - intros m' x Hx Hn. specialize (D m' x Hx Hn). by destruct (Hg m') as [->| ->].
  - intros m' o Ho. destruct (E m' o) as (H1 & H2 & H3); [by destruct (Hg m') as [<-|Hq]; [|rewrite Hq in Ho]|].
    split; [done|]. split; [done|]. destruct (Hg m') as [->| ->]; exact H3.
Qed.

(** The last release, after the priority of the one releasing is set. *)
Lemma release_last k k3 t m (b : bool) :
  kinv k -> inherit k -> given_up k k3 t m -> is_susp (thr k t) = false -> self k = Some t ->
  exists k' p,
    (let '(k, handed) := mutex_handover m k3 in
     if b || handed then Resched (spin_unlock k) (PcSchedule RT_EOK) else Resched (spin_unlock k) (PcRet RT_EOK [])) = Resched k' p /\
    kinv k' /\ inherit k' /\ (forall m', m' <> m -> get_mutex k' m' = get_mutex k m') /\ m ∉ taken k' t /\
    match msusp k m with
    | next :: rest =>
        p = PcSchedule RT_EOK /\ owner (get_mutex k' m) = Some next /\ hold (get_mutex k' m) = 1 /\
        msusp k' m = rest /\ m ∈ taken k' next /\ stat_of (thr k' next) = RT_THREAD_READY
    | [] => owner (get_mutex k' m) = None /\ msusp k' m = [] /\ (p = PcRet RT_EOK [] \/ p = PcSchedule RT_EOK)
    end.
Proof.
  intros Hk Hi Hgu Hns Hs.
  assert (Hu : forall k4, kinv k4 -> inherit k4 -> kinv (spin_unlock k4) /\ inherit (spin_unlock k4)).
  { intros k4 H1 H2. split; [by apply kinv_spin_unlock|]. by apply (inherit_same_but k4); [apply inherit_same_unlock|]. }
  destruct (msusp k m) as [|next rest] eqn:Hm.
  - rewrite (freed_handover k k3 t m) by done. rewrite orb_false_r.
    exists (spin_unlock (freed k3 m)), (if b then PcSchedule RT_EOK else PcRet RT_EOK []).
    split; [by destruct b|]. destruct (Hu (freed k3 m)) as [H1 H2].
    { apply kinv_set_mutex; [mutex_field|apply Hgu]. } { by apply (freed_inherits k k3 t m). }
    split; [done|]. split; [done|]. split; [|split].
    + intros m' Hne. change (get_mutex (freed k3 m) m' = get_mutex k m'). rewrite (freed_get k k3 t m), decide_False by done.
      by apply (gu_mutex _ _ _ _ Hgu).
    + change (m ∉ qget (taken_object_list k3) t). rewrite (gu_taken _ _ _ _ Hgu), qget_unlink. rewrite elem_of_unlink. tauto.
    + split; [change (owner (get_mutex (freed k3 m) m) = None); by rewrite (freed_get k k3 t m), decide_True|].
      split; [|destruct b; tauto]. transitivity (msusp k3 m); [|by rewrite (gu_msusp _ _ _ _ Hgu m)].
      apply (inherit_same_unlock (freed k3 m)).
  - destruct (is_susp_exists k3 next) as [thn Hthn].
    { assert (Hw : waits k next m) by (apply (ih_waits _ _ _ Hi); rewrite Hm; left). destruct Hw as [Hw _].
      by destruct (gu_thr _ _ _ _ Hgu next) as (-> & _). }
    rewrite (passed_handover k k3 t m next rest thn), orb_true_r by done.
    exists (spin_unlock (passed_on k3 m next)), (PcSchedule RT_EOK). split; [done|].
    destruct (Hu (passed_on k3 m next)) as [H1 H2].
    { by apply (passed_kinv k k3 t m next rest thn). } { by apply (passed_inherits k k3 t m next rest thn). }
    split; [done|]. split; [done|].
    pose proof (passed_get k k3 t m next rest thn) as Hg.
    pose proof (passed_taken k k3 t m next) as Ht.
    split; [|split; [|split; [done|]]].
    + intros m' Hne. rewrite get_mutex_unlock, Hg, decide_False by done.
      by apply (gu_mutex _ _ _ _ Hgu).
    + rewrite taken_unlock. unfold taken. rewrite Ht by done. unfold qpush_front. rewrite qget_set.
      rewrite decide_False by (by apply (passed_next k k3 t m next rest thn)). rewrite qget_unlink, elem_of_unlink. tauto.
    + rewrite get_mutex_unlock, Hg, decide_True by done. split; [done|]. split; [done|]. split.
      { transitivity (msusp (passed_on k3 m next) m); [apply (inherit_same_unlock (passed_on k3 m next))|].
        by apply (passed_rest k k3 t m next rest thn). }
      split.
      * rewrite taken_unlock. unfold taken. rewrite Ht by done. unfold qpush_front.
        rewrite qget_set, decide_True by done. left.
      * rewrite thr_spin_unlock. unfold thr, get_thread. rewrite (passed_threads k k3 t m next rest thn), decide_True by done.
        unfold thn'. change (stat_of (restat RT_THREAD_READY (with_ttmr_set false thn)) = RT_THREAD_READY).
        by apply stat_of_restat.
Qed.

(** HIGH waits for the mutex of LOW, which runs. *)
Definition high_blocked : kstate :=
  kschedule (outcome_state (_rt_mutex_take 0 RT_WAITING_FOREVER RT_UNINTERRUPTIBLE low_holds)).
Lemma high_blocked_kinv : kinv high_blocked.
Proof. apply kinvb_spec. vm_compute. reflexivity. Qed.
Lemma high_blocked_inherit : inherit high_blocked.
Proof. apply inheritb_inherit. vm_compute. reflexivity. Qed.

(** ** Taking without waiting *)
Lemma update_priority_running t p k :
  kinv k -> is_susp (thr k t) = false -> _thread_update_priority t p k = on_ks (rt_sched_thread_change_priority t p) k.
Proof.
  intros Hk Hs. unfold _thread_update_priority, update_fuel. apply update_loop_free. intros m [H _].
  destruct (thr_change t p k t Hk) as [E _]. congruence.
Qed.

(** [k']: the free mutex [m] was given to [t], whose priority may have become the
    ceiling. *)
Lemma take_free_inherits k k' t m :
  inherit k -> msusp k m = [] -> (forall m', t ∉ msusp k m') ->
  (forall m', msusp k' m' = msusp k m') -> (forall m' x, waits k' x m' <-> waits k x m') ->
  (forall x, x <> t -> cur k' x = cur k x) -> cur k' t <= cur k t -> cur k' t <= 0xff ->
  (forall m', m' <> m -> get_mutex k' m' = get_mutex k m') -> owner (get_mutex k' m) = Some t ->
  mutex_priority (get_mutex k' m) = 0xff -> m ∈ taken k' t ->
  (forall o m', m' <> m -> m' ∈ taken k o -> m' ∈ taken k' o) -> ko k' = ko k ->
  (forall x, is_Some (threads (ks k) !! x) -> is_Some (threads (ks k') !! x)) -> is_Some (threads (ks k) !! t) -> inherit k'.
Proof.
  intros [A B C D E] He Hnt Hl Hw Hc Hct Hcm Hg Ho Hmp Htk Hto Hko Hex Ht.
  assert (Hne : forall m' x, x ∈ msusp k m' -> m' <> m /\ cur k' x = cur k x).
  { intros m' x Hx. split; [|apply Hc; intros ->; by apply (Hnt m')]. intros ->. rewrite He in Hx. by apply not_elem_of_nil in Hx. }
  constructor.
  - intros m' x. by rewrite Hl, Hw.
  - intros m' x. rewrite Hl, Hko. intros Hx. rewrite Hg by (by apply (Hne m' x)). by apply (B m' x).
  - intros m'. rewrite Hl. apply (by_prio_ext (cur k)); [|apply C]. intros x [_ Hx]%list_elem_of_filter. by apply (Hne m').
  - intros m' x. rewrite Hl. intros Hx _. destruct (Hne m' x Hx) as [Hm ->]. rewrite Hg by done. by apply D.
  - intros m' o Hmo. destruct (decide (m' = m)) as [->|Hm].
    + rewrite Ho in Hmo. injection Hmo as <-. split; [by apply Hex|]. split; [done|]. intros _. lia.
    + rewrite Hg in * by done. destruct (E m' o Hmo) as (H1 & H2 & H3). split; [by apply Hex|]. split; [by apply Hto|].
      intros _. specialize (H3 ltac:(done)). destruct (decide (o = t)) as [->|]; [lia|by rewrite Hc].
Qed.

(** What the ceiling of a free mutex does to the thread that takes it. *)
Definition to_ceiling (t : tid) (m : nat) (k : kstate) : kstate :=
  let ceiling := ceiling_priority (get_mutex k m) in
  if negb (ceiling =? 0xff) && (ceiling <? rt_sched_thread_get_curr_prio (ks k) t)
  then _thread_update_priority t ceiling k else k.
Record at_ceiling (k k' : kstate) (t : tid) (c : Z) : Prop := {
  ac_cur : forall x, x <> t -> cur k' x = cur k x;
  ac_self : cur k' t <= cur k t /\ cur k' t <= c;
  ac_susp : forall m, msusp k' m = msusp k m;
  ac_waits : forall m x, waits k' x m <-> waits k x m;
  ac_rest : mutexes k' = mutexes k /\ taken_object_list k' = taken_object_list k /\ ko k' = ko k;
  ac_ex : forall x, is_Some (threads (ks k) !! x) -> is_Some (threads (ks k') !! x);
}.
Lemma to_ceiling_ok t m k :
  kinv k -> is_Some (threads (ks k) !! t) -> is_susp (thr k t) = false ->
  at_ceiling k (to_ceiling t m k) t (ceiling_priority (get_mutex k m)).
Proof.
  intros Hk Ht Hs. unfold to_ceiling. set (c := ceiling_priority _). pose proof (curr_prio_range k t Hk) as Hr.
  unfold RT_THREAD_PRIORITY_MAX in Hr. destruct (negb (c =? 0xff) && _) eqn:E.
  - rewrite update_priority_running by done. apply andb_true_iff in E as [_ E%Z.ltb_lt].
    constructor; [| | | |done|].
    + intros x Hx. rewrite cur_change by done. by rewrite decide_False.
    + rewrite cur_change, decide_True by done. lia.
    + intros m'. by apply msusp_change.
    + intros m' x. unfold waits. by destruct (thr_change t c k x Hk) as [-> ->].
    + intros x. by apply is_Some_change.
  - constructor; try done. split; [lia|]. apply andb_false_iff in E as [E|E%Z.ltb_ge]; [|done].
    apply negb_false_iff, Z.eqb_eq in E. rewrite E. lia.
Qed.

Lemma take_free_ok t m k (mx : rt_mutex) :
  kinv k -> inherit k -> is_Some (threads (ks k) !! t) -> is_susp (thr k t) = false ->
  mutexes k !! m = Some mx -> msusp k m = [] ->
  let k2 := set_mutex m (fun x => with_hold 1 (with_mpriority 0xff (with_owner (Some t) x))) k in
  let k' := spin_unlock (taken_insert t m (to_ceiling t m k2)) in
  inherit k' /\ owner (get_mutex k' m) = Some t /\ hold (get_mutex k' m) = 1 /\ m ∈ taken k' t /\
  cur k' t <= ceiling_priority mx.
Proof.
  intros Hk Hi Ht Hs Hmx He k2. assert (Hg2 : forall m', get_mutex k2 m' =
      if decide (m = m') then with_hold 1 (with_mpriority 0xff (with_owner (Some t) mx)) else get_mutex k m').
  { intros m'. unfold k2. rewrite get_set_mutex, Hmx. unfold get_mutex. by rewrite Hmx. }
  assert (Hk2 : kinv k2) by (apply kinv_set_mutex; [mutex_field|done]).
  destruct (to_ceiling_ok t m k2 Hk2 Ht Hs) as [Hc [Hct Hcc] Hl Hw (Hm3 & Ht3 & Ho3) Hex].
  rewrite Hg2, decide_True in Hcc by done. set (k3 := to_ceiling t m k2) in *. set (k4 := taken_insert t m k3). cbv zeta.
  assert (Hg3 : forall m', get_mutex k4 m' = get_mutex k2 m') by (intros m'; unfold get_mutex, k4; cbn; by rewrite Hm3).
  assert (Htk : forall x m', m' ∈ taken k4 x <-> (x = t /\ m' = m) \/ m' ∈ taken k x).
  { intros x m'. unfold taken, k4. cbn. rewrite Ht3. unfold qpush_front. rewrite qget_set. change (taken_object_list k2) with (taken_object_list k).
    destruct (decide (t = x)) as [<-|Hx]; [rewrite elem_of_cons|]; naive_solver. }
  assert (Hi4 : inherit k4).
  { pose proof (curr_prio_range k t Hk) as Hr. unfold RT_THREAD_PRIORITY_MAX in Hr. change (cur k2 t) with (cur k t) in Hct.
    apply (take_free_inherits k k4 t m Hi He); try done.
    - intros m' Hx. apply (ih_waits _ _ _ Hi) in Hx. destruct Hx. congruence.
    - change (cur k3 t <= 0xff). lia.
    - intros m' Hm. by rewrite Hg3, Hg2, decide_False.
    - by rewrite Hg3, Hg2, decide_True.
    - by rewrite Hg3, Hg2, decide_True.
    - apply Htk. by left.
    - intros o m' _ Ho. apply Htk. by right. }
  destruct (inherit_same_unlock k4) as (Hth & _). destruct (Hth t) as (_ & _ & Hcu & _).
  split; [apply (inherit_same_but k4); [apply inherit_same_unlock|done]|].
  rewrite get_mutex_unlock, Hg3, Hg2, decide_True by done. split; [done|]. split; [done|].
  split; [rewrite taken_unlock; apply Htk; by left|]. rewrite Hcu. exact Hcc.
Qed.

(** C11: taking a free mutex gives it to the caller with a hold of one and raises
    the caller to the ceiling of the mutex; taking one's own counts the hold up to
    255 and fails with [-RT_EFULL] beyond; a mutex of another thread fails with
    [-RT_ETIMEOUT] if the call must not wait.  Priority inheritance keeps
    holding. *)
Theorem rt_mutex_take_now_spec (m : nat) (timeout suspend_flag : Z) (k : kstate) (t : tid) (th : rt_thread) (mx : rt_mutex)
    (Hk : kinv k) (Hi : inherit k) (Hs : self k = Some t) (Hth : threads (ks k) !! t = Some th)
    (Hst : stat_of th = RT_THREAD_RUNNING) (Hmx : mutexes k !! m = Some mx) (Hh : 0 <= hold mx <= RT_MUTEX_HOLD_MAX)
    (Hnow : timeout = 0 \/ owner mx = None \/ owner mx = Some t) (Hfree : owner mx = None -> msusp k m = []) :
  exists k' rc, _rt_mutex_take m timeout suspend_flag k = Resched k' (PcRet rc []) /\ kinv k' /\ inherit k' /\
    match owner mx with
    | None => rc = RT_EOK /\ owner (get_mutex k' m) = Some t /\ hold (get_mutex k' m) = 1 /\ m ∈ taken k' t /\
        rt_sched_thread_get_curr_prio (ks k') t <= ceiling_priority mx
    | Some o =>
        if decide (o = t) then
          if hold mx <? RT_MUTEX_HOLD_MAX
          then rc = RT_EOK /\ get_mutex k' m = with_hold (hold mx + 1) mx
          else rc = - RT_EFULL /\ mutexes k' = mutexes k
        else rc = - RT_ETIMEOUT /\ mutexes k' = mutexes k /\ error (thr k' t) = RT_ETIMEOUT
    end.
Proof.
  pose proof (kinv_mutex_take m timeout suspend_flag k Hk) as Hkt. unfold _rt_mutex_take in *. rewrite Hs in *.
  set (k1 := upd_thr t (with_error RT_EOK) (rt_spin_lock k)) in *.
  assert (Hi1 : inherit k1).
  { apply (inherit_same_but k); [|done]. apply (inherit_same_trans k (rt_spin_lock k)); [done|by apply inherit_same_upd]. }
  assert (Hg : get_mutex k1 m = mx) by (change (get_mutex k m = mx); unfold get_mutex; by rewrite Hmx). rewrite Hg in *.
  assert (Hth1 : threads (ks k1) !! t = Some (with_error RT_EOK th)) by (by apply lookup_upd_eq).
  destruct (owner mx) as [o|] eqn:Ho.
  - destruct (decide (o = t)) as [->|Hne].
    + rewrite decide_True in * by done. destruct (Z.ltb_spec (hold mx) RT_MUTEX_HOLD_MAX) as [Hlt|Hge].
      * eexists _, _. split; [done|]. split; [done|]. split.
        { apply (inherit_same_but (set_mutex m (fun x => with_hold (u8 (hold x + 1)) x) k1)); [apply inherit_same_unlock|].
          by apply (inherit_hold m (fun x => u8 (hold x + 1))). }
        split; [done|]. rewrite get_mutex_unlock, get_set_mutex, decide_True by done.
        change (mutexes k1) with (mutexes k). rewrite Hmx, Hg. f_equal. unfold u8. apply Z.mod_small.
        unfold RT_MUTEX_HOLD_MAX in *. lia.
      * eexists _, _. split; [done|]. split; [done|]. split; [|done].
        apply (inherit_same_but k1); [apply inherit_same_unlock|done].
    + rewrite decide_False in * by congruence. destruct Hnow as [->|[?|?]]; [|done|congruence].
      change (0 =? 0) with true in *. cbv iota in *. eexists _, _. split; [done|]. split; [done|]. split.
      { apply (inherit_same_but k1); [|done]. eapply inherit_same_trans; [|apply inherit_same_unlock]. by apply inherit_same_upd. }
      split; [done|]. split; [done|]. rewrite thr_spin_unlock. unfold thr.
      by rewrite (get_thread_lookup _ _ (with_error RT_ETIMEOUT (with_error RT_EOK th))) by (by apply lookup_upd_eq).
  - rewrite decide_False in * by done. eexists _, _. split; [done|]. split; [done|].
    assert (Hk1 : kinv k1) by (apply kinv_upd_error; by apply kinv_spin_lock).
    assert (Hs1 : is_susp (thr k1 t) = false).
    { unfold thr. rewrite (get_thread_lookup _ _ _ Hth1). by apply running_not_susp. }
    destruct (take_free_ok t m k1 mx Hk1 Hi1 ltac:(by eexists) Hs1 Hmx (Hfree eq_refl)) as (H1 & H2 & H3 & H4 & H5).
    split; [exact H1|]. split; [done|]. by split.
Qed.
Lemma rt_mutex_take_now_spec_witness :
  owner (get_mutex booted 0) = None /\
  exists k', _rt_mutex_take 0 0 RT_UNINTERRUPTIBLE booted = Resched k' (PcRet RT_EOK []) /\
    owner (get_mutex k' 0) = Some HIGH /\ hold (get_mutex k' 0) = 1.
Proof.
  assert (Ho : owner (get_mutex booted 0) = None) by (vm_compute; reflexivity). split; [exact Ho|].
  assert (H : exists th, threads (ks booted) !! HIGH = Some th /\ stat_of th = RT_THREAD_RUNNING).
  { eexists. split; vm_compute; reflexivity. }
  destruct H as (th & Hth & Hst).
  assert (H : exists mx, mutexes booted !! 0%nat = Some mx /\ hold mx = 0 /\ owner mx = None).
  { eexists. split; [vm_compute; reflexivity|]. split; reflexivity. }
  destruct H as (mx & Hmx & Hh & Ho').
  assert (Hi : inherit booted) by (apply inheritb_inherit; vm_compute; reflexivity).
  assert (Hs : self booted = Some HIGH) by (vm_compute; reflexivity).
  assert (He : msusp booted 0 = []) by (vm_compute; reflexivity).
  destruct (rt_mutex_take_now_spec 0 0 RT_UNINTERRUPTIBLE booted HIGH th mx booted_kinv Hi Hs Hth Hst Hmx)
    as (k' & rc & H1 & _ & _ & H2).
  - rewrite Hh. unfold RT_MUTEX_HOLD_MAX. lia.
  - left. reflexivity.
  - intros _. exact He.
  - rewrite Ho' in H2. destruct H2 as (-> & H2 & H3 & _). exists k'. split; [exact H1|]. split; [exact H2|exact H3].
Defined.
