(* ===== verification/MbProps.v ===== *)
(** * Properties of mailboxes

    The calls are the operations of a bounded queue of words. *)
From S2P Require Import Prelude Ring Queue Object Sched SchedFacts TimerCore TimerFacts Kernel KernelFacts.
From S2P Require Import Sem Timer KInv IpcInv WaitFacts SemTake MailboxOps MbFacts CallInv Demo.

Lemma kinv_store_mb k m mb : kinv k -> kinv (store_mb m mb k).
Proof. intros Hk. by apply kinv_with_mbs. Qed.

(** C13: a mailbox is a bounded queue of words.  Sending appends the word when there
    is room and wakes the first waiting receiver; a full mailbox refuses with
    [-RT_EFULL] if the call must not wait, and otherwise suspends the sender on
    the list of senders, its contents unchanged. *)
Theorem rt_mb_send_wait_spec (m : nat) (value timeout suspend_flag : Z) (k : kstate) (mb : rt_mailbox) (t : tid)
    (th : rt_thread) (Hk : kinv k) (Hm : mbs k !! m = Some mb) (Hok : mb_ok mb) (Hs : self k = Some t)
    (Hth : threads (ks k) !! t = Some th) (Hst : stat_of th = RT_THREAD_RUNNING) :
  if Z.of_nat (length (mb_contents mb)) <? mb_size mb then
    exists mb', mb_ok mb' /\ mb_contents mb' = mb_contents mb ++ [value] /\
      let k1 := store_mb m mb' k in
      match susp_list k (LSusp (OMb m)) with
      | [] => _rt_mb_send_wait m value timeout suspend_flag k = Done k1 RT_EOK []
      | w :: rest => exists k', _rt_mb_send_wait m value timeout suspend_flag k = Resched k' (PcRet RT_EOK []) /\
                       woken (LSusp (OMb m)) w rest k1 k'
      end
  else if timeout =? 0 then _rt_mb_send_wait m value timeout suspend_flag k = Done k (- RT_EFULL) []
  else exists k' d, _rt_mb_send_wait m value timeout suspend_flag k = Resched k' (PcMbSend m value timeout d suspend_flag) /\
         waiting (LSend (OMb m)) (mb_flag mb) t timeout (- RT_EINTR) k k' /\
         d = if 0 <? timeout then rt_tick (kt k) else 0.
Proof.
  rewrite length_mb_contents by done. unfold _rt_mb_send_wait, mb_send_loop. rewrite (get_mb_lookup _ _ mb) by done.
  pose proof (mo_entry _ Hok) as He. destruct (Z.ltb_spec (mb_entry mb) (mb_size mb)) as [Hlt|Hge].
  - destruct (Z.eqb_spec (mb_entry mb) (mb_size mb)) as [|_]; [lia|]. cbn [andb]. rewrite (mb_send_put_eq m value k mb) by done.
    destruct (mb_append_ok value mb Hok Hlt) as [Hok' Hc]. exists (mb_append value mb). split; [done|]. split; [done|].
    apply (wake_or_done (LSusp (OMb m)) (store_mb m (mb_append value mb) k) RT_EOK []); [by apply kinv_store_mb|done].
  - destruct (Z.eqb_spec (mb_entry mb) (mb_size mb)) as [_|]; [|lia]. cbn [andb]. destruct (timeout =? 0); [done|]. rewrite Hs.
    change (get_mb (upd_thr t (with_error (- RT_EINTR)) k) m) with (get_mb k m). rewrite (get_mb_lookup _ _ mb) by done.
    destruct (wait_on_waiting t (LSend (OMb m)) (mb_flag mb) timeout suspend_flag (with_error (- RT_EINTR)) k th)
      as (k' & -> & Hw); try done; [by apply kinv_upd_error|].
    eexists k', _. split; [reflexivity|]. split; [exact Hw|done].
Qed.
(** The mailbox of the booted kernel, and one that holds 7 and 8 with its end
    wrapped around. *)
Definition mb_empty : rt_mailbox := Mailbox RT_IPC_FLAG_FIFO [0; 0; 0] 3 0 0 0.
Definition mb_two : rt_mailbox := Mailbox RT_IPC_FLAG_FIFO [8; 0; 7] 3 2 1 2.
Lemma mb_empty_ok : mb_ok mb_empty.
Proof. constructor; vm_compute; intuition congruence. Qed.
Lemma mb_two_ok : mb_ok mb_two.
Proof. constructor; vm_compute; intuition congruence. Qed.
Lemma booted_mb : mbs booted !! 0%nat = Some mb_empty.
Proof. vm_compute. reflexivity. Qed.
Definition booted_two : kstate := store_mb 0 mb_two booted.
Lemma booted_two_kinv : kinv booted_two.
Proof. apply kinv_store_mb, booted_kinv. Qed.
Lemma booted_two_mb : mbs booted_two !! 0%nat = Some mb_two.
Proof. exact (lookup_insert_eq (mbs booted) 0%nat mb_two). Qed.
Lemma booted_two_high :
  self booted_two = Some HIGH /\ exists th, threads (ks booted_two) !! HIGH = Some th /\ stat_of th = RT_THREAD_RUNNING.
Proof. split; [|eexists; split]; vm_compute; reflexivity. Qed.
Lemma mb_two_contents : mb_contents mb_two = [7; 8].
Proof. vm_compute. reflexivity. Qed.
Lemma rt_mb_send_wait_spec_witness :
  exists mb', mb_ok mb' /\ mb_contents mb' = [7] /\
    _rt_mb_send_wait 0 7 RT_WAITING_FOREVER RT_UNINTERRUPTIBLE booted = Done (store_mb 0 mb' booted) RT_EOK [].
Proof.
  destruct booted_high as (th & Hth & Hst).
  pose proof (rt_mb_send_wait_spec 0 7 RT_WAITING_FOREVER RT_UNINTERRUPTIBLE booted mb_empty HIGH th booted_kinv
                booted_mb mb_empty_ok booted_runs_high Hth Hst) as H.
  assert (E : susp_list booted (LSusp (OMb 0)) = []) by (vm_compute; reflexivity). rewrite E in H.
  destruct H as (mb' & H1 & H2 & H3). exists mb'. split; [exact H1|]. split; [exact H2|exact H3].
Defined.

(** An urgent word goes to the front of the queue; a full mailbox refuses it
    and is unchanged. *)
Theorem rt_mb_urgent_spec (m : nat) (value : Z) (k : kstate) (mb : rt_mailbox)
    (Hk : kinv k) (Hm : mbs k !! m = Some mb) (Hok : mb_ok mb) :
  if Z.of_nat (length (mb_contents mb)) <? mb_size mb then
    exists mb', mb_ok mb' /\ mb_contents mb' = value :: mb_contents mb /\
      let k1 := store_mb m mb' k in
      match susp_list k (LSusp (OMb m)) with
      | [] => rt_mb_urgent m value k = Done k1 RT_EOK []
      | w :: rest => exists k', rt_mb_urgent m value k = Resched k' (PcRet RT_EOK []) /\
                       woken (LSusp (OMb m)) w rest k1 k'
      end
  else rt_mb_urgent m value k = Done k (- RT_EFULL) [].
Proof.
  rewrite length_mb_contents by done. unfold rt_mb_urgent. rewrite (get_mb_lookup _ _ mb) by done.
  pose proof (mo_entry _ Hok) as He. destruct (Z.ltb_spec (mb_entry mb) (mb_size mb)) as [Hlt|Hge].
  - destruct (Z.eqb_spec (mb_entry mb) (mb_size mb)) as [|_]; [lia|]. rewrite (set_mb_store _ _ mb) by done.
    destruct (mb_put_front_ok value mb Hok Hlt) as [Hok' Hc]. exists (mb_put_front value mb). split; [done|]. split; [done|].
    apply (wake_or_done (LSusp (OMb m)) (store_mb m (mb_put_front value mb) k) RT_EOK []); [by apply kinv_store_mb|done].
  - destruct (Z.eqb_spec (mb_entry mb) (mb_size mb)) as [_|]; [done|lia].
Qed.
Lemma rt_mb_urgent_spec_witness :
  exists mb', mb_ok mb' /\ mb_contents mb' = [9; 7; 8] /\
    rt_mb_urgent 0 9 booted_two = Done (store_mb 0 mb' booted_two) RT_EOK [].
Proof.
  pose proof (rt_mb_urgent_spec 0 9 booted_two mb_two booted_two_kinv booted_two_mb mb_two_ok) as H.
  rewrite mb_two_contents in H. cbv zeta in H.
  assert (E : susp_list booted_two (LSusp (OMb 0)) = []) by (vm_compute; reflexivity). rewrite E in H.
  destruct H as (mb' & H1 & H2 & H3). exists mb'. split; [exact H1|]. split; [exact H2|exact H3].
Defined.

(** C14: receiving takes the oldest word and wakes the first waiting sender; an
    empty mailbox fails with [-RT_ETIMEOUT] if the call must not wait, and
    otherwise suspends the receiver. *)
Theorem rt_mb_recv_spec (m : nat) (timeout suspend_flag : Z) (k : kstate) (mb : rt_mailbox) (t : tid)
    (th : rt_thread) (Hk : kinv k) (Hm : mbs k !! m = Some mb) (Hok : mb_ok mb) (Hs : self k = Some t)
    (Hth : threads (ks k) !! t = Some th) (Hst : stat_of th = RT_THREAD_RUNNING) :
  match mb_contents mb with
  | value :: rest_words =>
      exists mb', mb_ok mb' /\ mb_contents mb' = rest_words /\
        let k1 := store_mb m mb' k in
        match susp_list k (LSend (OMb m)) with
        | [] => _rt_mb_recv m timeout suspend_flag k = Done k1 RT_EOK [value]
        | w :: rest => exists k', _rt_mb_recv m timeout suspend_flag k = Resched k' (PcRet RT_EOK [value]) /\
                         woken (LSend (OMb m)) w rest k1 k'
        end
  | [] =>
      if timeout =? 0 then _rt_mb_recv m timeout suspend_flag k = Done k (- RT_ETIMEOUT) []
      else exists k' d, _rt_mb_recv m timeout suspend_flag k = Resched k' (PcMbRecv m timeout d suspend_flag) /\
             waiting (LSusp (OMb m)) (mb_flag mb) t timeout (- RT_EINTR) k k'
  end.
Proof.
  pose proof (length_mb_contents mb Hok) as Hlen. pose proof (mo_entry _ Hok) as He.
  unfold _rt_mb_recv, mb_recv_loop. rewrite (get_mb_lookup _ _ mb) by done.
  destruct (Z.eqb_spec (mb_entry mb) 0) as [E|E]; cbn [andb].
  - destruct (mb_contents mb) as [|v vs]; [|cbn in Hlen; lia]. destruct (timeout =? 0); [done|]. rewrite Hs.
    change (get_mb (upd_thr t (with_error (- RT_EINTR)) k) m) with (get_mb k m). rewrite (get_mb_lookup _ _ mb) by done.
    destruct (wait_on_waiting t (LSusp (OMb m)) (mb_flag mb) timeout suspend_flag (with_error (- RT_EINTR)) k th)
      as (k' & -> & Hw); try done; [by apply kinv_upd_error|].
    eexists k', _. split; [reflexivity|exact Hw].
  - destruct (mb_get_ok mb Hok) as [Hok' ->]; [lia|]. exists (mb_get mb). split; [done|]. split; [done|].
    unfold mb_recv_get. rewrite (get_mb_lookup _ _ mb), (set_mb_store _ _ mb) by done.
    apply (wake_or_done (LSend (OMb m)) (store_mb m (mb_get mb) k) RT_EOK [mb_first mb]); [by apply kinv_store_mb|done].
Qed.
Lemma rt_mb_recv_spec_witness :
  exists mb', mb_ok mb' /\ mb_contents mb' = [8] /\
    _rt_mb_recv 0 5 RT_UNINTERRUPTIBLE booted_two = Done (store_mb 0 mb' booted_two) RT_EOK [7].
Proof.
  destruct booted_two_high as (Hs & th & Hth & Hst).
  pose proof (rt_mb_recv_spec 0 5 RT_UNINTERRUPTIBLE booted_two mb_two HIGH th booted_two_kinv booted_two_mb mb_two_ok
                Hs Hth Hst) as H.
  rewrite mb_two_contents in H. cbv zeta in H.
  assert (E : susp_list booted_two (LSend (OMb 0)) = []) by (vm_compute; reflexivity). rewrite E in H.
  destruct H as (mb' & H1 & H2 & H3). exists mb'. split; [exact H1|]. split; [exact H2|exact H3].
Defined.
