(* ===== verification/MqProps.v ===== *)
(** * Properties of message queues

    A send and a receive have two segments each, between which other calls may
    use the queue: the theorems on the second segment hold for any state in
    which the slot is in flight. *)
From S2P Require Import Prelude Queue Object Sched SchedFacts TimerCore TimerFacts Kernel KernelFacts.
From S2P Require Import Sem Timer KInv IpcInv WaitFacts SemTake MqOps MqFacts CallInv Demo.

Lemma kinv_store_mq k m q : kinv k -> kinv (store_mq m q k).
Proof. intros Hk. by apply kinv_with_mqs. Qed.
(** The messages queued in the slots [Q], first to last. *)
Definition messages (q : rt_messagequeue) (Q : list nat) : list (list Z) := map (message q) Q.

(** The queue of the booted kernel, with a send in flight, with one message, and
    with its receive in flight. *)
Definition mq_booted : rt_messagequeue := get_mq booted 0.
Definition mq_sending : rt_messagequeue := pop_free 2 mq_booted.
Definition mq_one : rt_messagequeue := mq_enqueue 2 [7; 8] mq_sending.
Definition mq_receiving : rt_messagequeue := mq_dequeue 2 mq_one.
Lemma mq_booted_ok : mq_ok mq_booted [2%nat; 1%nat; 0%nat] [] [].
Proof.
  assert (E : max_msgs mq_booted = 3) by (vm_compute; reflexivity).
  constructor; [constructor|vm_compute; reflexivity]; rewrite ?E; try lia.
  - intros [|[|[|i]]] Hi; [eexists; vm_compute; reflexivity..|lia].
  - change (seq 0 (Z.to_nat 3)) with [0%nat; 1%nat; 2%nat]. symmetry. apply (Permutation_rev [0%nat; 1%nat; 2%nat]).
  - vm_compute. intuition.
  - vm_compute. reflexivity.
  - vm_compute. reflexivity.
Qed.
Lemma mq_sending_ok : mq_ok mq_sending [1%nat; 0%nat] [] [2%nat].
Proof. apply pop_free_ok, mq_booted_ok. Qed.
Lemma mq_one_ok : mq_ok mq_one [1%nat; 0%nat] [2%nat] [].
Proof. apply (mq_enqueue_ok _ _ [] _ 2 [7; 8] mq_sending_ok). Qed.
Lemma mq_receiving_ok : mq_ok mq_receiving [1%nat; 0%nat] [] [2%nat].
Proof. apply mq_dequeue_ok, mq_one_ok. Qed.
Lemma mqs_store_mq m q k : mqs (store_mq m q k) !! m = Some q.
Proof. apply lookup_insert_eq. Qed.
Lemma ks_store_mq m q k : ks (store_mq m q k) = ks k.
Proof. done. Qed.
Lemma self_store_mq m q k : self (store_mq m q k) = self k.
Proof. done. Qed.
Lemma susp_list_store_mq m q k l : susp_list (store_mq m q k) l = susp_list k l.
Proof. done. Qed.
Lemma booted_mq q : mqs (store_mq 0 q booted) !! 0%nat = Some q.
Proof. apply mqs_store_mq. Qed.
Lemma booted_mq_lists q : susp_list (store_mq 0 q booted) (LSusp (OMq 0)) = [] /\
  susp_list (store_mq 0 q booted) (LSend (OMq 0)) = [].
Proof. rewrite !susp_list_store_mq. split; vm_compute; reflexivity. Qed.
Lemma booted_mq_high q : self (store_mq 0 q booted) = Some HIGH /\
  exists th, threads (ks (store_mq 0 q booted)) !! HIGH = Some th /\ stat_of th = RT_THREAD_RUNNING.
Proof. rewrite self_store_mq, ks_store_mq. split; [exact booted_runs_high|exact booted_high]. Qed.

(** C15: a message that is too long is refused with [-RT_ERROR].  With a free slot a
    send takes the first one out of the free list and leaves the queue as it
    is.  Without one it refuses with [-RT_EFULL] if it must not wait, and
    otherwise suspends the sender on the list of senders. *)
Theorem rt_mq_send_wait_spec (m : nat) (buffer : list Z) (timeout suspend_flag : Z) (k : kstate) (q : rt_messagequeue)
    (F Q X : list nat) (t : tid) (th : rt_thread) (Hk : kinv k) (Hm : mqs k !! m = Some q) (Hok : mq_ok q F Q X)
    (Hs : self k = Some t) (Hth : threads (ks k) !! t = Some th) (Hst : stat_of th = RT_THREAD_RUNNING) :
  if msg_size q <? Z.of_nat (length buffer) then
    _rt_mq_send_wait m buffer timeout suspend_flag k = Done k (- RT_ERROR) []
  else
    match F with
    | i :: F' =>
        exists q', _rt_mq_send_wait m buffer timeout suspend_flag k = Enable (store_mq m q' k) (PcMqLink m i buffer) /\
          mq_ok q' F' Q (i :: X) /\ messages q' Q = messages q Q
    | [] =>
        if timeout =? 0 then _rt_mq_send_wait m buffer timeout suspend_flag k = Done k (- RT_EFULL) []
        else exists k' d, _rt_mq_send_wait m buffer timeout suspend_flag k =
                            Resched k' (PcMqSend m buffer timeout d suspend_flag) /\
               waiting (LSend (OMq m)) (mq_flag q) t timeout (- RT_EINTR) k k'
    end.
Proof.
  unfold _rt_mq_send_wait, mq_send_loop. rewrite (get_mq_lookup _ _ q) by done.
  destruct (msg_size q <? Z.of_nat (length buffer)); [done|].
  pose proof (ql_free _ _ _ _ (qo_lists _ _ _ _ Hok)) as Hc. destruct F as [|i F]; cbn [chain] in Hc.
  - rewrite Hc. destruct (timeout =? 0) eqn:Ht; [done|]. rewrite Hs.
    change (get_mq (upd_thr t (with_error (- RT_EINTR)) k) m) with (get_mq k m). rewrite (get_mq_lookup _ _ q) by done.
    destruct (wait_on_waiting t (LSend (OMq m)) (mq_flag q) timeout suspend_flag (with_error (- RT_EINTR)) k th)
      as (k' & -> & Hw); try done; [by apply kinv_upd_error|].
    eexists k', _. split; [reflexivity|exact Hw].
  - destruct Hc as [-> _]. exists (pop_free i q). rewrite (set_mq_store _ _ q) by done. split; [done|].
    by apply pop_free_ok.
Qed.
Lemma rt_mq_send_wait_spec_witness :
  exists q', _rt_mq_send_wait 0 [7; 8] 5 RT_UNINTERRUPTIBLE (store_mq 0 mq_booted booted) =
               Enable (store_mq 0 q' (store_mq 0 mq_booted booted)) (PcMqLink 0 2 [7; 8]) /\
    mq_ok q' [1%nat; 0%nat] [] [2%nat].
Proof.
  destruct (booted_mq_high mq_booted) as (Hs & th & Hth & Hst).
  pose proof (rt_mq_send_wait_spec 0 [7; 8] 5 RT_UNINTERRUPTIBLE _ mq_booted _ _ _ HIGH th
                (kinv_store_mq booted 0 mq_booted booted_kinv) (booted_mq mq_booted) mq_booted_ok Hs Hth Hst) as H.
  assert (E : msg_size mq_booted <? Z.of_nat (length [7; 8]) = false) by (vm_compute; reflexivity). rewrite E in H.
  destruct H as (q' & H1 & H2 & _). exists q'. split; [exact H1|exact H2].
Defined.

(** C16: when the slot of a send in flight is linked, its message becomes the last
    of the queue, the others keep their order, and the first waiting receiver is
    woken. *)
Theorem mq_send_link_spec (m i : nat) (buffer : list Z) (k : kstate) (q : rt_messagequeue) (F Q X : list nat)
    (Hk : kinv k) (Hm : mqs k !! m = Some q) (Hok : mq_ok q F Q (i :: X)) :
  exists q', mq_ok q' F (Q ++ [i]) X /\ messages q' (Q ++ [i]) = messages q Q ++ [buffer] /\
    let k1 := store_mq m q' k in
    match susp_list k (LSusp (OMq m)) with
    | [] => mq_send_link m i buffer k = Done k1 RT_EOK []
    | w :: rest => exists k', mq_send_link m i buffer k = Resched k' (PcRet RT_EOK []) /\
                     woken (LSusp (OMq m)) w rest k1 k'
    end.
Proof.
  exists (mq_enqueue i buffer q). destruct (mq_enqueue_ok q F Q X i buffer Hok) as [H1 H2]. split; [done|]. split; [done|].
  rewrite (mq_send_link_eq m i buffer k q F Q X) by done.
  apply (wake_or_done (LSusp (OMq m)) (store_mq m (mq_enqueue i buffer q) k) RT_EOK []); [by apply kinv_store_mq|done].
Qed.
Lemma mq_send_link_spec_witness :
  exists q', mq_ok q' [1%nat; 0%nat] [2%nat] [] /\ messages q' [2%nat] = [[7; 8]] /\
    mq_send_link 0 2 [7; 8] (store_mq 0 mq_sending booted) = Done (store_mq 0 q' (store_mq 0 mq_sending booted)) RT_EOK [].
Proof.
  pose proof (mq_send_link_spec 0 2 [7; 8] _ mq_sending _ _ _ (kinv_store_mq booted 0 mq_sending booted_kinv)
                (booted_mq mq_sending) mq_sending_ok) as H.
  rewrite (proj1 (booted_mq_lists mq_sending)) in H.
  destruct H as (q' & H1 & H2 & H3). exists q'. split; [exact H1|]. split; [exact H2|exact H3].
Defined.

(** An urgent message becomes the first of the queue. *)
Theorem mq_urgent_link_spec (m i : nat) (buffer : list Z) (k : kstate) (q : rt_messagequeue) (F Q X : list nat)
    (Hk : kinv k) (Hm : mqs k !! m = Some q) (Hok : mq_ok q F Q (i :: X)) :
  exists q', mq_ok q' F (i :: Q) X /\ messages q' (i :: Q) = buffer :: messages q Q /\
    let k1 := store_mq m q' k in
    match susp_list k (LSusp (OMq m)) with
    | [] => mq_urgent_link m i buffer k = Done k1 RT_EOK []
    | w :: rest => exists k', mq_urgent_link m i buffer k = Resched k' (PcRet RT_EOK []) /\
                     woken (LSusp (OMq m)) w rest k1 k'
    end.
Proof.
  exists (mq_enqueue_front i buffer q). destruct (mq_enqueue_front_ok q F Q X i buffer Hok) as [H1 H2].
  split; [done|]. split; [done|]. rewrite (mq_urgent_link_eq m i buffer k q F Q X) by done.
  apply (wake_or_done (LSusp (OMq m)) (store_mq m (mq_enqueue_front i buffer q) k) RT_EOK []); [by apply kinv_store_mq|done].
Qed.
Lemma mq_urgent_link_spec_witness :
  exists q', mq_ok q' [1%nat; 0%nat] [2%nat] [] /\ messages q' [2%nat] = [[9]] /\
    mq_urgent_link 0 2 [9] (store_mq 0 mq_sending booted) = Done (store_mq 0 q' (store_mq 0 mq_sending booted)) RT_EOK [].
Proof.
  pose proof (mq_urgent_link_spec 0 2 [9] _ mq_sending _ _ _ (kinv_store_mq booted 0 mq_sending booted_kinv)
                (booted_mq mq_sending) mq_sending_ok) as H.
  rewrite (proj1 (booted_mq_lists mq_sending)) in H.
  destruct H as (q' & H1 & H2 & H3). exists q'. split; [exact H1|]. split; [exact H2|exact H3].
Defined.

(** C17: receiving takes the first message off the queue; an empty queue fails with
    [-RT_ETIMEOUT] if the call must not wait and otherwise suspends the receiver.
    The slot's bytes are untouched until it is freed. *)
Theorem rt_mq_recv_spec (m : nat) (size timeout suspend_flag : Z) (k : kstate) (q : rt_messagequeue)
    (F Q X : list nat) (t : tid) (th : rt_thread) (Hk : kinv k) (Hm : mqs k !! m = Some q) (Hok : mq_ok q F Q X)
    (Hs : self k = Some t) (Hth : threads (ks k) !! t = Some th) (Hst : stat_of th = RT_THREAD_RUNNING) :
  match Q with
  | i :: Q' =>
      exists q', _rt_mq_recv m size timeout suspend_flag k = Enable (store_mq m q' k) (PcMqFree m i size) /\
        mq_ok q' F Q' (i :: X) /\ message q' i = message q i /\ messages q' Q' = messages q Q'
  | [] =>
      if timeout =? 0 then _rt_mq_recv m size timeout suspend_flag k = Done k (- RT_ETIMEOUT) []
      else exists k' d, _rt_mq_recv m size timeout suspend_flag k = Resched k' (PcMqRecv m size timeout d suspend_flag) /\
             waiting (LSusp (OMq m)) (mq_flag q) t timeout (- RT_EINTR) k k'
  end.
Proof.
  unfold _rt_mq_recv, mq_recv_loop. rewrite (get_mq_lookup _ _ q), (qo_entry _ _ _ _ Hok) by done. destruct Q as [|i Q].
  - cbn [length Z.of_nat Z.eqb andb]. destruct (timeout =? 0); [done|]. rewrite Hs.
    change (get_mq (upd_thr t (with_error (- RT_EINTR)) k) m) with (get_mq k m). rewrite (get_mq_lookup _ _ q) by done.
    destruct (wait_on_waiting t (LSusp (OMq m)) (mq_flag q) timeout suspend_flag (with_error (- RT_EINTR)) k th)
      as (k' & -> & Hw); try done; [by apply kinv_upd_error|].
    eexists k', _. split; [reflexivity|exact Hw].
  - destruct (Z.eqb_spec (Z.of_nat (length (i :: Q))) 0) as [E|_]; [done|]. cbn [andb].
    exists (mq_dequeue i q). rewrite (mq_recv_take_eq m size k q F i Q X) by done. split; [done|].
    destruct (mq_dequeue_ok q F Q X i Hok) as [H1 H2]. split; [done|]. split; [done|]. by apply messages_ext.
Qed.
Lemma rt_mq_recv_spec_witness :
  exists q', _rt_mq_recv 0 4 5 RT_UNINTERRUPTIBLE (store_mq 0 mq_one booted) =
               Enable (store_mq 0 q' (store_mq 0 mq_one booted)) (PcMqFree 0 2 4) /\
    mq_ok q' [1%nat; 0%nat] [] [2%nat].
Proof.
  destruct (booted_mq_high mq_one) as (Hs & th & Hth & Hst).
  destruct (rt_mq_recv_spec 0 4 5 RT_UNINTERRUPTIBLE _ mq_one _ _ _ HIGH th
              (kinv_store_mq booted 0 mq_one booted_kinv) (booted_mq mq_one) mq_one_ok Hs Hth Hst) as (q' & H1 & H2 & _).
  exists q'. split; [exact H1|exact H2].
Defined.

(** A receive in flight returns the message of its slot, cut to the size of
    the receiver's buffer, with its length; the slot goes back to the free list
    and the first waiting sender is woken. *)
Theorem mq_recv_free_spec (m i : nat) (size : Z) (k : kstate) (q : rt_messagequeue) (F Q X : list nat)
    (Hk : kinv k) (Hm : mqs k !! m = Some q) (Hok : mq_ok q F Q (i :: X)) (Hsz : 0 <= size) :
  exists q', mq_ok q' (i :: F) Q X /\ messages q' Q = messages q Q /\
    let k1 := store_mq m q' k in
    let len := Z.min size (mq_length (slot q i)) in
    let bytes := take (Z.to_nat size) (message q i) in
    match susp_list k (LSend (OMq m)) with
    | [] => mq_recv_free m i size k = Done k1 len bytes
    | w :: rest => exists k', mq_recv_free m i size k = Resched k' (PcRet len bytes) /\
                     woken (LSend (OMq m)) w rest k1 k'
    end.
Proof.
  exists (push_free i q). destruct (push_free_ok q F Q X i Hok) as [H1 H2]. split; [done|]. split; [done|].
  unfold mq_recv_free. rewrite (get_mq_lookup _ _ q), (set_mq_store _ _ q) by done.
  assert (E : (if size <? mq_length (slot q i) then size else mq_length (slot q i)) = Z.min size (mq_length (slot q i))).
  { destruct (Z.ltb_spec size (mq_length (slot q i))); lia. }
  rewrite E. unfold message. rewrite take_take.
  replace (Z.to_nat (Z.min size (mq_length (slot q i)))) with (Init.Nat.min (Z.to_nat size) (Z.to_nat (mq_length (slot q i)))) by lia.
  apply (wake_or_done (LSend (OMq m)) (store_mq m (push_free i q) k)); [by apply kinv_store_mq|done].
Qed.
Lemma mq_recv_free_spec_witness :
  exists q', mq_ok q' [2%nat; 1%nat; 0%nat] [] [] /\
    mq_recv_free 0 2 1 (store_mq 0 mq_receiving booted) = Done (store_mq 0 q' (store_mq 0 mq_receiving booted)) 1 [7].
Proof.
  assert (Hsz : 0 <= 1) by lia.
  pose proof (mq_recv_free_spec 0 2 1 _ mq_receiving _ _ _ (kinv_store_mq booted 0 mq_receiving booted_kinv)
                (booted_mq mq_receiving) mq_receiving_ok Hsz) as H.
  rewrite (proj2 (booted_mq_lists mq_receiving)) in H. cbv zeta in H.
  assert (E1 : Z.min 1 (mq_length (slot mq_receiving 2)) = 1) by (vm_compute; reflexivity).
  assert (E2 : take (Z.to_nat 1) (message mq_receiving 2) = [7]) by (vm_compute; reflexivity).
  rewrite E1, E2 in H. destruct H as (q' & H1 & _ & H3). exists q'. split; [exact H1|exact H3].
Defined.

(** A queue initialised on a pool of [pool_size] bytes has as many slots as fit
    in the pool, all free, and no message. *)
Theorem rt_mq_init_spec (m : nat) (name : list Z) (garbage : nat -> Z * list Z) (size pool_size flag : Z) (k : kstate)
    (Hsz : 0 <= size < 2^31) (Hp : 0 <= pool_size < 2^16 * (RT_ALIGN size RT_ALIGN_SIZE + sizeof_rt_mq_message))
    (Hfit : RT_ALIGN size RT_ALIGN_SIZE + sizeof_rt_mq_message <= pool_size) :
  let n := pool_size / (RT_ALIGN size RT_ALIGN_SIZE + sizeof_rt_mq_message) in
  size <= RT_ALIGN size RT_ALIGN_SIZE /\ n * (RT_ALIGN size RT_ALIGN_SIZE + sizeof_rt_mq_message) <= pool_size /\
  exists k' q, rt_mq_init m name garbage size pool_size flag k = (k', RT_EOK) /\ mqs k' !! m = Some q /\
    max_msgs q = n /\ mq_ok q (rev (seq 0 (Z.to_nat n))) [] [] /\ susp_list k' (LSusp (OMq m)) = [] /\
    susp_list k' (LSend (OMq m)) = [].
Proof.
  assert (Ha : size <= RT_ALIGN size RT_ALIGN_SIZE < 2^32 - 8).
  { rewrite RT_ALIGN_8 by lia. pose proof (Z.div_mod (size + 7) 8). pose proof (Z.mod_pos_bound (size + 7) 8). lia. }
  unfold sizeof_rt_mq_message in *. set (a := RT_ALIGN size RT_ALIGN_SIZE) in *.
  set (n := pool_size / (a + 8)).
  assert (Hn : 1 <= n < 2^16) by (split; [apply Z.div_le_lower_bound|apply Z.div_lt_upper_bound]; lia).
  split; [lia|]. split; [pose proof (Z.mul_div_le pool_size (a + 8)); lia|].
  unfold rt_mq_init, sizeof_rt_mq_message. fold a. rewrite (Z.mod_small (a + 8) (2^32) : _ -> u32 (a + 8) = _) by lia. fold n.
  rewrite (Z.mod_small n (2^16) : _ -> u16 n = _) by lia. destruct (Z.eqb_spec 0 n) as [|_]; [lia|].
  pose proof (mq_init_ok garbage (u8 flag) (u16 size) n) as H. destruct (init_free garbage (Z.to_nat n)) as [pool free].
  eexists _, _. split; [done|]. split; [apply lookup_insert_eq|]. split; [done|]. split; [apply H; lia|].
  unfold susp_list, tlist, _ipc_object_init, on_ks, on_ko. cbn [ks with_ks tlists with_tlists with_mqs with_ko].
  split; [|by rewrite qget_set_eq]. by rewrite qget_set_ne, qget_set_eq.
Qed.
Lemma rt_mq_init_spec_witness :
  exists k' q, rt_mq_init 1 [109] (fun _ => (0, [])) 5 40 RT_IPC_FLAG_FIFO booted = (k', RT_EOK) /\
    mqs k' !! 1%nat = Some q /\ max_msgs q = 2.
Proof.
  assert (E : RT_ALIGN 5 RT_ALIGN_SIZE + sizeof_rt_mq_message = 16) by reflexivity.
  destruct (rt_mq_init_spec 1 [109] (fun _ => (0, [])) 5 40 RT_IPC_FLAG_FIFO booted) as (_ & _ & k' & q & H1 & H2 & H3 & _);
    rewrite ?E; try lia.
  exists k', q. split; [exact H1|]. split; [exact H2|exact H3].
Defined.
