(* ===== verification/System.v ===== *)
(** * The kernel as a transition system

    Threads make kernel calls, one segment at a time; between two segments the
    tick interrupt and other interrupt handlers run.  [step] is the step
    relation, [system_invariant] says that the invariant of the kernel holds
    in every reachable state. *)
From S2P Require Import Prelude Queue Object Sched SchedFacts SchedProps TimerCore TimerFacts Kernel.
From S2P Require Import KernelFacts Sem Timer TimerProps KInv IpcInv SemTake MutexOps MutexInv EventOps.
From S2P Require Import MailboxOps MqOps ThreadOps ThreadInv CallInv Demo.

(** ** The calls *)
Inductive call :=
  | CSemInit (n : nat) (name : list Z) (value flag : Z) | CSemDetach (n : nat)
  | CSemTake (n : nat) (timeout suspend_flag : Z) | CSemRelease (n : nat) | CSemControl (n : nat) (cmd arg : Z)
  | CMutexInit (m : nat) (name : list Z) (flag : Z) | CMutexDetach (m : nat) | CMutexDelete (m : nat)
  | CMutexTake (m : nat) (timeout suspend_flag : Z) | CMutexRelease (m : nat) | CMutexSetCeiling (m : nat) (p : Z)
  | CEventSend (e : nat) (set : Z) | CEventRecv (e : nat) (set option timeout suspend_flag : Z)
  | CEventControl (e : nat) (cmd arg : Z) | CEventDelete (e : nat)
  | CMbSend (m : nat) (value timeout suspend_flag : Z) | CMbUrgent (m : nat) (value : Z)
  | CMbRecv (m : nat) (timeout suspend_flag : Z) | CMbControl (m : nat) (cmd arg : Z) | CMbDelete (m : nat)
  | CMqSend (m : nat) (buffer : list Z) (timeout suspend_flag : Z) | CMqUrgent (m : nat) (buffer : list Z)
  | CMqRecv (m : nat) (size timeout suspend_flag : Z) | CMqControl (m : nat) (cmd arg : Z) | CMqDelete (m : nat)
  | CYield | CSleep (tick : Z) | CDelayUntil (tick inc_tick : Z)
  | CSuspend (t : tid) (suspend_flag : Z) | CResume (t : tid) | CStartup (t : tid) | CExit | CDetach (t : tid)
  | CSetPriority (t : tid) (p : Z)
  | CTimerStart (n : nat) | CTimerStop (n : nat)
  | CEnterCritical | CExitCritical.

Definition returned (r : kstate * Z) : outcome := let '(k, rc) := r in Done k rc [].

Definition run_call (c : call) (k : kstate) : outcome :=
  match c with
  | CSemInit n name v fl => returned (rt_sem_init n name v fl k)
  | CSemDetach n => returned (rt_sem_detach n k)
  | CSemTake n timeout sf => _rt_sem_take n timeout sf k
  | CSemRelease n => rt_sem_release n k
  | CSemControl n cmd arg => rt_sem_control n cmd arg k
  | CMutexInit m name fl => returned (rt_mutex_init m name fl k)
  | CMutexDetach m => rt_mutex_detach m k
  | CMutexDelete m => rt_mutex_delete m k
  | CMutexTake m timeout sf => _rt_mutex_take m timeout sf k
  | CMutexRelease m => rt_mutex_release m k
  | CMutexSetCeiling m p => rt_mutex_setprioceiling m (u8 p) k
  | CEventSend e set => rt_event_send e set k
  | CEventRecv e set opt timeout sf => _rt_event_recv e set opt timeout sf k
  | CEventControl e cmd arg => rt_event_control e cmd arg k
  | CEventDelete e => rt_event_delete e k
  | CMbSend m v timeout sf => _rt_mb_send_wait m v timeout sf k
  | CMbUrgent m v => rt_mb_urgent m v k
  | CMbRecv m timeout sf => _rt_mb_recv m timeout sf k
  | CMbControl m cmd arg => rt_mb_control m cmd arg k
  | CMbDelete m => rt_mb_delete m k
  | CMqSend m b timeout sf => _rt_mq_send_wait m b timeout sf k
  | CMqUrgent m b => rt_mq_urgent m b k
  | CMqRecv m size timeout sf => _rt_mq_recv m size timeout sf k
  | CMqControl m cmd arg => rt_mq_control m cmd arg k
  | CMqDelete m => rt_mq_delete m k
  | CYield => match self k with
              | Some t => Resched (on_ks (rt_sched_thread_yield t) k) (PcRet RT_EOK [])
              | None => Done k RT_EOK []
              end
  | CSleep tick => _thread_sleep tick k
  | CDelayUntil tick inc => rt_thread_delay_until tick inc k
  | CSuspend t sf => returned (rt_thread_suspend_with_flag t sf k)
  | CResume t => returned (rt_thread_resume t k)
  | CStartup t => returned (rt_thread_startup t k)
  | CExit => _thread_exit k
  | CDetach t => rt_thread_detach t k
  | CSetPriority t p => rt_thread_control t RT_THREAD_CTRL_CHANGE_PRIORITY p k
  | CTimerStart n => returned (rt_timer_start (TmObj n) k)
  | CTimerStop n => let '(ts, rc) := rt_timer_stop (TmObj n) (kt k) in Done (with_kt ts k) rc []
  | CEnterCritical => Done (rt_spin_lock k) RT_EOK []
  | CExitCritical => Resched (spin_unlock k) (PcRet RT_EOK [])
  end.

(** What the documentation asks of the callers: only new threads are started,
    a thread that ends another one leaves it no mutex, priorities are below
    [RT_THREAD_PRIORITY_MAX], timers are initialised. *)
Definition call_ok (c : call) (k : kstate) : Prop :=
  match c with
  | CStartup t => exists th, threads (ks k) !! t = Some th /\ stat_of th = RT_THREAD_INIT /\
                    sched_flag_ttmr_set th = false
  | CDetach t => exists th, threads (ks k) !! t = Some th /\ stat_of th <> RT_THREAD_INIT /\
                   pending_object th = None /\ taken k t = []
  | CSetPriority t p => u8 p < RT_THREAD_PRIORITY_MAX
  | CDelayUntil _ _ => exists t th, self k = Some t /\ threads (ks k) !! t = Some th /\
                         stat_of th = RT_THREAD_RUNNING
  | CTimerStart n => exists tm, timers (kt k) !! TmObj n = Some tm
  | _ => True
  end.

(** A thread at a label goes on. *)
Definition resume (t : tid) (p : pc) (k : kstate) : outcome :=
  match p with
  | PcRet rc out => Done k rc out
  | PcSchedule rc => Resched k (PcRet rc [])
  | PcSemTake _ => sem_take_after t k
  | PcMutexWait m => mutex_take_wait m k
  | PcMutexTake m => mutex_take_after t m k
  | PcMutexFail ret => mutex_take_fail t ret k
  | PcMutexDetach m => mutex_detach_after m k
  | PcMutexDelete m => mutex_delete_after m k
  | PcEventRecv e => event_recv_after t k
  | PcEventDelete e => event_delete_after e k
  | PcMbSend m v timeout d sf => mb_send_after t m v timeout d sf k
  | PcMbRecv m timeout d sf => mb_recv_after t m timeout d sf k
  | PcMbDelete m => mb_delete_after m k
  | PcMqSend m b timeout d sf => mq_send_after t m b timeout d sf k
  | PcMqLink m i b => mq_send_link m i b k
  | PcMqUrgent m i b => mq_urgent_link m i b k
  | PcMqRecv m size timeout d sf => mq_recv_after t m size timeout d sf k
  | PcMqFree m i size => mq_recv_free m i size k
  | PcMqDelete m => mq_delete_after m k
  | PcSleep e => thread_sleep_after t e k
  | PcDelayUntil tick => delay_until_schedule tick k
  | PcDelayUntilEnd tick => delay_until_end t tick k
  | PcDelayUntilLate tick => delay_until_late t tick k
  end.

(** ** The transition system *)

(** Where a thread is: in its own code, about to call [rt_schedule], or at a
    label. *)
Inductive place := User | AtSched (p : pc) | AtPc (p : pc).
Record system := System { kern : kstate; places : gmap tid place }.
Definition place_of (s : system) (t : tid) : place := default User (places s !! t).
Definition enter (t : tid) (o : outcome) (s : system) : system :=
  match o with
  | Done k _ _ => System k (<[t := User]> (places s))
  | Resched k p => System k (<[t := AtSched p]> (places s))
  | Enable k p => System k (<[t := AtPc p]> (places s))
  end.

(** The calls of interrupt handlers run to their end. *)
Definition isr_call (c : call) : bool :=
  match c with
  | CSemRelease _ | CEventSend _ _ | CMbUrgent _ _ | CMqUrgent _ _ | CResume _ => true
  | CSemTake _ timeout _ | CMbSend _ _ timeout _ | CMbRecv _ timeout _ | CMqSend _ _ timeout _
  | CMqRecv _ _ timeout _ => timeout =? 0
  | _ => false
  end.
Definition run_isr (o : outcome) : kstate :=
  match o with
  | Done k _ _ => k
  | Resched k _ => kschedule k
  | Enable k p => fst (run_atomic (resume 0%nat p k))
  end.

Section steps.
Context (user_timeout : Z -> Z -> kstate -> kstate).

Inductive step : system -> system -> Prop :=
  | StepCall s t c : self (kern s) = Some t -> place_of s t = User -> call_ok c (kern s) ->
      step s (enter t (run_call c (kern s)) s)
  | StepSched s t p : self (kern s) = Some t -> place_of s t = AtSched p ->
      step s (System (kschedule (kern s)) (<[t := AtPc p]> (places s)))
  | StepResume s t p : self (kern s) = Some t -> place_of s t = AtPc p ->
      step s (enter t (resume t p (kern s)) s)
  | StepTick s fuel k : rt_tick_increase user_timeout fuel (kern s) = Some k ->
      step s (System k (places s))
  | StepIsr s c : isr_call c = true -> step s (System (run_isr (run_call c (kern s))) (places s)).

Inductive reachable (s0 : system) : system -> Prop :=
  | ReachInit : reachable s0 s0
  | ReachStep s s' : reachable s0 s -> step s s' -> reachable s0 s'.

(** ** The invariant *)
Lemma kinv_timer_start n k tm :
  kinv k -> timers (kt k) !! TmObj n = Some tm -> kinv (rt_timer_start (TmObj n) k).1.
Proof.
  intros Hk Ht. pose proof (ki_wf _ Hk) as [Hs Hw Hl Hsh].
  assert (H1 : forall l, let '(ts, _) := _timer_start l (TmObj n) (kt k) in kwf (with_kt ts k)).
  { intros l. destruct (is_processing tm) eqn:Hp.
    - unfold _timer_start, timer_has. rewrite (get_timer_lookup _ _ tm) by done. change (has_flag (timer_flag tm) RT_TIMER_FLAG_PROCESSING) with (is_processing tm). rewrite Hp.
      by destruct k.
    - destruct (timer_start_spec l (TmObj n) (kt k) tm Ht Hp) as (s' & E & _ & Htm & _).
      rewrite E. pose proof (timer_start_twf l (TmObj n) (kt k) s' tm Hw Ht Hp E) as Hw'.
      assert (Hx : forall t, timers s' !! TmThread t = timers (kt k) !! TmThread t).
      { intros t. by rewrite Htm, decide_False. }
      constructor; cbn [ks kt with_kt]; [done|done| |].
      + intros t. rewrite (tactive_ext (kt k)); [apply Hl|apply Hx].
      + intros t Hin. rewrite Hx. by apply Hsh. }
  pose proof (tmp_timer_start (TmObj n) k (ki_tmp _ Hk)) as Htmp. unfold rt_timer_start in *.
  set (l := if timer_has _ _ _ then TSoft else THard) in *. specialize (H1 l).
  assert (E : forall b : bool, (if b then k else k) = k) by (by intros []). rewrite E in *.
  pose proof (row_timer_start l (TmObj n) (kt k) THardTmp) as Hrow.
  destruct (_timer_start l (TmObj n) (kt k)) as [ts err]. cbn [fst] in *.
  assert (Hk1 : kinv (with_kt ts k)).
  { apply (kinv_objs k); [done|done|done|]. split; [|done]. intros Hc.
    apply Hrow; [|exact Hc]. unfold l. by destruct (timer_has _ _ _). }
  case_match; [|done]. by apply kinv_run_atomic, kinv_sem_release.
Qed.
Lemma kinv_timer_stop n k : kinv k -> kinv (with_kt (rt_timer_stop (TmObj n) (kt k)).1 k).
Proof.
  intros Hk. pose proof (ki_wf _ Hk) as [Hs Hw Hl Hsh]. unfold rt_timer_stop. case_match; [by destruct k|].
  change (kinv (with_kt (timer_unlink (TmObj n) (kt k)) k)). apply (kinv_objs k); [done| |done|].
  - constructor; cbn [ks kt with_kt]; [done|by apply twf_timer_unlink| |].
    + intros t. rewrite (tactive_ext (kt k)); [apply Hl|]. by rewrite timers_unlink, decide_False.
    + intros t Hin. rewrite timers_unlink, decide_False by done. by apply Hsh.
  - split; [|done]. unfold tmp_clear, row. simpl. rewrite qget_unlink. by intros ->.
Qed.
Lemma kinv_yield t k : kinv k -> kinv (on_ks (rt_sched_thread_yield t) k).
Proof.
  intros Hk. apply (kinv_objs k); [done| |done|done]. apply kwf_ks; [apply Hk|apply yield_swf, Hk|].
  intros t'. unfold rt_sched_thread_yield. rewrite !view_upd. unfold view. rewrite lookup_upd.
  destruct (decide (t = t')); [|done]. destruct (threads (ks k) !! t') as [th|]; [|done].
  apply (f_equal Some). apply (tview_with_stat _ (with_remaining_tick (init_tick th) th)). apply land_set_yield.
Qed.
Lemma kinv_returned r : kinv r.1 -> outcome_kinv (returned r).
Proof. by destruct r. Qed.

Lemma kinv_call c k : kinv k -> call_ok c k -> outcome_kinv (run_call c k).
Proof.
  intros Hk Hc. destruct c; cbn [run_call call_ok] in *; try apply kinv_returned;
    eauto using kinv_sem_init, kinv_sem_detach, kinv_sem_take, kinv_sem_release, kinv_sem_control, kinv_mutex_init,
      kinv_mutex_take, kinv_mutex_release, kinv_event_send, kinv_event_recv, kinv_event_control,
      kinv_event_delete, kinv_mb_send_wait, kinv_mb_urgent, kinv_mb_recv, kinv_mb_control, kinv_mq_send_wait,
      kinv_mq_urgent, kinv_mq_recv, kinv_mq_control, kinv_thread_sleep, kinv_thread_suspend, kinv_thread_resume,
      kinv_thread_exit with rt.
  - by apply kinv_mutex_before_delete_detach.
  - by apply kinv_mutex_before_delete_detach.
  - apply kinv_mutex_setprioceiling; [apply Z.mod_pos_bound; lia|done].
  - apply kinv_spin_unlock, kinv_mb_resume_all. by apply kinv_spin_lock.
  - apply kinv_spin_unlock, kinv_mq_resume_all. by apply kinv_spin_lock.
  - destruct (self k) as [t|]; [by apply kinv_yield|done].
  - destruct Hc as (t & th & Hs & Hth & Hst). by eapply kinv_delay_until.
  - destruct Hc as (th & Hth & Hst & Htt). by eapply kinv_thread_startup.
  - destruct Hc as (th & Hth & Hst & Hp & Htk). by eapply kinv_thread_detach.
  - apply kinv_change_priority; [|done]. split; [apply Z.mod_pos_bound; lia|done].
  - destruct Hc as [tm Htm]. by eapply kinv_timer_start.
  - pose proof (kinv_timer_stop n k Hk) as H. by destruct (rt_timer_stop (TmObj n) (kt k)) as [ts rc].
  - by apply kinv_spin_lock.
  - by apply kinv_spin_unlock.
Qed.
Lemma kinv_resume t p k : kinv k -> outcome_kinv (resume t p k).
Proof.
  intros Hk. destruct p; cbn [resume]; try done;
    eauto using kinv_sem_take_after, kinv_mutex_take_after, kinv_mutex_take_fail, kinv_event_recv_after,
      kinv_mb_send_after, kinv_mb_recv_after, kinv_mq_send_after, kinv_mq_send_link, kinv_mq_urgent_link,
      kinv_mq_recv_after, kinv_mq_recv_free, kinv_thread_sleep_after, kinv_delay_until_end.
  all: by apply kinv_on_ko.
Qed.
Lemma kinv_isr c k : kinv k -> isr_call c = true -> kinv (run_isr (run_call c k)).
Proof.
  intros Hk Hi. assert (Hc : outcome_kinv (run_call c k)) by (apply kinv_call; [done|]; by destruct c).
  destruct (run_call c k) as [k1 rc out|k1 p|k1 p]; simpl in *; [done|by apply kinv_schedule|].
  by apply kinv_run_atomic, kinv_resume.
Qed.

(** Timeout functions that leave the timers alone and keep the invariant. *)
Context (Huser : forall f p k, kt (user_timeout f p k) = kt k).
Context (Huser_kwf : forall f p k, kwf k -> kwf (user_timeout f p k)).
Context (Huser_minv : forall f p k, minv k -> minv (user_timeout f p k)).
Context (Huser_sinv : forall f p k, kwf k -> sinv k -> sinv (user_timeout f p k)).

Lemma minv_hard_loop fuel : forall ct k k', minv k -> hard_loop user_timeout fuel ct k = Some k' -> minv k'.
Proof.
  induction fuel as [|f IH]; [done|]. intros ct k k' Hm. simpl.
  destruct (row (kt k) THard) as [|t rest]; [by intros [= <-]|]. case_match; [|by intros [= <-]].
  apply IH. set (k1 := on_kt (timer_pop THardTmp t) k). change (minv (call_timeout user_timeout t k1)).
  assert (Hm1 : minv k1) by done. unfold call_timeout.
  destruct (timeout_func (get_timer (kt k1) t)); [by destruct t|by apply Huser_minv].
Qed.
Lemma sinv_quiet k k' : sinv k -> sems k' = sems k -> (forall n, sem_waiters k n = [] -> sem_waiters k' n = []) -> sinv k'.
Proof. intros Hs E Hq n. unfold get_sem. rewrite E. intros Hv. by apply Hq, Hs. Qed.
Lemma sinv_turn t k rest :
  kwf k -> row (kt k) THard = (t :: rest) -> tmp_clear k -> sinv k -> sinv (turn user_timeout t k).
Proof.
  intros Hk Hr Htmp Hs. destruct t as [t|n].
  - destruct (kwf_turn_thread user_timeout k t rest Hk Hr Htmp) as (th & Hth & Hsu & _ & -> & _).
    apply (sinv_quiet k); [done|done|]. intros n Hn.
    assert (Hth1 : threads (upd_thread t (with_error (- RT_ETIMEOUT)) (ks k)) !! t = Some (with_error (- RT_ETIMEOUT) th))
      by (by apply lookup_upd_eq).
    assert (Hw : tlist (wake t (upd_thread t (with_error (- RT_ETIMEOUT)) (ks k))) (LSusp (OSem n)) = []).
    { rewrite (tlist_wake _ _ _ _ Hth1), decide_False by (by intros [_ ?]). by apply nil_unlink. }
    unfold sem_waiters, susp_list, rt_sched_unlock_n_resched. cbn [ks on_ks with_ks]. case_match; [|exact Hw].
    rewrite tlist_schedule; [exact Hw| |done].
    apply (wake_swf _ _ (with_error (- RT_ETIMEOUT) th)); [by apply upd_error_swf, Hk|done|done].
  - destruct (tw_live _ (kw_t _ Hk) THard (TmObj n)) as [tm Ht]; [rewrite Hr; left|].
    assert (Hact : is_active tm = true).
    { apply (tw_listed _ (kw_t _ Hk) THard (TmObj n) tm); [by left|rewrite Hr; left|done]. }
    change (sinv (call_timeout user_timeout (TmObj n) (on_kt (timer_pop THardTmp (TmObj n)) k))).
    unfold call_timeout. case_match; [done|]. apply Huser_sinv; [by apply (kwf_pop_obj k n tm)|done].
Qed.
Lemma sinv_hard_loop fuel : forall ct k k',
  kwf k -> tmp_clear k -> sinv k -> hard_loop user_timeout fuel ct k = Some k' -> sinv k'.
Proof.
  induction fuel as [|f IH]; [done|]. intros ct k k' Hk Htmp Hs. simpl.
  destruct (row (kt k) THard) as [|t rest] eqn:Hr; [by intros [= <-]|]. case_match; [|by intros [= <-]].
  fold (turn user_timeout t k). apply IH.
  - by apply (kwf_turn user_timeout Huser Huser_kwf k t rest).
  - by apply (turn_tmp user_timeout Huser k t rest).
  - by apply (sinv_turn t k rest).
Qed.
Lemma waiters_tick_increase k n :
  kwf k -> tlist (rt_sched_tick_increase (ks k)) (LSusp (OSem n)) = sem_waiters k n.
Proof.
  intros Hk. unfold rt_sched_tick_increase. destruct (rt_thread_self (ks k)) as [c|]; [|done].
  set (s1 := upd_thread c _ (ks k)). assert (Hs1 : swf s1) by (apply swf_frame; [done|apply Hk]).
  case_match; [done|]. unfold rt_sched_unlock_n_resched. case_match; [|done].
  rewrite tlist_schedule; [done|by apply yield_swf|done].
Qed.
Lemma kinv_tick fuel k k' : kinv k -> rt_tick_increase user_timeout fuel k = Some k' -> kinv k'.
Proof.
  intros Hk Ht. destruct (kwf_tick_increase user_timeout Huser Huser_kwf fuel k k' (ki_wf _ Hk) (ki_tmp _ Hk) Ht) as [H1 H2].
  unfold rt_tick_increase, rt_timer_check in Ht. split; [done| |done|].
  - refine (minv_hard_loop fuel _ _ _ _ Ht). exact (ki_m _ Hk).
  - set (k1 := on_ks _ _) in Ht.
    assert (Hk1 : kwf k1).
    { apply (kwf_ks (on_kt (with_tick (u32 (rt_tick (kt k) + 1))) k)); [by apply kwf_with_tick, Hk|apply tick_increase_swf, Hk|].
      intros t. apply view_tick_increase, Hk. }
    refine (sinv_hard_loop fuel _ _ _ _ _ _ Ht).
    + by apply kwf_clear_tmp; [|apply (ki_tmp _ Hk)].
    + unfold tmp_clear, row. simpl. by rewrite qget_set_eq.
    + apply (sinv_quiet k); [apply (ki_sem _ Hk)|done|]. intros n Hn. unfold sem_waiters, susp_list.
      cbn [ks on_kt with_kt k1 on_ks with_ks]. rewrite waiters_tick_increase; [exact Hn|apply Hk].
Qed.

Lemma step_kinv s s' : kinv (kern s) -> step s s' -> kinv (kern s').
Proof.
  intros Hk Hst. destruct Hst as [s t c Hs Hp Hc|s t p Hs Hp|s t p Hs Hp|s fuel k Ht|s c Hi].
  - pose proof (kinv_call c (kern s) Hk Hc) as H. by destruct (run_call c (kern s)).
  - by apply kinv_schedule.
  - pose proof (kinv_resume t p (kern s) Hk) as H. by destruct (resume t p (kern s)).
  - by eapply kinv_tick.
  - by apply kinv_isr.
Qed.
End steps.

(** ** Properties *)

(** The timeout functions the transition system runs. *)
Record timeouts_ok (user_timeout : Z -> Z -> kstate -> kstate) : Prop := {
  to_kt : forall f p k, kt (user_timeout f p k) = kt k;
  to_kwf : forall f p k, kwf k -> kwf (user_timeout f p k);
  to_minv : forall f p k, minv k -> minv (user_timeout f p k);
  to_sinv : forall f p k, kwf k -> sinv k -> sinv (user_timeout f p k);
}.
Lemma reachable_kinv user_timeout s0 s :
  timeouts_ok user_timeout -> kinv (kern s0) -> reachable user_timeout s0 s -> kinv (kern s).
Proof.
  intros [H1 H2 H3 H4] Hk. induction 1 as [|s s' Hr IH Hst]; [done|]. by apply (step_kinv user_timeout H1 H2 H3 H4 s).
Qed.

Definition no_timeouts : Z -> Z -> kstate -> kstate := fun _ _ k => k.
Lemma no_timeouts_ok : timeouts_ok no_timeouts.
Proof. by split. Qed.

(** HIGH takes the empty semaphore and gives up the processor, LOW runs. *)
Definition sys0 : system := System booted ∅.
Definition sys1 : system := enter HIGH (run_call (CSemTake 1 3 RT_UNINTERRUPTIBLE) (kern sys0)) sys0.
Definition sys2 : system := System (kschedule (kern sys1)) (<[HIGH := AtPc (PcSemTake 1)]> (places sys1)).
Lemma sys2_reachable : reachable no_timeouts sys0 sys2.
Proof.
  apply (ReachStep no_timeouts sys0 sys1 sys2); [apply (ReachStep no_timeouts sys0 sys0 sys1)|].
  - apply ReachInit.
  - refine (StepCall no_timeouts sys0 HIGH (CSemTake 1 3 RT_UNINTERRUPTIBLE) _ _ I); vm_compute; reflexivity.
  - refine (StepSched no_timeouts sys1 HIGH (PcSemTake 1) _ _); vm_compute; reflexivity.
Qed.



