(* ===== verification/BoxSystem.v ===== *)
(** * Mailboxes and message queues in the transition system

    In every reachable state the mailboxes are well formed and the slots of each
    message queue are its free slots, its queued messages and the slots that the
    sends and receives under way hold. *)
From S2P Require Import Prelude Ring Queue Object Sched TimerCore Kernel Sem Timer IpcInv SemTake MutexOps EventOps.
From S2P Require Import MailboxOps MbFacts MqOps MqFacts ThreadOps BoxFrame BoxInv Demo MbProps MqProps System.

(** ** Calls *)
Lemma boxes_returned X (r : kstate * Z) k : boxes r.1 = boxes k -> boxes_ok X k -> outcome_boxes X (returned r).
Proof. destruct r as [k' rc]. intros H Hk. by apply (outcome_boxes_same X _ k). Qed.
Lemma boxes_ok_ks X k f : boxes_ok X k -> boxes_ok X (on_ks f k).
Proof. done. Qed.

(** The labels of the calls that do not use a message queue name no slot. *)
Ltac slots_auto :=
  cbn zeta; repeat match goal with |- outcome_slots (match ?x with _ => _ end) _ = _ => destruct x end; reflexivity.

Lemma slots_sem_take n timeout sf k m : outcome_slots (_rt_sem_take n timeout sf k) m = [].
Proof. unfold _rt_sem_take. slots_auto. Qed.
Lemma slots_sem_take_after t k m : outcome_slots (sem_take_after t k) m = [].
Proof. unfold sem_take_after. slots_auto. Qed.
Lemma slots_sem_release n k m : outcome_slots (rt_sem_release n k) m = [].
Proof. unfold rt_sem_release. slots_auto. Qed.
Lemma slots_sem_control n cmd arg k m : outcome_slots (rt_sem_control n cmd arg k) m = [].
Proof. unfold rt_sem_control. slots_auto. Qed.
Lemma slots_mutex_take n timeout sf k m : outcome_slots (_rt_mutex_take n timeout sf k) m = [].
Proof. unfold _rt_mutex_take. slots_auto. Qed.
Lemma slots_mutex_take_after t n k m : outcome_slots (mutex_take_after t n k) m = [].
Proof. unfold mutex_take_after. slots_auto. Qed.
Lemma slots_mutex_release n k m : outcome_slots (rt_mutex_release n k) m = [].
Proof. unfold rt_mutex_release. slots_auto. Qed.
Lemma slots_mutex_setprioceiling n p k m : outcome_slots (rt_mutex_setprioceiling n p k) m = [].
Proof. unfold rt_mutex_setprioceiling. slots_auto. Qed.
Lemma slots_event_send e set k m : outcome_slots (rt_event_send e set k) m = [].
Proof. unfold rt_event_send. slots_auto. Qed.
Lemma slots_event_recv e set opt timeout sf k m : outcome_slots (_rt_event_recv e set opt timeout sf k) m = [].
Proof. unfold _rt_event_recv. slots_auto. Qed.
Lemma slots_event_recv_after t k m : outcome_slots (event_recv_after t k) m = [].
Proof. unfold event_recv_after. slots_auto. Qed.
Lemma slots_event_control e cmd arg k m : outcome_slots (rt_event_control e cmd arg k) m = [].
Proof. unfold rt_event_control. slots_auto. Qed.
Lemma slots_thread_sleep tick k m : outcome_slots (_thread_sleep tick k) m = [].
Proof. unfold _thread_sleep. slots_auto. Qed.
Lemma slots_delay_until tick inc k m : outcome_slots (rt_thread_delay_until tick inc k) m = [].
Proof. unfold rt_thread_delay_until. slots_auto. Qed.
Lemma slots_thread_exit k m : outcome_slots (_thread_exit k) m = [].
Proof. unfold _thread_exit. slots_auto. Qed.
Lemma slots_thread_detach t k m : outcome_slots (_thread_detach t k) m = [].
Proof. unfold _thread_detach. slots_auto. Qed.
Lemma slots_set_priority t p k m : outcome_slots (rt_thread_control t RT_THREAD_CTRL_CHANGE_PRIORITY p k) m = [].
Proof. done. Qed.

(** The lemma of an operation of a mailbox or a message queue. *)
Ltac box_lemma :=
  lazymatch goal with
  | |- outcome_boxes _ (_rt_mb_send_wait _ _ _ _ _) => by apply boxes_mb_send_wait
  | |- outcome_boxes _ (rt_mb_urgent _ _ _) => by apply boxes_mb_urgent
  | |- outcome_boxes _ (_rt_mb_recv _ _ _ _) => by apply boxes_mb_recv
  | |- outcome_boxes _ (rt_mb_control _ _ _ _) => by apply boxes_mb_control
  | |- outcome_boxes _ (rt_mb_delete _ _) => by apply boxes_mb_delete
  | |- outcome_boxes _ (mb_send_after _ _ _ _ _ _ _) => by apply boxes_mb_send_after
  | |- outcome_boxes _ (mb_recv_after _ _ _ _ _ _) => by apply boxes_mb_recv_after
  | |- outcome_boxes _ (_rt_mq_send_wait _ _ _ _ _) => by apply boxes_mq_send_wait
  | |- outcome_boxes _ (rt_mq_urgent _ _ _) => by apply boxes_mq_urgent
  | |- outcome_boxes _ (_rt_mq_recv _ _ _ _ _) => by apply boxes_mq_recv
  | |- outcome_boxes _ (rt_mq_control _ _ _ _) => by apply boxes_mq_control
  | |- outcome_boxes _ (rt_mq_delete _ _) => by apply boxes_mq_delete
  | |- outcome_boxes _ (mq_send_after _ _ _ _ _ _ _) => by apply boxes_mq_send_after
  | |- outcome_boxes _ (mq_recv_after _ _ _ _ _ _ _) => by apply boxes_mq_recv_after
  | |- outcome_boxes _ (mq_send_link _ _ _ _) => by apply boxes_mq_send_link
  | |- outcome_boxes _ (mq_urgent_link _ _ _ _) => by apply boxes_mq_urgent_link
  | |- outcome_boxes _ (mq_recv_free _ _ _ _) => by apply boxes_mq_recv_free
  end.

Section calls.
Context (X : nat -> list nat).

Lemma boxes_run_call c k : boxes_ok X k -> outcome_boxes X (run_call c k).
Proof.
  intros Hk. destruct c; cbn [run_call]; try box_lemma.
  all: try (apply (boxes_returned X _ k); [by autorewrite with boxes|exact Hk]).
  all: try (apply (outcome_boxes_same X _ k); [by autorewrite with boxes| |exact Hk]; intros m';
    eauto using slots_sem_take, slots_sem_release, slots_sem_control, slots_mutex_take, slots_mutex_release,
      slots_mutex_setprioceiling, slots_event_send, slots_event_recv, slots_event_control, slots_thread_sleep,
      slots_delay_until, slots_thread_exit, slots_thread_detach; done).
  - apply (outcome_boxes_same X _ k); [apply boxes_mutex_before_delete_detach|done|done].
  - apply (outcome_boxes_same X _ k); [apply boxes_mutex_before_delete_detach|done|done].
  - apply (outcome_boxes_same X _ k); [by destruct (self k)| |done]. by destruct (self k).
  - apply (outcome_boxes_same X _ k); [by destruct (rt_timer_stop _ _)| |done]. by destruct (rt_timer_stop _ _).
Qed.

(** A thread goes on; the slot its label names is in flight. *)
Lemma boxes_resume t p k :
  boxes_ok (fun m => pc_slots p m ++ X m) k -> outcome_boxes X (resume t p k).
Proof.
  intros Hk. destruct p; cbn [resume]; try (change (boxes_ok X k) in Hk); try box_lemma.
  all: apply (outcome_boxes_same X _ k); [|intros m'|exact Hk].
  all: try (by autorewrite with boxes); try done.
  all: eauto using slots_sem_take_after, slots_mutex_take_after, slots_event_recv_after.
Qed.
End calls.

(** Interrupt handlers: the copy of a message is not interrupted by threads. *)
Lemma slots_after_copy t p k m :
  match p with PcMqLink _ _ _ | PcMqUrgent _ _ _ | PcMqFree _ _ _ => True | _ => False end ->
  outcome_slots (resume t p k) m = [].
Proof. destruct p; try done; intros _; cbn [resume]; unfold mq_send_link, mq_urgent_link, mq_recv_free, mq_sent; slots_auto. Qed.
Lemma isr_enable c k k' p :
  isr_call c = true -> run_call c k = Enable k' p ->
  match p with PcMqLink _ _ _ | PcMqUrgent _ _ _ | PcMqFree _ _ _ => True | _ => False end.
Proof.
  destruct c; try done; intros _; cbn [run_call];
    unfold _rt_sem_take, rt_sem_release, rt_event_send, _rt_mb_send_wait, mb_send_loop, mb_send_put, rt_mb_urgent, _rt_mb_recv,
      mb_recv_loop, mb_recv_get, _rt_mq_send_wait, mq_send_loop, rt_mq_urgent, _rt_mq_recv, mq_recv_loop, mq_recv_take, returned;
    cbn zeta; repeat match goal with |- match ?x with _ => _ end = _ -> _ => destruct x end; intros [=]; by subst.
Qed.
Lemma slots_isr_resched c k k' p m : isr_call c = true -> run_call c k = Resched k' p -> pc_slots p m = [].
Proof.
  destruct c; try done; intros _; cbn [run_call];
    unfold _rt_sem_take, rt_sem_release, rt_event_send, _rt_mb_send_wait, mb_send_loop, mb_send_put, rt_mb_urgent, _rt_mb_recv,
      mb_recv_loop, mb_recv_get, _rt_mq_send_wait, mq_send_loop, rt_mq_urgent, _rt_mq_recv, mq_recv_loop, mq_recv_take, returned;
    cbn zeta; repeat match goal with |- match ?x with _ => _ end = _ -> _ => destruct x end; intros [=]; by subst.
Qed.
Lemma boxes_isr X c k : boxes_ok X k -> isr_call c = true -> boxes_ok X (run_isr (run_call c k)).
Proof.
  intros Hk Hi. pose proof (boxes_run_call X c k Hk) as H. destruct (run_call c k) as [k1 rc out|k1 p|k1 p] eqn:E.
  - exact H.
  - eapply boxes_ok_perm; [|exact H]. intros m. cbn. by rewrite (slots_isr_resched c k k1 p m Hi E).
  - pose proof (isr_enable c k k1 p Hi E) as Hp. cbn [run_isr].
    apply (boxes_ok_same _ (outcome_state (resume 0 p k1))); [apply boxes_run_atomic|].
    eapply boxes_ok_perm; [|apply (boxes_resume X 0 p k1 H)]. intros m. cbn. by rewrite slots_after_copy.
Qed.

(** ** The slots in flight *)
Definition place_slots (pl : place) (m : nat) : list nat :=
  match pl with User => [] | AtSched p | AtPc p => pc_slots p m end.
Definition in_flight (ps : gmap tid place) (m : nat) : list nat :=
  flat_map (fun x => place_slots x.2 m) (map_to_list ps).

Lemma in_flight_insert t pl ps m : in_flight (<[t := pl]> ps) m ≡ₚ place_slots pl m ++ in_flight (delete t ps) m.
Proof.
  unfold in_flight. rewrite <- insert_delete_eq.
  rewrite (Permutation_flat_map _ (map_to_list_insert (delete t ps) t pl (lookup_delete_eq ps t))). done.
Qed.
Lemma in_flight_delete s t m : in_flight (places s) m ≡ₚ place_slots (place_of s t) m ++ in_flight (delete t (places s)) m.
Proof.
  unfold place_of. destruct (places s !! t) as [pl|] eqn:E; simpl.
  - rewrite <- in_flight_insert. by rewrite insert_id.
  - by rewrite delete_id.
Qed.
Lemma boxes_enter t o s : outcome_boxes (in_flight (delete t (places s))) o ->
  boxes_ok (in_flight (places (enter t o s))) (kern (enter t o s)).
Proof.
  intros H. destruct o as [k rc out|k p|k p]; (eapply boxes_ok_perm; [|exact H]); intros m; cbn;
    symmetry; apply in_flight_insert.
Qed.

Section steps.
Context (user_timeout : Z -> Z -> kstate -> kstate).
Context (Huser : forall X f p k, boxes_ok X k -> boxes_ok X (user_timeout f p k)).

Lemma boxes_hard_loop X fuel : forall ct k k',
  boxes_ok X k -> hard_loop user_timeout fuel ct k = Some k' -> boxes_ok X k'.
Proof.
  induction fuel as [|f IH]; [done|]. intros ct k k' Hk. simpl.
  destruct (row (kt k) THard) as [|t rest]; [by intros [= <-]|]. case_match; [|by intros [= <-]]. apply IH.
  set (k1 := on_kt (timer_pop THardTmp t) k). change (boxes_ok X (call_timeout user_timeout t k1)).
  assert (Hk1 : boxes_ok X k1) by exact Hk. unfold call_timeout.
  destruct (timeout_func (get_timer (kt k1) t)); [by destruct t|by apply Huser].
Qed.
Lemma boxes_step_ok s s' :
  boxes_ok (in_flight (places s)) (kern s) -> step user_timeout s s' -> boxes_ok (in_flight (places s')) (kern s').
Proof.
  intros Hk Hst. destruct Hst as [s t c Hs Hp Hc|s t p Hs Hp|s t p Hs Hp|s fuel k Ht|s c Hi].
  - apply boxes_enter, boxes_run_call. eapply boxes_ok_perm; [|exact Hk]. intros m.
    rewrite (in_flight_delete s t m), Hp. done.
  - eapply boxes_ok_perm; [|exact Hk]. intros m. cbn [places]. rewrite (in_flight_delete s t m), in_flight_insert, Hp. done.
  - apply boxes_enter, boxes_resume. eapply boxes_ok_perm; [|exact Hk]. intros m.
    rewrite (in_flight_delete s t m), Hp. done.
  - unfold rt_tick_increase, rt_timer_check in Ht. by eapply boxes_hard_loop in Ht.
  - by apply boxes_isr.
Qed.
End steps.

(** C8: in every state that threads, interrupt handlers and ticks can reach, each
    mailbox is a well-formed circular buffer, and the slots of each message
    queue are divided into its free list, its queued messages and the slots held
    by the sends and receives that are copying a message: no slot is lost,
    shared or on two lists, whatever the interleaving. *)
Theorem boxes_invariant (user_timeout : Z -> Z -> kstate -> kstate) (s0 s : system)
    (Hto : forall X f p k, boxes_ok X k -> boxes_ok X (user_timeout f p k))
    (Hk : boxes_ok (in_flight (places s0)) (kern s0)) (Hr : reachable user_timeout s0 s) :
  (forall m mb, mbs (kern s) !! m = Some mb -> mb_ok mb) /\
  (forall m q, mqs (kern s) !! m = Some q ->
     exists F Q, mq_ok q F Q (in_flight (places s) m) /\
       Z.of_nat (length F) + mq_entry q + Z.of_nat (length (in_flight (places s) m)) = max_msgs q).
Proof.
  assert (H : boxes_ok (in_flight (places s)) (kern s)).
  { induction Hr as [|s s' Hr IH Hst]; [done|]. by apply (boxes_step_ok user_timeout Hto s). }
  destruct H as [H1 H2]. split; [exact H1|]. intros m q Hq. destruct (H2 m q Hq) as (F & Q & Hok). exists F, Q.
  split; [done|]. rewrite (qo_entry _ _ _ _ Hok). apply (mq_bound _ _ _ _ (qo_lists _ _ _ _ Hok)).
Qed.
(** HIGH is copying a message into slot 2. *)
Definition sys_sending : system := enter HIGH (run_call (CMqSend 0 [7; 8] 0 RT_UNINTERRUPTIBLE) (kern sys0)) sys0.
Lemma sys_sending_reachable : reachable no_timeouts sys0 sys_sending.
Proof.
  apply (ReachStep no_timeouts sys0 sys0 sys_sending); [apply ReachInit|].
  refine (StepCall no_timeouts sys0 HIGH (CMqSend 0 [7; 8] 0 RT_UNINTERRUPTIBLE) _ _ I); vm_compute; reflexivity.
Qed.
Lemma booted_boxes : boxes_ok (in_flight (places sys0)) (kern sys0).
Proof.
  assert (Eb : mbs booted = {[0%nat := mb_empty]}) by (vm_compute; reflexivity).
  assert (Eq : mqs booted = {[0%nat := mq_booted]}) by (vm_compute; reflexivity).
  split; intros m x; cbn [kern sys0]; [rewrite Eb|rewrite Eq]; intros [<- <-]%lookup_singleton_Some.
  - exact mb_empty_ok.
  - eexists _, _. exact mq_booted_ok.
Qed.
Lemma boxes_invariant_witness :
  in_flight (places sys_sending) 0 = [2%nat] /\
  exists q F Q, mqs (kern sys_sending) !! 0%nat = Some q /\ mq_ok q F Q [2%nat].
Proof.
  assert (E : in_flight (places sys_sending) 0 = [2%nat]) by (vm_compute; reflexivity). split; [exact E|].
  destruct (boxes_invariant no_timeouts sys0 sys_sending (fun X f p k H => H) booted_boxes sys_sending_reachable) as [_ H].
  destruct (mqs (kern sys_sending) !! 0%nat) as [q|] eqn:Hq; [|vm_compute in Hq; discriminate].
  destruct (H 0%nat q Hq) as (F & Q & Hok & _). rewrite E in Hok. exists q, F, Q. split; [reflexivity|exact Hok].
Defined.
